(** * libsiae: card session layer, DER encoder and parser, PKCS#7 signer,
      base64 and quoted-printable codecs

    A shallow embedding of the C and C++ sources of the library
    (scardhal.c, libsiaecard.c, asn1/*.cpp, pkcs7.cpp, base64.h, smime.cpp)
    and the properties of the specification that were checked against it.

    Conventions.
    - A byte is a [Z] in [0, 256); a buffer is a [list Z].  A pointer into a
      buffer is a [Z] offset.
    - [unsigned long] is 32 bits wide (the Win32 build); the wrap-around is
      written out with [wrap32] where the code can reach it.  Where the
      width of a type changes what the code does with ordinary inputs, it
      is an argument of the definition: [DWORD_bits] for the counters of
      libsiaecard.c, which pass through an [int], and [ptr_bits] for the
      pointer sums of [der_parse], which is given a second time over
      addresses ([der_parse_at]).
    - The PC/SC driver, the clock, the hash primitives and the file system
      are outside the library; they appear as explicit arguments or as
      scripted answers in the state (see [Hal]). *)

From Stdlib Require Import ZArith List Lia Bool String Ascii.
From stdpp Require Import base list.
Import ListNotations.
Local Open Scope Z_scope.

(* ================================================================== *)
(** * Part I: the embedding                                            *)
(* ================================================================== *)

(** ** Machine integers and buffers *)

Definition wrap8 (x : Z) : Z := x mod 256.
Definition wrap16 (x : Z) : Z := x mod 65536.
Definition wrap32 (x : Z) : Z := x mod 4294967296.

Definition is_byte (b : Z) : Prop := 0 <= b < 256.

(** The characters of a literal, as bytes. *)
Definition bytes_of_string (s : string) : list Z :=
  map (fun c => Z.of_N (N_of_ascii c)) (list_ascii_of_string s).

(** [p[i]] for a buffer [p]; a read past the end (undefined in C) shows 0. *)
Definition byte_at (p : list Z) (i : Z) : Z :=
  if i <? 0 then 0 else nth (Z.to_nat i) p 0.

(** [memcpy(dst + off, src, n)], for a [dst] that is long enough. *)
Definition memcpy_at (dst : list Z) (off : Z) (src : list Z) (n : Z) : list Z :=
  let k := Z.to_nat n in
  let o := Z.to_nat off in
  firstn o dst ++ firstn k src ++ skipn (o + k)%nat dst.

(** The addresses [p, p+1, ...] paired with the bytes stored there. *)
Fixpoint writes_at (p : Z) (bs : list Z) : list (Z * Z) :=
  match bs with
  | [] => []
  | b :: bs' => (p, b) :: writes_at (p + 1) bs'
  end.

(* ------------------------------------------------------------------ *)
(** ** smime.cpp: the quoted-printable encoder                         *)
(* ------------------------------------------------------------------ *)

Module QuotedPrintable.

(** One digit of [%02X]. *)
Definition hex_upper (n : Z) : Z := if n <? 10 then 48 + n else 55 + n.

(** [sprintf(szTmp, "=%02X", 0x000000FF & c)] *)
Definition sprintf_eq_02X (c : Z) : list Z :=
  let x := Z.land 255 c in
  [61; hex_upper (x / 16); hex_upper (x mod 16)].

(** The test of the second branch:
    [c < 32 || c > 127 || (c>=39 && c<=41) || (c>=43 && c<=47)
     || c == 58 || c == 61 || c == 63]. *)
Definition must_quote (c : Z) : bool :=
  (c <? 32) || (127 <? c) || ((39 <=? c) && (c <=? 41))
  || ((43 <=? c) && (c <=? 47)) || (c =? 58) || (c =? 61) || (c =? 63).

(** The body of the [for] loop, from index [i] on; the result is what the
    remaining iterations append to [OutString]. *)
Fixpoint qp_loop (rest : list Z) (i dwInStringLen dwLineCounter : Z)
  : list Z :=
  match rest with
  | [] => []
  | c :: rest' =>
      let '(piece, counter) :=
        if (c =? 32) && (i <? dwInStringLen - 1) && (70 <=? dwLineCounter)
        then (bytes_of_string "=20", dwLineCounter + 3)
        else if must_quote c
        then (sprintf_eq_02X c, dwLineCounter + 3)
        else ([c], dwLineCounter + 1) in
      if 72 <=? counter
      then piece ++ [61; 13; 10] ++ qp_loop rest' (i + 1) dwInStringLen 0
      else piece ++ qp_loop rest' (i + 1) dwInStringLen counter
  end.

(** [StringToQuotedPrintable(InString, dwInStringLen, OutString)]: the
    value left in [OutString] (the function itself always returns 0). *)
Definition StringToQuotedPrintable (InString : list Z) : list Z :=
  qp_loop InString 0 (Z.of_nat (length InString)) 0.

(** The inputs and outputs of the scenarios. *)
Definition eighty_A : list Z := repeat 65 80.
Definition soft_break : list Z := [61; 13; 10].

(** A byte that the encoder can put out: CR, LF, or a byte from 32 to
    127.  The last of them, DEL, is no printable character: the code
    quotes a byte when it is above 127, and copies 127 as it is. *)
Definition output_byte (b : Z) : Prop := b = 13 \/ b = 10 \/ 32 <= b <= 127.

(** The longest run of bytes without a line feed in [out], the run
    under way having [k] bytes. *)
Fixpoint max_run (out : list Z) (k : Z) : Z :=
  match out with
  | [] => k
  | c :: r => if c =? 10 then Z.max k (max_run r 0) else max_run r (k + 1)
  end.

End QuotedPrintable.

(* ------------------------------------------------------------------ *)
(** ** pkcs7.cpp: the DER micro-parser                                 *)
(* ------------------------------------------------------------------ *)

Module Der.

(** [_DER_ITEM]; the pointers [value] and [fvalue] are offsets from
    [der_begin]. *)
Record DER_ITEM : Type := mkItem {
  tag : Z;
  value : Z;
  len : Z;
  fvalue : Z;
  flen : Z
}.

(** [*der] for the [const unsigned char *der]: a value in 0..255. *)
Definition peek (der_begin : list Z) (der : Z) : Z :=
  wrap8 (byte_at der_begin der).

(** The cursor of the length decoder: [ln], [der], [flen]. *)
Definition cursor : Type := (Z * Z * Z)%type.

(** [TEST_UNEXP_END(1); ln = (ln<<8) | *der++; ++flen;]
    [None] is the [return v] of the macro. *)
Definition read_length_byte (der_begin : list Z) (der_end : Z) (c : cursor)
  : option cursor :=
  let '(ln, der, flen) := c in
  if der_end <? der + 1 then None
  else Some (Z.lor (Z.shiftl ln 8) (peek der_begin der), der + 1, flen + 1).

(** [ln = 0; switch(b) { case 4: ... case 3: ... case 2: ... case 1: ... }]
    with its fall-through.  The first statement of [case 4] is the plain
    assignment [ln = *der++], which is [(ln<<8) | *der++] at [ln = 0].
    A [b] outside 1..4 matches no case and leaves [ln = 0]. *)
Definition long_length (der_begin : list Z) (der_end : Z) (b der flen : Z)
  : option cursor :=
  let step := read_length_byte der_begin der_end in
  let c0 : cursor := (0, der, flen) in
  if b =? 4 then
    match step c0 with Some c1 =>
    match step c1 with Some c2 =>
    match step c2 with Some c3 => step c3
    | None => None end | None => None end | None => None end
  else if b =? 3 then
    match step c0 with Some c1 =>
    match step c1 with Some c2 => step c2
    | None => None end | None => None end
  else if b =? 2 then
    match step c0 with Some c1 => step c1 | None => None end
  else if b =? 1 then step c0
  else Some c0.

(** The [while(der < der_end)] loop.  Every iteration moves [der] forward
    by two bytes at least, so [fuel] above the slice length is never used
    up ([None] marks an exhausted [fuel], see [der_parse_loop_total]).
    The pointers are offsets into the slice, and [der + ln] is the sum of
    two numbers: this is the loop of a build in which that sum cannot pass
    the top of the address space.  [der_parse_loop_at] below is the loop
    with pointers of a given width, and [der_parse_at_no_wrap] tells when
    the two agree. *)
Fixpoint der_parse_loop (fuel : nat) (der_begin : list Z) (der_end : Z)
    (der : Z) (v : list DER_ITEM) : option (list DER_ITEM) :=
  match fuel with
  | O => None
  | S fuel' =>
      if der <? der_end then
        let fder := der in
        let flen := 2 in
        let tag := peek der_begin der in
        let der := der + 1 in
        let tg := Z.land tag 31 in
        if tg =? 31 then Some v
        else if der_end <? der + 1 then Some v
        else
          let b := peek der_begin der in
          let der := der + 1 in
          if b =? 128 then Some v
          else
            let decoded :=
              if negb (Z.land b 128 =? 0) then
                (* b &= 0x7f; if(b>4) v;   <- an expression statement *)
                long_length der_begin der_end (Z.land b 127) der flen
              else Some (b, der, flen) in
            match decoded with
            | None => Some v
            | Some (ln, der, flen) =>
                if der_end <? der + ln then Some v
                else
                  let item := mkItem tag der ln fder (flen + ln) in
                  der_parse_loop fuel' der_begin der_end (der + ln)
                                 (v ++ [item])
            end
      else Some v
  end.

(** [der_parse(der_begin, der_len)], the slice given as a list. *)
Definition der_parse (slice : list Z) : list DER_ITEM :=
  match der_parse_loop (S (length slice)) slice (Z.of_nat (length slice)) 0 []
  with
  | Some v => v
  | None => []
  end.

(** The bytes [p[0 .. n)] of a slice at offset [p]. *)
Definition sub_slice (slice : list Z) (p n : Z) : list Z :=
  firstn (Z.to_nat n) (skipn (Z.to_nat p) slice).

(** What is left to read at [der], as a measure for the loop. *)
Definition remaining (der_end der : Z) : nat := Z.to_nat (der_end - der).

(** *** The parser on addresses

    [der_parse_loop] adds offsets as numbers, which is what the code does
    as long as no sum of a pointer and a length passes the top of the
    address space.  The pointers of the code have [ptr_bits] bits (32 in
    the Win32 build that the file provides for, 64 in a 64-bit Linux
    build), [size_t] has as many, and a sum that passes 2^[ptr_bits]
    wraps: [der + ln] then compares below [der_end] for a length that
    reaches far past it.  What follows is the same text over addresses,
    with that wrap; [mem] gives the byte at each address, and the items
    hold addresses. *)
Section Addresses.

Variable ptr_bits : Z.
Variable mem : Z -> Z.

(** A pointer, or a [size_t], after an addition. *)
Definition ptr (a : Z) : Z := a mod 2 ^ ptr_bits.

Definition peek_at (der : Z) : Z := wrap8 (mem der).

Definition read_length_byte_at (der_end : Z) (c : cursor) : option cursor :=
  let '(ln, der, flen) := c in
  if der_end <? ptr (der + 1) then None
  else Some (Z.lor (Z.shiftl ln 8) (peek_at der), ptr (der + 1), flen + 1).

Definition long_length_at (der_end b der flen : Z) : option cursor :=
  let step := read_length_byte_at der_end in
  let c0 : cursor := (0, der, flen) in
  if b =? 4 then
    match step c0 with Some c1 =>
    match step c1 with Some c2 =>
    match step c2 with Some c3 => step c3
    | None => None end | None => None end | None => None end
  else if b =? 3 then
    match step c0 with Some c1 =>
    match step c1 with Some c2 => step c2
    | None => None end | None => None end
  else if b =? 2 then
    match step c0 with Some c1 => step c1 | None => None end
  else if b =? 1 then step c0
  else Some c0.

(** The loop; [None] when it has not ended within [fuel] rounds.  Where it
    ends by its condition, [der] is [der_end] and the [assert] after it
    holds, since no item is taken that ends past [der_end]. *)
Fixpoint der_parse_loop_at (fuel : nat) (der_end der : Z)
    (v : list DER_ITEM) : option (list DER_ITEM) :=
  match fuel with
  | O => None
  | S fuel' =>
      if der <? der_end then
        let fder := der in
        let flen := 2 in
        let tag := peek_at der in
        let der := ptr (der + 1) in
        let tg := Z.land tag 31 in
        if tg =? 31 then Some v
        else if der_end <? ptr (der + 1) then Some v
        else
          let b := peek_at der in
          let der := ptr (der + 1) in
          if b =? 128 then Some v
          else
            let decoded :=
              if negb (Z.land b 128 =? 0) then
                long_length_at der_end (Z.land b 127) der flen
              else Some (b, der, flen) in
            match decoded with
            | None => Some v
            | Some (ln, der, flen) =>
                if der_end <? ptr (der + ln) then Some v
                else
                  let item := mkItem tag der ln fder (ptr (flen + ln)) in
                  der_parse_loop_at fuel' der_end (ptr (der + ln))
                                    (v ++ [item])
            end
      else Some v
  end.

(** [der_parse(der_begin, der_len)] *)
Definition der_parse_at (fuel : nat) (der_begin der_len : Z)
  : option (list DER_ITEM) :=
  der_parse_loop_at fuel (ptr (der_begin + der_len)) der_begin [].

(** The [n] bytes at the address [p]. *)
Definition bytes_at (p n : Z) : list Z :=
  map (fun i => mem (p + Z.of_nat i)) (seq 0 (Z.to_nat n)).

End Addresses.

(** An item of a slice, given by offsets, as the item of that slice at the
    address [base]. *)
Definition at_address (base : Z) (it : DER_ITEM) : DER_ITEM :=
  mkItem (tag it) (base + value it) (len it) (base + fvalue it) (flen it).

Definition at_cursor (base : Z) (c : cursor) : cursor :=
  let '(ln, der, flen) := c in (ln, base + der, flen).

(** No pointer sum of [der_parse] on the [der_len] bytes at [der_begin]
    wraps: the slice ends more than 2^32 + 6 bytes (the most that a
    length of 32 bits and a header reach) below the top of the address
    space.  Every buffer of a 64-bit process is such a slice; none of a
    32-bit process is. *)
Definition no_wrap (ptr_bits der_begin der_len : Z) : Prop :=
  0 <= der_begin /\ 0 <= der_len
  /\ der_begin + der_len + 4294967302 <= 2 ^ ptr_bits.

(** A memory that holds [bs] at the address [p] and zeros elsewhere. *)
Definition memory_with (p : Z) (bs : list Z) : Z -> Z :=
  fun a => if a <? p then 0 else nth (Z.to_nat (a - p)) bs 0.

(** The six bytes 04 84 FF FF FF FF, an OCTET STRING that claims 2^32 - 1
    bytes, at the address 0x1000. *)
Definition overlong : Z -> Z :=
  memory_with 0x1000 [0x04; 0x84; 0xFF; 0xFF; 0xFF; 0xFF].

(** *** Vocabulary of the properties *)

(** Items that follow one another from the offset [start] on and end at
    or before [der_end]: an item begins where the one before it ends, its
    header has 2 to 6 bytes, and its value is what follows the header. *)
Fixpoint tiles (start der_end : Z) (v : list DER_ITEM) : Prop :=
  match v with
  | [] => True
  | it :: v' =>
      fvalue it = start
      /\ 0 <= len it
      /\ 2 <= flen it - len it <= 6
      /\ value it = fvalue it + (flen it - len it)
      /\ fvalue it + flen it <= der_end
      /\ tiles (fvalue it + flen it) der_end v'
  end.

End Der.

(* ------------------------------------------------------------------ *)
(** ** asn1/*.cpp: the DER encoder                                     *)
(* ------------------------------------------------------------------ *)

Module Asn1.

(** *** Asn1Type.h *)

Definition TC_UNIVERSAL : Z := 0x00.
Definition TC_APPLICATION : Z := 0x40.
Definition TC_CONTEXT_SPECIFIC : Z := 0x80.
Definition TC_PRIVATE : Z := 0xC0.

Definition TT_PRIMITIVE : Z := 0x00.
Definition TT_CONSTRUCTED : Z := 0x20.

Definition ASN1_BOOLEAN : Z := 1.
Definition ASN1_INTEGER : Z := 2.
Definition ASN1_OCTET_STRING : Z := 4.
Definition ASN1_NULL : Z := 5.
Definition ASN1_OBJECT : Z := 6.
Definition ASN1_SEQUENCE : Z := 16.
Definition ASN1_SET : Z := 17.
Definition ASN1_UTCTIME : Z := 23.

(** *** Asn1Common.cpp

    The [Put...] functions are given by the bytes they store at [pbDest];
    the pointer they return is [pbDest] plus the number of those bytes. *)

Definition nz (x : Z) : bool := negb (x =? 0).

(** [((unsigned char)(x) & 0xFF)] *)
Definition uchar (x : Z) : Z := Z.land (wrap8 x) 255.

Definition PutDW (dwData : Z) : list Z :=
  let b1 := nz (Z.land dwData 0xFF000000) in
  let b2 := nz (Z.lor (Z.land dwData 0xFF0000) (Z.b2z b1)) in
  let b3 := nz (Z.lor (Z.land dwData 0xFF00) (Z.b2z b2)) in
  (if b1 then [uchar (Z.shiftr dwData 24)] else [])
  ++ (if b2 then [uchar (Z.shiftr dwData 16)] else [])
  ++ (if b3 then [uchar (Z.shiftr dwData 8)] else [])
  ++ [uchar dwData].

Definition DWLength (dwData : Z) : Z :=
  if nz (Z.land dwData 0xFF000000) then 4
  else if nz (Z.land dwData 0xFF0000) then 3
  else if nz (Z.land dwData 0xFF00) then 2
  else 1.

(** [bTmp = ((unsigned char)(dwData >> k) & 0x7F)] *)
Definition septet (dwData k : Z) : Z := Z.land (wrap8 (Z.shiftr dwData k)) 0x7F.

Definition PutPackedDW (dwData : Z) : list Z :=
  let t4 := septet dwData 28 in
  let b4 := nz t4 in
  let t3 := septet dwData 21 in
  let b3 := nz (Z.lor t3 (Z.b2z b4)) in
  let t2 := septet dwData 14 in
  let b2 := nz (Z.lor t2 (Z.b2z b3)) in
  let t1 := septet dwData 7 in
  let b1 := nz (Z.lor t1 (Z.b2z b2)) in
  (if b4 then [Z.lor 0x80 t4] else [])
  ++ (if b3 then [Z.lor 0x80 t3] else [])
  ++ (if b2 then [Z.lor 0x80 t2] else [])
  ++ (if b1 then [Z.lor 0x80 t1] else [])
  ++ [wrap8 (Z.land dwData 0x7F)].

Definition PackedDWLength (dwData : Z) : Z :=
  if nz (Z.land (Z.shiftr dwData 28) 0x7F) then 5
  else if nz (Z.land (Z.shiftr dwData 21) 0x7F) then 4
  else if nz (Z.land (Z.shiftr dwData 14) 0x7F) then 3
  else if nz (Z.land (Z.shiftr dwData 7) 0x7F) then 2
  else 1.

(** The test shared by [PutSignedDW] and [SignedDWLength] for the byte
    whose mask is [hi] and whose sign-extension mask is [sx]:
    [((dwData&hi) && (dwData&sx ^ sx)) || (!(dwData&sx ^ pos))]. *)
Definition signed_byte_needed (dwData hi sx pos : Z) : bool :=
  (nz (Z.land dwData hi) && nz (Z.lxor (Z.land dwData sx) sx))
  || negb (nz (Z.lxor (Z.land dwData sx) pos)).

Definition PutSignedDW (dwData : Z) : list Z :=
  let b1 := signed_byte_needed dwData 0xFF000000 0xFF800000 0x800000 in
  let b2 := signed_byte_needed dwData 0xFF0000 0xFF8000 0x8000 || b1 in
  let b3 := signed_byte_needed dwData 0xFF00 0xFF80 0x80 || b2 in
  (if b1 then [uchar (Z.shiftr dwData 24)] else [])
  ++ (if b2 then [uchar (Z.shiftr dwData 16)] else [])
  ++ (if b3 then [uchar (Z.shiftr dwData 8)] else [])
  ++ [uchar dwData].

Definition SignedDWLength (dwData : Z) : Z :=
  if signed_byte_needed dwData 0xFF000000 0xFF800000 0x800000 then 4
  else if signed_byte_needed dwData 0xFF0000 0xFF8000 0x8000 then 3
  else if signed_byte_needed dwData 0xFF00 0xFF80 0x80 then 2
  else 1.

(** *** Asn1Type.h, Asn1Type.cpp: the base class *)

(** The data members of [CAsn1Type]. *)
Record base : Type := mkBase {
  m_bClass : Z;
  m_dwTag : Z;
  m_dwEncodedDataLength : Z;
  m_bConstructed : bool;
  m_bImplicit : bool
}.

(** A node with what its [PutData] reads.  A child is held by pointer in
    the C++ code; a value of this type is the tree as [GetEncoded] finds it,
    each node with the data length it cached when it was built. *)
#[warnings="-register-all"]
Inductive CAsn1Type : Type :=
| Leaf (b : base) (m_pbData : list Z)
    (* CAsn1Integer, CAsn1OctetString, CAsn1NULL, CAsn1Object,
       CAsn1UTCTime, CAsn1RawData: PutData is one memcpy *)
| Composite (b : base) (m_rgData : list CAsn1Type)
    (* CAsn1Sequence, CAsn1Set *)
| Tagged (b : base) (m_pData : CAsn1Type).
    (* CAsn1Tagged *)

Definition fields (n : CAsn1Type) : base :=
  match n with
  | Leaf b _ => b
  | Composite b _ => b
  | Tagged b _ => b
  end.

Definition with_fields (n : CAsn1Type) (b : base) : CAsn1Type :=
  match n with
  | Leaf _ d => Leaf b d
  | Composite _ cs => Composite b cs
  | Tagged _ c => Tagged b c
  end.

Definition GetClass (n : CAsn1Type) : Z := m_bClass (fields n).
Definition GetTag (n : CAsn1Type) : Z := m_dwTag (fields n).
Definition IsConstructed (n : CAsn1Type) : bool := m_bConstructed (fields n).
Definition IsImplicit (n : CAsn1Type) : bool := m_bImplicit (fields n).

Definition SetImplicit (n : CAsn1Type) : CAsn1Type :=
  let b := fields n in
  with_fields n (mkBase (m_bClass b) (m_dwTag b) (m_dwEncodedDataLength b)
                        (m_bConstructed b) true).

(** [CAsn1Type::GetEncodedLength] on the data members. *)
Definition encoded_length_of (b : base) : Z :=
  if m_bImplicit b then m_dwEncodedDataLength b
  else
    wrap32
      ((if m_dwTag b <? 31 then 1 else PackedDWLength (m_dwTag b)) + 1
       + (if nz (Z.land (m_dwEncodedDataLength b) 0xFFFFFF80)
          then DWLength (m_dwEncodedDataLength b) else 0)
       + m_dwEncodedDataLength b).

Definition GetEncodedLength (n : CAsn1Type) : Z := encoded_length_of (fields n).

(** [*pbFirst |= x] on the first of the bytes just stored. *)
Definition or_first (x : Z) (bs : list Z) : list Z :=
  match bs with
  | [] => []
  | b0 :: r => wrap8 (Z.lor b0 x) :: r
  end.

(** [CAsn1Type::PutHeader]: the bytes stored from [pbDest] on; the
    function returns [pbDest] plus their number. *)
Definition PutHeader (b : base) : list Z :=
  let tag_bytes :=
    (if nz (Z.land (m_dwTag b) 0xFFFFFFE0) then [0x1F] else [])
    ++ PutPackedDW (m_dwTag b) in
  let first_or :=
    Z.lor (m_bClass b) (if m_bConstructed b then TT_CONSTRUCTED else TT_PRIMITIVE) in
  or_first first_or tag_bytes
  ++ (if nz (Z.land (m_dwEncodedDataLength b) 0xFFFFFF80)
      then [wrap8 (0x80 + wrap8 (DWLength (m_dwEncodedDataLength b)))] else [])
  ++ PutDW (m_dwEncodedDataLength b).

(** [CAsn1Type::GetEncoded(pbDest)] with the [PutData] of each class.
    The result is the returned flag and the stores done, in order, each as
    (address, byte).  A sequence places every child at the address the
    previous child's [GetEncodedLength] gives, as
    [pbDest += m_rgData[i]->GetEncodedLength()] does. *)
Fixpoint GetEncoded (n : CAsn1Type) (pbDest : Z) : bool * list (Z * Z) :=
  let b := fields n in
  let header := if m_bImplicit b then [] else PutHeader b in
  let pbData := pbDest + Z.of_nat (length header) in
  let '(ok, stores) :=
    match n with
    | Leaf _ m_pbData =>
        (true,
         writes_at pbData
           (firstn (Z.to_nat (m_dwEncodedDataLength b)) m_pbData))
    | Composite _ m_rgData =>
        (fix PutData (rg : list CAsn1Type) (p : Z) : bool * list (Z * Z) :=
           match rg with
           | [] => (true, [])
           | c :: rg' =>
               let '(okc, wc) := GetEncoded c p in
               if okc then
                 let '(okr, wr) := PutData rg' (p + GetEncodedLength c) in
                 (okr, wc ++ wr)
               else (false, wc)
           end) m_rgData pbData
    | Tagged _ m_pData => GetEncoded m_pData pbData
    end in
  (ok, writes_at pbDest header ++ stores).

(** The bytes a node stores, in the order it stores them. *)
Definition encoding (n : CAsn1Type) : list Z := map snd (snd (GetEncoded n 0)).

(** *** The constructors of the concrete classes *)

(** Asn1NULL.cpp *)
Definition CAsn1NULL : CAsn1Type :=
  Leaf (mkBase TC_UNIVERSAL ASN1_NULL 0 false false) [].

(** Asn1OctetString.cpp; [(pbData, cbData)] is the list of the [cbData]
    bytes at [pbData]. *)
Definition CAsn1OctetString (pbData : list Z) : CAsn1Type :=
  Leaf (mkBase TC_UNIVERSAL ASN1_OCTET_STRING (Z.of_nat (length pbData))
               false false) pbData.

(** Asn1Integer.cpp, [CAsn1Integer(int iData)] *)
Definition CAsn1Integer_int (iData : Z) : CAsn1Type :=
  let dw := wrap32 iData in
  Leaf (mkBase TC_UNIVERSAL ASN1_INTEGER (SignedDWLength dw) false false)
       (PutSignedDW dw).

(** Asn1Integer.cpp, [CAsn1Integer(pbData, cbData, bCopy)] *)
Definition CAsn1Integer_bytes (pbData : list Z) : CAsn1Type :=
  Leaf (mkBase TC_UNIVERSAL ASN1_INTEGER (Z.of_nat (length pbData))
               false false) pbData.

(** Asn1RawData.cpp.  The constructor leaves [m_bClass] and [m_dwTag]
    unset; [garbage_class] and [garbage_tag] stand for what they hold. *)
Definition CAsn1RawData (garbage_class garbage_tag : Z) (pbData : list Z)
    (bConstructed : bool) : CAsn1Type :=
  Leaf (mkBase garbage_class garbage_tag (Z.of_nat (length pbData))
               bConstructed true) pbData.

(** Asn1Sequence.cpp *)
Definition CAsn1Sequence : CAsn1Type :=
  Composite (mkBase TC_UNIVERSAL ASN1_SEQUENCE 0 true false) [].

(** Modelled from the spec: [CAsn1Set], whose Asn1Set.cpp is not among the
    sources (Asn1Set.h declares the members of [CAsn1Sequence]); "Sequences
    and sets own an ordered vector of child nodes", a set is a sequence
    with the tag [ASN1_SET]. *)
Definition CAsn1Set : CAsn1Type :=
  Composite (mkBase TC_UNIVERSAL ASN1_SET 0 true false) [].

(** [m_dwEncodedDataLength = 0; for (...) m_dwEncodedDataLength +=
    m_rgData[i]->GetEncodedLength();] *)
Definition sum_encoded_lengths (rg : list CAsn1Type) : Z :=
  fold_left (fun acc c => wrap32 (acc + GetEncodedLength c)) rg 0.

(** [CAsn1Sequence::Add] (and [CAsn1Set::Add]) *)
Definition Add (s pData : CAsn1Type) : CAsn1Type :=
  match s with
  | Composite b rg =>
      let rg' := rg ++ [pData] in
      Composite (mkBase (m_bClass b) (m_dwTag b) (sum_encoded_lengths rg')
                        (m_bConstructed b) (m_bImplicit b)) rg'
  | _ => s
  end.

(** Asn1Tagged.cpp *)
Definition CAsn1Tagged (pData : CAsn1Type) (dwTag : Z) : CAsn1Type :=
  Tagged (mkBase TC_CONTEXT_SPECIFIC dwTag (GetEncodedLength pData)
                 (if IsImplicit pData then IsConstructed pData else true)
                 false) pData.

(** Asn1UTCTime.cpp: the table [d] of the constructor, as written there. *)
Definition d : list string :=
  [ "00";"01";"02";"03";"04";"05";"06";"07";"08";"09";
    "10";"11";"12";"13";"14";"15";"16";"17";"18";"19";
    "20";"21";"22";"23";"24";"25";"26";"27";"28";"29";
    "30";"31";"32";"33";"34";"35";"36";"37";"38";"39";
    "40";"41";"42";"43";"44";"45";"46";"47";"48";"49";
    "50";"51";"52";"53";"54";"15";"56";"57";"58";"59";
    "60";"61";"62";"63";"64";"65";"66";"67";"68";"69";
    "70";"71";"72";"73";"74";"75";"76";"77";"78";"79";
    "80";"81";"82";"83";"84";"85";"86";"87";"88";"89";
    "90";"91";"92";"93";"94";"95";"96";"97";"98";"99" ]%string.

(** [memcpy(m_chData + k, d[i], 2)]: the two characters of [d[i]]. *)
Definition d_at (i : Z) : list Z :=
  firstn 2 (bytes_of_string (nth (Z.to_nat i) d EmptyString)).

(** The 13 characters [m_chData] of [CAsn1UTCTime(wYear, ..., wSecond)]. *)
Definition m_chData (wYear wMonth wDay wHour wMinute wSecond : Z) : list Z :=
  d_at (wYear mod 100)
  ++ (if wMonth mod 12 =? 0 then d_at 12 else d_at (wMonth mod 12))
  ++ (if wDay mod 31 =? 0 then d_at 31 else d_at (wDay mod 31))
  ++ d_at (wHour mod 24)
  ++ d_at (wMinute mod 60)
  ++ d_at (wSecond mod 60)
  ++ [90].

Definition CAsn1UTCTime (wYear wMonth wDay wHour wMinute wSecond : Z)
  : CAsn1Type :=
  Leaf (mkBase TC_UNIVERSAL ASN1_UTCTIME 13 false false)
       (m_chData wYear wMonth wDay wHour wMinute wSecond).

(** Modelled from the spec: the reader of the 13-byte form
    "YYMMDDhhmmssZ", which the library does not contain; two decimal digits
    per field, a final 'Z', and the century convention "YY<50 => 20YY, else
    19YY". *)
Definition digit (c : Z) : option Z :=
  if (48 <=? c) && (c <=? 57) then Some (c - 48) else None.

Definition two_digits (c1 c0 : Z) : option Z :=
  match digit c1, digit c0 with
  | Some a, Some b => Some (10 * a + b)
  | _, _ => None
  end.

Definition parse_utctime (t : list Z) : option (Z * Z * Z * Z * Z * Z) :=
  match t with
  | [y1; y0; m1; m0; d1; d0; h1; h0; n1; n0; s1; s0; z] =>
      if z =? 90 then
        match two_digits y1 y0, two_digits m1 m0, two_digits d1 d0,
              two_digits h1 h0, two_digits n1 n0, two_digits s1 s0 with
        | Some yy, Some mo, Some dd, Some hh, Some mi, Some ss =>
            Some ((if yy <? 50 then 2000 + yy else 1900 + yy),
                  mo, dd, hh, mi, ss)
        | _, _, _, _, _, _ => None
        end
      else None
  | _ => None
  end.

(** Asn1Object.cpp.  [atoi] of the C library on one arc: blanks, a sign,
    then decimal digits up to the first other character. *)
Fixpoint atoi_digits (s : list Z) (acc : Z) : Z :=
  match s with
  | c :: s' =>
      if (48 <=? c) && (c <=? 57) then atoi_digits s' (10 * acc + (c - 48))
      else acc
  | [] => acc
  end.

Fixpoint atoi (s : list Z) : Z :=
  match s with
  | c :: s' =>
      if (c =? 32) || ((9 <=? c) && (c <=? 13)) then atoi s'
      else if c =? 45 then - atoi_digits s' 0
      else if c =? 43 then atoi_digits s' 0
      else atoi_digits s 0
  | [] => 0
  end.

(** The pieces between the dots, as the first loop cuts them. *)
Fixpoint split_dots (s : list Z) (cur : list Z) : list (list Z) :=
  match s with
  | [] => [cur]
  | c :: s' =>
      if c =? 46 then cur :: split_dots s' []
      else split_dots s' (cur ++ [c])
  end.

(** [if(!p[i+1]) return;] fires when a dot is the last character. *)
Definition ends_with_dot (s : list Z) : bool :=
  match rev s with
  | c :: _ => c =? 46
  | [] => false
  end.

Definition CAsn1Object (szOid : option (list Z)) : CAsn1Type :=
  let empty := Leaf (mkBase TC_UNIVERSAL ASN1_OBJECT 0 false false) [] in
  match szOid with
  | None => empty
  | Some s =>
      if ends_with_dot s then empty
      else
        let oid := map (fun a => wrap32 (atoi a)) (split_dots s []) in
        let packed :=
          match oid with
          | o0 :: o1 :: rest => wrap32 (o0 * 40 + o1) :: rest
          | _ => oid
          end in
        Leaf (mkBase TC_UNIVERSAL ASN1_OBJECT
                (fold_left (fun acc o => wrap32 (acc + PackedDWLength o))
                           packed 0)
                false false)
             (concat (map PutPackedDW packed))
  end.

(** *** Vocabulary of the properties *)

(** The addresses [p, p+1, ..., p+n-1]. *)
Fixpoint addresses (p : Z) (n : nat) : list Z :=
  match n with
  | O => []
  | S n' => p :: addresses (p + 1) n'
  end.

(** [CAsn1Sequence::PutData] on its own: the inner loop of [GetEncoded]. *)
Fixpoint put_children (rg : list CAsn1Type) (p : Z) : bool * list (Z * Z) :=
  match rg with
  | [] => (true, [])
  | c :: rg' =>
      let '(okc, wc) := GetEncoded c p in
      if okc then
        let '(okr, wr) := put_children rg' (p + GetEncodedLength c) in
        (okr, wc ++ wr)
      else (false, wc)
  end.

(** The header as the specification describes it: one tag byte, then one
    length byte for a data length up to 127, and otherwise the byte
    [0x80|n] with the [n] bytes of the length. *)
Definition header_length (b : base) : Z :=
  1 + (if m_dwEncodedDataLength b <=? 127 then 1
       else 1 + DWLength (m_dwEncodedDataLength b)).

(** The data members are in range: the data length leaves room for the
    header in 32 bits, and the tag number of a node that writes a header is
    one that a single byte holds. *)
Definition fields_in_range (b : base) : Prop :=
  0 <= m_dwEncodedDataLength b < 4294967296 - 6
  /\ (m_bImplicit b = false -> 0 <= m_dwTag b < 32).

Definition sum_lengths (rg : list CAsn1Type) : Z :=
  fold_right (fun c acc => GetEncodedLength c + acc) 0 rg.

(** A tree whose cached data lengths are current: the data length of a
    leaf is the number of its bytes, that of a sequence or set the sum of
    the encoded lengths of its children, that of a tagged node the encoded
    length of the node it wraps.  This is what the constructors and [Add]
    establish when every child is complete before it is added. *)
Fixpoint well_formed (n : CAsn1Type) : Prop :=
  fields_in_range (fields n)
  /\ match n with
     | Leaf b m_pbData =>
         m_dwEncodedDataLength b = Z.of_nat (length m_pbData)
     | Composite b m_rgData =>
         m_dwEncodedDataLength b = sum_lengths m_rgData
         /\ (fix all (rg : list CAsn1Type) : Prop :=
               match rg with
               | [] => True
               | c :: rg' => well_formed c /\ all rg'
               end) m_rgData
     | Tagged b m_pData =>
         m_dwEncodedDataLength b = GetEncodedLength m_pData
         /\ well_formed m_pData
     end.

(** An explicitly tagged NULL with tag number 32. *)
Definition tagged_32 : CAsn1Type := CAsn1Tagged CAsn1NULL 32.

(** The number that a run of bytes spells, most significant byte first. *)
Definition be_value (bs : list Z) : Z :=
  fold_left (fun acc b => acc * 256 + b) bs 0.

(** The same run read in two's complement, as the content of a DER
    INTEGER is. *)
Definition signed_be_value (bs : list Z) : Z :=
  if 128 <=? hd 0 bs then be_value bs - 256 ^ Z.of_nat (length bs)
  else be_value bs.

(** The number that a run of base-128 digits spells, most significant
    first; bit 7 of a byte is not part of its digit. *)
Definition packed_value (bs : list Z) : Z :=
  fold_left (fun acc b => acc * 128 + Z.land b 0x7F) bs 0.

(** The [int] that an [unsigned long] of 32 bits holds. *)
Definition as_int (dw : Z) : Z := if dw <? 2147483648 then dw else dw - 4294967296.
(** The byte at bit [k + 1] of [dwData] with the top bit of the byte
    below it. *)
Definition nine_bits (dwData k : Z) : Z := (dwData / 2 ^ k) mod 512.

(** The first byte of a header with a low tag number: class, the
    constructed bit, and the tag number. *)
Definition identifier_octet (b : base) : Z :=
  Z.lor (m_dwTag b)
        (Z.lor (m_bClass b)
               (if m_bConstructed b then TT_CONSTRUCTED else TT_PRIMITIVE)).

(** The four classes of Asn1Type.h. *)
Definition is_class (c : Z) : Prop :=
  c = TC_UNIVERSAL \/ c = TC_APPLICATION \/ c = TC_CONTEXT_SPECIFIC
  \/ c = TC_PRIVATE.

End Asn1.

(* ------------------------------------------------------------------ *)
(** ** base64.h, base64.cpp: the base64 codec                          *)
(* ------------------------------------------------------------------ *)

Module Base64.

(** [CBase64::charTbl] *)
Definition charTbl : list Z :=
  bytes_of_string
    "ABCDEFGHIJKLMNOPQRSTUVWXYZabcdefghijklmnopqrstuvwxyz0123456789+/".

(** [CBase64::byteTbl], row by row. *)
Definition byteTbl_rows : list Z :=
  [ 0xFF;0xFF;0xFF;0xFF;0xFF;0xFF;0xFF;0xFF;0xFF;0xFF;0xFF;0xFF;0xFF;0xFF;0xFF;0xFF;
    0xFF;0xFF;0xFF;0xFF;0xFF;0xFF;0xFF;0xFF;0xFF;0xFF;0xFF;0xFF;0xFF;0xFF;0xFF;0xFF;
    0xFF;0xFF;0xFF;0xFF;0xFF;0xFF;0xFF;0xFF;0xFF;0xFF;0xFF;0x3E;0xFF;0xFF;0xFF;0x3F;
    0x34;0x35;0x36;0x37;0x38;0x39;0x3A;0x3B;0x3C;0x3D;0xFF;0xFF;0xFF;0x40;0xFF;0xFF;
    0xFF;0x00;0x01;0x02;0x03;0x04;0x05;0x06;0x07;0x08;0x09;0x0A;0x0B;0x0C;0x0D;0x0E;
    0x0F;0x10;0x11;0x12;0x13;0x14;0x15;0x16;0x17;0x18;0x19;0xFF;0xFF;0xFF;0xFF;0xFF;
    0xFF;0x1A;0x1B;0x1C;0x1D;0x1E;0x1F;0x20;0x21;0x22;0x23;0x24;0x25;0x26;0x27;0x28;
    0x29;0x2A;0x2B;0x2C;0x2D;0x2E;0x2F;0x30;0x31;0x32;0x33;0xFF;0xFF;0xFF;0xFF;0xFF;
    0xFF;0xFF;0xFF;0xFF;0xFF;0xFF;0xFF;0xFF;0xFF;0xFF;0xFF;0xFF;0xFF;0xFF;0xFF;0xFF;
    0xFF;0xFF;0xFF;0xFF;0xFF;0xFF;0xFF;0xFF;0xFF;0xFF;0xFF;0xFF;0xFF;0xFF;0xFF;0xFF;
    0xFF;0xFF;0xFF;0xFF;0xFF;0xFF;0xFF;0xFF;0xFF;0xFF;0xFF;0xFF;0xFF;0xFF;0xFF;0xFF;
    0xFF;0xFF;0xFF;0xFF;0xFF;0xFF;0xFF;0xFF;0xFF;0xFF;0xFF;0xFF;0xFF;0xFF;0xFF;0xFF;
    0xFF;0xFF;0xFF;0xFF;0xFF;0xFF;0xFF;0xFF;0xFF;0xFF;0xFF;0xFF;0xFF;0xFF;0xFF;0xFF;
    0xFF;0xFF;0xFF;0xFF;0xFF;0xFF;0xFF;0xFF;0xFF;0xFF;0xFF;0xFF;0xFF;0xFF;0xFF;0xFF;
    0xFF;0xFF;0xFF;0xFF;0xFF;0xFF;0xFF;0xFF;0xFF;0xFF;0xFF;0xFF;0xFF;0xFF;0xFF;0xFF;
    0xFF;0xFF;0xFF;0xFF;0xFF;0xFF;0xFF;0xFF;0xFF;0xFF;0xFF;0xFF;0xFF;0xFF;0xFF;0xFF ].

Definition byteTbl (c : Z) : Z := byte_at byteTbl_rows c.
Definition chr (x : Z) : Z := byte_at charTbl x.

Inductive COMMAND : Type := CMD_NONE | CMD_ENCODE | CMD_DECODE.

(** The data members of [CBase64] that the codec reads. *)
Record CBase64 : Type := mkB64 {
  pbSource : list Z;
  cbSource : Z;
  cbDestination : Z;
  cmdCurrent : COMMAND;
  uLineLength : Z
}.

(** [CBase64::CBase64()] *)
Definition new_CBase64 : CBase64 := mkB64 [] 0 0 CMD_NONE 64.

(** [CBase64::SetLineLength]; the argument is unsigned. *)
Definition SetLineLength (o : CBase64) (u : Z) : CBase64 :=
  mkB64 (pbSource o) (cbSource o) (cbDestination o) (cmdCurrent o)
        (if 76 <? u then 76 else u - Z.land u 3).

(** [B64EncodedLength()]; [None] is the division by a zero line length. *)
Definition B64EncodedLength (cbSource uLineLength : Z) : option Z :=
  if uLineLength =? 0 then None
  else
    let dwRet := (cbSource / 3) * 4 in
    let dwRet := if negb (cbSource mod 3 =? 0) then dwRet + 4 else dwRet in
    Some (wrap32 (dwRet
                  + ((dwRet / uLineLength)
                     + (if dwRet mod uLineLength =? 0 then 1 else 0)) * 2)).

(** [Encode()]: the bytes stored through [d], in order.  [i] is the loop
    counter, [cycles] is [uCyclesPerLineFeed]; the three-byte groups are the
    [dwMainChunk] iterations and what is left is the [switch(bModulus)]. *)
Fixpoint Encode_loop (s : list Z) (i cycles : Z) : list Z :=
  match s with
  | s0 :: s1 :: s2 :: s' =>
      [ chr (Z.shiftr (Z.land s0 0xFC) 2);
        chr (Z.lor (Z.shiftr (Z.land s1 0xF0) 4) (Z.shiftl (Z.land s0 0x3) 4));
        chr (Z.lor (Z.shiftr (Z.land s2 0xC0) 6) (Z.shiftl (Z.land s1 0xF) 2));
        chr (Z.land s2 0x3F) ]
      ++ (if i mod cycles =? 0 then [13; 10] else [])
      ++ Encode_loop s' (i + 1) cycles
  | [s0] =>
      [ chr (Z.shiftr (Z.land s0 0xFC) 2);
        chr (Z.shiftl (Z.land s0 0x3) 4);
        61; 61 ]
  | [s0; s1] =>
      [ chr (Z.shiftr (Z.land s0 0xFC) 2);
        chr (Z.lor (Z.shiftr (Z.land s1 0xF0) 4) (Z.shiftl (Z.land s0 0x3) 4));
        chr (Z.shiftl (Z.land s1 0xF) 2);
        61 ]
  | [] => []
  end.

(** [None] is the [i % uCyclesPerLineFeed] with a zero divisor. *)
Definition Encode (o : CBase64) : option (list Z) :=
  let uCyclesPerLineFeed := Z.shiftr (uLineLength o) 2 in
  if (uCyclesPerLineFeed =? 0) && (3 <=? cbSource o) then None
  else Some (Encode_loop (pbSource o) 1 uCyclesPerLineFeed).

(** [while(byteTbl[*p--]==0xFF) cbSource--;] on the reversed source.  The
    C loop runs below the buffer when no byte is valid; the model stops at
    its start. *)
Fixpoint drop_invalid (r : list Z) : list Z :=
  match r with
  | c :: r' => if byteTbl c =? 0xFF then drop_invalid r' else r
  | [] => []
  end.

Fixpoint count_padding (r : list Z) : Z :=
  match r with
  | c :: r' => if c =? 61 then 1 + count_padding r' else 0
  | [] => 0
  end.

(** [DecodedLength()]: the source trimmed to the new [cbSource], and the
    value returned; [(unsigned long)-1] is [4294967295]. *)
Definition DecodedLength (src : list Z) : list Z * Z :=
  let trimmed := rev (drop_invalid (rev src)) in
  let cb := Z.of_nat (length trimmed) in
  let dwCleanLength :=
    cb - Z.of_nat (length (filter (fun c => byteTbl c =? 0xFF) trimmed)) in
  if Z.land dwCleanLength 3 =? 0 then
    let uPaddingChars := count_padding (rev trimmed) in
    if 2 <? uPaddingChars then (trimmed, 4294967295)
    else
      (trimmed,
       wrap32 (Z.shiftr (wrap32 (dwCleanLength - 4)) 2 * 3
               + (if uPaddingChars =? 0 then 3
                  else if uPaddingChars =? 2 then 1 else 2)))
  else (trimmed, 4294967295).

(** The three bytes of a full group and the bytes of a padded one, from
    [pbBuffer]. *)
Definition out0 (pb : list Z) : Z :=
  wrap8 (Z.lor (Z.shiftl (byte_at pb 0) 2) (Z.shiftr (byte_at pb 1) 4)).
Definition out1 (pb : list Z) : Z :=
  wrap8 (Z.lor (Z.shiftl (byte_at pb 1) 4) (Z.shiftr (byte_at pb 2) 2)).
Definition out2 (pb : list Z) : Z :=
  wrap8 (Z.lor (Z.shiftl (byte_at pb 2) 6) (byte_at pb 3)).

(** [Decode()]: the bytes stored through [d], in order. *)
Fixpoint Decode_loop (s : list Z) (pbBuffer : list Z) (uBufferIndex : nat)
  : list Z :=
  match s with
  | [] => []
  | c :: s' =>
      let bCode := byteTbl c in
      if bCode =? 0xFF then Decode_loop s' pbBuffer uBufferIndex
      else
        let pbBuffer := <[uBufferIndex := bCode]> pbBuffer in
        let uBufferIndex := S uBufferIndex in
        if (bCode =? 64) && Nat.eqb uBufferIndex 3 then [out0 pbBuffer]
        else if (bCode =? 64) && Nat.eqb uBufferIndex 4
        then [out0 pbBuffer; out1 pbBuffer]
        else if Nat.eqb uBufferIndex 4
        then [out0 pbBuffer; out1 pbBuffer; out2 pbBuffer]
             ++ Decode_loop s' pbBuffer 0
        else Decode_loop s' pbBuffer uBufferIndex
  end.

Definition Decode (o : CBase64) : list Z :=
  Decode_loop (firstn (Z.to_nat (cbSource o)) (pbSource o)) [0; 0; 0; 0] 0.

(** [LoadBufferToEncode(pbBuffer, cbBuffer)]; [None] is a crash (division
    by zero), [Some (FALSE, _)] the refusal of an empty buffer. *)
Definition LoadBufferToEncode (o : CBase64) (pbBuffer : list Z)
  : option (bool * CBase64) :=
  if Nat.eqb (length pbBuffer) 0 then Some (false, o)
  else
    match B64EncodedLength (Z.of_nat (length pbBuffer)) (uLineLength o) with
    | None => None
    | Some n =>
        Some (true, mkB64 pbBuffer (Z.of_nat (length pbBuffer)) n CMD_ENCODE
                          (uLineLength o))
    end.

(** [LoadBufferToDecode(pbBuffer, cbBuffer)] *)
Definition LoadBufferToDecode (o : CBase64) (pbBuffer : list Z)
  : bool * CBase64 :=
  if Nat.eqb (length pbBuffer) 0 then (false, o)
  else
    let '(trimmed, n) := DecodedLength pbBuffer in
    (true, mkB64 pbBuffer (Z.of_nat (length trimmed)) n CMD_DECODE
                 (uLineLength o)).

(** [ProcessToBuffer(ppbBuffer, pcbBuffer)].  [buffer] is the destination
    as the call finds it: the caller's [*pcbBuffer] bytes at [*ppbBuffer],
    or, for [*ppbBuffer == NULL], the [cbDestination] bytes that
    [new unsigned char[cbDestination]] hands out, which nothing
    initialises.  The result is the [cbDestination] bytes reported back;
    [None] is [return FALSE] (or a crash of [Encode]). *)
Definition ProcessToBuffer (o : CBase64) (buffer : list Z)
  : option (list Z) :=
  if Z.of_nat (length buffer) <? cbDestination o then None
  else
    let stored :=
      match cmdCurrent o with
      | CMD_ENCODE => Encode o
      | CMD_DECODE => Some (Decode o)
      | CMD_NONE => Some []
      end in
    match stored with
    | None => None
    | Some w =>
        Some (firstn (Z.to_nat (cbDestination o))
                     (w ++ skipn (length w) buffer))
    end.

(** The call sequence of smime.cpp: construct, set the line length, load,
    process. *)
Definition encode_buffer (B : list Z) (uLineLength : Z) (buffer : list Z)
  : option (list Z) :=
  match LoadBufferToEncode (SetLineLength new_CBase64 uLineLength) B with
  | Some (true, o) => ProcessToBuffer o buffer
  | _ => None
  end.

Definition decode_buffer (E : list Z) (buffer : list Z) : option (list Z) :=
  match LoadBufferToDecode new_CBase64 E with
  | (true, o) => ProcessToBuffer o buffer
  | _ => None
  end.

(** *** Vocabulary of the properties *)

(** The four characters of a group of three bytes, as [Encode] picks
    them. *)
Definition char0 (s0 : Z) : Z := chr (Z.shiftr (Z.land s0 0xFC) 2).
Definition char1 (s0 s1 : Z) : Z :=
  chr (Z.lor (Z.shiftr (Z.land s1 0xF0) 4) (Z.shiftl (Z.land s0 0x3) 4)).
Definition char2 (s1 s2 : Z) : Z :=
  chr (Z.lor (Z.shiftr (Z.land s2 0xC0) 6) (Z.shiftl (Z.land s1 0xF) 2)).
Definition char3 (s2 : Z) : Z := chr (Z.land s2 0x3F).

(** A value of six bits: what [byteTbl] holds for a character of the
    alphabet. *)
Definition sextet (t : Z) : bool := (0 <=? t) && (t <? 64).

(** A character that [Decode] does not skip: one of the alphabet, or
    the padding character. *)
Definition valid (c : Z) : bool := negb (byteTbl c =? 0xFF).

Fixpoint count_valid (s : list Z) : Z :=
  match s with
  | [] => 0
  | c :: s' => (if valid c then 1 else 0) + count_valid s'
  end.

(** The last byte of a source is one that [Decode] does not skip. *)
Definition ends_valid (s : list Z) : Prop :=
  match rev s with
  | [] => True
  | c :: _ => valid c = true
  end.

End Base64.

(* ------------------------------------------------------------------ *)
(** ** scardhal.c: the hardware abstraction layer                      *)
(* ------------------------------------------------------------------ *)

Module Hal.

(** *** libsiaecardt.h, internals.h *)

Definition C_OK : Z := 0x0000.
Definition C_CONTEXT_ERROR : Z := 0x0001.
Definition C_NOT_INITIALIZED : Z := 0x0002.
Definition C_ALREADY_INITIALIZED : Z := 0x0003.
Definition C_NO_CARD : Z := 0x0004.
Definition C_UNKNOWN_CARD : Z := 0x0005.
Definition C_WRONG_LENGTH : Z := 0x6282.
Definition C_FILE_NOT_FOUND : Z := 0x6A82.
Definition C_RECORD_NOT_FOUND : Z := 0x6A83.
Definition C_WRONG_LEN : Z := 0x6A85.
Definition C_UNKNOWN_OBJECT : Z := 0x6A88.
Definition C_GENERIC_ERROR : Z := 0xFFFF.
Definition MAX_READERS : Z := 16.

Definition EXCHANGE_BUFFER : Z := 128.
Definition FID_MF : Z := 0x3f00.
Definition FID_SIAE_APP_DOMAIN : Z := 0x0000.
Definition FID_P11_APP_DOMAIN : Z := 0x1111.
Definition APDU_SELECT : Z := 0x00a40000.
Definition APDU_READBINARY : Z := 0x00b00000.
Definition APDU_READRECORD : Z := 0x00b20000.
Definition APDU_VERIFYPIN : Z := 0x00200000.
Definition APDU_MSE_RESTORE : Z := 0x0022f301.
Definition APDU_MSE : Z := 0x0022f1b8.
Definition APDU_SIGN : Z := 0x002a8086.
Definition SW_OK : Z := 0x9000.
Definition SW_WRONG_LENGTH : Z := 0x6282.
Definition SW_AUTH_FAILED : Z := 0x6300.

(** *** The PC/SC driver

    The return codes of winscard.h that scardhal.c names; every other code
    is [SCARD_E_OTHER]. *)
Inductive scard_rv : Type :=
| SCARD_S_SUCCESS
| SCARD_W_RESET_CARD
| SCARD_E_NO_SMARTCARD
| SCARD_E_NOT_READY
| SCARD_E_READER_UNAVAILABLE
| SCARD_W_REMOVED_CARD
| SCARD_E_OTHER (code : Z).

Definition is_success (rv : scard_rv) : bool :=
  match rv with SCARD_S_SUCCESS => true | _ => false end.

(** The calls the library makes to the driver. *)
Inductive pcsc_call : Type :=
| EstablishContext
| ReleaseContext (hContext : Z)
| ConnectReader (hContext nReader : Z)
| Disconnect (hCard : Z)
| BeginTransaction (hCard : Z)
| EndTransaction (hCard : Z)
| Reconnect (hCard : Z)
| Transmit (hCard : Z) (pSendBuffer : list Z).

(** The driver as the library sees it: for each entry point the answers it
    is going to give, in call order, and the calls received so far.  Once
    the answers of an entry point are used up the driver reports
    [SCARD_E_NO_SMARTCARD] (the card is gone).  An answer of [SCardTransmit]
    is the return code with the [tLen] bytes left in [tmpBuf]; an answer to
    the reader enumeration and [SCardConnect] of [Connect] is the handle, 0
    for a failure. *)
Record pcsc : Type := mkPcsc {
  transmit_answers : list (scard_rv * list Z);
  reconnect_answers : list scard_rv;
  begin_answers : list scard_rv;
  establish_answers : list (scard_rv * Z);
  connect_answers : list Z;
  calls : list pcsc_call
}.

(** The file-scope variables of scardhal.c, with the driver. *)
Record lib_state : Type := mkLib {
  hContext : Z;
  hCards : list Z;
  hCardsTransactions : list Z;
  initialized : bool;
  instances : Z;
  defSlot : Z;
  driver : pcsc
}.

Definition set_driver (s : lib_state) (d : pcsc) : lib_state :=
  mkLib (hContext s) (hCards s) (hCardsTransactions s) (initialized s)
        (instances s) (defSlot s) d.

Definition set_hCardsTransactions (s : lib_state) (t : list Z) : lib_state :=
  mkLib (hContext s) (hCards s) t (initialized s) (instances s) (defSlot s)
        (driver s).

Definition log (c : pcsc_call) (s : lib_state) : lib_state :=
  let d := driver s in
  set_driver s (mkPcsc (transmit_answers d) (reconnect_answers d)
                       (begin_answers d) (establish_answers d)
                       (connect_answers d) (calls d ++ [c])).

Definition set_transmit_answers (s : lib_state)
    (a : list (scard_rv * list Z)) : lib_state :=
  let d := driver s in
  set_driver s (mkPcsc a (reconnect_answers d) (begin_answers d)
                       (establish_answers d) (connect_answers d) (calls d)).

(** [a[i]] of an [int] or handle array; an index outside the array
    (undefined in C) reads 0 and stores nothing. *)
Definition slot_get (a : list Z) (i : Z) : Z :=
  if i <? 0 then 0 else default 0 (a !! Z.to_nat i).

Definition slot_set (a : list Z) (i v : Z) : list Z :=
  if i <? 0 then a else <[Z.to_nat i := v]> a.

(** An [int] after an arithmetic step, in two's complement. *)
Definition int32 (x : Z) : Z := (x + 2147483648) mod 4294967296 - 2147483648.

(** *** The state monad of the library *)

Definition M (A : Type) : Type := lib_state -> A * lib_state.

Definition ret {A : Type} (a : A) : M A := fun s => (a, s).

Definition bind {A B : Type} (m : M A) (k : A -> M B) : M B :=
  fun s => let '(a, s') := m s in k a s'.

Declare Scope hal_scope.
Delimit Scope hal_scope with hal.
Notation "x <- m ;; k" := (bind m (fun x => k))
  (at level 100, m at next level, right associativity) : hal_scope.
Notation "m ;;; k" := (bind m (fun _ => k))
  (at level 100, right associativity) : hal_scope.
Local Open Scope hal_scope.

(** *** Driver calls *)

Definition SCardBeginTransaction (hCard : Z) : M scard_rv :=
  fun s =>
    let s := log (BeginTransaction hCard) s in
    let d := driver s in
    match begin_answers d with
    | [] => (SCARD_E_NO_SMARTCARD, s)
    | rv :: rest =>
        (rv, set_driver s (mkPcsc (transmit_answers d) (reconnect_answers d)
                                  rest (establish_answers d)
                                  (connect_answers d) (calls d)))
    end.

Definition SCardEndTransaction (hCard : Z) : M unit :=
  fun s => (tt, log (EndTransaction hCard) s).

Definition SCardReconnect (hCard : Z) : M scard_rv :=
  fun s =>
    let s := log (Reconnect hCard) s in
    let d := driver s in
    match reconnect_answers d with
    | [] => (SCARD_E_NO_SMARTCARD, s)
    | rv :: rest =>
        (rv, set_driver s (mkPcsc (transmit_answers d) rest (begin_answers d)
                                  (establish_answers d) (connect_answers d)
                                  (calls d)))
    end.

Definition SCardEstablishContext : M (scard_rv * Z) :=
  fun s =>
    let s := log EstablishContext s in
    let d := driver s in
    match establish_answers d with
    | [] => ((SCARD_E_NO_SMARTCARD, 0), s)
    | a :: rest =>
        (a, set_driver s (mkPcsc (transmit_answers d) (reconnect_answers d)
                                 (begin_answers d) rest (connect_answers d)
                                 (calls d)))
    end.

(** *** scardhal.c *)

Definition IsInitialized : M bool := fun s => (initialized s, s).

(** [Connect(nReader)]: the reader enumeration and [SCardConnect] are one
    driver answer. *)
Definition Connect (nReader : Z) : M Z :=
  fun s =>
    if hContext s =? 0 then (0, s)
    else
      let s := log (ConnectReader (hContext s) nReader) s in
      let d := driver s in
      match connect_answers d with
      | [] => (0, s)
      | h :: rest =>
          (h, set_driver s (mkPcsc (transmit_answers d) (reconnect_answers d)
                                   (begin_answers d) (establish_answers d)
                                   rest (calls d)))
      end.

Definition BeginTransactionML (nSlot : Z) : M Z :=
  fun s =>
    let s :=
      if slot_get (hCardsTransactions s) nSlot =? 0
      then snd (SCardBeginTransaction (slot_get (hCards s) nSlot) s)
      else s in
    let s :=
      set_hCardsTransactions s
        (slot_set (hCardsTransactions s) nSlot
                  (int32 (slot_get (hCardsTransactions s) nSlot + 1))) in
    (C_OK, s).

Definition EndTransactionML (nSlot : Z) : M Z :=
  fun s =>
    if 0 <? slot_get (hCardsTransactions s) nSlot then
      let s :=
        set_hCardsTransactions s
          (slot_set (hCardsTransactions s) nSlot
                    (int32 (slot_get (hCardsTransactions s) nSlot - 1))) in
      if slot_get (hCardsTransactions s) nSlot =? 0
      then (C_OK, snd (SCardEndTransaction (slot_get (hCards s) nSlot) s))
      else (C_OK, s)
    else (C_OK, s).

(** [Initialize(nSlot)].  On the first call ([instances == 0]) the two
    [memset]s are given [sizeof(array) * sizeof(element)] bytes and so
    store zeros past [hCards] and past [hCardsTransactions], into whatever
    the linker has put behind them: the branch shown here, which zeroes
    the two tables and nothing else, is what the [memset]s were written
    for and not all that they do.  The branch of a library in use
    ([instances > 0]) has no such store. *)
Definition Initialize (nSlot : Z) : M Z :=
  fun s =>
    let first := instances s =? 0 in
    let '(rv, ctx, s) :=
      if first then
        let '((rv, ctx), s) := SCardEstablishContext s in (rv, ctx, s)
      else (SCARD_S_SUCCESS, hContext s, s) in
    if first && negb (is_success rv) then
      (C_CONTEXT_ERROR,
       mkLib 0 (hCards s) (hCardsTransactions s) false (instances s)
             (defSlot s) (driver s))
    else
      let s :=
        if first then
          mkLib ctx (repeat 0 (Z.to_nat MAX_READERS))
                (repeat 0 (Z.to_nat MAX_READERS)) (initialized s)
                (instances s) (defSlot s) (driver s)
        else s in
      if negb (slot_get (hCards s) nSlot =? 0) then (C_ALREADY_INITIALIZED, s)
      else
        let '(h, s) := Connect nSlot s in
        let s :=
          mkLib (hContext s) (slot_set (hCards s) nSlot h)
                (hCardsTransactions s) (initialized s) (instances s)
                (defSlot s) (driver s) in
        if negb (h =? 0) then
          (C_OK,
           mkLib (hContext s) (hCards s) (hCardsTransactions s) true
                 (int32 (instances s + 1))
                 (if instances s =? 0 then nSlot else defSlot s) (driver s))
        else (C_NO_CARD, s).

Definition FinalizeML (nSlot : Z) : M Z :=
  fun s =>
    if slot_get (hCards s) nSlot =? 0 then (C_NOT_INITIALIZED, s)
    else
      let s := log (Disconnect (slot_get (hCards s) nSlot)) s in
      let s :=
        mkLib (hContext s) (slot_set (hCards s) nSlot 0)
              (hCardsTransactions s) (initialized s)
              (int32 (instances s - 1)) (defSlot s) (driver s) in
      if instances s =? 0 then
        let s := log (ReleaseContext (hContext s)) s in
        (C_OK,
         mkLib 0 (hCards s) (hCardsTransactions s) false (instances s)
               (defSlot s) (driver s))
      else (C_OK, s).

(** The in/out arguments of [SendAPDUML] after the call: [*pLe] ([None]
    for a null [pLe]), the bytes at [outBuffer] ([None] for a null
    [outBuffer]) and [*pSW]. *)
Definition apdu_out : Type := (option Z * option (list Z) * Z)%type.

(** [pSendBuffer] as the head of [SendAPDUML] fills it, [lSB] bytes.
    The array has 256 bytes and the code does not compare [Lc] with them:
    the list is the content of the array for [Lc <= 250], where the
    command and the Le byte fit.  For a longer [Lc] the code stores past
    the array, which no list shows; [call_in_bounds] names the calls that
    stay inside. *)
Definition build_apdu (cmd Lc : Z) (pLe : option Z) (inBuffer : list Z)
  : list Z :=
  let header :=
    [ wrap8 (Z.shiftr (Z.land cmd 0xff000000) 24);
      wrap8 (Z.shiftr (Z.land cmd 0x00ff0000) 16);
      wrap8 (Z.shiftr (Z.land cmd 0x0000ff00) 8);
      wrap8 (Z.land cmd 0x000000ff) ] in
  let body :=
    if negb (Lc =? 0) then Lc :: firstn (Z.to_nat Lc) inBuffer else [] in
  let le :=
    if negb (byte_at header 1 =? 0xa4)
    then [match pLe with Some le => le | None => 0 end] else [] in
  header ++ body ++ le.

(** [*pSW=(tmpBuf[tLen-2]<<8)|tmpBuf[tLen-1]] *)
Definition status_word (tmpBuf : list Z) : Z :=
  let tLen := Z.of_nat (length tmpBuf) in
  wrap16 (Z.lor (Z.shiftl (byte_at tmpBuf (tLen - 2)) 8)
                (byte_at tmpBuf (tLen - 1))).

(** The statements after a successful [SCardTransmit].  The [memcpy] reads
    [*pLe] before [pLe] is compared with null: a call with [outBuffer] and
    without [pLe] reads through the null pointer there, and what is shown
    for it (the length 0) is no run of the code.  [call_in_bounds] leaves
    such a call out. *)
Definition deliver (tmpBuf : list Z) (pLe : option Z)
    (outBuffer : option (list Z)) : apdu_out :=
  let tLen := Z.of_nat (length tmpBuf) in
  let sw := status_word tmpBuf in
  if 2 <? tLen then
    let le := match pLe with Some le => le | None => 0 end in
    let out :=
      match outBuffer with
      | Some buf =>
          Some (memcpy_at buf 0 tmpBuf (if tLen - 2 <? le then tLen - 2 else le))
      | None => None
      end in
    let pLe' :=
      match pLe with
      | Some le =>
          if (tLen - 2 <? le) || (match outBuffer with None => true | _ => false end)
          then Some (wrap8 (tLen - 2)) else Some le
      | None => None
      end in
    (pLe', out, sw)
  else (pLe, outBuffer, sw).

(** From the label [retryTransmit] on.  [answers] is what is left of the
    answers of [SCardTransmit]; the state keeps the rest of the driver, and
    the answers not yet used are put back into it after each call.  Every
    [goto retryTransmit] uses up one answer. *)
Fixpoint retryTransmit (answers : list (scard_rv * list Z))
    (nSlot hCard : Z) (pSendBuffer : list Z) (pLe : option Z)
    (outBuffer : option (list Z)) (SW : Z) (s : lib_state)
  : (Z * apdu_out) * lib_state :=
  let s := log (Transmit hCard pSendBuffer) s in
  let failed := match pLe with Some _ => Some 0 | None => None end in
  match answers with
  | [] =>
      (* no answer left: SCARD_E_NO_SMARTCARD *)
      ((C_NO_CARD, (failed, outBuffer, SW)), set_transmit_answers s [])
  | (rv, tmpBuf) :: rest =>
      let s := set_transmit_answers s rest in
      match rv with
      | SCARD_S_SUCCESS => ((C_OK, deliver tmpBuf pLe outBuffer), s)
      | SCARD_W_RESET_CARD =>
          let '(rv, s) := SCardReconnect hCard s in
          let '(rv, s) :=
            if 0 <? slot_get (hCardsTransactions s) nSlot
            then SCardBeginTransaction hCard s
            else (rv, s) in
          if is_success rv
          then retryTransmit rest nSlot hCard pSendBuffer failed outBuffer SW s
          else ((C_NO_CARD, (failed, outBuffer, SW)), s)
      | SCARD_E_NO_SMARTCARD
      | SCARD_E_NOT_READY
      | SCARD_E_READER_UNAVAILABLE
      | SCARD_W_REMOVED_CARD => ((C_NO_CARD, (failed, outBuffer, SW)), s)
      | SCARD_E_OTHER _ => ((C_GENERIC_ERROR, (failed, outBuffer, SW)), s)
      end
  end.

(** [SendAPDUML(nSlot, cmd, Lc, pLe, inBuffer, outBuffer, pSW)]; [SW] is
    the value [*pSW] has before the call. *)
Definition SendAPDUML (nSlot cmd Lc : Z) (pLe : option Z) (inBuffer : list Z)
    (outBuffer : option (list Z)) (SW : Z) : M (Z * apdu_out) :=
  fun s =>
    retryTransmit (transmit_answers (driver s)) nSlot
                  (slot_get (hCards s) nSlot)
                  (build_apdu cmd Lc pLe inBuffer) pLe outBuffer SW s.

(** *** Vocabulary of the properties *)

(** A sequence of calls of [BeginTransactionML] and [EndTransactionML] on
    one slot. *)
Inductive txn_call : Type := CallBegin | CallEnd.

Definition do_call (nSlot : Z) (c : txn_call) : M Z :=
  match c with
  | CallBegin => BeginTransactionML nSlot
  | CallEnd => EndTransactionML nSlot
  end.

Fixpoint run_calls (nSlot : Z) (cs : list txn_call) (s : lib_state)
  : lib_state :=
  match cs with
  | [] => s
  | c :: cs' => run_calls nSlot cs' (snd (do_call nSlot c s))
  end.

(** The transaction depth counter of a slot. *)
Definition depth (nSlot : Z) (s : lib_state) : Z :=
  slot_get (hCardsTransactions s) nSlot.

Definition valid_slot (nSlot : Z) (s : lib_state) : Prop :=
  0 <= nSlot < Z.of_nat (length (hCardsTransactions s)).

Fixpoint begins (cs : list txn_call) : Z :=
  match cs with
  | [] => 0
  | CallBegin :: cs' => 1 + begins cs'
  | CallEnd :: cs' => begins cs'
  end.

Fixpoint ends (cs : list txn_call) : Z :=
  match cs with
  | [] => 0
  | CallBegin :: cs' => ends cs'
  | CallEnd :: cs' => 1 + ends cs'
  end.

(** No call of [EndTransactionML] comes at depth 0, for a start at depth
    [d]. *)
Fixpoint never_below (d : Z) (cs : list txn_call) : Prop :=
  match cs with
  | [] => True
  | CallBegin :: cs' => never_below (d + 1) cs'
  | CallEnd :: cs' => 0 < d /\ never_below (d - 1) cs'
  end.

(** A slot with a card connected, no transaction open, and a driver that
    is going to give the answers [a] to [SCardTransmit], [r] to
    [SCardReconnect] and [b] to [SCardBeginTransaction]. *)
Definition connected (a : list (scard_rv * list Z)) (r b : list scard_rv)
  : lib_state :=
  mkLib 1 (7 :: repeat 0 15) (repeat 0 16) true 1 0 (mkPcsc a r b [] [] []).

(** An answer of the card: the data and the status word. *)
Definition answer (data : list Z) (sw : Z) : scard_rv * list Z :=
  (SCARD_S_SUCCESS, data ++ [sw / 256; sw mod 256]).

(** Answers "the card was reset", whatever is left in [tmpBuf]. *)
Definition resets (junk : list (list Z)) : list (scard_rv * list Z) :=
  map (fun j => (SCARD_W_RESET_CARD, j)) junk.

Definition locked (nSlot : Z) (s : lib_state) : bool := 0 <? depth nSlot s.

(** The calls of one recovery, and of [n] transmissions each followed by a
    recovery. *)
Definition recovery_calls (lock : bool) (hCard : Z) : list pcsc_call :=
  Reconnect hCard :: (if lock then [BeginTransaction hCard] else []).

Definition retry_calls (lock : bool) (hCard : Z) (apdu : list Z) (n : nat)
  : list pcsc_call :=
  concat (repeat (Transmit hCard apdu :: recovery_calls lock hCard) n).

(** The answers that decide whether a recovery succeeds: those of
    [SCardBeginTransaction] when the lock is held (the code overwrites the
    answer of [SCardReconnect] then), those of [SCardReconnect] otherwise. *)
Definition recovery_answers (nSlot : Z) (s : lib_state) : list scard_rv :=
  if locked nSlot s then begin_answers (driver s)
  else reconnect_answers (driver s).

(** The first [n] recoveries succeed. *)
Definition recovers (n : nat) (nSlot : Z) (s : lib_state) : Prop :=
  exists more, recovery_answers nSlot s = repeat SCARD_S_SUCCESS n ++ more.

(** The first [n] recoveries succeed and the next one fails. *)
Definition recovery_fails_after (n : nat) (nSlot : Z) (s : lib_state) : Prop :=
  exists more,
    recovery_answers nSlot s = repeat SCARD_S_SUCCESS n ++ more
    /\ is_success (hd SCARD_E_NO_SMARTCARD more) = false.

(** [*pLe] after a transmission that failed. *)
Definition zeroed (pLe : option Z) : option Z :=
  match pLe with Some _ => Some 0 | None => None end.

(** The APDUs among the calls received by the driver. *)
Definition transmitted (cs : list pcsc_call) : list (list Z) :=
  flat_map (fun c => match c with Transmit _ a => [a] | _ => [] end) cs.

(** What a step of the library does to the conversation with the card: it
    sends the APDUs [sent], leaves the answers [left] to come, and does
    not touch the initialisation flag. *)
Definition sends (sent : list (list Z)) (left : list (scard_rv * list Z))
    (s s' : lib_state) : Prop :=
  initialized s' = initialized s
  /\ transmit_answers (driver s') = left
  /\ transmitted (calls (driver s'))
     = transmitted (calls (driver s)) ++ sent.

(** The file-scope variables of scardhal.c are the same in two states:
    only the driver has moved. *)
Definition same_library (s s' : lib_state) : Prop :=
  hContext s' = hContext s /\ hCards s' = hCards s
  /\ hCardsTransactions s' = hCardsTransactions s
  /\ initialized s' = initialized s /\ instances s' = instances s
  /\ defSlot s' = defSlot s.

(** [SendAPDU(cmd, Lc, pLe, inBuffer, outBuffer, pSW)]: the first
    argument it hands to [SendAPDUML] is [hCards[defSlot]]. *)
Definition SendAPDU (cmd Lc : Z) (pLe : option Z) (inBuffer : list Z)
    (outBuffer : option (list Z)) (SW : Z) : M (Z * apdu_out) :=
  fun s =>
    SendAPDUML (slot_get (hCards s) (defSlot s)) cmd Lc pLe inBuffer
               outBuffer SW s.

(** A call that [SendAPDUML] makes to the driver for the card [hCard]
    and the command [apdu]. *)
Definition apdu_call (hCard : Z) (apdu : list Z) (c : pcsc_call) : Prop :=
  c = Transmit hCard apdu \/ c = Reconnect hCard
  \/ c = BeginTransaction hCard.

(** A call of [SendAPDUML] that stays inside the arrays it works on: the
    command with [Lc] bytes of data and the Le byte fits the 256 bytes of
    [pSendBuffer]; [inBuffer] holds the [Lc] bytes that are copied from
    it; [outBuffer] holds the [*pLe] bytes that may be copied to it and
    comes with a [pLe], which the code reads before it tests it for
    null. *)
Definition call_in_bounds (Lc : Z) (pLe : option Z) (inBuffer : list Z)
    (outBuffer : option (list Z)) : Prop :=
  0 <= Lc <= 250
  /\ Lc <= Z.of_nat (length inBuffer)
  /\ match outBuffer, pLe with
     | Some buf, Some le => 0 <= le < 256 /\ le <= Z.of_nat (length buf)
     | Some _, None => False
     | None, Some le => 0 <= le < 256
     | None, None => True
     end.

(** Answers that a driver can give to [SCardTransmit] for the [tmpBuf] of
    256 bytes it receives: with success come the two bytes of the status
    word at least, and 256 bytes at most. *)
Definition answers_in_bounds (answers : list (scard_rv * list Z)) : Prop :=
  List.Forall
    (fun a => is_success (fst a) = true ->
              (2 <= length (snd a) <= 256)%nat) answers.

End Hal.

(* ------------------------------------------------------------------ *)
(** ** libsiaecard.c: the card commands                                *)
(* ------------------------------------------------------------------ *)

Module Card.
Import Hal.
Local Open Scope hal_scope.

Definition SelectML (fid nSlot : Z) : M Z :=
  let pSend :=
    [ wrap8 (Z.shiftr (Z.land fid 0xff00) 8); wrap8 (Z.land fid 0x00ff) ] in
  BeginTransactionML nSlot ;;;
  r <- SendAPDUML nSlot APDU_SELECT 2 None pSend None 0 ;;
  EndTransactionML nSlot ;;;
  let '(x, (_, _, SW)) := r in
  ret (if negb (x =? C_OK) then x
       else if negb (SW =? 0x9000) then SW
       else C_OK).

(** The variables of [ReadBinaryML] that its loop carries. *)
Record rb_vars : Type := mkRb {
  rb_Offset1 : Z;
  rb_letti : Z;
  rb_Buffer : list Z;
  rb_tmpBuffer : list Z;
  rb_SW : Z
}.

(** The [while (dimDati>=EXCHANGE_BUFFER)] loop, for the [n] blocks of
    [EXCHANGE_BUFFER] bytes that [dimDati] holds.  [inl (rv, Buffer, Len)]
    is a [goto CleanUp] with the value of [rv], the buffer and, when the
    loop stored one, the new [*Len]. *)
Fixpoint read_blocks (n : nat) (nSlot : Z) (v : rb_vars)
  : M (Z * list Z * option Z + rb_vars) :=
  match n with
  | O => ret (inr v)
  | S n' =>
      r <- SendAPDUML nSlot (Z.lor APDU_READBINARY (rb_Offset1 v)) 0
                      (Some EXCHANGE_BUFFER) [] (Some (rb_tmpBuffer v))
                      (rb_SW v) ;;
      let '(rv, (pLe, out, SW)) := r in
      let blockLen := match pLe with Some le => le | None => 0 end in
      let tmpBuffer := match out with Some t => t | None => rb_tmpBuffer v end in
      if negb (rv =? C_OK) then ret (inl (rv, rb_Buffer v, None))
      else if negb (SW =? SW_OK) && negb (SW =? SW_WRONG_LENGTH)
      then ret (inl (SW, rb_Buffer v, None))
      else
        let Buffer := memcpy_at (rb_Buffer v) (rb_letti v) tmpBuffer blockLen in
        if negb (blockLen =? EXCHANGE_BUFFER)
        then ret (inl (C_WRONG_LENGTH, Buffer, Some (rb_letti v)))
        else
          read_blocks n' nSlot
            (mkRb (wrap16 (rb_Offset1 v + blockLen))
                  (int32 (rb_letti v + blockLen)) Buffer tmpBuffer SW)
  end.

(** [ReadBinaryML(Offset, Buffer, Len, nSlot)]: the value returned, the
    bytes at [Buffer] and [*Len] after the call.  A buffer that no store
    reached before shows zeros. *)
Definition ReadBinaryML (Offset : Z) (Buffer : option (list Z))
    (Len : option Z) (nSlot : Z) : M (Z * option (list Z) * option Z) :=
  init <- IsInitialized ;;
  if negb init then ret (C_NOT_INITIALIZED, Buffer, Len)
  else
    match Buffer, Len with
    | None, _ => ret (C_GENERIC_ERROR, Buffer, Len)
    | _, None => ret (C_GENERIC_ERROR, Buffer, Len)
    | Some buf, Some len =>
        if len =? 0 then ret (C_GENERIC_ERROR, Buffer, Len)
        else
          let dimDati := wrap32 len in
          BeginTransactionML nSlot ;;;
          blocks <- read_blocks (Z.to_nat (dimDati / EXCHANGE_BUFFER)) nSlot
                      (mkRb Offset 0 buf (repeat 0 256) 0) ;;
          out <-
            match blocks with
            | inl (rv, buf, newlen) =>
                ret (rv, Some buf,
                     match newlen with Some l => Some l | None => Len end)
            | inr v =>
                let dimDati := dimDati mod EXCHANGE_BUFFER in
                if 0 <? dimDati then
                  r <- SendAPDUML nSlot
                         (Z.lor APDU_READBINARY (rb_Offset1 v)) 0
                         (Some dimDati) [] (Some (rb_tmpBuffer v)) (rb_SW v) ;;
                  let '(rv, (pLe, out, SW)) := r in
                  let dimDati := match pLe with Some le => le | None => 0 end in
                  let tmpBuffer :=
                    match out with Some t => t | None => rb_tmpBuffer v end in
                  if negb (rv =? C_OK) then ret (rv, Some (rb_Buffer v), Len)
                  else if negb (SW =? SW_OK) && negb (SW =? SW_WRONG_LENGTH)
                  then ret (SW, Some (rb_Buffer v), Len)
                  else
                    ret (C_OK,
                         Some (memcpy_at (rb_Buffer v) (rb_letti v)
                                         tmpBuffer dimDati),
                         Some (int32 (rb_letti v + dimDati)))
                else ret (C_OK, Some (rb_Buffer v), Some (rb_letti v))
            end ;;
          EndTransactionML nSlot ;;;
          ret out
    end.

(** [GetSNML(serial, nSlot)]: the value returned and the eight bytes at
    [serial] after the call. *)
Definition GetSNML (serial : list Z) (nSlot : Z) : M (Z * list Z) :=
  init <- IsInitialized ;;
  if negb init then ret (C_NOT_INITIALIZED, serial)
  else
    BeginTransactionML nSlot ;;;
    x1 <- SelectML 0x3f00 nSlot ;;
    serial' <-
      (if negb (x1 =? C_OK) then ret serial      (* rv = C_FILE_NOT_FOUND *)
       else
         x2 <- SelectML 0x2f02 nSlot ;;
         if negb (x2 =? C_OK) then ret serial    (* rv = C_FILE_NOT_FOUND *)
         else
           r <- ReadBinaryML 0 (Some (repeat 0 26)) (Some 26) nSlot ;;
           let '(x3, ef_gdo, _) := r in
           if negb (x3 =? C_OK) then ret serial  (* rv = C_GENERIC_ERROR *)
           else
             ret (memcpy_at serial 0
                    (skipn 18 (match ef_gdo with Some g => g | None => [] end))
                    8)) ;;
    EndTransactionML nSlot ;;;
    ret (C_OK, serial').

(** [ReadRecordML(nRec, Buffer, Len, nSlot)] *)
Definition ReadRecordML (nRec : Z) (Buffer : option (list Z))
    (Len : option Z) (nSlot : Z) : M (Z * option (list Z) * option Z) :=
  init <- IsInitialized ;;
  if negb init then ret (C_NOT_INITIALIZED, Buffer, Len)
  else
    match Buffer, Len with
    | None, None => ret (C_GENERIC_ERROR, Buffer, Len)
    | _, None => ret (C_WRONG_LENGTH, Buffer, Len)
    | _, Some len =>
        if 255 <? len then ret (C_WRONG_LENGTH, Buffer, Len)
        else if 255 <? nRec then ret (C_RECORD_NOT_FOUND, Buffer, Len)
        else
          BeginTransactionML nSlot ;;;
          r <- SendAPDUML nSlot
                 (Z.lor (Z.lor APDU_READRECORD 0x00000004)
                        (wrap16 (Z.shiftl nRec 8)))
                 0 (Some (wrap8 len)) [] Buffer 0 ;;
          EndTransactionML nSlot ;;;
          let '(rv, (pLe, out, SW)) := r in
          let len' :=
            match pLe with
            | Some le => Some (len - wrap8 len + le)
            | None => Len
            end in
          ret (if negb (rv =? C_OK) then rv
               else if negb (SW =? SW_OK) then SW
               else C_OK, out, len')
    end.

(** The PIN as the characters before its terminating zero. *)
Definition strlen (s : list Z) : Z := Z.of_nat (length s).

(** [memset(nPin, 0, 8); memcpy(nPin, pin, min(strlen(pin), 8))] *)
Definition nPin (pin : list Z) : list Z :=
  memcpy_at (repeat 0 8) 0 pin (Z.min (strlen pin) 8).

Definition VerifyPINML (nPIN : Z) (pin : list Z) (nSlot : Z) : M Z :=
  init <- IsInitialized ;;
  if negb init then ret C_NOT_INITIALIZED
  else if negb (nPIN =? 1) then ret C_GENERIC_ERROR
  else
    BeginTransactionML nSlot ;;;
    r1 <- SendAPDUML nSlot (Z.lor APDU_VERIFYPIN 0x00000081)
            (wrap8 (strlen pin)) None pin None 0 ;;
    let '(rv, (_, _, SW)) := r1 in
    rv <-
      (if negb (rv =? C_OK) then ret rv
       else
         r2 <-
           (if SW =? 0x6700
            then SendAPDUML nSlot (Z.lor APDU_VERIFYPIN 0x00000081) 8 None
                            (nPin pin) None SW
            else ret (rv, (None, None, SW))) ;;
         let '(rv, (_, _, SW)) := r2 in
         if negb (rv =? C_OK) then ret rv
         else if SW =? SW_AUTH_FAILED then
           r3 <- SendAPDUML nSlot (Z.lor APDU_VERIFYPIN 0x00000081) 0 None
                   [] None SW ;;
           let '(rv, (_, _, SW)) := r3 in
           if negb (rv =? C_OK) then ret rv else ret SW
         else if negb (SW =? SW_OK) then ret SW
         else ret rv) ;;
    EndTransactionML nSlot ;;;
    ret rv.

(** The [while] loop of [GetKeyIDML].  [ReadRecordML] refuses [n > 255]
    without a call to the card, so 256 rounds are the most the loop makes;
    [fuel] counts them. *)
Fixpoint key_records (fuel : nat) (n : Z) (status : list Z) (len nSlot : Z)
  : M Z :=
  match fuel with
  | O => ret 0
  | S fuel' =>
      r <- ReadRecordML n (Some status) (Some len) nSlot ;;
      let '(rv, out, len') := r in
      let status := match out with Some b => b | None => status end in
      let len := match len' with Some l => l | None => len end in
      if rv =? C_OK then
        if byte_at status 0 =? 1 then ret (wrap8 (n + 128))
        else key_records fuel' (n + 1) status (if 1 <? len then 1 else len)
                         nSlot
      else ret 0
  end.

Definition GetKeyIDML (nSlot : Z) : M Z :=
  BeginTransactionML nSlot ;;;
  x1 <- SelectML 0x0000 nSlot ;;
  brv <-
    (if negb (x1 =? C_OK) then ret 0
     else
       x2 <- SelectML 0x1111 nSlot ;;
       if negb (x2 =? C_OK) then ret 0
       else
         x3 <- SelectML 0x5f02 nSlot ;;
         if negb (x3 =? C_OK) then ret 0
         else key_records 256 1 [0] 1 nSlot) ;;
  EndTransactionML nSlot ;;;
  ret brv.

(** [GetCert(fid, cert, dim, nSlot)]: the value returned, the bytes at
    [cert] and [*dim] after the call. *)
Definition GetCert (fid : Z) (cert : option (list Z)) (dim nSlot : Z)
  : M (Z * option (list Z) * Z) :=
  rv <- SelectML fid nSlot ;;
  if negb (rv =? C_OK) then ret (C_GENERIC_ERROR, cert, dim)
  else
    r <- ReadBinaryML 0 (Some [0; 0]) (Some 2) nSlot ;;
    let '(rv, dimBuff, q) := r in
    let dimBuff := match dimBuff with Some b => b | None => [0; 0] end in
    let q := match q with Some q => q | None => 2 end in
    if negb (rv =? C_OK) || (q <? 2) then ret (C_GENERIC_ERROR, cert, dim)
    else
      let dd := Z.lor (Z.shiftl (byte_at dimBuff 1) 8) (byte_at dimBuff 0) in
      if dim <? dd then ret (C_WRONG_LEN, cert, dd)
      else
        match cert with
        | Some _ =>
            r <- ReadBinaryML 2 cert (Some dd) nSlot ;;
            let '(rv, cert', dim') := r in
            let dim' := match dim' with Some l => l | None => dd end in
            if negb (rv =? C_OK) then ret (C_GENERIC_ERROR, cert', dim')
            else ret (C_OK, cert', dim')
        | None => ret (C_OK, cert, dd)
        end.

Definition GetCertificateML (cert : option (list Z)) (dim : option Z)
    (nSlot : Z) : M (Z * option (list Z) * option Z) :=
  match dim with
  | None => ret (C_GENERIC_ERROR, cert, dim)
  | Some d =>
      BeginTransactionML nSlot ;;;
      k <- GetKeyIDML nSlot ;;
      let k := wrap8 (k - 128) in
      out <-
        (if k <=? 0 then ret (C_GENERIC_ERROR, cert, dim)
         else
           let fidcert := wrap16 (Z.lor (Z.shiftl (0x1a + k - 1) 8) 2) in
           r <- GetCert fidcert cert d nSlot ;;
           let '(rv, cert', d') := r in
           ret (rv, cert', Some d')) ;;
      EndTransactionML nSlot ;;;
      ret out
  end.

(** [Padding(toPad, Len, Padded)]: the bytes stored from [Padded] on. *)
Definition Padding (toPad : list Z) (Len : Z) : list Z :=
  [0; 1] ++ repeat 255 (Z.to_nat (128 - Len - 3)) ++ [0]
  ++ firstn (Z.to_nat Len) toPad.

(** [SignML(kx, toSign, Signed, nSlot)]: the value returned and the bytes
    at [Signed] after the call. *)
Definition SignML (kx : Z) (toSign Signed : list Z) (nSlot : Z)
  : M (Z * list Z) :=
  init <- IsInitialized ;;
  if negb init then ret (C_NOT_INITIALIZED, Signed)
  else if 255 <? kx then ret (C_UNKNOWN_OBJECT, Signed)
  else
    BeginTransactionML nSlot ;;;
    x1 <- SelectML FID_MF nSlot ;;
    out <-
      (if negb (x1 =? C_OK) then ret (C_FILE_NOT_FOUND, Signed)
       else
         x2 <- SelectML FID_SIAE_APP_DOMAIN nSlot ;;
         if negb (x2 =? C_OK) then ret (C_FILE_NOT_FOUND, Signed)
         else
           x3 <- SelectML FID_P11_APP_DOMAIN nSlot ;;
           if negb (x3 =? C_OK) then ret (C_FILE_NOT_FOUND, Signed)
           else
             let pSendMSE := [0x83; 0x01; wrap8 kx] in
             r0 <- SendAPDUML nSlot APDU_MSE_RESTORE 0 None [] None 0 ;;
             let '(_, (_, _, SW)) := r0 in
             r1 <- SendAPDUML nSlot APDU_MSE 3 None pSendMSE None SW ;;
             let '(rv, (_, _, SW)) := r1 in
             if negb (rv =? C_OK) then ret (rv, Signed)
             else if negb (SW =? SW_OK) then ret (SW, Signed)
             else
               let pSendSGN := 0 :: firstn 128 toSign in
               r2 <- SendAPDUML nSlot APDU_SIGN 129 (Some 128) pSendSGN
                       (Some Signed) SW ;;
               let '(rv, (_, out, SW)) := r2 in
               let Signed := match out with Some b => b | None => Signed end in
               if negb (rv =? C_OK) then ret (rv, Signed)
               else if negb (SW =? SW_OK) then ret (SW, Signed)
               else ret (rv, Signed)) ;;
    EndTransactionML nSlot ;;;
    ret out.

(** *** Vocabulary of the properties *)

(** The VERIFY command for PIN 1 as it goes to the card: the header
    00 20 00 81, then [Lc] and the data when [Lc] is not 0, then the zero
    that [SendAPDUML] appends for a null [pLe]. *)
Definition VERIFY (Lc : Z) (data : list Z) : list Z :=
  [0x00; 0x20; 0x00; 0x81] ++ (if Lc =? 0 then [] else Lc :: data) ++ [0x00].

(** What [VerifyPINML] is to do when the card answers every command, in
    the words of the amended claim: the commands sent and the value
    returned, from the status words [sw1], [sw2], [sw3] of the answers in
    the order they come. *)
Definition verify_pin_outcome (pin : list Z) (sw1 sw2 sw3 : Z)
  : list (list Z) * Z :=
  let first := VERIFY (strlen pin) pin in
  let padded := VERIFY 8 (firstn 8 (pin ++ repeat 0 8)) in
  let query := VERIFY 0 [] in
  if sw1 =? 0x6700 then
    if sw2 =? 0x6300 then ([first; padded; query], sw3)
    else ([first; padded], if sw2 =? 0x9000 then C_OK else sw2)
  else if sw1 =? 0x6300 then ([first; query], sw2)
  else ([first], if sw1 =? 0x9000 then C_OK else sw1).

(** One of the three steps of [GetSNML] fails: the SELECT of the master
    file, the SELECT of EF GDO, or the READ BINARY of its 26 bytes. *)
Definition gdo_read_fails (nSlot : Z) (s : lib_state) : Prop :=
  let s0 := snd (BeginTransactionML nSlot s) in
  let r1 := SelectML 0x3f00 nSlot s0 in
  fst r1 <> C_OK
  \/ (let r2 := SelectML 0x2f02 nSlot (snd r1) in
      fst r2 <> C_OK
      \/ (let r3 :=
            ReadBinaryML 0 (Some (repeat 0 26)) (Some 26) nSlot (snd r2) in
          fst (fst (fst r3)) <> C_OK)).



(** [memset(sBuff,0x00,16); memcpy(sBuff,first,strlen(first));
    memcpy(sBuff+8,second,strlen(second))] of [ChangePINML] and
    [UnblockPINML].  [sBuff] has 256 bytes; those past the sixteenth are
    not initialised, and show as zeros. *)
Definition pin_buffer (first second : list Z) : list Z :=
  memcpy_at (memcpy_at (repeat 0 256) 0 first (strlen first))
            8 second (strlen second).

Definition APDU_CRD : Z := 0x00240000.
Definition APDU_READ_COUNTER : Z := 0x00320001.
Definition APDU_CMP_SIGILLO : Z := 0x00328312.
Definition FID_SIAE_CNT_DOMAIN : Z := 0x1112.
Definition FID_EF_CNT : Z := 0x1000.
Definition FID_EF_BALANCE_CNT : Z := 0x1001.

Definition ChangePINML (nPIN : Z) (Oldpin Newpin : list Z) (nSlot : Z)
  : M Z :=
  init <- IsInitialized ;;
  if negb init then ret C_NOT_INITIALIZED
  else if negb (nPIN =? 1) then ret C_GENERIC_ERROR
  else
    let sBuff := pin_buffer Oldpin Newpin in
    BeginTransactionML nSlot ;;;
    r1 <- SendAPDUML nSlot (Z.lor APDU_CRD 0x00000081) 16 None sBuff None 0 ;;
    let '(rv, (_, _, SW)) := r1 in
    rv <-
      (if negb (rv =? C_OK) then ret rv
       else if SW =? SW_AUTH_FAILED then
         r2 <- SendAPDUML nSlot (Z.lor APDU_VERIFYPIN 0x00000081) 0 None
                 [] None SW ;;
         let '(rv, (_, _, SW)) := r2 in
         if negb (rv =? C_OK) then ret rv else ret SW
       else if negb (SW =? SW_OK) then ret SW
       else ret rv) ;;
    EndTransactionML nSlot ;;;
    ret rv.


(** [(DWORD)(tmp[0]<<24|tmp[1]<<16|tmp[2]<<8|tmp[3])], and the same value
    stored through a [DWORD*].  The bytes are promoted to [int], so the
    expression is an [int] of 32 bits, negative when bit 7 of [tmp[0]] is
    set (the shift into the sign bit gives what two's complement does).
    [DWORD] is an [unsigned long] of [DWORD_bits] bits, 32 with the
    Windows headers and 64 with those of PC/SC lite on a 64-bit Linux, and
    the conversion of the [int] to it extends the sign. *)
Definition dword_of (DWORD_bits : Z) (tmp : list Z) : Z :=
  int32 (Z.lor (Z.lor (Z.lor (Z.shiftl (byte_at tmp 0) 24)
                             (Z.shiftl (byte_at tmp 1) 16))
                      (Z.shiftl (byte_at tmp 2) 8))
               (byte_at tmp 3))
  mod 2 ^ DWORD_bits.

(** [ReadCounterML] and [ReadBalanceML] are the same text but for the
    file selected last, [fid].  [value] is [*value] and [tmp] the four
    bytes of the local array as the call finds them (nothing initialises
    them); the result is the value returned and [*value] after the
    call. *)
Definition read_counter_file (DWORD_bits fid : Z) (value : Z)
    (tmp : list Z) (nSlot : Z) : M (Z * Z) :=
  init <- IsInitialized ;;
  if negb init then ret (C_NOT_INITIALIZED, value)
  else
    BeginTransactionML nSlot ;;;
    x1 <- SelectML FID_MF nSlot ;;
    out <-
      (if negb (x1 =? C_OK) then ret (C_FILE_NOT_FOUND, value)
       else
         x2 <- SelectML FID_SIAE_APP_DOMAIN nSlot ;;
         if negb (x2 =? C_OK) then ret (C_FILE_NOT_FOUND, value)
         else
           x3 <- SelectML FID_SIAE_CNT_DOMAIN nSlot ;;
           if negb (x3 =? C_OK) then ret (C_FILE_NOT_FOUND, value)
           else
             x4 <- SelectML fid nSlot ;;
             if negb (x4 =? C_OK) then ret (C_FILE_NOT_FOUND, value)
             else
               r <- SendAPDUML nSlot APDU_READ_COUNTER 0 (Some 4) []
                      (Some tmp) 0 ;;
               let '(rv, (len, out, SW)) := r in
               let len := match len with Some l => l | None => 4 end in
               let tmp := match out with Some t => t | None => tmp end in
               if negb (rv =? C_OK) then ret (rv, value)
               else if negb (SW =? SW_OK) then ret (SW, value)
               else if negb (len =? 4) then ret (C_WRONG_LENGTH, value)
               else ret (rv, dword_of DWORD_bits tmp)) ;;
    EndTransactionML nSlot ;;;
    ret out.

Definition ReadCounterML (DWORD_bits value : Z) (tmp : list Z) (nSlot : Z)
  : M (Z * Z) :=
  read_counter_file DWORD_bits FID_EF_CNT value tmp nSlot.

Definition ReadBalanceML (DWORD_bits value : Z) (tmp : list Z) (nSlot : Z)
  : M (Z * Z) :=
  read_counter_file DWORD_bits FID_EF_BALANCE_CNT value tmp nSlot.

(** [pSend] of the seal commands after the challenge is prepared; its 22
    bytes are not initialised before, and show as zeros where no store
    reaches. *)
Definition challenge (SN Data_Ora : list Z) (Prezzo : Z) : list Z :=
  let pSend := memcpy_at (repeat 0 22) 0 [0x00; 0x01] 2 in
  let pSend := memcpy_at pSend 2 SN 8 in
  let pSend := memcpy_at pSend 10 Data_Ora 8 in
  let pSend := <[18%nat := wrap8 (Z.shiftr (Z.land Prezzo 0xff000000) 24)]> pSend in
  let pSend := <[19%nat := wrap8 (Z.shiftr (Z.land Prezzo 0x00ff0000) 16)]> pSend in
  let pSend := <[20%nat := wrap8 (Z.shiftr (Z.land Prezzo 0x0000ff00) 8)]> pSend in
  <[21%nat := wrap8 (Z.land Prezzo 0x000000ff)]> pSend.

(** The command of [ComputeSigilloML] and [ComputeSigilloFastML] and the
    stores after it: the value of [rv], the bytes at [mac] and [*cnt].
    [tmp] is the local array of 12 bytes as the call finds it. *)
Definition send_challenge (DWORD_bits : Z) (Data_Ora : list Z) (Prezzo : Z)
    (SN mac : list Z) (cnt : Z) (tmp : list Z) (nSlot : Z)
  : M (Z * list Z * Z) :=
  r <- SendAPDUML nSlot APDU_CMP_SIGILLO 22 (Some 12)
         (challenge SN Data_Ora Prezzo) (Some tmp) 0 ;;
  let '(rv, (_, out, SW)) := r in
  let tmp := match out with Some t => t | None => tmp end in
  if negb (rv =? C_OK) then ret (rv, mac, cnt)
  else if negb (SW =? SW_OK) then ret (SW, mac, cnt)
  else ret (rv, memcpy_at mac 0 (skipn 4 tmp) 8, dword_of DWORD_bits tmp).

Definition ComputeSigilloML (DWORD_bits : Z) (Data_Ora : list Z)
    (Prezzo : Z) (SN mac : list Z) (cnt : Z) (tmp : list Z) (nSlot : Z)
  : M (Z * list Z * Z) :=
  init <- IsInitialized ;;
  if negb init then ret (C_NOT_INITIALIZED, mac, cnt)
  else
    BeginTransactionML nSlot ;;;
    x1 <- SelectML FID_MF nSlot ;;
    out <-
      (if negb (x1 =? C_OK) then ret (C_FILE_NOT_FOUND, mac, cnt)
       else
         x2 <- SelectML FID_SIAE_APP_DOMAIN nSlot ;;
         if negb (x2 =? C_OK) then ret (C_FILE_NOT_FOUND, mac, cnt)
         else
           x3 <- SelectML FID_SIAE_CNT_DOMAIN nSlot ;;
           if negb (x3 =? C_OK) then ret (C_FILE_NOT_FOUND, mac, cnt)
           else
             x4 <- SelectML FID_EF_CNT nSlot ;;
             if negb (x4 =? C_OK) then ret (C_FILE_NOT_FOUND, mac, cnt)
             else send_challenge DWORD_bits Data_Ora Prezzo SN mac cnt tmp
                                 nSlot) ;;
    EndTransactionML nSlot ;;;
    ret out.

(** [sn] is the local array of 8 bytes as the call finds it. *)
Definition ComputeSigilloExML (DWORD_bits : Z) (Data_Ora : list Z)
    (Prezzo : Z) (mac : list Z) (cnt : Z) (sn tmp : list Z) (nSlot : Z)
  : M (Z * list Z * Z) :=
  init <- IsInitialized ;;
  if negb init then ret (C_NOT_INITIALIZED, mac, cnt)
  else
    BeginTransactionML nSlot ;;;
    r <- GetSNML sn nSlot ;;
    let '(rv, sn) := r in
    out <-
      (if negb (rv =? C_OK) then ret (rv, mac, cnt)
       else ComputeSigilloML DWORD_bits Data_Ora Prezzo sn mac cnt tmp
                             nSlot) ;;
    EndTransactionML nSlot ;;;
    ret out.

Definition ComputeSigilloFastML (DWORD_bits : Z) (Data_Ora : list Z)
    (Prezzo : Z) (SN mac : list Z) (cnt : Z) (tmp : list Z) (nSlot : Z)
  : M (Z * list Z * Z) :=
  BeginTransactionML nSlot ;;;
  out <- send_challenge DWORD_bits Data_Ora Prezzo SN mac cnt tmp nSlot ;;
  EndTransactionML nSlot ;;;
  ret out.

(** [GetCACertificateML] and [GetSIAECertificateML] are the same text but
    for [fidcert]; [dim] is [*dim]. *)
Definition get_fixed_certificate (fidcert : Z) (cert : option (list Z))
    (dim nSlot : Z) : M (Z * option (list Z) * Z) :=
  BeginTransactionML nSlot ;;;
  SelectML 0x3f00 nSlot ;;;
  SelectML 0x0000 nSlot ;;;
  SelectML 0x1111 nSlot ;;;
  out <- GetCert fidcert cert dim nSlot ;;
  EndTransactionML nSlot ;;;
  ret out.

Definition GetCACertificateML (cert : option (list Z)) (dim nSlot : Z)
  : M (Z * option (list Z) * Z) :=
  get_fixed_certificate 0x4101 cert dim nSlot.

Definition GetSIAECertificateML (cert : option (list Z)) (dim nSlot : Z)
  : M (Z * option (list Z) * Z) :=
  get_fixed_certificate 0x4102 cert dim nSlot.

(** CHANGE REFERENCE DATA for PIN 1 as it goes to the card: the header
    00 24 00 81, Lc = 16, the field of the old PIN and the field of the
    new one, and the zero that [SendAPDUML] appends. *)
Definition CHANGE_PIN (old_field new_field : list Z) : list Z :=
  [0x00; 0x24; 0x00; 0x81; 0x10] ++ old_field ++ new_field ++ [0x00].

(** SELECT by file identifier as [SelectML] sends it; [SendAPDUML] appends
    no Le to the instruction A4. *)
Definition SELECT (fid : Z) : list Z :=
  [0x00; 0xa4; 0x00; 0x00; 0x02;
   wrap8 (Z.shiftr (Z.land fid 0xff00) 8); wrap8 (Z.land fid 0x00ff)].

(** The command of [ReadCounterML] and [ReadBalanceML], Le = 4. *)
Definition READ_COUNTER : list Z := [0x00; 0x32; 0x00; 0x01; 0x04].

(** Four bytes read as a counter, most significant byte first, the way
    the code computes it: through an [int].  With the first byte at 128 or
    above the [int] is negative, and in a [DWORD] of more than 32 bits its
    sign fills the bits above the thirty-second. *)
Definition counter_value (DWORD_bits b0 b1 b2 b3 : Z) : Z :=
  b0 * 16777216 + b1 * 65536 + b2 * 256 + b3
  + (if 128 <=? b0 then 2 ^ DWORD_bits - 4294967296 else 0).

(** What [ReadCounterML] and [ReadBalanceML] return and leave in [*value]
    when the card answers the command 9000 with the bytes [data]. *)
Definition counter_outcome (DWORD_bits value : Z) (tmp data : list Z)
  : Z * Z :=
  match data with
  | [] => (C_OK, dword_of DWORD_bits tmp)
  | b0 :: b1 :: b2 :: b3 :: _ =>
      (C_OK, counter_value DWORD_bits b0 b1 b2 b3)
  | _ => (C_WRONG_LENGTH, value)
  end.

(** The four bytes of a 32-bit value, most significant first. *)
Definition be32 (x : Z) : list Z :=
  [x / 16777216 mod 256; x / 65536 mod 256; x / 256 mod 256; x mod 256].

(** The seal command as it goes to the card: the header 00 32 83 12,
    Lc = 22, the challenge, Le = 12. *)
Definition SIGILLO (c : list Z) : list Z :=
  [0x00; 0x32; 0x83; 0x12; 0x16] ++ c ++ [0x0C].

(** READ BINARY at the offset [off] for [le] bytes, as it goes to the
    card. *)
Definition READ_BINARY (off le : Z) : list Z :=
  [0x00; 0xb0; off / 256; off mod 256; le].

(** The commands that read a file piece by piece from the offset [off]
    on, one for each piece. *)
Fixpoint read_commands (off : Z) (pieces : list (list Z))
  : list (list Z) :=
  match pieces with
  | [] => []
  | p :: ps =>
      READ_BINARY off (Z.of_nat (length p))
      :: read_commands (off + Z.of_nat (length p)) ps
  end.

(** A file as the card hands it out: blocks of [EXCHANGE_BUFFER] bytes
    and, when it is not empty, a shorter piece at the end. *)
Definition pieces (blocks : list (list Z)) (tail : list Z)
  : list (list Z) :=
  blocks ++ match tail with [] => [] | _ => [tail] end.

(** READ RECORD for the record [n] in the current file, [le] bytes, as
    [ReadRecordML] sends it. *)
Definition READ_RECORD (n le : Z) : list Z := [0x00; 0xb2; n; 0x04; le].

(** The commands that read one byte of each of the [k] records from the
    record [n] on. *)
Definition record_commands (n : Z) (k : nat) : list (list Z) :=
  map (fun i => READ_RECORD (n + Z.of_nat i) 1) (seq 0 k).

(** The three commands of a signature as they go to the card: MSE
    RESTORE, MSE SET with the key reference [kx], and PSO with the block
    to sign after a zero byte, Le = 128. *)
Definition MSE_RESTORE : list Z := [0x00; 0x22; 0xf3; 0x01; 0x00].
Definition MSE_SET (kx : Z) : list Z :=
  [0x00; 0x22; 0xf1; 0xb8; 0x03; 0x83; 0x01; kx; 0x00].
Definition PSO_SIGN (block : list Z) : list Z :=
  [0x00; 0x2a; 0x80; 0x86; 0x81; 0x00] ++ block ++ [0x80].

End Card.

(* ------------------------------------------------------------------ *)
(** ** pkcs7.cpp: the PKCS#7 SignedData builder                        *)
(* ------------------------------------------------------------------ *)

Module Pkcs7.
Import Hal Card Asn1 Der.
Local Open Scope hal_scope.

(** [struct tm], the fields that [SignDataML] reads after [gmtime]. *)
Record tm : Type := mkTm {
  tm_year : Z; tm_mon : Z; tm_mday : Z;
  tm_hour : Z; tm_min : Z; tm_sec : Z
}.

Definition DER_SEQUENCE : Z := 0 + 32 + 16.
Definition DER_INTEGER : Z := 0 + 2.
Definition DER_BIT_STRING : Z := 0 + 3.
Definition DER_CONTEXT : Z := 128 + 32.

(** [v[i].tag] for an index that the size test before it admits. *)
Definition tag_at (v : list DER_ITEM) (i : nat) : Z :=
  match nth_error v i with Some it => tag it | None => -1 end.

(** The bytes [it.value[0 .. it.len)] and [it.fvalue[0 .. it.flen)].
    [sub_slice] ends at the end of the list, where the code would read on:
    for an item that [der_parse] has returned from the slice nothing is
    cut, since such an item lies in the slice ([der_parse_tiled], and
    [item_of_slice] for the bytes). *)
Definition value_of (slice : list Z) (it : DER_ITEM) : list Z :=
  sub_slice slice (value it) (len it).
Definition fvalue_of (slice : list Z) (it : DER_ITEM) : list Z :=
  sub_slice slice (fvalue it) (flen it).

(** The part of [SignDataML] that walks the certificate: the bytes of the
    issuer (with their header) and of the serial number; [None] is
    [return FALSE]. *)
Definition issuer_and_serial (pbCertContext : list Z)
  : option (list Z * list Z) :=
  let v1 := der_parse pbCertContext in
  match v1 with
  | [] => None
  | i1 :: _ =>
      if negb (tag i1 =? DER_SEQUENCE) then None
      else
        let s1 := value_of pbCertContext i1 in
        let v2 := der_parse s1 in
        match v2 with
        | i20 :: _ =>
            if (length v2 <? 3)%nat
               || negb (tag_at v2 0 =? DER_SEQUENCE)
               || negb (tag_at v2 1 =? DER_SEQUENCE)
               || negb (tag_at v2 2 =? DER_BIT_STRING)
            then None
            else
              let s2 := value_of s1 i20 in
              let v3 := der_parse s2 in
              if (6 <? length v3)%nat
                 && (tag_at v3 0 =? DER_CONTEXT + 0)
                 && (tag_at v3 1 =? DER_INTEGER)
                 && (tag_at v3 2 =? DER_SEQUENCE)
                 && (tag_at v3 3 =? DER_SEQUENCE)
                 && (tag_at v3 4 =? DER_SEQUENCE)
                 && (tag_at v3 5 =? DER_SEQUENCE)
                 && (tag_at v3 6 =? DER_SEQUENCE)
              then
                match nth_error v3 3, nth_error v3 1 with
                | Some iss, Some sn => Some (fvalue_of s2 iss, value_of s2 sn)
                | _, _ => None
                end
              else if (5 <? length v3)%nat
                 && (tag_at v3 0 =? DER_INTEGER)
                 && (tag_at v3 1 =? DER_SEQUENCE)
                 && (tag_at v3 2 =? DER_SEQUENCE)
                 && (tag_at v3 3 =? DER_SEQUENCE)
                 && (tag_at v3 4 =? DER_SEQUENCE)
                 && (tag_at v3 5 =? DER_SEQUENCE)
              then
                match nth_error v3 2, nth_error v3 0 with
                | Some iss, Some sn => Some (fvalue_of s2 iss, value_of s2 sn)
                | _, _ => None
                end
              else None
        | [] => None
        end
  end.

(** A buffer of [size] bytes after the stores of a [GetEncoded]; a store
    outside the buffer is not shown. *)
Definition buffer_after (size : Z) (stores : list (Z * Z)) : list Z :=
  fold_left (fun buf st => slot_set buf (fst st) (snd st)) stores
            (repeat 0 (Z.to_nat size)).

(** The prefix of [Sha1Digest]. *)
Definition Sha1Digest_head : list Z :=
  [ 0x30; 0x21; 0x30; 0x09; 0x06; 0x05; 0x2b; 0x0e; 0x03; 0x02; 0x1a; 0x05;
    0x00; 0x04; 0x14 ].

Definition oid (s : string) : CAsn1Type := CAsn1Object (Some (bytes_of_string s)).

(** [SignedAttributes] as it stands at the comment "RSA of attributes". *)
Definition signed_attributes (now : tm) (payload_digest : list Z)
  : CAsn1Type :=
  let Pkcs7DataOID := oid "1.2.840.113549.1.7.1" in
  let ContentType :=
    Add (Add CAsn1Sequence (oid "1.2.840.113549.1.9.3"))
        (Add CAsn1Set Pkcs7DataOID) in
  let Time :=
    CAsn1UTCTime (wrap16 (tm_year now + 1900)) (wrap16 (tm_mon now + 1))
                 (wrap16 (tm_mday now)) (wrap16 (tm_hour now))
                 (wrap16 (tm_min now)) (wrap16 (tm_sec now)) in
  let SigningTime :=
    Add (Add CAsn1Sequence (oid "1.2.840.113549.1.9.5")) (Add CAsn1Set Time) in
  let MessageDigest :=
    Add (Add CAsn1Sequence (oid "1.2.840.113549.1.9.4"))
        (Add CAsn1Set (CAsn1OctetString (firstn 20 payload_digest))) in
  let SmimeCapabilities :=
    Add (Add (Add CAsn1Sequence
                  (Add CAsn1Sequence (oid "1.2.840.113549.3.7")))
             (Add CAsn1Sequence (oid "1.3.14.3.2.7")))
        (Add CAsn1Sequence (oid "1.2.840.113549.1.1.5")) in
  let SmimeCapabilities_attr :=
    Add (Add CAsn1Sequence (oid "1.2.840.113549.1.9.15"))
        (Add CAsn1Set SmimeCapabilities) in
  Add (Add (Add (Add CAsn1Set ContentType) SigningTime) MessageDigest)
      SmimeCapabilities_attr.

(** [ContentInfo] as it stands before the last two statements; the raw
    nodes show 0 for the class and the tag that their constructor leaves
    unset. *)
Definition content_info (pbCertContext pbToBeSigned pbIssuer pbSN : list Z)
    (SignedAttributes : CAsn1Type) (RsaEncryption : list Z) : CAsn1Type :=
  let Null := CAsn1NULL in
  let DigestAlgorithmIdentifier :=
    Add (Add CAsn1Sequence (oid "1.3.14.3.2.26")) Null in
  let EncapsulatedContentInfo :=
    Add (Add CAsn1Sequence (oid "1.2.840.113549.1.7.1"))
        (CAsn1Tagged (CAsn1OctetString pbToBeSigned) 0) in
  let Certificates :=
    CAsn1Tagged
      (SetImplicit (Add CAsn1Set (CAsn1RawData 0 0 pbCertContext false))) 0 in
  let IssuerAndSerialNumber :=
    Add (Add CAsn1Sequence (CAsn1RawData 0 0 pbIssuer false))
        (CAsn1Integer_bytes pbSN) in
  let SignatureAlgorithmIdentifier :=
    Add (Add CAsn1Sequence (oid "1.2.840.113549.1.1.1")) Null in
  let SignerInfo1 :=
    Add (Add (Add (Add (Add (Add CAsn1Sequence (CAsn1Integer_int 1))
                            IssuerAndSerialNumber)
                       DigestAlgorithmIdentifier)
                  (CAsn1Tagged (SetImplicit SignedAttributes) 0))
             SignatureAlgorithmIdentifier)
        (CAsn1OctetString (firstn 128 RsaEncryption)) in
  let SignedData :=
    Add (Add (Add (Add (Add CAsn1Sequence (CAsn1Integer_int 1))
                       (Add CAsn1Set DigestAlgorithmIdentifier))
                  EncapsulatedContentInfo)
             Certificates)
        (Add CAsn1Set SignerInfo1) in
  Add (Add CAsn1Sequence (oid "1.2.840.113549.1.7.2"))
      (CAsn1Tagged SignedData 0).

Section WithCollaborators.

(** The hash primitive of sha1.h: the 20 bytes stored, [None] for a zero
    return value. *)
Variable SHA1 : list Z -> option (list Z).

(** [SignDataML]: the value returned, [*pcbSignedBlob] when the function
    stores it, and the stores into [pbSignedBlob].  [has_blob] is
    [pbSignedBlob != NULL]. *)
Definition SignDataML (slot wKid : Z) (pbCertContext pbToBeSigned : list Z)
    (has_blob : bool) (now : tm) : M (bool * option Z * list (Z * Z)) :=
  let failed : M (bool * option Z * list (Z * Z)) := ret (false, None, []) in
  let first_digest :=
    if has_blob then SHA1 pbToBeSigned else Some (repeat 0 20) in
  match first_digest with
  | None => failed
  | Some payload_digest =>
      match issuer_and_serial pbCertContext with
      | None => failed
      | Some (pbIssuer, pbSN) =>
          let SignedAttributes := signed_attributes now payload_digest in
          signature <-
            (if has_blob then
               let cbToBeEncrypted := GetEncodedLength SignedAttributes in
               let '(ok, stores) := GetEncoded SignedAttributes 0 in
               if negb ok then ret None
               else
                 match SHA1 (firstn (Z.to_nat cbToBeEncrypted)
                               (buffer_after cbToBeEncrypted stores)) with
                 | None => ret None
                 | Some attrs_digest =>
                     let Sha1Digest :=
                       Sha1Digest_head ++ firstn 20 attrs_digest in
                     let Padded :=
                       memcpy_at (repeat 0 256) 0 (Padding Sha1Digest 35) 128 in
                     r <- SignML wKid Padded (repeat 0 256) slot ;;
                     let '(rv, RsaEncryption) := r in
                     if negb (rv =? C_OK) then ret None
                     else ret (Some RsaEncryption)
                 end
             else ret (Some (repeat 0 256))) ;;
          match signature with
          | None => failed
          | Some RsaEncryption =>
              let ContentInfo :=
                content_info pbCertContext pbToBeSigned pbIssuer pbSN
                             SignedAttributes RsaEncryption in
              ret (true, Some (GetEncodedLength ContentInfo),
                   if has_blob then snd (GetEncoded ContentInfo 0) else [])
          end
      end
  end.

(** How a call of [PKCS7SignML] ends: it returns a value (with the bytes
    it has written to the output file, if any), or it stops in [abort()]
    at its [assert], which is compiled in unless NDEBUG is defined. *)
Inductive ending : Type :=
| Returned (value : Z) (file : option (list Z))
| Aborted.

(** [PKCS7SignML(pin, slot, szInputFileName, szOutputFileName,
    bInitialize)].  [NDEBUG] tells whether the file is compiled with
    NDEBUG defined, that is without its [assert]s; [input] is the content
    of the input file ([None] when it cannot be opened and read), and
    [writable] tells whether [MemWriteFile] can open the output file.
    [risultato] is an [unsigned short]. *)
Definition PKCS7SignML (NDEBUG : bool) (pin : list Z) (slot : Z)
    (input : option (list Z)) (writable bInitialize : bool) (now : tm)
  : M ending :=
  match input with
  | None => ret (Returned C_GENERIC_ERROR None)
  | Some dati =>
      let lenDati := Z.of_nat (length dati) in
      iInitRes <- (if bInitialize then Initialize slot else ret C_OK) ;;
      if bInitialize && negb (iInitRes =? C_OK)
         && negb (iInitRes =? C_ALREADY_INITIALIZED)
      then ret (Returned iInitRes None)
      else
        SelectML 0x0000 slot ;;;
        SelectML 0x1111 slot ;;;
        ritorno <- VerifyPINML 1 pin slot ;;
        if negb (ritorno =? C_OK) then ret (Returned ritorno None)
        else
          kid <- GetKeyIDML slot ;;
          if kid =? 0 then ret (Returned C_GENERIC_ERROR None)
          else
            r <- GetCertificateML None (Some 0) slot ;;
            let '(ritorno, _, lenCer) := r in
            let lenCer := match lenCer with Some l => l | None => 0 end in
            if negb (ritorno =? C_WRONG_LEN) && negb (ritorno =? C_OK)
            then ret (Returned ritorno None)
            else
              r <- GetCertificateML
                     (Some (repeat 0 (Z.to_nat (lenCer + 1))))
                     (Some lenCer) slot ;;
              let '(ritorno, certificato, lenCer) := r in
              let lenCer := match lenCer with Some l => l | None => 0 end in
              let certificato :=
                match certificato with Some c => c | None => [] end in
              if negb (ritorno =? C_OK) then ret (Returned ritorno None)
              else
                let estimate := wrap32 (lenDati + lenCer + 128 + 1024 * 8) in
                r <- SignDataML slot kid
                       (firstn (Z.to_nat lenCer) certificato) dati true now ;;
                let '(bRes, cb, stores) := r in
                let pSignedBlob := buffer_after estimate stores in
                let dwSignedBlobLen :=
                  match cb with Some n => n | None => estimate end in
                (* assert(bRes && (dwSignedBlobLen <= ...)) *)
                if negb NDEBUG && negb (bRes && (dwSignedBlobLen <=? estimate))
                then ret Aborted
                else
                  let risultato := if bRes then C_OK else C_GENERIC_ERROR in
                  let '(risultato, file) :=
                    if risultato =? C_OK then
                      if writable
                      then (C_OK,
                            Some (firstn (Z.to_nat dwSignedBlobLen)
                                         pSignedBlob))
                      else (C_GENERIC_ERROR, None)
                    else (risultato, None) in
                  (if bInitialize && (iInitRes =? C_OK)
                   then FinalizeML slot else ret C_OK) ;;;
                  ret (Returned (wrap16 risultato) file)
  end.

End WithCollaborators.

(** ** A card for the examples *)

(** A certificate of 22 bytes with the items that [SignDataML] looks for:
    the serial number 5, an issuer of one byte, and nothing in the other
    fields. *)
Definition example_tbs : list Z :=
  [0x30; 14; 2; 1; 5; 0x30; 0; 0x30; 1; 9; 0x30; 0; 0x30; 0; 0x30; 0].
Definition example_certificate : list Z :=
  [0x30; 20] ++ example_tbs ++ [0x30; 0; 3; 0].

(** The answers to [GetKeyIDML] of a card whose first key record is the
    active one: three SELECTs and one READ RECORD. *)
Definition key_1_answers : list (scard_rv * list Z) :=
  [answer [] 0x9000; answer [] 0x9000; answer [] 0x9000; answer [1] 0x9000].

(** The answers of a card to the commands of one [PKCS7SignML]: SW 9000
    everywhere but for VERIFY, MSE SET and PSO SIGN, which are answered
    [sw_verify], [sw_mse] and [sw_pso]. *)
Definition signing_card (sw_verify sw_mse sw_pso : Z)
  : list (scard_rv * list Z) :=
  [answer [] 0x9000; answer [] 0x9000]                 (* the two SELECTs *)
  ++ [answer [] sw_verify]
  ++ key_1_answers                                     (* GetKeyIDML *)
  ++ key_1_answers ++ [answer [] 0x9000; answer [22; 0] 0x9000]
  ++ key_1_answers
  ++ [answer [] 0x9000; answer [22; 0] 0x9000;
      answer example_certificate 0x9000]
  ++ [answer [] 0x9000; answer [] 0x9000; answer [] 0x9000;   (* SignML *)
      answer [] 0x9000; answer [] sw_mse;
      answer (repeat 0x55 128) sw_pso].

(** A hash that gives the same 20 bytes for every input. *)
Definition SHA1_stub (data : list Z) : option (list Z) :=
  Some (repeat 0xAB 20).

Definition example_time : tm := mkTm 124 0 2 3 4 5.

(** The request of the examples: the PIN 1234, slot 0, an input file that
    holds Hello, an output file that can be written, no [Initialize], on
    a library that an earlier [Initialize] has connected to the card. *)
Definition example_request (NDEBUG : bool) (sw_verify sw_mse sw_pso : Z)
  : ending :=
  fst (PKCS7SignML SHA1_stub NDEBUG (bytes_of_string "1234") 0
         (Some (bytes_of_string "Hello")) true false example_time
         (connected (signing_card sw_verify sw_mse sw_pso) [] [])).

Section Walk.

Variable ptr_bits : Z.
Variable mem : Z -> Z.

(** The walk of [SignDataML] over the certificate as the code makes it,
    on addresses: [(pbIssuer, cbIssuer)] and [(pbSN, cbSN)] as they stand
    after it.  [Some None] is [return FALSE]; [None] is a [der_parse] that
    has not ended within [fuel] rounds. *)
Definition issuer_and_serial_at (fuel : nat) (pbCertContext cbCertContext : Z)
  : option (option ((Z * Z) * (Z * Z))) :=
  match der_parse_at ptr_bits mem fuel pbCertContext cbCertContext with
  | None => None
  | Some [] => Some None
  | Some (i1 :: _) =>
      if negb (tag i1 =? DER_SEQUENCE) then Some None
      else
        match der_parse_at ptr_bits mem fuel (value i1) (len i1) with
        | None => None
        | Some [] => Some None
        | Some ((i20 :: _) as v2) =>
            if (length v2 <? 3)%nat
               || negb (tag_at v2 0 =? DER_SEQUENCE)
               || negb (tag_at v2 1 =? DER_SEQUENCE)
               || negb (tag_at v2 2 =? DER_BIT_STRING)
            then Some None
            else
              match der_parse_at ptr_bits mem fuel (value i20) (len i20) with
              | None => None
              | Some v3 =>
                  if (6 <? length v3)%nat
                     && (tag_at v3 0 =? DER_CONTEXT + 0)
                     && (tag_at v3 1 =? DER_INTEGER)
                     && (tag_at v3 2 =? DER_SEQUENCE)
                     && (tag_at v3 3 =? DER_SEQUENCE)
                     && (tag_at v3 4 =? DER_SEQUENCE)
                     && (tag_at v3 5 =? DER_SEQUENCE)
                     && (tag_at v3 6 =? DER_SEQUENCE)
                  then
                    match nth_error v3 3, nth_error v3 1 with
                    | Some iss, Some sn =>
                        Some (Some ((fvalue iss, flen iss), (value sn, len sn)))
                    | _, _ => Some None
                    end
                  else if (5 <? length v3)%nat
                     && (tag_at v3 0 =? DER_INTEGER)
                     && (tag_at v3 1 =? DER_SEQUENCE)
                     && (tag_at v3 2 =? DER_SEQUENCE)
                     && (tag_at v3 3 =? DER_SEQUENCE)
                     && (tag_at v3 4 =? DER_SEQUENCE)
                     && (tag_at v3 5 =? DER_SEQUENCE)
                  then
                    match nth_error v3 2, nth_error v3 0 with
                    | Some iss, Some sn =>
                        Some (Some ((fvalue iss, flen iss), (value sn, len sn)))
                    | _, _ => Some None
                    end
                  else Some None
              end
        end
  end.

(** The bytes that the constructors of [Issuer] and [SerialNumber] copy
    from the two places. *)
Definition copied (r : (Z * Z) * (Z * Z)) : list Z * list Z :=
  (bytes_at mem (fst (fst r)) (snd (fst r)),
   bytes_at mem (fst (snd r)) (snd (snd r))).

End Walk.

(** The place [(p, n)] lies in the [cb] bytes at [pb]. *)
Definition inside (pb cb : Z) (place : Z * Z) : Prop :=
  pb <= fst place /\ 0 <= snd place /\ fst place + snd place <= pb + cb.

(** The certificate of the examples at the address 0x2000. *)
Definition example_memory : Z -> Z :=
  memory_with 0x2000 example_certificate.

End Pkcs7.

(* ================================================================== *)
(** * Part II: the properties                                          *)
(* ================================================================== *)

(** ** Checking a property of every byte, or of every index below a bound,
       by running it *)

Lemma forallb_range (P : Z -> bool) (n : nat) :
  forallb P (map Z.of_nat (seq 0 n)) = true ->
  forall i, 0 <= i < Z.of_nat n -> P i = true.
Proof.
  intros H i Hi.
  rewrite forallb_forall in H.
  apply H. apply in_map_iff. exists (Z.to_nat i). split.
  - lia.
  - apply in_seq. lia.
Qed.

(* ------------------------------------------------------------------ *)
(** ** Quoted-printable                                                *)
(* ------------------------------------------------------------------ *)

Module QuotedPrintableFacts.
Import QuotedPrintable.

(** A run of characters that are copied as they are: below 72 columns
    nothing is inserted. *)
Lemma plain_run_prefix (c : Z) (n : nat) (r : list Z) (i len k : Z) :
  must_quote c = false -> c <> 32 -> k + Z.of_nat n < 72 ->
  qp_loop (repeat c n ++ r) i len k
  = repeat c n ++ qp_loop r (i + Z.of_nat n) len (k + Z.of_nat n).
Proof.
  intros Hq Hc. revert i k.
  induction n as [|n IH]; intros i k Hk.
  - cbn [repeat app Z.of_nat]. f_equal; lia.
  - cbn [repeat app qp_loop].
    destruct (Z.eqb_spec c 32) as [->|_]; [contradiction|].
    cbn [andb]. rewrite Hq.
    destruct (Z.leb_spec 72 (k + 1)); [lia|].
    cbn [app]. f_equal. rewrite IH by lia. f_equal. f_equal; lia.
Qed.

(** After 72 such characters the encoder puts the soft line break and
    starts a new line. *)
Lemma plain_run_breaks_at_72 (c : Z) (rest : list Z) (i len : Z) :
  must_quote c = false -> c <> 32 ->
  qp_loop (repeat c 72 ++ rest) i len 0
  = repeat c 72 ++ soft_break ++ qp_loop rest (i + 72) len 0.
Proof.
  intros Hq Hc.
  change (repeat c 72) with (repeat c 71 ++ [c]).
  rewrite <- !app_assoc. rewrite plain_run_prefix by (auto; lia).
  f_equal.
  cbn [app qp_loop].
  destruct (Z.eqb_spec c 32) as [->|_]; [contradiction|].
  cbn [andb]. rewrite Hq.
  replace (0 + Z.of_nat 71 + 1) with 72 by lia.
  cbn [Z.leb Z.compare Pos.compare Pos.compare_cont app].
  unfold soft_break. cbn [app].
  replace (i + Z.of_nat 71 + 1) with (i + 72) by lia. reflexivity.
Qed.

(** C9, as the specification states it, fails on its third scenario: the
    encoding of 80 'A' is not 70 'A', the soft line break, 10 'A'. *)
Lemma eighty_A_not_broken_after_70 :
  StringToQuotedPrintable eighty_A
  <> repeat 65 70 ++ soft_break ++ repeat 65 10.
Proof. vm_compute. discriminate. Qed.

(** C9, amended: the byte 0xA0 encodes to "=A0", the byte '=' to "=3D",
    and 80 'A' encode to 72 'A', the soft line break "=\r\n", then the
    remaining 8 'A': the line is broken when the counter reaches 72. *)
Theorem quoted_printable_scenarios :
  StringToQuotedPrintable [0xA0] = bytes_of_string "=A0"
  /\ StringToQuotedPrintable [61] = bytes_of_string "=3D"
  /\ StringToQuotedPrintable eighty_A
     = repeat 65 72 ++ soft_break ++ repeat 65 8.
Proof. repeat split; vm_compute; reflexivity. Qed.

Lemma hex_upper_digit (d : Z) :
  0 <= d < 16 -> 48 <= hex_upper d <= 70.
Proof. unfold hex_upper. destruct (Z.ltb_spec d 10); lia. Qed.

Lemma sprintf_eq_02X_digits (c : Z) :
  exists h l, sprintf_eq_02X c = [61; h; l] /\ 48 <= h <= 70 /\ 48 <= l <= 70.
Proof.
  unfold sprintf_eq_02X. cbv zeta.
  assert (H : 0 <= Z.land 255 c < 256).
  { rewrite Z.land_comm. change 255 with (Z.ones 8).
    rewrite Z.land_ones by lia. apply Z.mod_pos_bound. lia. }
  eexists. eexists. split; [reflexivity|].
  split; apply hex_upper_digit; Z.div_mod_to_equations; lia.
Qed.

Lemma must_quote_false (c : Z) :
  must_quote c = false -> 32 <= c <= 127.
Proof.
  unfold must_quote. intros H.
  repeat (apply orb_false_elim in H; destruct H as [H ?]).
  apply Z.ltb_ge in H. match goal with H' : (127 <? c) = false |- _ =>
    apply Z.ltb_ge in H' end. lia.
Qed.

(** What one iteration appends before the test of the line counter:
    three bytes or one, none of them a line feed, and the counter has
    gone up by as many. *)
Lemma qp_piece (c i len k : Z) :
  exists piece,
    (if (c =? 32) && (i <? len - 1) && (70 <=? k)
     then (bytes_of_string "=20", k + 3)
     else if must_quote c then (sprintf_eq_02X c, k + 3) else ([c], k + 1))
    = (piece, k + Z.of_nat (length piece))
    /\ Forall (fun b => 32 <= b <= 127) piece
    /\ (1 <= Z.of_nat (length piece) <= 3).
Proof.
  destruct ((c =? 32) && (i <? len - 1) && (70 <=? k)).
  - exists (bytes_of_string "=20"). split; [reflexivity|]. split; [|cbn; lia].
    repeat constructor; cbn; lia.
  - destruct (must_quote c) eqn:Q.
    + destruct (sprintf_eq_02X_digits c) as (h & l & -> & Hh & Hl).
      exists [61; h; l]. split; [reflexivity|]. split; [|cbn; lia].
      repeat constructor; lia.
    + apply must_quote_false in Q.
      exists [c]. split; [reflexivity|]. split; [|cbn; lia].
      repeat constructor; lia.
Qed.

Lemma qp_loop_cons (c : Z) (rest : list Z) (i len k : Z) :
  exists piece,
    Forall (fun b => 32 <= b <= 127) piece
    /\ (1 <= Z.of_nat (length piece) <= 3)
    /\ qp_loop (c :: rest) i len k
       = if 72 <=? k + Z.of_nat (length piece)
         then piece ++ [61; 13; 10] ++ qp_loop rest (i + 1) len 0
         else piece ++ qp_loop rest (i + 1) len (k + Z.of_nat (length piece)).
Proof.
  destruct (qp_piece c i len k) as (piece & E & F & L).
  exists piece. split; [exact F|]. split; [exact L|].
  cbn [qp_loop]. rewrite E. reflexivity.
Qed.

(** X12: Whatever the bytes of the input are, the value that
    [StringToQuotedPrintable] leaves in [OutString] has only bytes of
    seven bits and, of the control characters, only CR, LF and DEL: each
    byte is 13, 10 or one from 32 to 127.  DEL is among them, since the
    input byte 127 is copied as it is: the output is not all printable. *)
Theorem quoted_printable_output_bytes :
  (forall InString : list Z,
     Forall output_byte (StringToQuotedPrintable InString))
  /\ StringToQuotedPrintable [127] = [127].
Proof.
  split; [|reflexivity]. intros InString.
  unfold StringToQuotedPrintable.
  generalize (Z.of_nat (length InString)) as len.
  generalize 0 at 1 as i. generalize 0 as k.
  induction InString as [|c rest IH]; intros k i len; [constructor|].
  destruct (qp_loop_cons c rest i len k) as (piece & F & _ & ->).
  assert (Fp : Forall output_byte piece).
  { eapply Forall_impl; [exact F|]. intros b Hb. right. right. exact Hb. }
  destruct (72 <=? k + Z.of_nat (length piece)).
  - apply Forall_app. split; [exact Fp|].
    apply Forall_app. split; [|apply IH].
    repeat constructor; unfold output_byte; lia.
  - apply Forall_app. split; [exact Fp|apply IH].
Qed.

Lemma max_run_ge (l : list Z) : forall k, k <= max_run l k.
Proof.
  induction l as [|c l IH]; intros k; cbn [max_run]; [lia|].
  destruct (c =? 10); [lia|]. specialize (IH (k + 1)). lia.
Qed.

Lemma max_run_line (line post : list Z) :
  Forall (fun b => b <> 10) line ->
  forall k, k + Z.of_nat (length line) <= max_run (line ++ post) k.
Proof.
  induction 1 as [|c line Hc _ IH]; intros k; cbn [app length max_run].
  - pose proof (max_run_ge post k). lia.
  - destruct (Z.eqb_spec c 10); [contradiction|].
    specialize (IH (k + 1)). lia.
Qed.

Lemma max_run_mono (l : list Z) :
  forall a b, a <= b -> max_run l a <= max_run l b.
Proof.
  induction l as [|y l IH]; intros a b Hab; cbn [max_run]; [lia|].
  destruct (y =? 10); [lia|]. apply IH. lia.
Qed.

Lemma max_run_skip (pre l : list Z) :
  forall k, 0 <= k -> max_run l 0 <= max_run (pre ++ l) k.
Proof.
  induction pre as [|c pre IH]; intros k Hk; cbn [app max_run].
  - apply max_run_mono. exact Hk.
  - destruct (c =? 10).
    + specialize (IH 0 ltac:(lia)). lia.
    + apply IH. lia.
Qed.

Lemma max_run_piece (piece rest : list Z) :
  Forall (fun b => 32 <= b <= 127) piece ->
  forall k, max_run (piece ++ rest) k
            = max_run rest (k + Z.of_nat (length piece)).
Proof.
  induction 1 as [|c piece Hc _ IH]; intros k; cbn [app length max_run].
  - f_equal. lia.
  - destruct (Z.eqb_spec c 10); [lia|]. rewrite IH. f_equal. lia.
Qed.

(** The line under way is as long as the line counter says, and no line
    grows beyond 74 characters before its soft line break. *)
Lemma qp_loop_run (rest : list Z) :
  forall i len k, 0 <= k < 72 -> max_run (qp_loop rest i len k) k <= 76.
Proof.
  induction rest as [|c rest IH]; intros i len k Hk; [cbn [qp_loop max_run]; lia|].
  destruct (qp_loop_cons c rest i len k) as (piece & F & L & ->).
  destruct (Z.leb_spec 72 (k + Z.of_nat (length piece))).
  - rewrite (max_run_piece piece _ F). cbn [app max_run].
    change (61 =? 10) with false. change (13 =? 10) with false.
    change (10 =? 10) with true. cbv iota.
    specialize (IH (i + 1) len 0 ltac:(lia)). lia.
  - rewrite (max_run_piece piece _ F). apply IH. lia.
Qed.

(** X13: No line of the value that [StringToQuotedPrintable] leaves in
    [OutString] is longer than 75 characters: a run of bytes without a
    line feed has at most 76 bytes, the carriage return included. *)
Theorem quoted_printable_line_length (InString pre line post : list Z) :
  StringToQuotedPrintable InString = pre ++ line ++ post ->
  Forall (fun b => b <> 10) line ->
  Z.of_nat (length line) <= 76.
Proof.
  intros Hout Hline.
  pose proof (qp_loop_run InString 0 (Z.of_nat (length InString)) 0
                ltac:(lia)) as Hrun.
  fold (StringToQuotedPrintable InString) in Hrun. rewrite Hout in Hrun.
  pose proof (max_run_skip pre (line ++ post) 0 ltac:(lia)).
  pose proof (max_run_line line post Hline 0). lia.
Qed.

(** The first line of 80 'A': 72 of them and the soft line break. *)
Lemma quoted_printable_line_length_witness :
  Z.of_nat (length (repeat 65 72 ++ [61; 13])) <= 76.
Proof.
  apply (quoted_printable_line_length eighty_A [] (repeat 65 72 ++ [61; 13])
           (10 :: repeat 65 8)).
  - vm_compute. reflexivity.
  - vm_compute. repeat constructor; discriminate.
Defined.

End QuotedPrintableFacts.

(* ------------------------------------------------------------------ *)
(** ** The DER micro-parser *)
(* ------------------------------------------------------------------ *)

Module DerFacts.
Import Der.

(** What the parser reads is a byte. *)
Lemma peek_range (l : list Z) (p : Z) : 0 <= peek l p < 256.
Proof. unfold peek, wrap8. apply Z.mod_pos_bound. lia. Qed.

(** Reading a length byte moves the cursor by one and stays inside the
    slice. *)
Lemma read_length_byte_advances (l : list Z) (e : Z) (c c' : cursor) :
  read_length_byte l e c = Some c' ->
  0 <= fst (fst c) ->
  0 <= fst (fst c') /\ snd (fst c') = snd (fst c) + 1 /\ snd (fst c') <= e.
Proof.
  destruct c as [[ln der] flen]. unfold read_length_byte.
  destruct (Z.ltb_spec e (der + 1)); [discriminate|].
  intros [= <-] Hln. cbn [fst snd]. repeat split; try lia.
  apply Z.lor_nonneg. split.
  - apply Z.shiftl_nonneg. exact Hln.
  - apply peek_range.
Qed.

(** The length decoder never moves the cursor backwards and never yields
    a negative length. *)
Lemma long_length_advances (l : list Z) (e b der flen : Z) (c : cursor) :
  long_length l e b der flen = Some c ->
  0 <= fst (fst c) /\ der <= snd (fst c).
Proof.
  unfold long_length.
  repeat match goal with
  | |- context [if ?t then _ else _] => destruct t
  | |- context [read_length_byte l e ?x] =>
      let E := fresh "E" in
      destruct (read_length_byte l e x) eqn:E;
      [apply read_length_byte_advances in E; cbn [fst snd] in *; [|lia]|]
  end; try discriminate; intros [= <-]; cbn [fst snd] in *; lia.
Qed.

(** The loop ends before its fuel does: every round moves [der] forward. *)
Lemma der_parse_loop_total (fuel : nat) (l : list Z) (e der : Z)
    (v : list DER_ITEM) :
  (remaining e der < fuel)%nat ->
  exists v', der_parse_loop fuel l e der v = Some v'.
Proof.
  revert der v. induction fuel as [|fuel IH]; intros der v Hfuel; [lia|].
  cbn [der_parse_loop].
  destruct (Z.ltb_spec der e); [|eauto].
  destruct (Z.land (peek l der) 31 =? 31); [eauto|].
  destruct (Z.ltb_spec e (der + 1 + 1)); [eauto|].
  destruct (peek l (der + 1) =? 128); [eauto|].
  destruct (negb (Z.land (peek l (der + 1)) 128 =? 0)).
  - destruct (long_length l e (Z.land (peek l (der + 1)) 127) (der + 1 + 1) 2)
      as [[[ln der'] flen']|] eqn:E; [|eauto].
    apply long_length_advances in E. cbn [fst snd] in E.
    destruct (Z.ltb_spec e (der' + ln)); [eauto|].
    apply IH. unfold remaining in *. lia.
  - pose proof (peek_range l (der + 1)).
    destruct (Z.ltb_spec e (der + 1 + 1 + peek l (der + 1))); [eauto|].
    apply IH. unfold remaining in *. lia.
Qed.

(** The parser stops, with the items found so far, at an element whose
    tag number is 31 (the mark of a long tag number). *)
Lemma stops_at_high_tag_number (fuel : nat) (l : list Z) (e der : Z)
    (v : list DER_ITEM) :
  Z.land (peek l der) 31 = 31 ->
  der_parse_loop (S fuel) l e der v = Some v.
Proof.
  intros Ht. cbn [der_parse_loop]. rewrite Ht. cbn.
  destruct (der <? e); reflexivity.
Qed.

(** It stops at an element whose length byte is 0x80. *)
Lemma stops_at_indefinite_length (fuel : nat) (l : list Z) (e der : Z)
    (v : list DER_ITEM) :
  peek l (der + 1) = 128 ->
  der_parse_loop (S fuel) l e der v = Some v.
Proof.
  intros Hb. cbn [der_parse_loop]. rewrite Hb. cbn.
  repeat match goal with
  | |- context [if ?t then _ else _] => destruct t
  end; reflexivity.
Qed.

(** It stops at an element whose short-form length runs past the end. *)
Lemma stops_at_short_length_past_the_end (fuel : nat) (l : list Z)
    (e der : Z) (v : list DER_ITEM) :
  peek l (der + 1) < 128 ->
  e < der + 2 + peek l (der + 1) ->
  der_parse_loop (S fuel) l e der v = Some v.
Proof.
  intros Hshort Hpast. cbn [der_parse_loop].
  pose proof (peek_range l (der + 1)) as Hb.
  assert (Hland : Z.land (peek l (der + 1)) 128 = 0).
  { revert Hb Hshort. generalize (peek l (der + 1)). intros b Hb Hs.
    assert (H : forall i, 0 <= i < Z.of_nat 128 -> (Z.land i 128 =? 0) = true)
      by (apply forallb_range; vm_compute; reflexivity).
    apply Z.eqb_eq, H. lia. }
  rewrite Hland. cbn [Z.eqb negb].
  repeat match goal with
  | |- context [if ?t then _ else _] => destruct t eqn:?
  end; try reflexivity.
  lia.
Qed.

(** It stops at an element whose long-form length runs past the end. *)
Lemma stops_at_long_length_past_the_end (fuel : nat) (l : list Z)
    (e der ln der' flen' : Z) (v : list DER_ITEM) :
  Z.land (peek l (der + 1)) 128 <> 0 ->
  long_length l e (Z.land (peek l (der + 1)) 127) (der + 1 + 1) 2
  = Some (ln, der', flen') ->
  e < der' + ln ->
  der_parse_loop (S fuel) l e der v = Some v.
Proof.
  intros Hlong Hlen Hpast. cbn [der_parse_loop].
  destruct (Z.eqb_spec (Z.land (peek l (der + 1)) 128) 0); [contradiction|].
  cbn [negb]. rewrite Hlen.
  destruct (Z.ltb_spec e (der' + ln)); [|lia].
  repeat match goal with
  | |- context [if ?t then _ else _] => destruct t
  end; reflexivity.
Qed.

(** It stops when the slice ends inside the length bytes. *)
Lemma stops_at_cut_length_bytes (fuel : nat) (l : list Z) (e der : Z)
    (v : list DER_ITEM) :
  Z.land (peek l (der + 1)) 128 <> 0 ->
  long_length l e (Z.land (peek l (der + 1)) 127) (der + 1 + 1) 2 = None ->
  der_parse_loop (S fuel) l e der v = Some v.
Proof.
  intros Hlong Hlen. cbn [der_parse_loop].
  destruct (Z.eqb_spec (Z.land (peek l (der + 1)) 128) 0); [contradiction|].
  cbn [negb]. rewrite Hlen.
  repeat match goal with
  | |- context [if ?t then _ else _] => destruct t
  end; reflexivity.
Qed.

(** With more than four length bytes announced, no case of the [switch]
    matches: the length stays 0 and no length byte is read. *)
Lemma length_of_length_above_4_reads_nothing (l : list Z) (e b der flen : Z) :
  4 < b -> long_length l e b der flen = Some (0, der, flen).
Proof.
  intros Hb. unfold long_length.
  destruct (Z.eqb_spec b 4); [lia|].
  destruct (Z.eqb_spec b 3); [lia|].
  destruct (Z.eqb_spec b 2); [lia|].
  destruct (Z.eqb_spec b 1); [lia|].
  reflexivity.
Qed.

(** So the parser does not stop at such an element: it stores an item of
    length 0 and goes on right after the length byte. *)
Lemma continues_after_length_of_length_above_4 (fuel : nat) (l : list Z)
    (e der : Z) (v : list DER_ITEM) :
  der + 2 <= e ->
  Z.land (peek l der) 31 <> 31 ->
  peek l (der + 1) <> 128 ->
  Z.land (peek l (der + 1)) 128 <> 0 ->
  4 < Z.land (peek l (der + 1)) 127 ->
  der_parse_loop (S fuel) l e der v
  = der_parse_loop fuel l e (der + 2)
      (v ++ [mkItem (peek l der) (der + 2) 0 der 2]).
Proof.
  intros He Ht Hb Hlong H4. cbn [der_parse_loop].
  destruct (Z.ltb_spec der e); [|lia].
  destruct (Z.eqb_spec (Z.land (peek l der) 31) 31); [contradiction|].
  destruct (Z.ltb_spec e (der + 1 + 1)); [lia|].
  destruct (Z.eqb_spec (peek l (der + 1)) 128); [contradiction|].
  destruct (Z.eqb_spec (Z.land (peek l (der + 1)) 128) 0); [contradiction|].
  cbn [negb]. rewrite length_of_length_above_4_reads_nothing by exact H4.
  destruct (Z.ltb_spec e (der + 1 + 1 + 0)); [lia|].
  replace (der + 1 + 1 + 0) with (der + 2) by lia.
  replace (der + 1 + 1) with (der + 2) by lia.
  reflexivity.
Qed.

(** C8: the parser is to reject an element whose length-of-length exceeds
    4 bytes.  On the two bytes 04 85 (an OCTET STRING that announces five
    length bytes) [der_parse] yields an item, of length 0: the statement
    [if(b>4) v;] returns nothing. *)
Theorem length_of_length_5_is_accepted :
  der_parse [0x04; 0x85] = [mkItem 4 2 0 0 2].
Proof. vm_compute. reflexivity. Qed.

(** *** The items lie in the slice, one after the other *)

Lemma read_length_byte_cursor (l : list Z) (e ln der flen : Z) (c : cursor) :
  read_length_byte l e (ln, der, flen) = Some c ->
  c = (Z.lor (Z.shiftl ln 8) (peek l der), der + 1, flen + 1)
  /\ der + 1 <= e.
Proof.
  unfold read_length_byte.
  destruct (Z.ltb_spec e (der + 1)); [discriminate|].
  intros [= <-]. split; [reflexivity|lia].
Qed.

(** The length decoder reads at most four bytes, counts each of them in
    [flen], and stays inside the slice. *)
Lemma long_length_cursor (l : list Z) (e b der flen ln der' flen' : Z) :
  long_length l e b der flen = Some (ln, der', flen') ->
  0 <= ln /\ der <= der' <= der + 4 /\ flen' - flen = der' - der
  /\ (der' = der \/ der' <= e).
Proof.
  unfold long_length.
  repeat match goal with
  | |- context [if ?t then _ else _] => destruct t
  | |- context [read_length_byte l e ?x] =>
      let E := fresh "E" in
      destruct (read_length_byte l e x) as [[[? ?] ?]|] eqn:E;
      [pose proof (read_length_byte_advances _ _ _ _ E) as ?A;
       cbn [fst snd] in *;
       match type of E with
       | read_length_byte _ _ (?a, ?b0, ?c0) = _ =>
           apply read_length_byte_cursor in E; destruct E as [[= -> -> ->] ?]
       end|]
  end; try discriminate; intros [= <- <- <-]; cbn [fst snd] in *.
  all: repeat match goal with
         | H : ?P -> _ |- _ =>
             let X := fresh in
             assert (X : P) by lia; specialize (H X); clear X
         end; lia.
Qed.

(** What the loop adds to [v] from the offset [der] on. *)
Lemma der_parse_loop_tiles (fuel : nat) (l : list Z) (e : Z) :
  forall (der : Z) (v v' : list DER_ITEM),
    der_parse_loop fuel l e der v = Some v' ->
    exists w, v' = v ++ w /\ tiles der e w.
Proof.
  induction fuel as [|fuel IH]; intros der v v' H; [discriminate|].
  cbn [der_parse_loop] in H.
  assert (Stop : Some v = Some v' -> exists w, v' = v ++ w /\ tiles der e w).
  { intros [= <-]. exists []. rewrite app_nil_r. split; [reflexivity|exact I]. }
  destruct (Z.ltb_spec der e); [|auto].
  destruct (Z.land (peek l der) 31 =? 31); [auto|].
  destruct (Z.ltb_spec e (der + 1 + 1)); [auto|].
  destruct (peek l (der + 1) =? 128); [auto|].
  destruct (negb (Z.land (peek l (der + 1)) 128 =? 0)) eqn:Elong.
  - destruct (long_length l e (Z.land (peek l (der + 1)) 127) (der + 1 + 1) 2)
      as [[[ln der'] flen']|] eqn:E; [|auto].
    apply long_length_cursor in E. destruct E as (Hln & Hder & Hflen & _).
    destruct (Z.ltb_spec e (der' + ln)); [auto|].
    apply IH in H. destruct H as (w & -> & Hw).
    exists (mkItem (peek l der) der' ln der (flen' + ln) :: w).
    rewrite <- app_assoc. split; [reflexivity|].
    cbn [tiles fvalue flen len value].
    replace (der + (flen' + ln)) with (der' + ln) by lia.
    repeat split; try lia. exact Hw.
  - pose proof (peek_range l (der + 1)) as Hb.
    destruct (Z.ltb_spec e (der + 1 + 1 + peek l (der + 1))); [auto|].
    apply IH in H. destruct H as (w & -> & Hw).
    exists (mkItem (peek l der) (der + 1 + 1) (peek l (der + 1)) der
                   (2 + peek l (der + 1)) :: w).
    rewrite <- app_assoc. split; [reflexivity|].
    cbn [tiles fvalue flen len value].
    replace (der + (2 + peek l (der + 1)))
      with (der + 1 + 1 + peek l (der + 1)) by lia.
    repeat split; try lia. exact Hw.
Qed.

Lemma tiles_inside (start e : Z) (v : list DER_ITEM) :
  0 <= start -> tiles start e v ->
  Forall (fun it => 0 <= value it /\ 0 <= len it /\ value it + len it <= e) v.
Proof.
  revert start. induction v as [|it v IH]; intros start Hs Hv; [constructor|].
  destruct Hv as (H1 & H2 & H3 & H4 & H5 & Hv).
  constructor; [lia|]. apply (IH (fvalue it + flen it)); [lia|exact Hv].
Qed.

Lemma der_parse_tiled (slice : list Z) :
  tiles 0 (Z.of_nat (length slice)) (der_parse slice).
Proof.
  unfold der_parse.
  destruct (der_parse_loop (S (length slice)) slice
              (Z.of_nat (length slice)) 0 []) as [v|] eqn:E; [|exact I].
  apply der_parse_loop_tiles in E. destruct E as (w & -> & Hw). exact Hw.
Qed.

End DerFacts.

(* ------------------------------------------------------------------ *)
(** ** The DER encoder *)
(* ------------------------------------------------------------------ *)

Module Asn1Facts.
Import Asn1.

(** Induction on a tree of nodes, with the hypothesis for every child of a
    sequence or set. *)
Lemma CAsn1Type_induction (P : CAsn1Type -> Prop) :
  (forall b m_pbData, P (Leaf b m_pbData)) ->
  (forall b m_rgData, Forall P m_rgData -> P (Composite b m_rgData)) ->
  (forall b m_pData, P m_pData -> P (Tagged b m_pData)) ->
  forall n, P n.
Proof.
  intros HL HC HT. fix IH 1. intros [b dd|b cs|b c].
  - apply HL.
  - apply HC. induction cs as [|c cs IHcs]; constructor; [apply IH|exact IHcs].
  - apply HT, IH.
Qed.

(** The bytes of one [memcpy] go to consecutive addresses. *)
Lemma length_writes_at (p : Z) (bs : list Z) :
  map fst (writes_at p bs) = addresses p (length bs).
Proof.
  revert p. induction bs as [|b bs IH]; intros p; cbn; [reflexivity|].
  f_equal. apply IH.
Qed.

Lemma addresses_app (p : Z) (n m : nat) :
  addresses p (n + m) = addresses p n ++ addresses (p + Z.of_nat n) m.
Proof.
  revert p. induction n as [|n IH]; intros p.
  - cbn. f_equal. lia.
  - cbn [addresses Nat.add app]. f_equal. rewrite IH. do 2 f_equal. lia.
Qed.

(** The flag [b] of [PutDW] in a test [x | b]. *)
Lemma nz_lor_b2z (a : Z) (b : bool) : nz (Z.lor a (Z.b2z b)) = nz a || b.
Proof.
  unfold nz. destruct b; cbn [Z.b2z].
  - rewrite orb_true_r. destruct (Z.eqb_spec (Z.lor a 1) 0) as [E|]; [|reflexivity].
    apply Z.lor_eq_0_iff in E. lia.
  - rewrite Z.lor_0_r, orb_false_r. reflexivity.
Qed.

(** [PutDW] stores [DWLength] bytes, [PutSignedDW] stores
    [SignedDWLength] bytes. *)
Lemma length_PutDW (x : Z) : Z.of_nat (length (PutDW x)) = DWLength x.
Proof.
  unfold PutDW, DWLength. rewrite !nz_lor_b2z.
  destruct (nz (Z.land x 4278190080));
    [rewrite !orb_true_r; reflexivity|rewrite !orb_false_r].
  destruct (nz (Z.land x 16711680));
    [rewrite !orb_true_r; reflexivity|rewrite !orb_false_r].
  destruct (nz (Z.land x 65280)); reflexivity.
Qed.

Lemma DWLength_range (x : Z) : 1 <= DWLength x <= 4.
Proof.
  unfold DWLength.
  repeat match goal with |- context [if ?t then _ else _] => destruct t end; lia.
Qed.

Lemma length_PutSignedDW (x : Z) :
  Z.of_nat (length (PutSignedDW x)) = SignedDWLength x.
Proof.
  unfold PutSignedDW, SignedDWLength.
  destruct (signed_byte_needed x 4278190080 4286578688 8388608);
    [rewrite !orb_true_r; reflexivity|rewrite !orb_false_r].
  destruct (signed_byte_needed x 16711680 16744448 32768);
    [rewrite !orb_true_r; reflexivity|rewrite !orb_false_r].
  destruct (signed_byte_needed x 65280 65408 128); reflexivity.
Qed.

Lemma SignedDWLength_range (x : Z) : 1 <= SignedDWLength x <= 4.
Proof.
  unfold SignedDWLength.
  repeat match goal with |- context [if ?t then _ else _] => destruct t end; lia.
Qed.

(** A data length without a bit above bit 6 is stored in one byte. *)
Lemma short_form_one_byte (x : Z) :
  nz (Z.land x 0xFFFFFF80) = false -> DWLength x = 1.
Proof.
  unfold nz. intros H. apply negb_false_iff, Z.eqb_eq in H.
  assert (sub : forall m, Z.land 0xFFFFFF80 m = m -> Z.land x m = 0).
  { intros m Hm. rewrite <- Hm, Z.land_assoc, H. apply Z.land_0_l. }
  unfold DWLength, nz.
  rewrite (sub 0xFF000000), (sub 0xFF0000), (sub 0xFF00) by reflexivity.
  reflexivity.
Qed.

(** Tag numbers below 32 take one byte in the stored header, and count as
    one byte in the encoded length. *)
Lemma small_tag_one_byte (t : Z) :
  0 <= t < 32 ->
  (if nz (Z.land t 0xFFFFFFE0) then [0x1F] else []) ++ PutPackedDW t = [t]
  /\ (if t <? 31 then 1 else PackedDWLength t) = 1.
Proof.
  intros Ht.
  assert (H : forall i, 0 <= i < Z.of_nat 32 ->
            (match (if nz (Z.land i 0xFFFFFFE0) then [0x1F] else [])
                   ++ PutPackedDW i with
             | [x] => x =? i
             | _ => false
             end
             && ((if i <? 31 then 1 else PackedDWLength i) =? 1)) = true)
    by (apply forallb_range; vm_compute; reflexivity).
  specialize (H t ltac:(lia)). apply andb_prop in H as [H1 H2].
  split; [|apply Z.eqb_eq, H2].
  destruct ((if nz (Z.land t 4294967264) then [31] else []) ++ PutPackedDW t)
    as [|x [|y r]]; try discriminate.
  apply Z.eqb_eq in H1. subst. reflexivity.
Qed.

(** The header of a node with a tag number below 32: a tag byte, a
    length byte, and the bytes of a long length. *)
Lemma length_PutHeader (b : base) :
  0 <= m_dwTag b < 32 ->
  Z.of_nat (length (PutHeader b))
  = 1 + 1 + (if nz (Z.land (m_dwEncodedDataLength b) 0xFFFFFF80)
             then DWLength (m_dwEncodedDataLength b) else 0).
Proof.
  intros Ht. unfold PutHeader.
  destruct (small_tag_one_byte _ Ht) as [-> _].
  cbn [or_first]. rewrite !length_app. cbn [length].
  rewrite !Nat2Z.inj_add, length_PutDW.
  destruct (nz (Z.land (m_dwEncodedDataLength b) 4294967168)) eqn:E;
    cbn [length]; [lia|].
  rewrite (short_form_one_byte _ E). lia.
Qed.

(** [GetEncoded] of a sequence or set: the header, then the children. *)
Lemma GetEncoded_Composite (b : base) (m_rgData : list CAsn1Type) (p : Z) :
  GetEncoded (Composite b m_rgData) p
  = (let header := if m_bImplicit b then [] else PutHeader b in
     let '(ok, stores) :=
       put_children m_rgData (p + Z.of_nat (length header)) in
     (ok, writes_at p header ++ stores)).
Proof.
  cbn [GetEncoded fields].
  set (header := if m_bImplicit b then [] else PutHeader b).
  generalize (p + Z.of_nat (length header)). intros q.
  cbv zeta.
  match goal with
  | |- (let '(_, _) := ?f m_rgData q in _) = _ =>
      assert (E : forall rg r, f rg r = put_children rg r)
  end.
  { induction rg as [|c rg IH]; intros r; [reflexivity|].
    cbn [put_children]. destruct (GetEncoded c r) as [okc wc].
    destruct okc; [|reflexivity]. rewrite IH. reflexivity. }
  rewrite E. reflexivity.
Qed.

(** Without wrap-around the encoded length is the size of the header that
    [PutHeader] stores plus the data length. *)
Lemma encoded_length_in_range (b : base) :
  fields_in_range b ->
  encoded_length_of b
  = (if m_bImplicit b then 0 else Z.of_nat (length (PutHeader b)))
    + m_dwEncodedDataLength b.
Proof.
  intros [Hlen Htag]. unfold encoded_length_of.
  destruct (m_bImplicit b); [lia|].
  specialize (Htag eq_refl).
  rewrite (length_PutHeader _ Htag).
  destruct (small_tag_one_byte _ Htag) as [_ ->].
  unfold wrap32.
  pose proof (DWLength_range (m_dwEncodedDataLength b)).
  rewrite Z.mod_small; [reflexivity|].
  destruct (nz (Z.land (m_dwEncodedDataLength b) 4294967168)); lia.
Qed.

Lemma well_formed_fields (n : CAsn1Type) :
  well_formed n -> fields_in_range (fields n).
Proof. destruct n; cbn [well_formed]; intros [H _]; exact H. Qed.

Lemma GetEncodedLength_nonneg (n : CAsn1Type) :
  well_formed n -> 0 <= GetEncodedLength n.
Proof.
  intros H. apply well_formed_fields in H.
  unfold GetEncodedLength. rewrite (encoded_length_in_range _ H).
  destruct H as [Hlen _]. destruct (m_bImplicit (fields n)); lia.
Qed.

(** The cached length of a well-formed node is what the statement of the
    encoded length says: the header, absent from a node marked implicit
    (or raw), plus the data. *)
Lemma GetEncodedLength_header_plus_data (n : CAsn1Type) :
  well_formed n ->
  GetEncodedLength n
  = (if IsImplicit n then 0 else header_length (fields n))
    + m_dwEncodedDataLength (fields n).
Proof.
  intros H. apply well_formed_fields in H.
  unfold GetEncodedLength, IsImplicit.
  rewrite (encoded_length_in_range _ H).
  destruct (m_bImplicit (fields n)) eqn:Ei; [reflexivity|].
  destruct H as [Hlen Htag]. specialize (Htag Ei).
  rewrite (length_PutHeader _ Htag). unfold header_length.
  set (x := m_dwEncodedDataLength (fields n)) in *.
  destruct (Z.leb_spec x 127) as [Hs|Hl].
  - assert (E : nz (Z.land x 0xFFFFFF80) = false).
    { assert (H : forall i, 0 <= i < Z.of_nat 128 ->
                   negb (nz (Z.land i 0xFFFFFF80)) = true)
        by (apply forallb_range; vm_compute; reflexivity).
      apply negb_true_iff, H. lia. }
    rewrite E. lia.
  - assert (E : nz (Z.land x 0xFFFFFF80) = true).
    { unfold nz. apply negb_true_iff, Z.eqb_neq. intros E0.
      assert (Hb : Z.testbit (Z.land x 0xFFFFFF80) (Z.log2 x) = true).
      { rewrite Z.land_spec, Z.bit_log2 by lia. cbn [andb].
        assert (Hlog : 7 <= Z.log2 x < 32).
        { split.
          - apply Z.log2_le_pow2; lia.
          - apply Z.log2_lt_pow2; lia. }
        assert (H : forall i, 0 <= i < Z.of_nat 32 ->
                     ((i <? 7) || Z.testbit 0xFFFFFF80 i) = true)
          by (apply forallb_range; vm_compute; reflexivity).
        specialize (H (Z.log2 x) ltac:(lia)).
        destruct (Z.ltb_spec (Z.log2 x) 7); [lia|exact H]. }
      rewrite E0, Z.bits_0 in Hb. discriminate. }
    rewrite E. lia.
Qed.

(** The children of a sequence follow one another without gap or
    overlap. *)
Lemma put_children_exact (rg : list CAsn1Type) :
  Forall (fun c => well_formed c -> forall p,
            fst (GetEncoded c p) = true
            /\ map fst (snd (GetEncoded c p))
               = addresses p (Z.to_nat (GetEncodedLength c))) rg ->
  (fix all (rg : list CAsn1Type) : Prop :=
     match rg with
     | [] => True
     | c :: rg' => well_formed c /\ all rg'
     end) rg ->
  forall p,
    fst (put_children rg p) = true
    /\ map fst (snd (put_children rg p))
       = addresses p (Z.to_nat (sum_lengths rg))
    /\ 0 <= sum_lengths rg.
Proof.
  induction 1 as [|c rg Hc _ IH]; intros Hall p.
  - cbn. repeat split. lia.
  - destruct Hall as [Hwf Hall]. cbn [put_children sum_lengths fold_right].
    destruct (Hc Hwf p) as [Hok Hst].
    destruct (GetEncoded c p) as [okc wc]. cbn [fst snd] in *. subst okc.
    destruct (IH Hall (p + GetEncodedLength c)) as (Hokr & Hstr & Hsum).
    destruct (put_children rg (p + GetEncodedLength c)) as [okr wr].
    cbn [fst snd] in *. subst okr.
    pose proof (GetEncodedLength_nonneg c Hwf) as Hc0.
    fold (sum_lengths rg).
    repeat split; [|lia].
    rewrite map_app, Hst, Hstr.
    rewrite Z2Nat.inj_add by lia. rewrite addresses_app.
    rewrite Z2Nat.id by lia. reflexivity.
Qed.

(** For a well-formed tree, [GetEncoded] succeeds and stores one byte at
    each of the [GetEncodedLength] addresses from [pbDest] on, in order. *)
Lemma GetEncoded_stores_encoded_length (n : CAsn1Type) :
  well_formed n ->
  forall pbDest,
    fst (GetEncoded n pbDest) = true
    /\ map fst (snd (GetEncoded n pbDest))
       = addresses pbDest (Z.to_nat (GetEncodedLength n)).
Proof.
  induction n as [b dd|b cs IH|b c IH] using CAsn1Type_induction;
    intros Hwf p; pose proof (well_formed_fields _ Hwf) as Hf;
    unfold GetEncodedLength; rewrite (encoded_length_in_range _ Hf);
    cbn [fields] in *.
  - destruct Hwf as [_ Hlen]. cbn [GetEncoded fields fst snd].
    split; [reflexivity|].
    rewrite Hlen, Nat2Z.id, firstn_all.
    rewrite map_app, !length_writes_at.
    set (header := if m_bImplicit b then [] else PutHeader b).
    replace (Z.to_nat ((if m_bImplicit b then 0
                        else Z.of_nat (length (PutHeader b)))
                       + Z.of_nat (length dd)))
      with (length header + length dd)%nat
      by (subst header; destruct (m_bImplicit b); cbn [length]; lia).
    rewrite addresses_app. reflexivity.
  - destruct Hwf as [_ [Hlen Hall]]. rewrite GetEncoded_Composite. cbv zeta.
    set (header := if m_bImplicit b then [] else PutHeader b).
    destruct (put_children_exact cs IH Hall (p + Z.of_nat (length header)))
      as (Hok & Hst & Hsum).
    destruct (put_children cs (p + Z.of_nat (length header))) as [ok st].
    cbn [fst snd] in *. split; [exact Hok|].
    rewrite map_app, length_writes_at, Hst, Hlen.
    replace (Z.to_nat ((if m_bImplicit b then 0
                        else Z.of_nat (length (PutHeader b)))
                       + sum_lengths cs))
      with (length header + Z.to_nat (sum_lengths cs))%nat
      by (subst header; destruct (m_bImplicit b); cbn [length]; lia).
    rewrite addresses_app. reflexivity.
  - destruct Hwf as [_ [Hlen Hwfc]]. cbn [GetEncoded fields].
    set (header := if m_bImplicit b then [] else PutHeader b).
    destruct (IH Hwfc (p + Z.of_nat (length header))) as [Hok Hst].
    destruct (GetEncoded c (p + Z.of_nat (length header))) as [ok st].
    cbn [fst snd] in *. split; [exact Hok|].
    pose proof (GetEncodedLength_nonneg c Hwfc) as Hc0.
    rewrite map_app, length_writes_at, Hst, Hlen.
    replace (Z.to_nat ((if m_bImplicit b then 0
                        else Z.of_nat (length (PutHeader b)))
                       + GetEncodedLength c))
      with (length header + Z.to_nat (GetEncodedLength c))%nat
      by (subst header; destruct (m_bImplicit b); cbn [length]; lia).
    rewrite addresses_app. reflexivity.
Qed.

(** *** The constructors build well-formed nodes *)

Ltac unfold_tags :=
  unfold ASN1_BOOLEAN, ASN1_INTEGER, ASN1_OCTET_STRING, ASN1_NULL,
    ASN1_OBJECT, ASN1_SEQUENCE, ASN1_SET, ASN1_UTCTIME in *.

Lemma CAsn1NULL_well_formed : well_formed CAsn1NULL.
Proof.
  cbn. unfold fields_in_range. cbn. unfold_tags.
  repeat split; intros; try reflexivity; lia.
Qed.

Lemma leaf_well_formed (c t : Z) (k i : bool) (m_pbData : list Z) :
  Z.of_nat (length m_pbData) < 4294967296 - 6 ->
  (i = false -> 0 <= t < 32) ->
  well_formed (Leaf (mkBase c t (Z.of_nat (length m_pbData)) k i) m_pbData).
Proof.
  intros Hlen Ht. cbn [well_formed fields]. unfold fields_in_range.
  cbn [m_dwEncodedDataLength m_bImplicit m_dwTag].
  split; [split; [lia|exact Ht]|reflexivity].
Qed.

Lemma CAsn1OctetString_well_formed (pbData : list Z) :
  Z.of_nat (length pbData) < 4294967296 - 6 ->
  well_formed (CAsn1OctetString pbData).
Proof. intros H. apply leaf_well_formed; [exact H|]. intros _. unfold_tags. lia. Qed.

Lemma CAsn1Integer_bytes_well_formed (pbData : list Z) :
  Z.of_nat (length pbData) < 4294967296 - 6 ->
  well_formed (CAsn1Integer_bytes pbData).
Proof. intros H. apply leaf_well_formed; [exact H|]. intros _. unfold_tags. lia. Qed.

Lemma CAsn1RawData_well_formed (gc gt : Z) (pbData : list Z) (k : bool) :
  Z.of_nat (length pbData) < 4294967296 - 6 ->
  well_formed (CAsn1RawData gc gt pbData k).
Proof. intros H. apply leaf_well_formed; [exact H|]. discriminate. Qed.

Lemma CAsn1Integer_int_well_formed (iData : Z) :
  well_formed (CAsn1Integer_int iData).
Proof.
  unfold CAsn1Integer_int. rewrite <- length_PutSignedDW.
  apply leaf_well_formed.
  - rewrite length_PutSignedDW.
    pose proof (SignedDWLength_range (wrap32 iData)). lia.
  - intros _. unfold_tags. lia.
Qed.

Lemma length_d_at (i : Z) : 0 <= i < 100 -> length (d_at i) = 2%nat.
Proof.
  intros Hi.
  assert (H : forall i, 0 <= i < Z.of_nat 100 ->
            Nat.eqb (length (d_at i)) 2 = true)
    by (apply forallb_range; vm_compute; reflexivity).
  apply Nat.eqb_eq, H. lia.
Qed.

Lemma length_m_chData (wYear wMonth wDay wHour wMinute wSecond : Z) :
  length (m_chData wYear wMonth wDay wHour wMinute wSecond) = 13%nat.
Proof.
  unfold m_chData. rewrite !length_app.
  pose proof (Z.mod_pos_bound wYear 100 ltac:(lia)).
  pose proof (Z.mod_pos_bound wMonth 12 ltac:(lia)).
  pose proof (Z.mod_pos_bound wDay 31 ltac:(lia)).
  pose proof (Z.mod_pos_bound wHour 24 ltac:(lia)).
  pose proof (Z.mod_pos_bound wMinute 60 ltac:(lia)).
  pose proof (Z.mod_pos_bound wSecond 60 ltac:(lia)).
  destruct (wMonth mod 12 =? 0); destruct (wDay mod 31 =? 0);
    rewrite !length_d_at by lia; reflexivity.
Qed.

Lemma CAsn1UTCTime_well_formed (wYear wMonth wDay wHour wMinute wSecond : Z) :
  well_formed (CAsn1UTCTime wYear wMonth wDay wHour wMinute wSecond).
Proof.
  unfold CAsn1UTCTime.
  change 13 with (Z.of_nat 13).
  rewrite <- (length_m_chData wYear wMonth wDay wHour wMinute wSecond).
  apply leaf_well_formed.
  - rewrite length_m_chData. lia.
  - intros _. unfold_tags. lia.
Qed.

Lemma SetImplicit_well_formed (n : CAsn1Type) :
  well_formed n -> well_formed (SetImplicit n).
Proof.
  destruct n as [b dd|b cs|b c]; cbn [well_formed SetImplicit fields with_fields];
    intros [[Hlen _] H]; (split; [split; [exact Hlen|discriminate]|exact H]).
Qed.

Lemma CAsn1Tagged_well_formed (pData : CAsn1Type) (dwTag : Z) :
  well_formed pData -> 0 <= dwTag < 32 ->
  GetEncodedLength pData < 4294967296 - 6 ->
  well_formed (CAsn1Tagged pData dwTag).
Proof.
  intros Hwf Ht Hlen. cbn [CAsn1Tagged well_formed fields].
  pose proof (GetEncodedLength_nonneg _ Hwf).
  unfold fields_in_range.
  cbn [m_dwEncodedDataLength m_bImplicit m_dwTag].
  split; [split; [lia|intros _; exact Ht]|split; [reflexivity|exact Hwf]].
Qed.

Lemma all_well_formed_app (rg : list CAsn1Type) (c : CAsn1Type) :
  (fix all (rg : list CAsn1Type) : Prop :=
     match rg with
     | [] => True
     | c :: rg' => well_formed c /\ all rg'
     end) rg ->
  well_formed c ->
  (fix all (rg : list CAsn1Type) : Prop :=
     match rg with
     | [] => True
     | c :: rg' => well_formed c /\ all rg'
     end) (rg ++ [c])
  /\ 0 <= sum_lengths rg
  /\ sum_lengths (rg ++ [c]) = sum_lengths rg + GetEncodedLength c.
Proof.
  intros Hall Hc. induction rg as [|x rg IH].
  - cbn. repeat split; auto; lia.
  - destruct Hall as [Hx Hall]. destruct (IH Hall) as (IH1 & IH2 & IH3).
    pose proof (GetEncodedLength_nonneg _ Hx).
    cbn [app sum_lengths fold_right]. fold (sum_lengths (rg ++ [c])).
    fold (sum_lengths rg). repeat split; auto; lia.
Qed.

Lemma sum_encoded_lengths_in_range (rg : list CAsn1Type) :
  (fix all (rg : list CAsn1Type) : Prop :=
     match rg with
     | [] => True
     | c :: rg' => well_formed c /\ all rg'
     end) rg ->
  sum_lengths rg < 4294967296 ->
  sum_encoded_lengths rg = sum_lengths rg.
Proof.
  unfold sum_encoded_lengths.
  assert (G : forall acc, 0 <= acc ->
            (fix all (rg : list CAsn1Type) : Prop :=
               match rg with
               | [] => True
               | c :: rg' => well_formed c /\ all rg'
               end) rg ->
            acc + sum_lengths rg < 4294967296 ->
            fold_left (fun a c => wrap32 (a + GetEncodedLength c)) rg acc
            = acc + sum_lengths rg).
  { induction rg as [|x rg IH]; intros acc Hacc Hall Hsum.
    - cbn. lia.
    - destruct Hall as [Hx Hall].
      pose proof (GetEncodedLength_nonneg _ Hx).
      assert (0 <= sum_lengths rg).
      { clear -Hall. induction rg as [|y rg IH]; [cbn; lia|].
        destruct Hall as [Hy Hall]. pose proof (GetEncodedLength_nonneg _ Hy).
        cbn [sum_lengths fold_right]. fold (sum_lengths rg).
        specialize (IH Hall). lia. }
      cbn [fold_left sum_lengths fold_right] in *. fold (sum_lengths rg) in *.
      unfold wrap32 at 2. rewrite Z.mod_small by lia.
      rewrite IH by (auto; lia). lia. }
  intros Hall Hsum. rewrite G by (auto; lia). lia.
Qed.

Lemma Add_well_formed (b : base) (m_rgData : list CAsn1Type)
    (pData : CAsn1Type) :
  well_formed (Composite b m_rgData) -> well_formed pData ->
  sum_lengths m_rgData + GetEncodedLength pData < 4294967296 - 6 ->
  well_formed (Add (Composite b m_rgData) pData).
Proof.
  intros [[Hlen Htag] [Hsum Hall]] Hc Hroom.
  destruct (all_well_formed_app _ _ Hall Hc) as (Hall' & H0 & Hsum').
  pose proof (GetEncodedLength_nonneg _ Hc).
  cbn [Add well_formed fields].
  rewrite sum_encoded_lengths_in_range by (auto; lia).
  unfold fields_in_range. cbn [m_dwEncodedDataLength m_bImplicit m_dwTag].
  cbn [fields] in Htag.
  split; [split; [lia|exact Htag]|split; [lia|exact Hall']].
Qed.

(** *** C1 and C6 *)

(** C1: every node is to store exactly [GetEncodedLength] bytes.  An
    explicitly tagged node with tag number 32 stores five bytes (BF 20 02
    05 00 for a NULL inside), and its [GetEncodedLength] is 4:
    [PutHeader] puts the lead byte 0x1F before the packed tag number, and
    [GetEncodedLength] counts the packed tag number alone. *)
Theorem tagged_32_stores_five_bytes :
  GetEncodedLength tagged_32 = 4
  /\ GetEncoded tagged_32 0
     = (true, [(0, 0xBF); (1, 0x20); (2, 0x02); (3, 0x05); (4, 0x00)]).
Proof. split; vm_compute; reflexivity. Qed.

(** Every entry of the table but the one at 55 holds the two digits of its
    index. *)
Lemma d_at_two_digits (i : Z) :
  0 <= i < 100 -> i <> 55 ->
  exists c1 c0, d_at i = [c1; c0] /\ two_digits c1 c0 = Some i.
Proof.
  intros Hi H55.
  assert (H : forall i, 0 <= i < Z.of_nat 100 ->
            ((i =? 55)
             || match d_at i with
                | [c1; c0] =>
                    match two_digits c1 c0 with
                    | Some j => j =? i
                    | None => false
                    end
                | _ => false
                end) = true)
    by (apply forallb_range; vm_compute; reflexivity).
  specialize (H i ltac:(lia)).
  destruct (Z.eqb_spec i 55); [contradiction|]. cbn [orb] in H.
  destruct (d_at i) as [|c1 [|c0 [|]]]; try discriminate.
  exists c1, c0. split; [reflexivity|].
  destruct (two_digits c1 c0); [|discriminate].
  apply Z.eqb_eq in H. subst. reflexivity.
Qed.

(** Away from 55 the 13 characters read back as the tuple they were made
    from. *)
Lemma utctime_round_trip_away_from_55 (Y M D h m s : Z) :
  1950 <= Y <= 2049 -> 1 <= M <= 12 -> 1 <= D <= 31 ->
  0 <= h <= 23 -> 0 <= m <= 59 -> 0 <= s <= 59 ->
  Y mod 100 <> 55 -> m <> 55 -> s <> 55 ->
  parse_utctime (m_chData Y M D h m s) = Some (Y, M, D, h, m, s).
Proof.
  intros HY HM HD Hh Hm Hs HY55 Hm55 Hs55. unfold m_chData.
  assert (EM : (if M mod 12 =? 0 then d_at 12 else d_at (M mod 12)) = d_at M).
  { destruct (Z.eq_dec M 12) as [->|]; [reflexivity|].
    rewrite Z.mod_small by lia.
    destruct (Z.eqb_spec M 0); [lia|reflexivity]. }
  assert (ED : (if D mod 31 =? 0 then d_at 31 else d_at (D mod 31)) = d_at D).
  { destruct (Z.eq_dec D 31) as [->|]; [reflexivity|].
    rewrite Z.mod_small by lia.
    destruct (Z.eqb_spec D 0); [lia|reflexivity]. }
  rewrite EM, ED, (Z.mod_small h), (Z.mod_small m), (Z.mod_small s) by lia.
  pose proof (Z.mod_pos_bound Y 100 ltac:(lia)) as Hyy.
  destruct (d_at_two_digits (Y mod 100)) as (y1 & y0 & -> & Ey); auto.
  destruct (d_at_two_digits M) as (m1 & m0 & -> & EMo); [lia|lia|].
  destruct (d_at_two_digits D) as (d1 & d0 & -> & EDa); [lia|lia|].
  destruct (d_at_two_digits h) as (h1 & h0 & -> & Eh); [lia|lia|].
  destruct (d_at_two_digits m) as (n1 & n0 & -> & En); [lia|lia|].
  destruct (d_at_two_digits s) as (s1 & s0 & -> & Es); [lia|lia|].
  cbn [app parse_utctime Z.eqb Pos.eqb].
  rewrite Ey, EMo, EDa, Eh, En, Es.
  do 6 f_equal.
  destruct (Z.ltb_spec (Y mod 100) 50); Z.div_mod_to_equations; lia.
Qed.

(** C6: a tuple in the stated ranges is to read back from the 13 bytes.
    For (2024, 1, 2, 3, 55, 5) the node stores "240102031505Z", which
    reads back with minute 15: the entry of the digit table at index 55 is
    "15". *)
Theorem utctime_minute_55_reads_back_as_15 :
  encoding (CAsn1UTCTime 2024 1 2 3 55 5)
  = [0x17; 0x0D] ++ bytes_of_string "240102031505Z"
  /\ parse_utctime (m_chData 2024 1 2 3 55 5) = Some (2024, 1, 2, 3, 15, 5).
Proof. split; vm_compute; reflexivity. Qed.

(** *** The numbers that [PutDW], [PutSignedDW] and [PutPackedDW] store *)

(** A mask of [n] ones from bit [k] on picks the [n]-bit digit at [k]. *)
Lemma land_digit_mask (x n k : Z) :
  0 <= n -> 0 <= k ->
  Z.land x (Z.ones n * 2 ^ k) = (x / 2 ^ k) mod 2 ^ n * 2 ^ k.
Proof.
  intros Hn Hk.
  rewrite <- (Z.shiftl_mul_pow2 (Z.ones n) k) by lia.
  rewrite <- (Z.shiftr_div_pow2 x k) by lia.
  rewrite <- (Z.land_ones (Z.shiftr x k) n) by lia.
  rewrite <- (Z.shiftl_mul_pow2 _ k) by lia.
  apply Z.bits_inj'. intros i Hi.
  rewrite Z.land_spec, !Z.shiftl_spec by lia.
  destruct (Z.ltb_spec i k) as [Hlt|Hge].
  - rewrite !(Z.testbit_neg_r _ (i - k)) by lia.
    apply andb_false_r.
  - rewrite Z.land_spec, Z.shiftr_spec by lia.
    replace (i - k + k) with i by lia. reflexivity.
Qed.

Lemma uchar_shiftr (x k : Z) :
  0 <= k -> uchar (Z.shiftr x k) = (x / 2 ^ k) mod 256.
Proof.
  intros Hk. unfold uchar, wrap8. rewrite Z.shiftr_div_pow2 by lia.
  change 255 with (Z.ones 8). rewrite Z.land_ones by lia.
  change (2 ^ 8) with 256. apply Z.mod_mod. lia.
Qed.

Lemma uchar_mod (x : Z) : uchar x = x mod 256.
Proof.
  unfold uchar, wrap8. change 255 with (Z.ones 8).
  rewrite Z.land_ones by lia. change (2 ^ 8) with 256. apply Z.mod_mod. lia.
Qed.

Lemma nz_spec (x : Z) : nz x = true <-> x <> 0.
Proof. unfold nz. rewrite negb_true_iff, Z.eqb_neq. reflexivity. Qed.

Lemma nz_false (x : Z) : nz x = false <-> x = 0.
Proof. unfold nz. rewrite negb_false_iff, Z.eqb_eq. reflexivity. Qed.

Ltac nz_hyps :=
  repeat match goal with
         | H : nz _ = true |- _ => apply nz_spec in H
         | H : nz _ = false |- _ => apply nz_false in H
         end.

(** X2: [PutDW] stores a number of 32 bits most significant byte first, in as
    few bytes as hold it. *)
Theorem PutDW_big_endian (dwData : Z) :
  0 <= dwData < 4294967296 ->
  be_value (PutDW dwData) = dwData
  /\ Forall is_byte (PutDW dwData)
  /\ ((1 < length (PutDW dwData))%nat -> hd 0 (PutDW dwData) <> 0).
Proof.
  intros Hx. unfold PutDW. rewrite !nz_lor_b2z.
  change 0xFF000000 with (Z.ones 8 * 2 ^ 24).
  change 0xFF0000 with (Z.ones 8 * 2 ^ 16).
  change 0xFF00 with (Z.ones 8 * 2 ^ 8).
  rewrite !land_digit_mask, !uchar_shiftr, uchar_mod by lia.
  change (2 ^ 8) with 256. change (2 ^ 24) with 16777216.
  change (2 ^ 16) with 65536.
  assert (Ha : 0 <= dwData / 16777216 mod 256 < 256)
    by (apply Z.mod_pos_bound; lia).
  assert (Hb : 0 <= dwData / 65536 mod 256 < 256)
    by (apply Z.mod_pos_bound; lia).
  assert (Hc : 0 <= dwData / 256 mod 256 < 256)
    by (apply Z.mod_pos_bound; lia).
  assert (Hd : 0 <= dwData mod 256 < 256) by (apply Z.mod_pos_bound; lia).
  assert (E : dwData = dwData / 16777216 mod 256 * 16777216
                       + dwData / 65536 mod 256 * 65536
                       + dwData / 256 mod 256 * 256 + dwData mod 256)
    by (clear -Hx; Z.div_mod_to_equations; lia).
  set (a := dwData / 16777216 mod 256) in *.
  set (b := dwData / 65536 mod 256) in *.
  set (c := dwData / 256 mod 256) in *.
  set (d0 := dwData mod 256) in *.
  unfold is_byte.
  destruct (nz (a * 16777216)) eqn:Na, (nz (b * 65536)) eqn:Nb,
    (nz (c * 256)) eqn:Nc; cbn [orb app];
    nz_hyps;
    (split; [unfold be_value; cbn [fold_left]; lia|]);
    (split; [repeat constructor; lia|]); cbn [length hd]; lia.
Qed.

Lemma PutDW_big_endian_witness :
  PutDW 0x012C = [0x01; 0x2C]
  /\ be_value (PutDW 0x012C) = 0x012C
  /\ Forall is_byte (PutDW 0x012C)
  /\ ((1 < length (PutDW 0x012C))%nat -> hd 0 (PutDW 0x012C) <> 0).
Proof.
  split; [reflexivity|]. apply (PutDW_big_endian 0x012C). lia.
Defined.

Lemma nz_lxor (u v : Z) : nz (Z.lxor u v) = negb (u =? v).
Proof.
  unfold nz. f_equal.
  destruct (Z.eqb_spec u v) as [->|Hne].
  - rewrite Z.lxor_nilpotent. reflexivity.
  - apply Z.eqb_neq. intros H. apply Z.lxor_eq in H. contradiction.
Qed.


(** The test of [PutSignedDW] and [SignedDWLength] for a byte: the byte
    is needed when it and the top bit of the byte below are not nine
    equal bits. *)
Lemma signed_byte_needed_nine_bits (dwData k : Z) :
  k = 23 \/ k = 15 \/ k = 7 ->
  signed_byte_needed dwData (Z.ones 8 * 2 ^ (k + 1)) (Z.ones 9 * 2 ^ k)
                     (2 ^ k)
  = negb ((nine_bits dwData k =? 0) || (nine_bits dwData k =? 511)).
Proof.
  intros Hk. unfold signed_byte_needed, nine_bits.
  rewrite !nz_lxor, !land_digit_mask by lia.
  change (2 ^ 9) with 512. change (2 ^ 8) with 256.
  unfold nz.
  change (Z.ones 9) with 511.
  destruct Hk as [Hk|[Hk|Hk]]; subst k;
    [change (2 ^ (23 + 1)) with 16777216; change (2 ^ 23) with 8388608
    |change (2 ^ (15 + 1)) with 65536; change (2 ^ 15) with 32768
    |change (2 ^ (7 + 1)) with 256; change (2 ^ 7) with 128].
  all: match goal with
       | |- context [?x / ?p mod 512] => set (t := x / p mod 512);
           assert (Ht : 0 <= t < 512) by (apply Z.mod_pos_bound; lia)
       end.
  all: match goal with
       | |- context [?x / ?p mod 256] =>
           assert (Hb : x / p mod 256 = t / 2)
             by (subst t; Z.div_mod_to_equations; lia);
           rewrite Hb
       end.
  all: assert (H2 : 0 <= t / 2 < 256) by (Z.div_mod_to_equations; lia).
  all: assert (H3 : t / 2 = 0 <-> t < 2) by (Z.div_mod_to_equations; lia).
  all: repeat match goal with
         | |- context [?u =? ?v] => destruct (Z.eqb_spec u v)
         end; cbn [negb andb orb]; try reflexivity; exfalso; lia.
Qed.

(** X3: [PutSignedDW] stores the [int] that the 32 bits hold in two's
    complement, most significant byte first, in as few bytes as hold it:
    the first nine bits of two or more bytes are never all equal. *)
Theorem PutSignedDW_twos_complement (dwData : Z) :
  0 <= dwData < 4294967296 ->
  signed_be_value (PutSignedDW dwData) = as_int dwData
  /\ Forall is_byte (PutSignedDW dwData)
  /\ (forall b0 b1 rest,
        PutSignedDW dwData = b0 :: b1 :: rest ->
        ~ (b0 = 0 /\ b1 < 128) /\ ~ (b0 = 255 /\ 128 <= b1)).
Proof.
  intros Hx. unfold PutSignedDW.
  change 0xFF000000 with (Z.ones 8 * 2 ^ (23 + 1)).
  change 0xFF800000 with (Z.ones 9 * 2 ^ 23).
  change 0x800000 with (2 ^ 23).
  change 0xFF0000 with (Z.ones 8 * 2 ^ (15 + 1)).
  change 0xFF8000 with (Z.ones 9 * 2 ^ 15).
  change 0x8000 with (2 ^ 15).
  change 0xFF00 with (Z.ones 8 * 2 ^ (7 + 1)).
  change 0xFF80 with (Z.ones 9 * 2 ^ 7).
  change 0x80 with (2 ^ 7).
  rewrite !signed_byte_needed_nine_bits by lia.
  rewrite !uchar_shiftr, uchar_mod by lia.
  unfold nine_bits, as_int, signed_be_value, is_byte.
  change (2 ^ 23) with 8388608. change (2 ^ 15) with 32768.
  change (2 ^ 7) with 128. change (2 ^ 24) with 16777216.
  change (2 ^ 16) with 65536. change (2 ^ 8) with 256.
  set (t1 := dwData / 8388608 mod 512).
  set (t2 := dwData / 32768 mod 512).
  set (t3 := dwData / 128 mod 512).
  set (a := dwData / 16777216 mod 256).
  set (b := dwData / 65536 mod 256).
  set (c := dwData / 256 mod 256).
  set (d0 := dwData mod 256).
  assert (E : dwData = a * 16777216 + b * 65536 + c * 256 + d0
              /\ 0 <= a < 256 /\ 0 <= b < 256 /\ 0 <= c < 256
              /\ 0 <= d0 < 256)
    by (subst a b c d0; clear -Hx; Z.div_mod_to_equations; lia).
  assert (T1 : 2 * a <= t1 <= 2 * a + 1 /\ (t1 = 2 * a + 1 <-> 128 <= b))
    by (subst t1 a b; clear -Hx; Z.div_mod_to_equations; lia).
  assert (T2 : 2 * b <= t2 <= 2 * b + 1 /\ (t2 = 2 * b + 1 <-> 128 <= c))
    by (subst t2 b c; clear -Hx; Z.div_mod_to_equations; lia).
  assert (T3 : 2 * c <= t3 <= 2 * c + 1 /\ (t3 = 2 * c + 1 <-> 128 <= d0))
    by (subst t3 c d0; clear -Hx; Z.div_mod_to_equations; lia).
  clearbody t1 t2 t3 a b c d0.
  destruct E as (E & Ha & Hb & Hc & Hd).
  destruct (Z.eqb_spec t1 0), (Z.eqb_spec t1 511), (Z.eqb_spec t2 0),
    (Z.eqb_spec t2 511), (Z.eqb_spec t3 0), (Z.eqb_spec t3 511);
    cbn [negb orb app]; try (exfalso; lia).
  all: split;
    [unfold be_value; cbn [fold_left hd length Z.of_nat Pos.of_succ_nat
                           Pos.succ Z.pow Z.pow_pos Pos.iter Z.mul Pos.mul];
     match goal with
     | |- context [128 <=? ?h] => destruct (Z.leb_spec 128 h)
     end; destruct (Z.ltb_spec dwData 2147483648); lia|].
  all: split; [repeat constructor; lia|].
  all: intros b0 b1 rest [= <- <- _]; lia.
Qed.

Lemma PutSignedDW_twos_complement_witness :
  PutSignedDW 0xFFFFFF7F = [0xFF; 0x7F]
  /\ signed_be_value (PutSignedDW 0xFFFFFF7F) = -129.
Proof.
  split; [reflexivity|].
  apply (PutSignedDW_twos_complement 0xFFFFFF7F). lia.
Defined.

Lemma septet_digit (dwData k : Z) :
  0 <= k -> septet dwData k = (dwData / 2 ^ k) mod 128.
Proof.
  intros Hk. unfold septet, wrap8. rewrite Z.shiftr_div_pow2 by lia.
  change 0x7F with (Z.ones 7). rewrite Z.land_ones by lia.
  change (2 ^ 7) with 128.
  generalize (dwData / 2 ^ k). intros y. Z.div_mod_to_equations. lia.
Qed.

Lemma continuation_byte (t : Z) :
  0 <= t < 128 -> Z.lor 0x80 t = 128 + t /\ Z.land (128 + t) 0x7F = t.
Proof.
  intros Ht.
  assert (H : forall i, 0 <= i < Z.of_nat 128 ->
            (Z.lor 0x80 i =? 128 + i) && (Z.land (128 + i) 0x7F =? i) = true)
    by (apply forallb_range; vm_compute; reflexivity).
  specialize (H t Ht). apply andb_prop in H. destruct H as [H1 H2].
  split; apply Z.eqb_eq; assumption.
Qed.

Lemma land_7F_small (t : Z) : 0 <= t < 128 -> Z.land t 0x7F = t.
Proof.
  intros Ht. change 0x7F with (Z.ones 7). rewrite Z.land_ones by lia.
  apply Z.mod_small. change (2 ^ 7) with 128. lia.
Qed.

(** X4: [PutPackedDW] stores a number of 32 bits in base 128, most significant
    digit first, in as few bytes as hold it and as many as
    [PackedDWLength] says; bit 7 is set in every byte but the last. *)
Theorem PutPackedDW_base_128 (dwData : Z) :
  0 <= dwData < 4294967296 ->
  packed_value (PutPackedDW dwData) = dwData
  /\ Z.of_nat (length (PutPackedDW dwData)) = PackedDWLength dwData
  /\ Forall (fun b => 128 <= b < 256) (removelast (PutPackedDW dwData))
  /\ 0 <= List.last (PutPackedDW dwData) 0 < 128
  /\ ((1 < length (PutPackedDW dwData))%nat ->
      hd 0 (PutPackedDW dwData) <> 0x80).
Proof.
  intros Hx. unfold PutPackedDW, PackedDWLength. rewrite !nz_lor_b2z.
  rewrite !septet_digit by lia.
  rewrite !Z.shiftr_div_pow2 by lia.
  change 0x7F with (Z.ones 7). rewrite !Z.land_ones by lia.
  change (Z.ones 7) with 0x7F.
  change (2 ^ 7) with 128. change (2 ^ 28) with 268435456.
  change (2 ^ 21) with 2097152. change (2 ^ 14) with 16384.
  unfold wrap8. rewrite (Z.mod_small (dwData mod 128) 256)
    by (pose proof (Z.mod_pos_bound dwData 128); lia).
  set (t4 := dwData / 268435456 mod 128).
  set (t3 := dwData / 2097152 mod 128).
  set (t2 := dwData / 16384 mod 128).
  set (t1 := dwData / 128 mod 128).
  set (t0 := dwData mod 128).
  assert (E : dwData = t4 * 268435456 + t3 * 2097152 + t2 * 16384
                       + t1 * 128 + t0
              /\ 0 <= t4 < 128 /\ 0 <= t3 < 128 /\ 0 <= t2 < 128
              /\ 0 <= t1 < 128 /\ 0 <= t0 < 128)
    by (subst t4 t3 t2 t1 t0; clear -Hx; Z.div_mod_to_equations; lia).
  clearbody t4 t3 t2 t1 t0.
  destruct E as (E & H4 & H3 & H2 & H1 & H0).
  destruct (continuation_byte t4 H4) as [L4 V4].
  destruct (continuation_byte t3 H3) as [L3 V3].
  destruct (continuation_byte t2 H2) as [L2 V2].
  destruct (continuation_byte t1 H1) as [L1 V1].
  pose proof (land_7F_small t0 H0) as V0.
  rewrite L4, L3, L2, L1.
  destruct (nz t4) eqn:N4, (nz t3) eqn:N3, (nz t2) eqn:N2, (nz t1) eqn:N1;
    cbn [orb app]; nz_hyps;
    (split; [unfold packed_value; cbn [fold_left];
             rewrite ?V4, ?V3, ?V2, ?V1, ?V0; lia|]);
    (split; [cbn [length Z.of_nat Pos.of_succ_nat Pos.succ]; reflexivity|]);
    (split; [cbn [removelast]; repeat constructor; lia|]);
    (split; [cbn [List.last]; lia|]); cbn [length hd]; lia.
Qed.

Lemma PutPackedDW_base_128_witness :
  PutPackedDW 113549 = [0x86; 0xF7; 0x0D]
  /\ packed_value (PutPackedDW 113549) = 113549.
Proof.
  split; [reflexivity|].
  apply (PutPackedDW_base_128 113549). lia.
Defined.

(** *** The stored bytes do not depend on the destination *)

Lemma bytes_of_writes_at (p : Z) (bs : list Z) :
  map snd (writes_at p bs) = bs.
Proof.
  revert p. induction bs as [|b bs IH]; intros p; [reflexivity|].
  cbn [writes_at map snd]. rewrite IH. reflexivity.
Qed.

Lemma put_children_anywhere (rg : list CAsn1Type) :
  Forall (fun c => forall p q,
            fst (GetEncoded c p) = fst (GetEncoded c q)
            /\ map snd (snd (GetEncoded c p))
               = map snd (snd (GetEncoded c q))) rg ->
  forall p q,
    fst (put_children rg p) = fst (put_children rg q)
    /\ map snd (snd (put_children rg p)) = map snd (snd (put_children rg q)).
Proof.
  induction 1 as [|c rg Hc _ IH]; intros p q; [split; reflexivity|].
  cbn [put_children].
  destruct (Hc p q) as [Hok Hst].
  destruct (GetEncoded c p) as [okp wp], (GetEncoded c q) as [okq wq].
  cbn [fst snd] in Hok, Hst. subst okq.
  destruct okp; [|split; [reflexivity|exact Hst]].
  destruct (IH (p + GetEncodedLength c) (q + GetEncodedLength c)) as [Hokr Hstr].
  destruct (put_children rg (p + GetEncodedLength c)) as [okr wr],
           (put_children rg (q + GetEncodedLength c)) as [okr' wr'].
  cbn [fst snd] in *. split; [exact Hokr|].
  rewrite !map_app, Hst, Hstr. reflexivity.
Qed.

Lemma GetEncoded_anywhere (n : CAsn1Type) (p q : Z) :
  fst (GetEncoded n p) = fst (GetEncoded n q)
  /\ map snd (snd (GetEncoded n p)) = map snd (snd (GetEncoded n q)).
Proof.
  revert p q.
  induction n as [b dd|b cs IH|b c IH] using CAsn1Type_induction; intros p q.
  - cbn [GetEncoded fields fst snd]. split; [reflexivity|].
    rewrite !map_app, !bytes_of_writes_at. reflexivity.
  - rewrite !GetEncoded_Composite. cbv zeta.
    set (header := if m_bImplicit b then [] else PutHeader b).
    destruct (put_children_anywhere cs IH (p + Z.of_nat (length header))
                (q + Z.of_nat (length header))) as [Hok Hst].
    destruct (put_children cs (p + Z.of_nat (length header))) as [ok st],
             (put_children cs (q + Z.of_nat (length header))) as [ok' st'].
    cbn [fst snd] in *. split; [exact Hok|].
    rewrite !map_app, !bytes_of_writes_at, Hst. reflexivity.
  - cbn [GetEncoded fields].
    set (header := if m_bImplicit b then [] else PutHeader b).
    destruct (IH (p + Z.of_nat (length header))
                 (q + Z.of_nat (length header))) as [Hok Hst].
    destruct (GetEncoded c (p + Z.of_nat (length header))) as [ok st],
             (GetEncoded c (q + Z.of_nat (length header))) as [ok' st'].
    cbn [fst snd] in *. split; [exact Hok|].
    rewrite !map_app, !bytes_of_writes_at, Hst. reflexivity.
Qed.

Lemma stores_at_addresses (l : list (Z * Z)) (p : Z) :
  map fst l = addresses p (length l) -> l = writes_at p (map snd l).
Proof.
  revert p. induction l as [|[a b] l IH]; intros p H; [reflexivity|].
  cbn [map fst snd length addresses writes_at] in *.
  injection H as Ha Hl. subst a. rewrite <- (IH _ Hl). reflexivity.
Qed.

(** X1: For a well-formed tree, that is one in which every cached data
    length is current and below 2^32 - 6 and every node that writes a
    header has a tag number below 32, [GetEncoded] succeeds at every
    destination and stores there the same bytes, [encoding n], at the
    consecutive addresses from [pbDest] on; their number is what
    [GetEncodedLength] returns.  (From the tag number 32 on the two differ,
    as [tagged_32] shows.) *)
Theorem GetEncoded_writes_the_encoding (n : CAsn1Type) :
  well_formed n ->
  forall pbDest,
    GetEncoded n pbDest = (true, writes_at pbDest (encoding n))
    /\ Z.of_nat (length (encoding n)) = GetEncodedLength n.
Proof.
  intros Hwf p.
  pose proof (well_formed_fields _ Hwf) as Hf.
  assert (Hlen : 0 <= GetEncodedLength n).
  { unfold GetEncodedLength. rewrite (encoded_length_in_range _ Hf).
    destruct (m_bImplicit (fields n)); destruct Hf; lia. }
  destruct (GetEncoded_stores_encoded_length n Hwf p) as [Hok Hst].
  destruct (GetEncoded_anywhere n p 0) as [_ Hb].
  fold (encoding n) in Hb.
  assert (L : length (snd (GetEncoded n p)) = Z.to_nat (GetEncodedLength n)).
  { rewrite <- (length_map fst), Hst. clear.
    generalize (Z.to_nat (GetEncodedLength n)) as k. intros k. revert p.
    induction k as [|k IH]; intros p; [reflexivity|].
    cbn [addresses length]. rewrite IH. reflexivity. }
  split.
  - destruct (GetEncoded n p) as [ok st]. cbn [fst snd] in *. subst ok.
    f_equal. rewrite <- Hb. apply stores_at_addresses.
    rewrite L. exact Hst.
  - rewrite <- Hb, length_map, L. lia.
Qed.

(** A sequence of the INTEGER 1 and a NULL, stored at address 100:
    30 05 02 01 01 05 00. *)
Lemma GetEncoded_writes_the_encoding_witness :
  let n := Add (Add CAsn1Sequence (CAsn1Integer_int 1)) CAsn1NULL in
  well_formed n
  /\ encoding n = [0x30; 0x05; 0x02; 0x01; 0x01; 0x05; 0x00]
  /\ GetEncoded n 100 = (true, writes_at 100 (encoding n))
  /\ Z.of_nat (length (encoding n)) = GetEncodedLength n.
Proof.
  cbv zeta.
  assert (W : well_formed (Add (Add CAsn1Sequence (CAsn1Integer_int 1))
                               CAsn1NULL)).
  { apply Add_well_formed.
    - apply Add_well_formed.
      + cbn. unfold fields_in_range. cbn. unfold_tags.
        repeat split; intros; lia.
      + apply CAsn1Integer_int_well_formed.
      + vm_compute. reflexivity.
    - apply CAsn1NULL_well_formed.
    - vm_compute. reflexivity. }
  split; [exact W|]. split; [reflexivity|].
  exact (GetEncoded_writes_the_encoding _ W 100).
Defined.

End Asn1Facts.

(* ------------------------------------------------------------------ *)
(** ** The parser on what the encoder stores *)
(* ------------------------------------------------------------------ *)

Module EncodeParseFacts.
Import Der Asn1 DerFacts Asn1Facts.

(** [PutDW] by the size of the number. *)
Lemma PutDW_cases (x : Z) :
  0 <= x < 4294967296 ->
  (x < 256 /\ PutDW x = [x])
  \/ (256 <= x < 65536 /\ PutDW x = [x / 256; x mod 256])
  \/ (65536 <= x < 16777216
      /\ PutDW x = [x / 65536; x / 256 mod 256; x mod 256])
  \/ (16777216 <= x
      /\ PutDW x = [x / 16777216; x / 65536 mod 256; x / 256 mod 256;
                    x mod 256]).
Proof.
  intros Hx. unfold PutDW. rewrite !nz_lor_b2z.
  change 0xFF000000 with (Z.ones 8 * 2 ^ 24).
  change 0xFF0000 with (Z.ones 8 * 2 ^ 16).
  change 0xFF00 with (Z.ones 8 * 2 ^ 8).
  rewrite !land_digit_mask, !uchar_shiftr, uchar_mod by lia.
  change (2 ^ 8) with 256. change (2 ^ 24) with 16777216.
  change (2 ^ 16) with 65536.
  assert (E : x / 16777216 mod 256 = x / 16777216
              /\ (x / 16777216 = 0 <-> x < 16777216)
              /\ (x < 16777216 -> x / 65536 mod 256 = x / 65536)
              /\ (x / 65536 = 0 <-> x < 65536)
              /\ (x < 65536 -> x / 256 mod 256 = x / 256)
              /\ (x / 256 = 0 <-> x < 256)
              /\ (x < 256 -> x mod 256 = x))
    by (clear -Hx; Z.div_mod_to_equations; lia).
  destruct E as (E1 & E2 & E3 & E4 & E5 & E6 & E7). rewrite E1.
  destruct (Z.ltb_spec x 16777216) as [H24|H24].
  - rewrite E3 by lia. replace (x / 16777216) with 0 by lia.
    cbn [Z.mul nz Z.eqb negb orb app].
    destruct (Z.ltb_spec x 65536) as [H16|H16].
    + rewrite E5 by lia. replace (x / 65536) with 0 by lia.
      cbn [Z.mul nz Z.eqb negb orb app].
      destruct (Z.ltb_spec x 256) as [H8|H8].
      * rewrite E7 by lia. replace (x / 256) with 0 by lia.
        cbn [Z.mul nz Z.eqb negb orb app]. left. split; [lia|reflexivity].
      * assert (N : nz (x / 256 * 256) = true) by (apply nz_spec; lia).
        rewrite N. cbn [orb app]. right. left. split; [lia|reflexivity].
    + assert (N : nz (x / 65536 * 65536) = true) by (apply nz_spec; lia).
      rewrite N. cbn [orb app]. rewrite orb_true_r. cbn [app].
      right. right. left. split; [lia|reflexivity].
  - assert (N : nz (x / 16777216 * 16777216) = true) by (apply nz_spec; lia).
    rewrite N. cbn [orb app]. rewrite !orb_true_r. cbn [app].
    right. right. right. split; [lia|reflexivity].
Qed.

(** *** One round of the parser *)

Lemma der_parse_loop_end (fuel : nat) (l : list Z) (e der : Z)
    (v : list DER_ITEM) :
  e <= der -> der_parse_loop (S fuel) l e der v = Some v.
Proof.
  intros H. cbn [der_parse_loop].
  destruct (Z.ltb_spec der e); [lia|reflexivity].
Qed.

Lemma land_128_small (b : Z) : 0 <= b < 128 -> Z.land b 128 = 0.
Proof.
  intros Hb.
  assert (H : forall i, 0 <= i < Z.of_nat 128 -> (Z.land i 128 =? 0) = true)
    by (apply forallb_range; vm_compute; reflexivity).
  apply Z.eqb_eq, H. lia.
Qed.

Lemma land_long_form (k : Z) :
  1 <= k <= 4 ->
  Z.land (128 + k) 128 <> 0 /\ Z.land (128 + k) 127 = k /\ 128 + k <> 128.
Proof.
  intros Hk. assert (C : k = 1 \/ k = 2 \/ k = 3 \/ k = 4) by lia.
  destruct C as [-> | [-> | [-> | ->]]]; repeat split; try discriminate; lia.
Qed.

(** An element with a short length: the item, and the loop goes on
    after its value. *)
Lemma der_parse_loop_short (fuel : nat) (l : list Z) (e der : Z)
    (v : list DER_ITEM) :
  Z.land (peek l der) 31 <> 31 ->
  peek l (der + 1) < 128 ->
  der + 2 + peek l (der + 1) <= e ->
  der_parse_loop (S fuel) l e der v
  = der_parse_loop fuel l e (der + 2 + peek l (der + 1))
      (v ++ [mkItem (peek l der) (der + 2) (peek l (der + 1)) der
                    (2 + peek l (der + 1))]).
Proof.
  intros Ht Hb He. pose proof (peek_range l (der + 1)) as Hr.
  cbn [der_parse_loop].
  destruct (Z.ltb_spec der e); [|lia].
  destruct (Z.eqb_spec (Z.land (peek l der) 31) 31); [contradiction|].
  destruct (Z.ltb_spec e (der + 1 + 1)); [lia|].
  destruct (Z.eqb_spec (peek l (der + 1)) 128); [lia|].
  rewrite land_128_small by lia. cbn [Z.eqb negb].
  destruct (Z.ltb_spec e (der + 1 + 1 + peek l (der + 1))); [lia|].
  replace (der + 1 + 1) with (der + 2) by lia. reflexivity.
Qed.

(** An element with a long length of [k] bytes. *)
Lemma der_parse_loop_long (fuel : nat) (l : list Z) (e der k ln : Z)
    (v : list DER_ITEM) :
  Z.land (peek l der) 31 <> 31 ->
  1 <= k <= 4 ->
  peek l (der + 1) = 128 + k ->
  long_length l e k (der + 2) 2 = Some (ln, der + 2 + k, 2 + k) ->
  der + 2 + k + ln <= e ->
  der_parse_loop (S fuel) l e der v
  = der_parse_loop fuel l e (der + 2 + k + ln)
      (v ++ [mkItem (peek l der) (der + 2 + k) ln der (2 + k + ln)]).
Proof.
  intros Ht Hk Hb Hlong He.
  destruct (land_long_form k Hk) as (L1 & L2 & L3).
  pose proof (long_length_cursor _ _ _ _ _ _ _ _ Hlong) as (Hln & _).
  cbn [der_parse_loop].
  destruct (Z.ltb_spec der e); [|lia].
  destruct (Z.eqb_spec (Z.land (peek l der) 31) 31); [contradiction|].
  destruct (Z.ltb_spec e (der + 1 + 1)); [lia|].
  rewrite Hb.
  destruct (Z.eqb_spec (128 + k) 128); [contradiction|].
  destruct (Z.eqb_spec (Z.land (128 + k) 128) 0); [contradiction|].
  cbn [negb]. rewrite L2.
  replace (der + 1 + 1) with (der + 2) by lia. rewrite Hlong.
  destruct (Z.ltb_spec e (der + 2 + k + ln)); [lia|]. reflexivity.
Qed.

Lemma lor_shiftl_byte (ln b : Z) :
  0 <= b < 256 -> Z.lor (Z.shiftl ln 8) b = ln * 256 + b.
Proof.
  intros Hb. rewrite Z.shiftl_mul_pow2 by lia. change (2 ^ 8) with 256.
  rewrite <- Z.lxor_lor.
  - symmetry. apply Z.add_nocarry_lxor.
    rewrite <- (Z.mod_small b 256) by lia.
    change 256 with (2 ^ 8). rewrite <- Z.shiftl_mul_pow2 by lia.
    rewrite <- Z.land_ones by lia.
    apply Z.bits_inj'. intros i Hi.
    rewrite !Z.land_spec, Z.bits_0.
    destruct (Z.ltb_spec i 8).
    + rewrite Z.shiftl_spec_low by lia. reflexivity.
    + rewrite Z.ones_spec_high by lia. rewrite !andb_false_r. reflexivity.
  - rewrite <- (Z.mod_small b 256) by lia.
    change 256 with (2 ^ 8). rewrite <- Z.shiftl_mul_pow2 by lia.
    rewrite <- Z.land_ones by lia.
    apply Z.bits_inj'. intros i Hi.
    rewrite !Z.land_spec, Z.bits_0.
    destruct (Z.ltb_spec i 8).
    + rewrite Z.shiftl_spec_low by lia. reflexivity.
    + rewrite Z.ones_spec_high by lia. rewrite !andb_false_r. reflexivity.
Qed.

Lemma read_length_byte_value (l : list Z) (e ln der flen : Z) :
  der + 1 <= e ->
  read_length_byte l e (ln, der, flen)
  = Some (ln * 256 + peek l der, der + 1, flen + 1).
Proof.
  intros He. unfold read_length_byte.
  destruct (Z.ltb_spec e (der + 1)); [lia|].
  rewrite lor_shiftl_byte by apply peek_range. reflexivity.
Qed.

(** The length decoder reads the [k] bytes at [der] as one number, most
    significant byte first. *)
Lemma long_length_reads (l : list Z) (e k der flen : Z) :
  1 <= k <= 4 -> der + k <= e ->
  long_length l e k der flen
  = Some (be_value (map (fun i => peek l (der + Z.of_nat i))
                        (seq 0 (Z.to_nat k))),
          der + k, flen + k).
Proof.
  intros Hk He. assert (C : k = 1 \/ k = 2 \/ k = 3 \/ k = 4) by lia.
  unfold long_length, be_value.
  destruct C as [-> | [-> | [-> | ->]]]; cbn [Z.eqb Pos.eqb];
    repeat (rewrite read_length_byte_value by lia);
    [change (Z.to_nat 1) with 1%nat | change (Z.to_nat 2) with 2%nat
    |change (Z.to_nat 3) with 3%nat | change (Z.to_nat 4) with 4%nat];
    cbn [seq map fold_left Z.of_nat Pos.of_succ_nat Pos.succ];
    rewrite <- ?Z.add_assoc, ?Z.add_0_r; reflexivity.
Qed.

Lemma long_form_iff (dl : Z) :
  0 <= dl < 4294967296 ->
  nz (Z.land dl 0xFFFFFF80) = (128 <=? dl).
Proof.
  intros Hd. change 0xFFFFFF80 with (Z.ones 25 * 2 ^ 7).
  rewrite land_digit_mask by lia.
  change (2 ^ 7) with 128. change (2 ^ 25) with 33554432.
  destruct (Z.leb_spec 128 dl).
  - apply nz_spec. Z.div_mod_to_equations. lia.
  - apply nz_false. Z.div_mod_to_equations. lia.
Qed.

Ltac peek_at l i z :=
  let v := fresh "P" in
  let x := eval cbn in (nth i l 0) in
  assert (v : peek l z = x)
    by (unfold peek, byte_at, wrap8; cbn; apply Z.mod_small; lia).

Ltac peeks l :=
  repeat match goal with P : peek l _ = _ |- _ => rewrite P end.

Ltac long_round l k dl :=
  rewrite (der_parse_loop_long _ l _ 0 k dl []);
  change (0 + 1) with 1; change (0 + 2) with 2; peeks l;
  try lia; try assumption;
  [ rewrite der_parse_loop_end by (subst l; cbn [length]; lia);
    cbn [app]; repeat f_equal; lia
  | rewrite long_length_reads by (subst l; cbn [length]; lia);
    unfold be_value;
    (let n := eval vm_compute in (Z.to_nat k) in
     change (Z.to_nat k) with n);
    cbn [seq map fold_left];
    change (Z.of_nat 0) with 0; change (Z.of_nat 1) with 1;
    change (Z.of_nat 2) with 2; change (Z.of_nat 3) with 3;
    rewrite ?Z.add_0_r; change (2 + 1) with 3; change (2 + 2) with 4;
    change (2 + 3) with 5; peeks l;
    f_equal; f_equal; f_equal;
    Z.div_mod_to_equations; lia ].

(** The parser on a tag byte, the length bytes that [PutHeader] stores
    for the data length [dl], and [dl] bytes: one item, which is the whole
    slice. *)
Lemma der_parse_element (t dl : Z) (rest : list Z) :
  0 <= t < 256 -> Z.land t 31 <> 31 ->
  0 <= dl < 4294967296 -> Z.of_nat (length rest) = dl ->
  let hl := 1 + 1 + (if nz (Z.land dl 0xFFFFFF80) then DWLength dl else 0) in
  der_parse
    (t :: ((if nz (Z.land dl 0xFFFFFF80)
            then [wrap8 (0x80 + wrap8 (DWLength dl))] else [])
           ++ PutDW dl) ++ rest)
  = [mkItem t hl dl 0 (hl + dl)].
Proof.
  intros Ht Htag Hdl Hlen. cbv zeta.
  rewrite long_form_iff by lia.
  rewrite <- length_PutDW.
  assert (D : dl / 16777216 < 256 /\ 0 <= dl / 16777216
              /\ 0 <= dl / 65536 mod 256 < 256
              /\ 0 <= dl / 256 mod 256 < 256 /\ 0 <= dl mod 256 < 256
              /\ (dl < 65536 -> 0 <= dl / 256 < 256)
              /\ (dl < 16777216 -> 0 <= dl / 65536 < 256))
    by (clear -Hdl; Z.div_mod_to_equations; lia).
  destruct D as (D1 & D2 & D3 & D4 & D5 & D6 & D7).
  unfold der_parse.
  destruct (PutDW_cases dl Hdl) as [[H E]|[[H E]|[[H E]|[H E]]]]; rewrite E;
    cbn [length Z.of_nat Pos.of_succ_nat Pos.succ].
  - destruct (Z.leb_spec 128 dl) as [Hl|Hs]; cbn [app length].
    + change (wrap8 (128 + wrap8 1)) with (128 + 1).
      set (l := t :: 128 + 1 :: dl :: rest).
      peek_at l 0%nat 0. peek_at l 1%nat 1. peek_at l 2%nat 2.
      long_round l 1 dl.
    + set (l := t :: dl :: rest).
      peek_at l 0%nat 0. peek_at l 1%nat 1.
      rewrite (der_parse_loop_short _ l _ 0 []);
        change (0 + 1) with 1; rewrite ?P, ?P0;
        try lia; try assumption.
      rewrite der_parse_loop_end by (subst l; cbn [length]; lia).
      cbn [app]. repeat f_equal; lia.
  - destruct (Z.leb_spec 128 dl) as [Hl|Hs]; [|lia]. cbn [app length].
    change (wrap8 (128 + wrap8 2)) with (128 + 2).
    set (l := t :: 128 + 2 :: dl / 256 :: dl mod 256 :: rest).
    peek_at l 0%nat 0. peek_at l 1%nat 1. peek_at l 2%nat 2.
    peek_at l 3%nat 3.
    long_round l 2 dl.
  - destruct (Z.leb_spec 128 dl) as [Hl|Hs]; [|lia]. cbn [app length].
    change (wrap8 (128 + wrap8 3)) with (128 + 3).
    set (l := t :: 128 + 3 :: dl / 65536 :: dl / 256 mod 256 :: dl mod 256
              :: rest).
    peek_at l 0%nat 0. peek_at l 1%nat 1. peek_at l 2%nat 2.
    peek_at l 3%nat 3. peek_at l 4%nat 4.
    long_round l 3 dl.
  - destruct (Z.leb_spec 128 dl) as [Hl|Hs]; [|lia]. cbn [app length].
    change (wrap8 (128 + wrap8 4)) with (128 + 4).
    set (l := t :: 128 + 4 :: dl / 16777216 :: dl / 65536 mod 256
              :: dl / 256 mod 256 :: dl mod 256 :: rest).
    peek_at l 0%nat 0. peek_at l 1%nat 1. peek_at l 2%nat 2.
    peek_at l 3%nat 3. peek_at l 4%nat 4. peek_at l 5%nat 5.
    long_round l 4 dl.
Qed.

(** *** The parser on what the encoder stores *)

Lemma map_snd_writes_at (p : Z) (bs : list Z) :
  map snd (writes_at p bs) = bs.
Proof.
  revert p. induction bs as [|b bs IH]; intros p; [reflexivity|].
  cbn [writes_at map snd]. rewrite IH. reflexivity.
Qed.

Lemma writes_at_length (p : Z) (bs : list Z) :
  length (writes_at p bs) = length bs.
Proof.
  rewrite <- (map_snd_writes_at p bs) at 2. symmetry. apply length_map.
Qed.

Lemma length_addresses (p : Z) (n : nat) : length (addresses p n) = n.
Proof.
  revert p. induction n as [|n IH]; intros p; [reflexivity|].
  cbn [addresses length]. rewrite IH. reflexivity.
Qed.

(** The bytes of a node with a header: the header, then as many bytes as
    the cached data length says. *)
Lemma encoding_header_data (n : CAsn1Type) :
  well_formed n -> IsImplicit n = false ->
  exists data,
    encoding n = PutHeader (fields n) ++ data
    /\ Z.of_nat (length data) = m_dwEncodedDataLength (fields n).
Proof.
  intros Hwf Himp.
  destruct (GetEncoded_stores_encoded_length n Hwf 0) as [_ Hst].
  pose proof (well_formed_fields _ Hwf) as Hf.
  pose proof (encoded_length_in_range _ Hf) as Hlen.
  unfold IsImplicit in Himp. rewrite Himp in Hlen.
  destruct Hf as [Hdl _].
  assert (S : exists st,
             snd (GetEncoded n 0) = writes_at 0 (PutHeader (fields n)) ++ st).
  { destruct n as [b dd|b cs|b c]; cbn [GetEncoded fields] in *;
      rewrite Himp;
      try match goal with
          | |- context [let '(_, _) := ?x in _] => destruct x as [ok st]
          end; eexists; reflexivity. }
  destruct S as [st Est]. exists (map snd st).
  unfold encoding. rewrite Est, map_app, map_snd_writes_at.
  split; [reflexivity|].
  apply (f_equal (@length Z)) in Hst.
  rewrite Est, length_map, length_app, writes_at_length, length_addresses
    in Hst.
  unfold GetEncodedLength in Hst. rewrite Hlen in Hst.
  rewrite length_map. lia.
Qed.

Lemma identifier_octet_range (b : base) :
  0 <= m_dwTag b < 31 -> is_class (m_bClass b) ->
  0 <= identifier_octet b < 256
  /\ Z.land (identifier_octet b) 31 <> 31
  /\ wrap8 (identifier_octet b) = identifier_octet b.
Proof.
  intros Ht Hc. unfold identifier_octet.
  assert (H : forall c k, forall i, 0 <= i < Z.of_nat 31 ->
            In c [TC_UNIVERSAL; TC_APPLICATION; TC_CONTEXT_SPECIFIC;
                  TC_PRIVATE] ->
            In k [TT_CONSTRUCTED; TT_PRIMITIVE] ->
            let o := Z.lor i (Z.lor c k) in
            ((0 <=? o) && (o <? 256) && negb (Z.land o 31 =? 31)
             && (wrap8 o =? o)) = true).
  { intros c k i Hi Hc' Hk.
    cbn [In] in Hc', Hk.
    destruct Hc' as [<-|[<-|[<-|[<-|[]]]]]; destruct Hk as [<-|[<-|[]]];
      revert i Hi; apply forallb_range; vm_compute; reflexivity. }
  specialize (H (m_bClass b)
                (if m_bConstructed b then TT_CONSTRUCTED else TT_PRIMITIVE)
                (m_dwTag b) ltac:(lia)).
  cbv zeta in H.
  rewrite !andb_true_iff, negb_true_iff, Z.leb_le, Z.ltb_lt, Z.eqb_neq,
    Z.eqb_eq in H.
  destruct H as [[[H1 H2] H3] H4].
  - destruct Hc as [-> | [-> | [-> | ->]]]; cbn [In]; auto.
  - destruct (m_bConstructed b); cbn [In]; auto.
  - repeat split; assumption.
Qed.

Lemma header_length_PutHeader (b : base) :
  0 <= m_dwTag b < 32 -> 0 <= m_dwEncodedDataLength b < 4294967296 ->
  Z.of_nat (length (PutHeader b)) = header_length b.
Proof.
  intros Ht Hdl. rewrite (length_PutHeader _ Ht). unfold header_length.
  rewrite long_form_iff by lia.
  destruct (Z.leb_spec 128 (m_dwEncodedDataLength b)),
    (Z.leb_spec (m_dwEncodedDataLength b) 127); lia.
Qed.

(** X6: [der_parse] on the bytes that [GetEncoded] stores for a node with a
    header, a tag number below 31 and one of the four classes: one item,
    with the first byte of the header as its tag, the cached data length
    as its length, and the whole encoding as its extent; for a leaf the
    bytes of the item are the bytes of the leaf. *)
Theorem der_parse_encoding (n : CAsn1Type) :
  well_formed n -> IsImplicit n = false ->
  0 <= m_dwTag (fields n) < 31 -> is_class (m_bClass (fields n)) ->
  der_parse (encoding n)
  = [mkItem (identifier_octet (fields n)) (header_length (fields n))
            (m_dwEncodedDataLength (fields n)) 0 (GetEncodedLength n)]
  /\ (forall b m_pbData,
        n = Leaf b m_pbData ->
        sub_slice (encoding n) (header_length b) (m_dwEncodedDataLength b)
        = m_pbData).
Proof.
  intros Hwf Himp Htag Hclass. split.
  - destruct (encoding_header_data n Hwf Himp) as (data & -> & Hdata).
    rewrite (GetEncodedLength_header_plus_data n Hwf), Himp.
    pose proof (well_formed_fields _ Hwf) as [Hdl _].
    destruct (identifier_octet_range _ Htag Hclass) as (R1 & R2 & R3).
    set (b := fields n) in *. set (dl := m_dwEncodedDataLength b) in *.
    unfold PutHeader.
    destruct (small_tag_one_byte (m_dwTag b) ltac:(lia)) as [-> _].
    cbn [or_first app]. fold (identifier_octet b). rewrite R3.
    fold dl. rewrite <- app_assoc.
    replace (header_length b)
      with (1 + 1 + (if nz (Z.land dl 0xFFFFFF80) then DWLength dl else 0)).
    + rewrite app_assoc.
      exact (der_parse_element (identifier_octet b) dl data R1 R2
               ltac:(lia) Hdata).
    + unfold header_length. fold dl. rewrite long_form_iff by lia.
      destruct (Z.leb_spec 128 dl), (Z.leb_spec dl 127); lia.
  - intros b dd ->. cbn [fields] in *.
    destruct Hwf as [[Hdl _] Hlen]. cbn [fields] in *.
    unfold IsImplicit in Himp. cbn [fields] in Himp.
    unfold encoding. cbn [GetEncoded fields snd]. rewrite Himp.
    rewrite map_app, !map_snd_writes_at, Hlen, Nat2Z.id, firstn_all.
    unfold sub_slice.
    rewrite <- (header_length_PutHeader b) by lia.
    rewrite !Nat2Z.id, drop_app_length, firstn_all. reflexivity.
Qed.

(** An OCTET STRING of 200 bytes: 04 81 C8 and the bytes. *)
Lemma der_parse_encoding_witness :
  let n := CAsn1OctetString (repeat 0xAA 200) in
  firstn 4 (encoding n) = [0x04; 0x81; 0xC8; 0xAA]
  /\ der_parse (encoding n) = [mkItem 0x04 3 200 0 203]
  /\ sub_slice (encoding n) 3 200 = repeat 0xAA 200.
Proof.
  cbv zeta.
  assert (W : well_formed (CAsn1OctetString (repeat 0xAA 200)))
    by (apply CAsn1OctetString_well_formed; vm_compute; reflexivity).
  assert (C : is_class (m_bClass (fields (CAsn1OctetString (repeat 0xAA 200)))))
    by (left; reflexivity).
  assert (T : 0 <= m_dwTag (fields (CAsn1OctetString (repeat 0xAA 200))) < 31)
    by (cbn [CAsn1OctetString fields m_dwTag]; unfold ASN1_OCTET_STRING; lia).
  destruct (der_parse_encoding (CAsn1OctetString (repeat 0xAA 200))
              W eq_refl T C) as [P L].
  split; [reflexivity|]. split; [exact P|].
  exact (L _ _ eq_refl).
Defined.

End EncodeParseFacts.

(* ------------------------------------------------------------------ *)
(** ** The parser on addresses *)
(* ------------------------------------------------------------------ *)

Module DerAddressFacts.
Import Der DerFacts EncodeParseFacts.

Section AddressFacts.

Variable ptr_bits : Z.
Variable mem : Z -> Z.

Lemma ptr_small (a : Z) : 0 <= a < 2 ^ ptr_bits -> ptr ptr_bits a = a.
Proof. intros H. unfold ptr. apply Z.mod_small. exact H. Qed.

Lemma peek_bytes_at (p n i : Z) :
  0 <= i < n -> peek (bytes_at mem p n) i = peek_at mem (p + i).
Proof.
  intros Hi. unfold peek, peek_at, byte_at, bytes_at.
  destruct (Z.ltb_spec i 0); [lia|]. f_equal.
  rewrite (nth_indep _ 0 (mem (p + Z.of_nat 0)))
    by (rewrite length_map, length_seq; lia).
  rewrite (map_nth (fun i => mem (p + Z.of_nat i))).
  rewrite seq_nth by lia. f_equal. lia.
Qed.

Lemma length_bytes_at (p n : Z) :
  0 <= n -> Z.of_nat (length (bytes_at mem p n)) = n.
Proof. intros H. unfold bytes_at. rewrite length_map, length_seq. lia. Qed.

Section Slice.

Variables base e : Z.
Variable l : list Z.
Hypothesis Hbase : 0 <= base.
Hypothesis Htop : base + e + 4294967302 <= 2 ^ ptr_bits.
Hypothesis Hmem : forall i, 0 <= i < e -> peek_at mem (base + i) = peek l i.

Lemma read_length_byte_at_no_wrap (ln der flen : Z) :
  0 <= der <= e ->
  read_length_byte_at ptr_bits mem (base + e) (ln, base + der, flen)
  = option_map (at_cursor base) (read_length_byte l e (ln, der, flen)).
Proof.
  intros Hder. unfold read_length_byte_at, read_length_byte.
  rewrite ptr_small by lia.
  destruct (Z.ltb_spec (base + e) (base + der + 1)),
           (Z.ltb_spec e (der + 1)); try lia; [reflexivity|].
  cbn [option_map at_cursor]. rewrite Hmem by lia.
  do 3 f_equal. lia.
Qed.

Lemma long_length_at_no_wrap (b der flen : Z) :
  0 <= der <= e ->
  long_length_at ptr_bits mem (base + e) b (base + der) flen
  = option_map (at_cursor base) (long_length l e b der flen).
Proof.
  intros Hder. unfold long_length_at, long_length.
  repeat match goal with
  | |- context [if ?t then _ else _] => destruct t
  | |- context [read_length_byte_at ptr_bits mem (base + e) (?a, base + ?d, ?f)] =>
      rewrite (read_length_byte_at_no_wrap a d f) by lia;
      let E := fresh "E" in
      destruct (read_length_byte l e (a, d, f)) as [[[? ?] ?]|] eqn:E;
      [apply read_length_byte_cursor in E; destruct E as [[= -> -> ->] ?]|];
      cbn [option_map at_cursor]
  end; reflexivity.
Qed.

Lemma long_length_below_2_32 (b der flen ln der' flen' : Z) :
  long_length l e b der flen = Some (ln, der', flen') ->
  0 <= ln < 4294967296.
Proof.
  unfold long_length.
  repeat match goal with
  | |- context [if ?t then _ else _] => destruct t
  | |- context [read_length_byte l e (?a, ?d, ?f)] =>
      let E := fresh "E" in
      destruct (read_length_byte l e (a, d, f)) as [[[? ?] ?]|] eqn:E;
      [apply read_length_byte_cursor in E; destruct E as [[= -> -> ->] ?]|]
  end; try discriminate; intros [= <- <- <-];
  rewrite ?lor_shiftl_byte by apply peek_range;
  repeat match goal with
  | |- context [peek l ?d] =>
      let X := fresh "P" in
      pose proof (peek_range l d) as X; generalize dependent (peek l d); intros
  end; lia.
Qed.

Lemma map_at_address_snoc (v : list DER_ITEM) (it : DER_ITEM) :
  map (at_address base) v ++ [at_address base it]
  = map (at_address base) (v ++ [it]).
Proof. rewrite map_app. reflexivity. Qed.

(** Where no sum wraps, the loop on addresses does what the loop on
    offsets does. *)
Lemma der_parse_loop_at_no_wrap (fuel : nat) :
  forall (der : Z) (v : list DER_ITEM),
    0 <= der ->
    der_parse_loop_at ptr_bits mem fuel (base + e) (base + der)
                      (map (at_address base) v)
    = option_map (map (at_address base)) (der_parse_loop fuel l e der v).
Proof.
  induction fuel as [|fuel IH]; intros der v Hder; [reflexivity|].
  cbn [der_parse_loop_at der_parse_loop].
  destruct (Z.ltb_spec (base + der) (base + e)), (Z.ltb_spec der e);
    try lia; [|reflexivity].
  rewrite Hmem by lia.
  destruct (Z.land (peek l der) 31 =? 31); [reflexivity|].
  rewrite (ptr_small (base + der + 1)) by lia.
  rewrite (ptr_small (base + der + 1 + 1)) by lia.
  destruct (Z.ltb_spec (base + e) (base + der + 1 + 1)),
           (Z.ltb_spec e (der + 1 + 1)); try lia; [reflexivity|].
  replace (base + der + 1) with (base + (der + 1)) by lia.
  rewrite Hmem by lia.
  destruct (peek l (der + 1) =? 128); [reflexivity|].
  replace (base + (der + 1) + 1) with (base + (der + 1 + 1)) by lia.
  destruct (negb (Z.land (peek l (der + 1)) 128 =? 0)).
  - rewrite long_length_at_no_wrap by lia.
    destruct (long_length l e (Z.land (peek l (der + 1)) 127) (der + 1 + 1) 2)
      as [[[ln der'] flen']|] eqn:E; [|reflexivity].
    cbn [option_map at_cursor].
    pose proof (long_length_below_2_32 _ _ _ _ _ _ E) as Hln.
    apply long_length_cursor in E. destruct E as (_ & Hd & Hf & He).
    assert (der' <= e) by lia.
    rewrite (ptr_small (base + der' + ln)) by lia.
    rewrite (ptr_small (flen' + ln)) by lia.
    destruct (Z.ltb_spec (base + e) (base + der' + ln)),
             (Z.ltb_spec e (der' + ln)); try lia; [reflexivity|].
    replace (base + der' + ln) with (base + (der' + ln)) by lia.
    rewrite <- IH by lia. f_equal. rewrite <- map_at_address_snoc.
    reflexivity.
  - pose proof (peek_range l (der + 1)) as Hb.
    cbn [option_map at_cursor].
    rewrite (ptr_small (base + (der + 1 + 1) + peek l (der + 1))) by lia.
    rewrite (ptr_small (2 + peek l (der + 1))) by lia.
    destruct (Z.ltb_spec (base + e)
                (base + (der + 1 + 1) + peek l (der + 1))),
             (Z.ltb_spec e (der + 1 + 1 + peek l (der + 1))); try lia;
      [reflexivity|].
    replace (base + (der + 1 + 1) + peek l (der + 1))
      with (base + (der + 1 + 1 + peek l (der + 1))) by lia.
    rewrite <- IH by lia. f_equal. rewrite <- map_at_address_snoc.
    reflexivity.
Qed.

End Slice.
(** More fuel than the bytes left changes nothing. *)
Lemma der_parse_loop_fuel (f1 f2 : nat) (l : list Z) (e : Z) :
  forall (der : Z) (v : list DER_ITEM),
    (remaining e der < f1)%nat -> (remaining e der < f2)%nat ->
    der_parse_loop f1 l e der v = der_parse_loop f2 l e der v.
Proof.
  revert f2. induction f1 as [|f1 IH]; intros f2 der v H1 H2; [lia|].
  destruct f2 as [|f2]; [lia|].
  cbn [der_parse_loop].
  destruct (Z.ltb_spec der e); [|reflexivity].
  destruct (Z.land (peek l der) 31 =? 31); [reflexivity|].
  destruct (Z.ltb_spec e (der + 1 + 1)); [reflexivity|].
  destruct (peek l (der + 1) =? 128); [reflexivity|].
  destruct (negb (Z.land (peek l (der + 1)) 128 =? 0)).
  - destruct (long_length l e (Z.land (peek l (der + 1)) 127) (der + 1 + 1) 2)
      as [[[ln der'] flen']|] eqn:E; [|reflexivity].
    apply long_length_advances in E. cbn [fst snd] in E.
    destruct (Z.ltb_spec e (der' + ln)); [reflexivity|].
    apply IH; unfold remaining in *; lia.
  - pose proof (peek_range l (der + 1)).
    destruct (Z.ltb_spec e (der + 1 + 1 + peek l (der + 1))); [reflexivity|].
    apply IH; unfold remaining in *; lia.
Qed.

(** Where no sum wraps, [der_parse] on the bytes at an address returns, and
    returns the items of the slice, at that address. *)
Lemma der_parse_at_no_wrap (fuel : nat) (der_begin der_len : Z) :
  no_wrap ptr_bits der_begin der_len ->
  (Z.to_nat der_len < fuel)%nat ->
  der_parse_at ptr_bits mem fuel der_begin der_len
  = Some (map (at_address der_begin)
              (der_parse (bytes_at mem der_begin der_len))).
Proof.
  intros (Hb & Hn & Htop) Hfuel. unfold der_parse_at, der_parse.
  pose proof (length_bytes_at der_begin der_len Hn) as Hlen.
  rewrite ptr_small by lia.
  replace der_begin with (der_begin + 0) at 2 by lia.
  change (@nil DER_ITEM) with (map (at_address der_begin) []) at 1.
  rewrite (der_parse_loop_at_no_wrap der_begin der_len
             (bytes_at mem der_begin der_len)) by
    (try lia; intros i Hi; symmetry; apply peek_bytes_at; exact Hi).
  rewrite Hlen.
  rewrite (der_parse_loop_fuel fuel (S (length (bytes_at mem der_begin der_len))))
    by (unfold remaining; lia).
  destruct (der_parse_loop_total
              (S (length (bytes_at mem der_begin der_len)))
              (bytes_at mem der_begin der_len) der_len 0 [])
    as [v' ->]; [unfold remaining; lia|].
  reflexivity.
Qed.

Lemma tiles_at_address (base start e : Z) (v : list DER_ITEM) :
  tiles start e v -> tiles (base + start) (base + e) (map (at_address base) v).
Proof.
  revert start. induction v as [|it v IH]; intros start Hv; [exact I|].
  destruct Hv as (H1 & H2 & H3 & H4 & H5 & Hv).
  cbn [map tiles at_address fvalue flen len value].
  repeat split; try lia.
  replace (base + fvalue it + flen it) with (base + (fvalue it + flen it))
    by lia.
  apply IH. exact Hv.
Qed.

Lemma tiles_within (start e : Z) (v : list DER_ITEM) :
  tiles start e v ->
  Forall (fun it => start <= value it /\ 0 <= len it
                    /\ value it + len it <= e) v.
Proof.
  revert start. induction v as [|it v IH]; intros start Hv; [constructor|].
  destruct Hv as (H1 & H2 & H3 & H4 & H5 & Hv).
  constructor; [lia|].
  eapply Forall_impl; [apply (IH _ Hv)|].
  cbn beta. intros x Hx. lia.
Qed.

(** X5: Where no pointer sum can wrap (pointers of 64 bits; more exactly,
    a slice that ends more than 2^32 + 6 bytes below the top of the
    address space), [der_parse] returns whatever the bytes of the slice
    are, and the items it returns lie in the slice, one after the other
    from its first byte on; each has a header of 2 to 6 bytes and its
    value after the header, so the [len] bytes at [value] are bytes of
    the slice.  (With pointers of 32 bits they need not be: see
    [overlong].) *)
Theorem der_parse_items_inside (fuel : nat) (der_begin der_len : Z) :
  no_wrap ptr_bits der_begin der_len ->
  (Z.to_nat der_len < fuel)%nat ->
  exists v,
    der_parse_at ptr_bits mem fuel der_begin der_len = Some v
    /\ tiles der_begin (der_begin + der_len) v
    /\ Forall (fun it => der_begin <= value it /\ 0 <= len it
                         /\ value it + len it <= der_begin + der_len) v.
Proof.
  intros Hw Hfuel. eexists. split; [apply der_parse_at_no_wrap; assumption|].
  destruct Hw as (Hb & Hn & _).
  pose proof (der_parse_tiled (bytes_at mem der_begin der_len)) as T.
  rewrite length_bytes_at in T by exact Hn.
  apply (tiles_at_address der_begin) in T.
  rewrite Z.add_0_r in T.
  split; [exact T|]. apply (tiles_within _ _ _ T).
Qed.

End AddressFacts.

(** With pointers of 32 bits the sum of the address 0x1006 and the length
    FFFFFFFF wraps to 0x1005, which is not past the end of the six bytes:
    the item is taken, with a value that ends 4 GiB past the slice, and a
    [flen] that has wrapped to 5. *)
Lemma overlong_item_on_32_bits :
  der_parse_at 32 overlong 7 0x1000 6
  = Some [mkItem 0x04 0x1006 0xFFFFFFFF 0x1000 5].
Proof. vm_compute. reflexivity. Qed.

(** With pointers of 64 bits the same bytes give no item. *)
Lemma der_parse_items_inside_witness :
  no_wrap 64 0x1000 6
  /\ der_parse_at 64 overlong 7 0x1000 6 = Some []
  /\ exists v,
       der_parse_at 64 overlong 7 0x1000 6 = Some v
       /\ tiles 0x1000 (0x1000 + 6) v
       /\ Forall (fun it => 0x1000 <= value it /\ 0 <= len it
                            /\ value it + len it <= 0x1000 + 6) v.
Proof.
  assert (W : no_wrap 64 0x1000 6) by (unfold no_wrap; lia).
  split; [exact W|]. split; [vm_compute; reflexivity|].
  exact (der_parse_items_inside 64 overlong 7 0x1000 6 W ltac:(cbn; lia)).
Defined.

End DerAddressFacts.

(* ------------------------------------------------------------------ *)
(** ** The hardware abstraction layer *)
(* ------------------------------------------------------------------ *)

Module HalFacts.
Import Hal.

(** Reading a slot of a table after storing into it. *)
Lemma slot_get_set (a : list Z) (i v : Z) :
  0 <= i < Z.of_nat (length a) -> slot_get (slot_set a i v) i = v.
Proof.
  intros Hi. unfold slot_get, slot_set.
  destruct (Z.ltb_spec i 0); [lia|].
  rewrite list_lookup_insert_eq by lia. reflexivity.
Qed.

Lemma length_slot_set (a : list Z) (i v : Z) :
  length (slot_set a i v) = length a.
Proof.
  unfold slot_set. destruct (i <? 0); [reflexivity|apply length_insert].
Qed.

Lemma int32_small (x : Z) : -2147483648 <= x < 2147483648 -> int32 x = x.
Proof. intros H. unfold int32. rewrite Z.mod_small; lia. Qed.

(** A begin call adds one to the counter; an end call takes one off
    unless the counter is 0. *)
Lemma depth_BeginTransactionML (nSlot : Z) (s : lib_state) :
  valid_slot nSlot s -> 0 <= depth nSlot s < 2147483647 ->
  depth nSlot (snd (BeginTransactionML nSlot s)) = depth nSlot s + 1
  /\ valid_slot nSlot (snd (BeginTransactionML nSlot s)).
Proof.
  intros Hv Hd. unfold BeginTransactionML, depth, valid_slot in *.
  cbn [snd].
  set (s1 := if slot_get (hCardsTransactions s) nSlot =? 0
             then snd (SCardBeginTransaction (slot_get (hCards s) nSlot) s)
             else s).
  assert (E : hCardsTransactions s1 = hCardsTransactions s).
  { subst s1. destruct (slot_get (hCardsTransactions s) nSlot =? 0);
      [|reflexivity].
    unfold SCardBeginTransaction. cbn.
    destruct (begin_answers (driver s)); reflexivity. }
  cbn [hCardsTransactions set_hCardsTransactions]. rewrite E.
  rewrite slot_get_set, length_slot_set by exact Hv.
  rewrite int32_small by lia. split; [reflexivity|exact Hv].
Qed.

Lemma depth_EndTransactionML (nSlot : Z) (s : lib_state) :
  valid_slot nSlot s -> 0 <= depth nSlot s < 2147483648 ->
  depth nSlot (snd (EndTransactionML nSlot s))
  = (if 0 <? depth nSlot s then depth nSlot s - 1 else depth nSlot s)
  /\ valid_slot nSlot (snd (EndTransactionML nSlot s)).
Proof.
  intros Hv Hd. unfold EndTransactionML, depth, valid_slot in *.
  destruct (Z.ltb_spec 0 (slot_get (hCardsTransactions s) nSlot));
    [|split; [reflexivity|exact Hv]].
  cbn [hCardsTransactions set_hCardsTransactions].
  rewrite slot_get_set by exact Hv. rewrite int32_small by lia.
  destruct (slot_get (hCardsTransactions s) nSlot - 1 =? 0); cbn [snd];
    cbn [SCardEndTransaction log set_driver hCardsTransactions
         set_hCardsTransactions snd];
    rewrite ?slot_get_set, ?length_slot_set by exact Hv;
    (split; [reflexivity|exact Hv]).
Qed.

(** The counter stays between 0 and the depth at the start plus the number
    of calls made. *)
Lemma depth_bounds (nSlot : Z) (cs : list txn_call) (s : lib_state) :
  valid_slot nSlot s -> 0 <= depth nSlot s ->
  depth nSlot s + Z.of_nat (length cs) < 2147483648 ->
  0 <= depth nSlot (run_calls nSlot cs s)
       <= depth nSlot s + Z.of_nat (length cs).
Proof.
  revert s. induction cs as [|c cs IH]; intros s Hv Hd Hn.
  - cbn. lia.
  - cbn [run_calls length] in *. rewrite Nat2Z.inj_succ in *.
    destruct c; cbn [do_call].
    + destruct (depth_BeginTransactionML nSlot s Hv) as [E Hv']; [lia|].
      specialize (IH _ Hv'). rewrite E in IH.
      specialize (IH ltac:(lia) ltac:(lia)). lia.
    + destruct (depth_EndTransactionML nSlot s Hv) as [E Hv']; [lia|].
      specialize (IH _ Hv'). rewrite E in IH.
      destruct (Z.ltb_spec 0 (depth nSlot s));
        specialize (IH ltac:(lia) ltac:(lia)); lia.
Qed.

(** When no end call comes at depth 0, every call counts. *)
Lemma depth_of_nested_calls (nSlot : Z) (cs : list txn_call) (s : lib_state) :
  valid_slot nSlot s -> 0 <= depth nSlot s ->
  depth nSlot s + Z.of_nat (length cs) < 2147483648 ->
  never_below (depth nSlot s) cs ->
  depth nSlot (run_calls nSlot cs s) = depth nSlot s + begins cs - ends cs.
Proof.
  revert s. induction cs as [|c cs IH]; intros s Hv Hd Hn Hnest.
  - cbn. lia.
  - cbn [run_calls length begins ends never_below] in *.
    rewrite Nat2Z.inj_succ in *. destruct c; cbn [do_call].
    + destruct (depth_BeginTransactionML nSlot s Hv) as [E Hv']; [lia|].
      rewrite IH; rewrite ?E; auto; lia.
    + destruct Hnest as [Hpos Hnest].
      destruct (depth_EndTransactionML nSlot s Hv) as [E Hv']; [lia|].
      destruct (Z.ltb_spec 0 (depth nSlot s)); [|lia].
      rewrite IH; rewrite ?E; auto; lia.
Qed.

(** In terms of the calls alone: every prefix holds at least as many begin
    calls as end calls. *)
Lemma never_below_of_prefixes (cs : list txn_call) (d : Z) :
  (forall k, ends (firstn k cs) <= d + begins (firstn k cs)) ->
  never_below d cs.
Proof.
  revert d. induction cs as [|c cs IH]; intros d H; [exact I|].
  destruct c; cbn [never_below].
  - apply IH. intros k. specialize (H (S k)).
    rewrite firstn_cons in H. cbn [begins ends] in H. lia.
  - split.
    + specialize (H 1%nat). rewrite firstn_cons, firstn_O in H.
      cbn [begins ends] in H. lia.
    + apply IH. intros k. specialize (H (S k)).
      rewrite firstn_cons in H. cbn [begins ends] in H. lia.
Qed.

Lemma run_calls_firstn_length (nSlot : Z) (cs : list txn_call) (k : nat) :
  (length (firstn k cs) <= length cs)%nat.
Proof. rewrite length_firstn. lia. Qed.

(** C5, as stated, fails: one end call and then one begin call are equal
    in number and leave the counter at 1, the end call at depth 0 being
    ignored. *)
Lemma end_then_begin_leaves_depth_1 :
  begins [CallEnd; CallBegin] = ends [CallEnd; CallBegin]
  /\ depth 0 (run_calls 0 [CallEnd; CallBegin] (connected [] [] [])) = 1.
Proof. split; vm_compute; reflexivity. Qed.

(** C5, amended: from depth 0 the counter is at least 0 after every call
    of any sequence of begin and end calls, and after a sequence in which
    no end call comes at depth 0 (every prefix holds at least as many
    begin calls as end calls) it is the number of begin calls minus the
    number of end calls, so 0 when the two are equal.  The slot is one of
    the table and fewer than 2^31 calls are made ([int] does not
    overflow). *)
Theorem transaction_depth_counter (nSlot : Z) (cs : list txn_call)
    (s : lib_state) :
  valid_slot nSlot s -> depth nSlot s = 0 ->
  Z.of_nat (length cs) < 2147483648 ->
  (forall k, 0 <= depth nSlot (run_calls nSlot (firstn k cs) s))
  /\ ((forall k, ends (firstn k cs) <= begins (firstn k cs)) ->
      depth nSlot (run_calls nSlot cs s) = begins cs - ends cs
      /\ (begins cs = ends cs -> depth nSlot (run_calls nSlot cs s) = 0)).
Proof.
  intros Hv Hd Hn. split.
  - intros k. pose proof (run_calls_firstn_length nSlot cs k).
    destruct (depth_bounds nSlot (firstn k cs) s Hv) as [H0 _];
      [lia|lia|exact H0].
  - intros Hpre.
    assert (E : depth nSlot (run_calls nSlot cs s) = begins cs - ends cs).
    { rewrite depth_of_nested_calls; try lia; auto.
      apply never_below_of_prefixes. intros k. specialize (Hpre k). lia. }
    split; [exact E|]. intros Heq. lia.
Qed.

(** The theorem at work: two begin calls and two end calls, nested. *)
Lemma transaction_depth_counter_witness :
  valid_slot 0 (connected [] [] [])
  /\ depth 0 (run_calls 0 [CallBegin; CallBegin; CallEnd; CallEnd]
                        (connected [] [] [])) = 0.
Proof.
  assert (Hv : valid_slot 0 (connected [] [] [])) by (vm_compute; split; [discriminate|reflexivity]).
  split; [exact Hv|].
  refine (proj2 (proj2 (transaction_depth_counter 0
            [CallBegin; CallBegin; CallEnd; CallEnd] (connected [] [] [])
            Hv eq_refl _) _) eq_refl).
  - vm_compute. reflexivity.
  - intros k. do 5 (destruct k as [|k]; [vm_compute; discriminate|]).
    vm_compute. discriminate.
Defined.


Lemma zeroed_zeroed (pLe : option Z) : zeroed (zeroed pLe) = zeroed pLe.
Proof. destruct pLe; reflexivity. Qed.

Lemma retry_calls_S (lock : bool) (h : Z) (apdu : list Z) (n : nat) :
  retry_calls lock h apdu (S n)
  = (Transmit h apdu :: recovery_calls lock h) ++ retry_calls lock h apdu n.
Proof. reflexivity. Qed.

(** One reset with a successful recovery: the loop is entered again with
    the same APDU, [*pLe] zeroed, one answer of each kind used up. *)
Lemma retry_after_one_reset (nSlot h : Z) (apdu : list Z) (pLe : option Z)
    (out : option (list Z)) (SW : Z) (j : list Z)
    (rest : list (scard_rv * list Z)) (s : lib_state) (more : list scard_rv) :
  recovery_answers nSlot s = SCARD_S_SUCCESS :: more ->
  exists s',
    retryTransmit ((SCARD_W_RESET_CARD, j) :: rest) nSlot h apdu pLe out SW s
    = retryTransmit rest nSlot h apdu (zeroed pLe) out SW s'
    /\ calls (driver s')
       = calls (driver s)
         ++ Transmit h apdu :: recovery_calls (locked nSlot s) h
    /\ hCardsTransactions s' = hCardsTransactions s
    /\ recovery_answers nSlot s' = more.
Proof.
  destruct s as [ctx cards txns ini inst dsl [ta ra ba ea ca cl]].
  unfold recovery_answers, locked, depth.
  cbn [hCardsTransactions driver begin_answers reconnect_answers calls].
  intros Hrec.
  cbn -[slot_get Z.ltb].
  destruct (0 <? slot_get txns nSlot) eqn:Elock.
  - subst ba.
    destruct ra as [|rv ra];
      cbn -[slot_get Z.ltb];
      rewrite ?Elock;
      cbn -[slot_get Z.ltb];
      eexists; (split; [reflexivity|]);
      cbn -[slot_get Z.ltb];
      rewrite ?Elock, <- ?app_assoc; cbn [app recovery_calls];
      repeat split; reflexivity.
  - subst ra.
    cbn -[slot_get Z.ltb].
    rewrite ?Elock. cbn [is_success].
    eexists; (split; [reflexivity|]).
    cbn -[slot_get Z.ltb].
    rewrite ?Elock, <- ?app_assoc; cbn [app recovery_calls].
    repeat split; reflexivity.
Qed.

(** Any number of resets with successful recoveries. *)
Lemma retry_after_resets (nSlot h : Z) (apdu : list Z)
    (out : option (list Z)) (SW : Z) (tail : list (scard_rv * list Z))
    (junk : list (list Z)) :
  forall (pLe : option Z) (s : lib_state) (more : list scard_rv),
    recovery_answers nSlot s
    = repeat SCARD_S_SUCCESS (length junk) ++ more ->
    exists s',
      retryTransmit (resets junk ++ tail) nSlot h apdu pLe out SW s
      = retryTransmit tail nSlot h apdu
          (match junk with [] => pLe | _ => zeroed pLe end) out SW s'
      /\ calls (driver s')
         = calls (driver s)
           ++ retry_calls (locked nSlot s) h apdu (length junk)
      /\ hCardsTransactions s' = hCardsTransactions s
      /\ recovery_answers nSlot s' = more.
Proof.
  induction junk as [|j junk IH]; intros pLe s more Hrec.
  - exists s. cbn. rewrite app_nil_r. repeat split. exact Hrec.
  - cbn [length repeat app resets map] in *. fold (resets junk).
    destruct (retry_after_one_reset nSlot h apdu pLe out SW j
                (resets junk ++ tail) s _ Hrec) as (s1 & E1 & C1 & T1 & R1).
    destruct (IH (zeroed pLe) s1 more R1) as (s2 & E2 & C2 & T2 & R2).
    exists s2. rewrite E1, E2. split.
    { destruct junk; [reflexivity|]. rewrite zeroed_zeroed. reflexivity. }
    assert (L : locked nSlot s1 = locked nSlot s)
      by (unfold locked, depth; rewrite T1; reflexivity).
    rewrite C2, C1, L, retry_calls_S, <- !app_assoc.
    repeat split; [congruence|exact R2].
Qed.

(** The status word is the last two bytes of the answer, whichever way
    the data is delivered. *)
Lemma status_word_deliver (tmpBuf : list Z) (pLe : option Z)
    (out : option (list Z)) :
  snd (deliver tmpBuf pLe out) = status_word tmpBuf.
Proof. unfold deliver. destruct (2 <? _); reflexivity. Qed.

(** A reset whose recovery fails: NoCard, and no further transmission. *)
Lemma reset_with_failed_recovery (nSlot h : Z) (apdu : list Z)
    (pLe : option Z) (out : option (list Z)) (SW : Z) (j : list Z)
    (rest : list (scard_rv * list Z)) (s : lib_state) :
  is_success (hd SCARD_E_NO_SMARTCARD (recovery_answers nSlot s)) = false ->
  let r :=
    retryTransmit ((SCARD_W_RESET_CARD, j) :: rest) nSlot h apdu pLe out SW s
  in
  fst (fst r) = C_NO_CARD
  /\ calls (driver (snd r))
     = calls (driver s) ++ Transmit h apdu :: recovery_calls (locked nSlot s) h.
Proof.
  destruct s as [ctx cards txns ini inst dsl [ta ra ba ea ca cl]].
  unfold recovery_answers, locked, depth.
  cbn -[slot_get Z.ltb].
  destruct (0 <? slot_get txns nSlot) eqn:Elock; intros Hfail.
  - destruct ra as [|rv ra]; destruct ba as [|rv' ba];
      cbn -[slot_get Z.ltb] in *; rewrite ?Elock;
      cbn -[slot_get Z.ltb] in *; rewrite ?Hfail;
      cbn -[slot_get Z.ltb]; rewrite <- ?app_assoc;
      split; reflexivity.
  - destruct ra as [|rv ra];
      cbn -[slot_get Z.ltb] in *; rewrite ?Elock, ?Hfail;
      cbn -[slot_get Z.ltb]; rewrite <- ?app_assoc;
      split; reflexivity.
Qed.

(** A transmission that the card answers. *)
Lemma answered_transmission (nSlot h : Z) (apdu : list Z)
    (pLe : option Z) (out : option (list Z)) (SW : Z) (tmpBuf : list Z)
    (rest : list (scard_rv * list Z)) (s : lib_state) :
  let r :=
    retryTransmit ((SCARD_S_SUCCESS, tmpBuf) :: rest) nSlot h apdu pLe out SW s
  in
  fst r = (C_OK, deliver tmpBuf pLe out)
  /\ calls (driver (snd r)) = calls (driver s) ++ [Transmit h apdu]
  /\ transmit_answers (driver (snd r)) = rest
  /\ hCardsTransactions (snd r) = hCardsTransactions s
  /\ hCards (snd r) = hCards s
  /\ initialized (snd r) = initialized s.
Proof.
  destruct s as [ctx cards txns ini inst dsl [ta ra ba ea ca cl]].
  cbn. repeat split.
Qed.

(** C3, as stated, fails: after two consecutive reset reports (each
    followed by a successful reconnect) the call does not return NoCard;
    it transmits the APDU a third time and returns OK with the status word
    of the third answer. *)
Lemma two_resets_are_both_retried :
  let r := SendAPDUML 0 APDU_SELECT 2 None [0x3f; 0x00] None 0
             (connected (resets [[]; []] ++ [answer [] 0x9000])
                        [SCARD_S_SUCCESS; SCARD_S_SUCCESS] []) in
  fst (fst r) = C_OK
  /\ fst (fst r) <> C_NO_CARD
  /\ snd (snd (fst r)) = 0x9000
  /\ length (transmitted (calls (driver (snd r)))) = 3%nat.
Proof. vm_compute. repeat split; discriminate. Qed.

(** C3, amended: when the driver reports "card was reset" the library
    reconnects (and takes the transaction lock again when the depth is
    above 0) and transmits the identical APDU again; it does so after
    every such report, without a bound on their number.  After [n]
    consecutive reset reports whose recovery succeeded and an answer of
    the card, the APDU has been transmitted [n+1] times and the call
    returns OK with the status word of that answer; the call returns
    NoCard when a recovery fails (the reconnect at depth 0, the lock at a
    depth above 0), and then the APDU is not transmitted again. *)
Theorem every_reset_is_retried (nSlot cmd Lc : Z) (pLe : option Z)
    (inBuffer : list Z) (outBuffer : option (list Z)) (SW : Z)
    (s : lib_state) (junk : list (list Z)) :
  let n := length junk in
  let h := slot_get (hCards s) nSlot in
  let apdu := build_apdu cmd Lc pLe inBuffer in
  let r := SendAPDUML nSlot cmd Lc pLe inBuffer outBuffer SW s in
  (forall tmpBuf rest,
      transmit_answers (driver s)
      = resets junk ++ (SCARD_S_SUCCESS, tmpBuf) :: rest ->
      recovers n nSlot s ->
      fst (fst r) = C_OK
      /\ snd (snd (fst r)) = status_word tmpBuf
      /\ calls (driver (snd r))
         = calls (driver s) ++ retry_calls (locked nSlot s) h apdu n
           ++ [Transmit h apdu]
      /\ transmit_answers (driver (snd r)) = rest)
  /\ (forall j rest,
      transmit_answers (driver s)
      = resets junk ++ (SCARD_W_RESET_CARD, j) :: rest ->
      recovery_fails_after n nSlot s ->
      fst (fst r) = C_NO_CARD
      /\ calls (driver (snd r))
         = calls (driver s) ++ retry_calls (locked nSlot s) h apdu n
           ++ Transmit h apdu :: recovery_calls (locked nSlot s) h).
Proof.
  intros n h apdu r. subst r. unfold SendAPDUML. fold h. fold apdu.
  clearbody h apdu. subst n. split.
  - intros tmpBuf rest Hans [more Hrec]. rewrite Hans.
    destruct (retry_after_resets nSlot h apdu outBuffer SW
                ((SCARD_S_SUCCESS, tmpBuf) :: rest) junk pLe s more Hrec)
      as (s' & E & C & T & R).
    rewrite E.
    destruct (answered_transmission nSlot h apdu
                (match junk with [] => pLe | _ => zeroed pLe end)
                outBuffer SW tmpBuf rest s') as (E1 & C1 & A1 & _).
    rewrite E1, C1, A1, C, <- app_assoc. cbn [fst snd].
    rewrite status_word_deliver. repeat split.
  - intros j rest Hans (more & Hrec & Hfail). rewrite Hans.
    destruct (retry_after_resets nSlot h apdu outBuffer SW
                ((SCARD_W_RESET_CARD, j) :: rest) junk pLe s more Hrec)
      as (s' & E & C & T & R).
    rewrite E.
    assert (L : locked nSlot s' = locked nSlot s)
      by (unfold locked, depth; rewrite T; reflexivity).
    rewrite <- R in Hfail.
    destruct (reset_with_failed_recovery nSlot h apdu
                (match junk with [] => pLe | _ => zeroed pLe end)
                outBuffer SW j rest s' Hfail) as (E1 & C1).
    rewrite E1, C1, C, L, <- app_assoc. split; reflexivity.
Qed.

(** The theorem at work: two resets and an answer; one reset whose
    reconnect fails. *)
Lemma every_reset_is_retried_witness :
  recovers 2 0 (connected (resets [[]; []] ++ [answer [] 0x9000])
                          [SCARD_S_SUCCESS; SCARD_S_SUCCESS] [])
  /\ fst (fst (SendAPDUML 0 APDU_SELECT 2 None [0x3f; 0x00] None 0
                 (connected (resets [[]; []] ++ [answer [] 0x9000])
                            [SCARD_S_SUCCESS; SCARD_S_SUCCESS] []))) = C_OK
  /\ recovery_fails_after 0 0 (connected (resets [[]]) [] [])
  /\ fst (fst (SendAPDUML 0 APDU_SELECT 2 None [0x3f; 0x00] None 0
                 (connected (resets [[]]) [] []))) = C_NO_CARD.
Proof.
  assert (H1 : recovers 2 0 (connected (resets [[]; []] ++ [answer [] 0x9000])
                               [SCARD_S_SUCCESS; SCARD_S_SUCCESS] []))
    by (exists []; reflexivity).
  assert (H2 : recovery_fails_after 0 0 (connected (resets [[]]) [] []))
    by (exists []; split; reflexivity).
  split; [exact H1|]. split.
  - exact (proj1 (proj1 (every_reset_is_retried 0 APDU_SELECT 2 None
                           [0x3f; 0x00] None 0
                           (connected (resets [[]; []] ++ [answer [] 0x9000])
                                      [SCARD_S_SUCCESS; SCARD_S_SUCCESS] [])
                           [[]; []])
                        [0x90; 0x00] [] eq_refl H1)).
  - split; [exact H2|].
    exact (proj1 (proj2 (every_reset_is_retried 0 APDU_SELECT 2 None
                           [0x3f; 0x00] None 0
                           (connected (resets [[]]) [] []) [])
                        [] [] eq_refl H2)).
Defined.

(** *** What [SendAPDUML] never does *)

Lemma same_library_refl (s : lib_state) : same_library s s.
Proof. repeat split. Qed.

Lemma same_library_trans (s1 s2 s3 : lib_state) :
  same_library s1 s2 -> same_library s2 s3 -> same_library s1 s3.
Proof.
  unfold same_library. intros (A1 & A2 & A3 & A4 & A5 & A6)
    (B1 & B2 & B3 & B4 & B5 & B6).
  repeat split; congruence.
Qed.

Lemma same_library_log (c : pcsc_call) (s : lib_state) :
  same_library s (log c s).
Proof. repeat split. Qed.

Lemma same_library_set_transmit_answers (a : list (scard_rv * list Z))
    (s : lib_state) :
  same_library s (set_transmit_answers s a).
Proof. repeat split. Qed.

Lemma same_library_SCardReconnect (h : Z) (s : lib_state) :
  same_library s (snd (SCardReconnect h s)).
Proof.
  unfold SCardReconnect. cbv zeta.
  destruct (reconnect_answers (driver (log (Reconnect h) s)));
    repeat split.
Qed.

Lemma same_library_SCardBeginTransaction (h : Z) (s : lib_state) :
  same_library s (snd (SCardBeginTransaction h s)).
Proof.
  unfold SCardBeginTransaction. cbv zeta.
  destruct (begin_answers (driver (log (BeginTransaction h) s)));
    repeat split.
Qed.

(** The retry loop, whatever the driver answers: the code returned, what
    a failure leaves in the arguments, and the variables of the
    library. *)
Lemma retryTransmit_outcomes (answers : list (scard_rv * list Z))
    (nSlot h : Z) (apdu : list Z) (out : option (list Z)) (SW : Z) :
  forall (pLe : option Z) (s : lib_state),
    let r := retryTransmit answers nSlot h apdu pLe out SW s in
    ((fst (fst r) = C_OK
      /\ exists tmpBuf,
           In (SCARD_S_SUCCESS, tmpBuf) answers
           /\ (snd (fst r) = deliver tmpBuf pLe out
               \/ snd (fst r) = deliver tmpBuf (zeroed pLe) out))
     \/ ((fst (fst r) = C_NO_CARD \/ fst (fst r) = C_GENERIC_ERROR)
         /\ snd (fst r) = (zeroed pLe, out, SW)))
    /\ same_library s (snd r).
Proof.
  induction answers as [|[rv tmpBuf] rest IH]; intros pLe s r.
  - subst r. cbn [retryTransmit fst snd]. split.
    + right. split; [left|]; reflexivity.
    + repeat split.
  - subst r. cbn [retryTransmit].
    set (s1 := set_transmit_answers (log (Transmit h apdu) s) rest).
    assert (L1 : same_library s s1) by repeat split.
    destruct rv; cbn [fst snd];
      try (split; [right; split; [auto|reflexivity] | exact L1]).
    + split; [|exact L1]. left. split; [reflexivity|].
      exists tmpBuf. split; [left; reflexivity|left; reflexivity].
    + pose proof (same_library_SCardReconnect h s1) as L2.
      destruct (SCardReconnect h s1) as [rv2 s2]. cbn [snd] in L2.
      assert (L3 : forall rv3 s3,
                 (if 0 <? slot_get (hCardsTransactions s2) nSlot
                  then SCardBeginTransaction h s2 else (rv2, s2)) = (rv3, s3) ->
                 same_library s s3).
      { intros rv3 s3 E.
        destruct (0 <? slot_get (hCardsTransactions s2) nSlot).
        - pose proof (same_library_SCardBeginTransaction h s2) as L.
          rewrite E in L. cbn [snd] in L.
          eapply same_library_trans; [|exact L].
          eapply same_library_trans; [exact L1|exact L2].
        - injection E as _ <-.
          eapply same_library_trans; [exact L1|exact L2]. }
      destruct (if 0 <? slot_get (hCardsTransactions s2) nSlot
                then SCardBeginTransaction h s2 else (rv2, s2))
        as [rv3 s3] eqn:E3.
      specialize (L3 rv3 s3 eq_refl).
      destruct (is_success rv3).
      * destruct (IH (zeroed pLe) s3) as [Hout Hlib].
        split; [|eapply same_library_trans; [exact L3|exact Hlib]].
        rewrite zeroed_zeroed in Hout.
        destruct Hout as [[Hok (t & Hin & Hd)] | Herr].
        -- left. split; [exact Hok|]. exists t.
           split; [right; exact Hin|]. right.
           destruct Hd as [Hd | Hd]; exact Hd.
        -- right. exact Herr.
      * cbn [fst snd]. split; [|exact L3].
        right. split; [left|]; reflexivity.
Qed.

(** X14: A call of [SendAPDUML] that stays inside its arrays (the command
    fits [pSendBuffer], and a buffer for the answer comes with [pLe]), to
    a driver that reports a reset of the card finitely many times, as the
    scripted driver does (the loop of the code has no bound of its own,
    and goes on for as long as the resets do): whatever else the driver
    answers, the code returned is OK, NoCard or GenericError.  When it is
    not OK, [*pLe] is zeroed (if [pLe] is not null) and neither
    [outBuffer] nor [*pSW] has been stored to; when it is OK, [*pSW] is
    the status word of an answer that the driver gave with success.  No
    variable of the library changes: the handles, the transaction
    counters, the context, the flags. *)
Theorem SendAPDUML_outcomes (nSlot cmd Lc : Z) (pLe : option Z)
    (inBuffer : list Z) (outBuffer : option (list Z)) (SW : Z)
    (s : lib_state) :
  call_in_bounds Lc pLe inBuffer outBuffer ->
  answers_in_bounds (transmit_answers (driver s)) ->
  let r := SendAPDUML nSlot cmd Lc pLe inBuffer outBuffer SW s in
  ((fst (fst r) = C_OK
    /\ exists tmpBuf,
         In (SCARD_S_SUCCESS, tmpBuf) (transmit_answers (driver s))
         /\ snd (snd (fst r)) = status_word tmpBuf)
   \/ ((fst (fst r) = C_NO_CARD \/ fst (fst r) = C_GENERIC_ERROR)
       /\ snd (fst r) = (zeroed pLe, outBuffer, SW)))
  /\ same_library s (snd r).
Proof.
  intros _ _ r. subst r. unfold SendAPDUML.
  destruct (retryTransmit_outcomes (transmit_answers (driver s)) nSlot
              (slot_get (hCards s) nSlot) (build_apdu cmd Lc pLe inBuffer)
              outBuffer SW pLe s) as [Hout Hlib].
  split; [|exact Hlib].
  destruct Hout as [[Hok (t & Hin & Hd)] | Herr]; [left|right; exact Herr].
  split; [exact Hok|]. exists t. split; [exact Hin|].
  destruct Hd as [-> | ->]; apply status_word_deliver.
Qed.

(** READ BINARY of two bytes on a card that is reset once and then
    answers AA BB 9000, and on a card that is gone. *)
Lemma SendAPDUML_outcomes_witness :
  let reset_once :=
    connected [(SCARD_W_RESET_CARD, []); answer [0xAA; 0xBB] 0x9000]
              [SCARD_S_SUCCESS] [] in
  let gone := connected [(SCARD_W_REMOVED_CARD, [])] [] [] in
  fst (SendAPDUML 0 APDU_READBINARY 0 (Some 2) [] (Some [0; 0]) 0 reset_once)
  = (C_OK, (Some 0, Some [0; 0], 0x9000))
  /\ fst (SendAPDUML 0 APDU_READBINARY 0 (Some 2) [] (Some [0; 0]) 0 gone)
     = (C_NO_CARD, (Some 0, Some [0; 0], 0))
  /\ same_library reset_once
       (snd (SendAPDUML 0 APDU_READBINARY 0 (Some 2) [] (Some [0; 0]) 0
               reset_once)).
Proof.
  cbv zeta. split; [reflexivity|]. split; [reflexivity|].
  refine (proj2 (SendAPDUML_outcomes 0 APDU_READBINARY 0 (Some 2) []
                   (Some [0; 0]) 0
                   (connected [(SCARD_W_RESET_CARD, []);
                               answer [0xAA; 0xBB] 0x9000]
                              [SCARD_S_SUCCESS] []) _ _)).
  - repeat split; cbn; lia.
  - repeat constructor; try discriminate; cbn; lia.
Defined.

(** *** The calls that [SendAPDUML] makes *)

Lemma calls_log (c : pcsc_call) (s : lib_state) :
  calls (driver (log c s)) = calls (driver s) ++ [c].
Proof. reflexivity. Qed.

Lemma calls_SCardReconnect (h : Z) (s : lib_state) :
  calls (driver (snd (SCardReconnect h s)))
  = calls (driver s) ++ [Reconnect h].
Proof.
  unfold SCardReconnect. cbv zeta.
  destruct (reconnect_answers (driver (log (Reconnect h) s))); reflexivity.
Qed.

Lemma calls_SCardBeginTransaction (h : Z) (s : lib_state) :
  calls (driver (snd (SCardBeginTransaction h s)))
  = calls (driver s) ++ [BeginTransaction h].
Proof.
  unfold SCardBeginTransaction. cbv zeta.
  destruct (begin_answers (driver (log (BeginTransaction h) s)));
    reflexivity.
Qed.

(** The retry loop calls the driver for its card and its command only,
    and the first call is the transmission. *)
Lemma retryTransmit_calls (answers : list (scard_rv * list Z))
    (nSlot h : Z) (apdu : list Z) (out : option (list Z)) (SW : Z) :
  forall (pLe : option Z) (s : lib_state),
    exists new,
      calls (driver (snd (retryTransmit answers nSlot h apdu pLe out SW s)))
      = calls (driver s) ++ Transmit h apdu :: new
      /\ Forall (apdu_call h apdu) new.
Proof.
  induction answers as [|[rv tmpBuf] rest IH]; intros pLe s.
  - exists []. split; [reflexivity|constructor].
  - cbn [retryTransmit].
    set (s1 := set_transmit_answers (log (Transmit h apdu) s) rest).
    assert (C1 : calls (driver s1) = calls (driver s) ++ [Transmit h apdu])
      by reflexivity.
    destruct rv; cbn [fst snd];
      try (exists []; split; [exact C1|constructor]).
    pose proof (calls_SCardReconnect h s1) as C2.
    destruct (SCardReconnect h s1) as [rv2 s2]. cbn [snd] in C2.
    assert (C3 : forall rv3 s3,
               (if 0 <? slot_get (hCardsTransactions s2) nSlot
                then SCardBeginTransaction h s2 else (rv2, s2)) = (rv3, s3) ->
               exists mid,
                 calls (driver s3) = calls (driver s) ++ Transmit h apdu :: mid
                 /\ Forall (apdu_call h apdu) mid).
    { intros rv3 s3 E.
      destruct (0 <? slot_get (hCardsTransactions s2) nSlot).
      - pose proof (calls_SCardBeginTransaction h s2) as C.
        rewrite E in C. cbn [snd] in C.
        exists [Reconnect h; BeginTransaction h].
        rewrite C, C2, C1, <- !app_assoc. split; [reflexivity|].
        apply Forall_cons. split; [right; left; reflexivity|].
        apply Forall_cons. split; [right; right; reflexivity|constructor].
      - injection E as _ <-. exists [Reconnect h].
        rewrite C2, C1, <- !app_assoc. split; [reflexivity|].
        apply Forall_cons. split; [right; left; reflexivity|constructor]. }
    destruct (if 0 <? slot_get (hCardsTransactions s2) nSlot
              then SCardBeginTransaction h s2 else (rv2, s2))
      as [rv3 s3] eqn:E3.
    destruct (C3 rv3 s3 eq_refl) as (mid & Hmid & Fmid).
    destruct (is_success rv3).
    + destruct (IH (zeroed pLe) s3) as (new & Hnew & Fnew).
      unfold zeroed in Hnew.
      exists (mid ++ Transmit h apdu :: new).
      rewrite Hnew, Hmid, <- !app_assoc. split; [reflexivity|].
      apply Forall_app. split; [exact Fmid|].
      apply Forall_cons. split; [left; reflexivity|exact Fnew].
    + cbn [snd]. exists mid. split; [exact Hmid|exact Fmid].
Qed.

(** X15: [SendAPDUML] talks to the card of its slot only: whatever the driver
    answers, the calls it makes are a transmission of the command, then
    transmissions of the same command, reconnections and transaction
    locks for the handle [hCards[nSlot]]; it never ends a transaction
    and never disconnects. *)
Theorem SendAPDUML_calls (nSlot cmd Lc : Z) (pLe : option Z)
    (inBuffer : list Z) (outBuffer : option (list Z)) (SW : Z)
    (s : lib_state) :
  let h := slot_get (hCards s) nSlot in
  let apdu := build_apdu cmd Lc pLe inBuffer in
  exists new,
    calls (driver (snd (SendAPDUML nSlot cmd Lc pLe inBuffer outBuffer SW s)))
    = calls (driver s) ++ Transmit h apdu :: new
    /\ Forall (apdu_call h apdu) new.
Proof.
  intros h apdu. unfold SendAPDUML. apply retryTransmit_calls.
Qed.

(** X16: [SendAPDU] hands the handle of the default slot to [SendAPDUML] where
    the slot is expected: when that handle is itself an index of the
    table, the command goes to the card whose handle is stored there,
    whatever the driver answers. *)
Theorem SendAPDU_takes_the_handle_for_the_slot (cmd Lc : Z)
    (pLe : option Z) (inBuffer : list Z) (outBuffer : option (list Z))
    (SW : Z) (s : lib_state) :
  let h := slot_get (hCards s) (defSlot s) in
  0 <= defSlot s < Z.of_nat (length (hCards s)) ->
  0 <= h < Z.of_nat (length (hCards s)) ->
  exists new,
    calls (driver (snd (SendAPDU cmd Lc pLe inBuffer outBuffer SW s)))
    = calls (driver s)
      ++ Transmit (slot_get (hCards s) h) (build_apdu cmd Lc pLe inBuffer)
         :: new
    /\ Forall (apdu_call (slot_get (hCards s) h)
                         (build_apdu cmd Lc pLe inBuffer)) new.
Proof.
  intros h _ _. unfold SendAPDU, SendAPDUML. apply retryTransmit_calls.
Qed.

(** The card of slot 0 has the handle 7: the SELECT of [SendAPDU] goes to
    the handle 0 of the empty slot 7. *)
Lemma SendAPDU_takes_the_handle_for_the_slot_witness :
  exists new,
    calls (driver (snd (SendAPDU APDU_SELECT 2 None [0x3f; 0x00] None 0
                          (connected [answer [] 0x9000] [] []))))
    = [] ++ Transmit 0 [0x00; 0xa4; 0x00; 0x00; 0x02; 0x3f; 0x00] :: new
    /\ Forall (apdu_call 0 [0x00; 0xa4; 0x00; 0x00; 0x02; 0x3f; 0x00]) new.
Proof.
  apply (SendAPDU_takes_the_handle_for_the_slot APDU_SELECT 2 None
           [0x3f; 0x00] None 0 (connected [answer [] 0x9000] [] [])).
  - vm_compute. split; [discriminate|reflexivity].
  - vm_compute. split; [discriminate|reflexivity].
Defined.

(** *** What a successful transmission delivers *)

Lemma byte_at_app_r (p q : list Z) (i : Z) :
  0 <= i ->
  byte_at (p ++ q) (Z.of_nat (length p) + i) = byte_at q i.
Proof.
  intros Hi. unfold byte_at.
  destruct (Z.ltb_spec (Z.of_nat (length p) + i) 0); [lia|].
  destruct (Z.ltb_spec i 0); [lia|].
  rewrite app_nth2 by lia. f_equal. lia.
Qed.

(** The status word of an answer of the card. *)
Lemma status_word_answer (data : list Z) (sw : Z) :
  0 <= sw < 65536 ->
  status_word (data ++ [sw / 256; sw mod 256]) = sw.
Proof.
  intros Hsw. unfold status_word. cbv zeta.
  rewrite length_app. cbn [length].
  replace (Z.of_nat (length data + 2) - 2)
    with (Z.of_nat (length data) + 0) by lia.
  replace (Z.of_nat (length data + 2) - 1)
    with (Z.of_nat (length data) + 1) by lia.
  rewrite !byte_at_app_r by lia.
  change (byte_at [sw / 256; sw mod 256] 0) with (sw / 256).
  change (byte_at [sw / 256; sw mod 256] 1) with (sw mod 256).
  rewrite EncodeParseFacts.lor_shiftl_byte
    by (apply Z.mod_pos_bound; lia).
  unfold wrap16. rewrite Z.mod_small; Z.div_mod_to_equations; lia.
Qed.

(** What [SendAPDUML] delivers from an answer of the card when [pLe]
    and [outBuffer] are not null. *)
Lemma deliver_answer (le : Z) (buf data : list Z) (sw : Z) :
  0 <= sw < 65536 -> 0 <= le < 256 ->
  Z.of_nat (length data) <= 254 ->
  let n := Z.to_nat (Z.min le (Z.of_nat (length data))) in
  deliver (data ++ [sw / 256; sw mod 256]) (Some le) (Some buf)
  = match data with
    | [] => (Some le, Some buf, sw)
    | _ => (Some (Z.of_nat n), Some (firstn n data ++ skipn n buf), sw)
    end.
Proof.
  intros Hsw Hle Hdata n.
  assert (Hn : Z.of_nat n = Z.min le (Z.of_nat (length data)))
    by (subst n; lia).
  clearbody n.
  unfold deliver. cbv zeta. rewrite (status_word_answer data sw Hsw).
  rewrite length_app. cbn [length].
  replace (Z.of_nat (length data + 2) - 2) with (Z.of_nat (length data))
    by lia.
  destruct data as [|d0 data'] eqn:Ed.
  - reflexivity.
  - rewrite <- Ed in *.
    assert (Hpos : 0 < Z.of_nat (length data))
      by (rewrite Ed; cbn [length]; lia).
    destruct (Z.ltb_spec 2 (Z.of_nat (length data + 2))); [|lia].
    cbn [orb].
    assert (Hk : (if Z.of_nat (length data) <? le
                  then Z.of_nat (length data) else le)
                 = Z.of_nat n).
    { destruct (Z.ltb_spec (Z.of_nat (length data)) le); lia. }
    rewrite Hk. unfold memcpy_at. cbv zeta.
    change (Z.to_nat 0) with 0%nat. cbn [firstn app Nat.add].
    rewrite Nat2Z.id.
    rewrite firstn_app.
    replace (n - length data)%nat with 0%nat by lia.
    cbn [firstn]. rewrite app_nil_r.
    destruct (Z.ltb_spec (Z.of_nat (length data)) le) as [Hlt|Hge].
    + unfold wrap8. rewrite Z.mod_small by lia.
      replace (Z.of_nat (length data)) with (Z.of_nat n) by lia.
      reflexivity.
    + replace le with (Z.of_nat n) at 1 by lia. reflexivity.
Qed.

(** X17: A command that the card answers with the bytes [data] and the status
    word [sw], sent with [*pLe = le] and a buffer for the answer:
    [SendAPDUML] returns OK with [*pSW = sw]; the buffer receives the
    first [le] bytes of [data], or all of them when they are fewer, and
    [*pLe] is the number received.  When the card sends no data, neither
    the buffer nor [*pLe] is stored to: [*pLe] stays [le]. *)
Theorem SendAPDUML_delivers_answer (nSlot cmd Lc le : Z)
    (inBuffer buf data : list Z) (sw SW : Z)
    (rest : list (scard_rv * list Z)) (s : lib_state) :
  transmit_answers (driver s) = answer data sw :: rest ->
  0 <= sw < 65536 -> 0 <= le < 256 ->
  Z.of_nat (length data) <= 254 ->
  Z.min le (Z.of_nat (length data)) <= Z.of_nat (length buf) ->
  let n := Z.to_nat (Z.min le (Z.of_nat (length data))) in
  fst (SendAPDUML nSlot cmd Lc (Some le) inBuffer (Some buf) SW s)
  = (C_OK,
     match data with
     | [] => (Some le, Some buf, sw)
     | _ => (Some (Z.of_nat n), Some (firstn n data ++ skipn n buf), sw)
     end).
Proof.
  intros Hans Hsw Hle Hdata Hbuf n.
  unfold SendAPDUML. rewrite Hans. unfold answer.
  destruct (answered_transmission nSlot (slot_get (hCards s) nSlot)
              (build_apdu cmd Lc (Some le) inBuffer) (Some le) (Some buf) SW
              (data ++ [sw / 256; sw mod 256]) rest s) as [E _].
  cbv zeta in E. rewrite E. f_equal.
  apply (deliver_answer le buf data sw Hsw Hle Hdata).
Qed.

(** Five bytes asked for and three answered. *)
Lemma SendAPDUML_delivers_answer_witness :
  fst (SendAPDUML 0 APDU_READBINARY 0 (Some 5) [] (Some (repeat 0 5)) 0
         (connected [answer [1; 2; 3] 0x9000] [] []))
  = (C_OK, (Some 3, Some [1; 2; 3; 0; 0], 0x9000)).
Proof.
  apply (SendAPDUML_delivers_answer 0 APDU_READBINARY 0 5 [] (repeat 0 5)
           [1; 2; 3] 0x9000 0 [] (connected [answer [1; 2; 3] 0x9000] [] [])).
  - reflexivity.
  - lia.
  - lia.
  - vm_compute. discriminate.
  - vm_compute. discriminate.
Defined.

(** *** [Initialize] and [FinalizeML] *)

Lemma slot_set_twice (a : list Z) (i v : Z) :
  slot_set (slot_set a i v) i (slot_get a i) = a.
Proof.
  unfold slot_set, slot_get. destruct (Z.ltb_spec i 0); [reflexivity|].
  rewrite list_insert_insert_eq.
  destruct (a !! Z.to_nat i) as [x|] eqn:E; cbn [default].
  - apply list_insert_id. exact E.
  - apply lookup_ge_None in E.
    apply list_insert_ge. lia.
Qed.

(** X18: A further slot of a library in use: [Initialize] connects its card
    and counts one more instance; [FinalizeML] then disconnects that card
    and leaves every variable of the library as it was before the two
    calls, the context still established.  The driver has been called
    twice: to connect the reader and to disconnect the card. *)
Theorem Initialize_then_FinalizeML (nSlot h : Z) (rest : list Z)
    (s : lib_state) :
  0 <= nSlot < Z.of_nat (length (hCards s)) ->
  slot_get (hCards s) nSlot = 0 ->
  0 < instances s < 2147483647 -> initialized s = true ->
  hContext s <> 0 ->
  connect_answers (driver s) = h :: rest -> h <> 0 ->
  let r1 := Initialize nSlot s in
  let r2 := FinalizeML nSlot (snd r1) in
  fst r1 = C_OK
  /\ slot_get (hCards (snd r1)) nSlot = h
  /\ instances (snd r1) = instances s + 1
  /\ fst r2 = C_OK
  /\ same_library s (snd r2)
  /\ calls (driver (snd r2))
     = calls (driver s) ++ [ConnectReader (hContext s) nSlot; Disconnect h].
Proof.
  intros Hslot Hfree Hinst Hini Hctx Hconn Hh r1 r2.
  destruct s as [ctx cards txns ini inst dsl [ta ra ba ea ca cl]].
  cbn [hCards instances initialized hContext driver connect_answers calls]
    in *.
  subst ini ca.
  assert (E1 : r1 = (C_OK,
                     mkLib ctx (slot_set cards nSlot h) txns true (inst + 1)
                           dsl (mkPcsc ta ra ba ea rest
                                  (cl ++ [ConnectReader ctx nSlot])))).
  { subst r1 r2. unfold Initialize, Connect.
    cbn [instances hCards hContext initialized defSlot hCardsTransactions
         driver].
    destruct (Z.eqb_spec inst 0) as [|_]; [lia|].
    cbn -[slot_get slot_set Z.eqb int32].
    rewrite Hfree. change (0 =? 0) with true. cbn [negb].
    destruct (Z.eqb_spec ctx 0) as [|_]; [contradiction|].
    cbn -[slot_get slot_set Z.eqb int32].
    destruct (Z.eqb_spec h 0) as [|_]; [contradiction|]. cbn [negb].
    rewrite int32_small by lia.
    destruct (Z.eqb_spec inst 0) as [|_]; [lia|]. reflexivity. }
  subst r2. rewrite E1. cbn [fst snd hCards instances].
  rewrite slot_get_set by exact Hslot.
  split; [reflexivity|]. split; [reflexivity|]. split; [reflexivity|].
  unfold FinalizeML.
  cbn -[slot_get slot_set Z.eqb int32].
  rewrite slot_get_set by exact Hslot.
  destruct (Z.eqb_spec h 0) as [|_]; [contradiction|].
  cbn -[slot_get slot_set Z.eqb int32].
  replace (inst + 1 - 1) with inst by lia.
  rewrite int32_small by lia.
  destruct (Z.eqb_spec inst 0) as [|_]; [lia|].
  cbn [fst snd].
  pose proof (slot_set_twice cards nSlot h) as T. rewrite Hfree in T.
  split; [reflexivity|].
  split; [unfold same_library; cbn; rewrite T; repeat split|].
  cbn. rewrite <- app_assoc. reflexivity.
Qed.

(** The second slot of a library that holds a card in slot 0. *)
Lemma Initialize_then_FinalizeML_witness :
  let s := mkLib 1 (7 :: repeat 0 15) (repeat 0 16) true 1 0
                 (mkPcsc [] [] [] [] [9] []) in
  fst (Initialize 1 s) = C_OK
  /\ slot_get (hCards (snd (Initialize 1 s))) 1 = 9
  /\ instances (snd (Initialize 1 s)) = instances s + 1
  /\ fst (FinalizeML 1 (snd (Initialize 1 s))) = C_OK
  /\ same_library s (snd (FinalizeML 1 (snd (Initialize 1 s))))
  /\ calls (driver (snd (FinalizeML 1 (snd (Initialize 1 s)))))
     = calls (driver s) ++ [ConnectReader (hContext s) 1; Disconnect 9].
Proof.
  intros s.
  apply (Initialize_then_FinalizeML 1 9 [] s).
  - vm_compute. split; [discriminate|reflexivity].
  - reflexivity.
  - vm_compute. split; reflexivity.
  - reflexivity.
  - discriminate.
  - reflexivity.
  - discriminate.
Defined.

(** *** Nested transactions *)

(** Above depth 0 a begin call, and above depth 1 an end call, only
    count. *)
Lemma BeginTransactionML_nested (nSlot : Z) (s : lib_state) :
  depth nSlot s <> 0 ->
  calls (driver (snd (BeginTransactionML nSlot s))) = calls (driver s)
  /\ hCards (snd (BeginTransactionML nSlot s)) = hCards s.
Proof.
  unfold depth, BeginTransactionML. intros Hd.
  destruct (Z.eqb_spec (slot_get (hCardsTransactions s) nSlot) 0);
    [contradiction|].
  split; reflexivity.
Qed.

Lemma EndTransactionML_nested (nSlot : Z) (s : lib_state) :
  valid_slot nSlot s -> 1 < depth nSlot s < 2147483648 ->
  calls (driver (snd (EndTransactionML nSlot s))) = calls (driver s)
  /\ hCards (snd (EndTransactionML nSlot s)) = hCards s.
Proof.
  unfold depth, valid_slot, EndTransactionML. intros Hv Hd.
  destruct (Z.ltb_spec 0 (slot_get (hCardsTransactions s) nSlot)); [|lia].
  cbn [hCardsTransactions set_hCardsTransactions].
  rewrite slot_get_set by exact Hv. rewrite int32_small by lia.
  destruct (Z.eqb_spec (slot_get (hCardsTransactions s) nSlot - 1) 0);
    [lia|].
  split; reflexivity.
Qed.

Lemma nested_calls_are_silent (nSlot : Z) (cs : list txn_call) :
  forall (s : lib_state) (d : Z),
    valid_slot nSlot s -> depth nSlot s = d + 1 -> 0 <= d ->
    d + 1 + Z.of_nat (length cs) < 2147483648 ->
    never_below d cs ->
    calls (driver (run_calls nSlot cs s)) = calls (driver s)
    /\ hCards (run_calls nSlot cs s) = hCards s
    /\ valid_slot nSlot (run_calls nSlot cs s)
    /\ depth nSlot (run_calls nSlot cs s) = d + 1 + begins cs - ends cs.
Proof.
  induction cs as [|c cs IH]; intros s d Hv Hd Hd0 Hn Hnest.
  - cbn [run_calls begins ends]. repeat split; try apply Hv. lia.
  - cbn [run_calls length begins ends never_below] in *.
    rewrite Nat2Z.inj_succ in Hn. destruct c; cbn [do_call].
    + destruct (depth_BeginTransactionML nSlot s Hv ltac:(lia)) as [E Hv'].
      destruct (BeginTransactionML_nested nSlot s ltac:(lia)) as [C HC].
      destruct (IH _ (d + 1) Hv' ltac:(lia) ltac:(lia) ltac:(lia) Hnest)
        as (C' & H' & V' & D').
      rewrite C', H', C, HC, D'. repeat split; try apply V'. lia.
    + destruct Hnest as [Hpos Hnest].
      destruct (depth_EndTransactionML nSlot s Hv ltac:(lia)) as [E Hv'].
      destruct (Z.ltb_spec 0 (depth nSlot s)) as [_|]; [|lia].
      destruct (EndTransactionML_nested nSlot s Hv ltac:(lia)) as [C HC].
      destruct (IH _ (d - 1) Hv' ltac:(lia) ltac:(lia) ltac:(lia) Hnest)
        as (C' & H' & V' & D').
      rewrite C', H', C, HC, D'. repeat split; try apply V'. lia.
Qed.

(** X19: Transactions nested in a transaction never reach the driver: for a
    begin call at depth 0, then begin and end calls that pair up within
    it, then the end call, the driver is called twice, to lock the card
    of the slot before and to unlock it after, and the depth is 0
    again. *)
Theorem nested_transactions_lock_once (nSlot : Z) (cs : list txn_call)
    (s : lib_state) :
  valid_slot nSlot s -> depth nSlot s = 0 ->
  Z.of_nat (length cs) + 2 < 2147483648 ->
  never_below 0 cs -> begins cs = ends cs ->
  let h := slot_get (hCards s) nSlot in
  let s' := run_calls nSlot (CallBegin :: cs ++ [CallEnd]) s in
  calls (driver s')
  = calls (driver s) ++ [BeginTransaction h; EndTransaction h]
  /\ depth nSlot s' = 0.
Proof.
  intros Hv Hd Hn Hnest Hbal h s'. subst s'.
  cbn [run_calls do_call].
  destruct (depth_BeginTransactionML nSlot s Hv ltac:(lia)) as [E1 V1].
  assert (C1 : calls (driver (snd (BeginTransactionML nSlot s)))
               = calls (driver s) ++ [BeginTransaction h]
               /\ hCards (snd (BeginTransactionML nSlot s)) = hCards s).
  { unfold BeginTransactionML. unfold depth in Hd. rewrite Hd.
    change (0 =? 0) with true. cbv iota. cbn [snd].
    cbn [set_hCardsTransactions driver hCards].
    rewrite calls_SCardBeginTransaction. split; [reflexivity|].
    apply (same_library_SCardBeginTransaction h s). }
  destruct C1 as [C1 H1].
  set (s1 := snd (BeginTransactionML nSlot s)) in *.
  assert (R : forall a b t, run_calls nSlot (a ++ b) t
                            = run_calls nSlot b (run_calls nSlot a t)).
  { clear. induction a as [|x a IH]; intros b t; [reflexivity|].
    cbn [app run_calls]. apply IH. }
  rewrite R.
  destruct (nested_calls_are_silent nSlot cs s1 0 V1 ltac:(lia) ltac:(lia)
              ltac:(lia) Hnest) as (C2 & H2 & V2 & D2).
  set (s2 := run_calls nSlot cs s1) in *.
  cbn [run_calls do_call].
  destruct (depth_EndTransactionML nSlot s2 V2 ltac:(lia)) as [E3 _].
  rewrite E3, D2.
  replace (0 + 1 + begins cs - ends cs) with 1 by lia.
  split; [|reflexivity].
  unfold EndTransactionML. unfold depth in D2. rewrite D2.
  replace (0 + 1 + begins cs - ends cs) with 1 by lia.
  change (0 <? 1) with true. cbv iota.
  cbn [hCardsTransactions set_hCardsTransactions].
  unfold valid_slot in V2. rewrite slot_get_set by exact V2.
  change (int32 (1 - 1)) with 0. change (0 =? 0) with true. cbv iota.
  cbn [snd SCardEndTransaction]. rewrite calls_log.
  cbn [set_hCardsTransactions driver hCards].
  rewrite C2, C1, H2, H1, <- app_assoc. reflexivity.
Qed.

(** Two transactions, one in the other. *)
Lemma nested_transactions_lock_once_witness :
  calls (driver (run_calls 0 (CallBegin :: [CallBegin; CallEnd] ++ [CallEnd])
                           (connected [] [] [])))
  = [] ++ [BeginTransaction 7; EndTransaction 7]
  /\ depth 0 (run_calls 0 (CallBegin :: [CallBegin; CallEnd] ++ [CallEnd])
                        (connected [] [] [])) = 0.
Proof.
  apply (nested_transactions_lock_once 0 [CallBegin; CallEnd]
           (connected [] [] [])).
  - vm_compute. split; [discriminate|reflexivity].
  - reflexivity.
  - vm_compute. reflexivity.
  - cbn. repeat split; lia.
  - reflexivity.
Defined.

End HalFacts.

(* ------------------------------------------------------------------ *)
(** ** The card commands *)
(* ------------------------------------------------------------------ *)

Module CardFacts.
Import Hal Card HalFacts.

Lemma transmitted_app (a b : list pcsc_call) :
  transmitted (a ++ b) = transmitted a ++ transmitted b.
Proof. unfold transmitted. apply flat_map_app. Qed.

Lemma sends_nothing_refl (s : lib_state) :
  sends [] (transmit_answers (driver s)) s s.
Proof. unfold sends. rewrite app_nil_r. repeat split. Qed.

Lemma sends_trans (a b : list (list Z)) (l1 l2 : list (scard_rv * list Z))
    (s1 s2 s3 : lib_state) :
  sends a l1 s1 s2 -> sends b l2 s2 s3 -> sends (a ++ b) l2 s1 s3.
Proof.
  intros (I1 & A1 & T1) (I2 & A2 & T2). unfold sends.
  rewrite I2, I1, A2, T2, T1, app_assoc. repeat split.
Qed.

Lemma BeginTransactionML_sends_nothing (nSlot : Z) (s : lib_state) :
  sends [] (transmit_answers (driver s)) s (snd (BeginTransactionML nSlot s)).
Proof.
  destruct s as [ctx cards txns ini inst dsl [ta ra ba ea ca cl]].
  unfold sends, BeginTransactionML, SCardBeginTransaction.
  cbn -[slot_get slot_set Z.eqb int32].
  destruct (slot_get txns nSlot =? 0); [destruct ba|];
    cbn -[slot_get slot_set Z.eqb int32];
    rewrite ?transmitted_app, ?app_nil_r; repeat split;
    cbn; rewrite ?app_nil_r; reflexivity.
Qed.

Lemma EndTransactionML_sends_nothing (nSlot : Z) (s : lib_state) :
  sends [] (transmit_answers (driver s)) s (snd (EndTransactionML nSlot s)).
Proof.
  destruct s as [ctx cards txns ini inst dsl [ta ra ba ea ca cl]].
  unfold sends, EndTransactionML, SCardEndTransaction.
  cbn -[slot_get slot_set Z.eqb Z.ltb int32].
  destruct (0 <? slot_get txns nSlot);
    [destruct (slot_get _ nSlot =? 0)|];
    cbn -[slot_get slot_set Z.eqb Z.ltb int32];
    rewrite ?transmitted_app, ?app_nil_r; repeat split;
    cbn; rewrite ?app_nil_r; reflexivity.
Qed.

(** A command that the card answers: the call returns OK, delivers the
    answer, and has sent the one APDU. *)
Lemma SendAPDUML_answered (nSlot cmd Lc : Z) (pLe : option Z)
    (inBuffer : list Z) (outBuffer : option (list Z)) (SW : Z)
    (s : lib_state) (tmpBuf : list Z) (rest : list (scard_rv * list Z)) :
  transmit_answers (driver s) = (SCARD_S_SUCCESS, tmpBuf) :: rest ->
  let r := SendAPDUML nSlot cmd Lc pLe inBuffer outBuffer SW s in
  fst r = (C_OK, deliver tmpBuf pLe outBuffer)
  /\ sends [build_apdu cmd Lc pLe inBuffer] rest s (snd r).
Proof.
  intros Hans. unfold SendAPDUML. rewrite Hans.
  destruct (answered_transmission nSlot (slot_get (hCards s) nSlot)
              (build_apdu cmd Lc pLe inBuffer) pLe outBuffer SW tmpBuf rest s)
    as (E & C & A & _ & _ & I).
  cbv zeta. split; [exact E|]. unfold sends.
  rewrite I, A, C, transmitted_app. repeat split.
Qed.

(** The VERIFY commands as [build_apdu] makes them. *)
Lemma build_apdu_VERIFY (Lc : Z) (data : list Z) :
  build_apdu (Z.lor APDU_VERIFYPIN 0x00000081) Lc None data
  = VERIFY Lc (firstn (Z.to_nat Lc) data).
Proof.
  unfold build_apdu, VERIFY. cbn -[Z.eqb firstn].
  destruct (Lc =? 0); reflexivity.
Qed.

(** [nPin] is the PIN cut or filled with zeros to 8 bytes. *)
Lemma nPin_eight_bytes (pin : list Z) :
  nPin pin = firstn 8 (pin ++ repeat 0 8).
Proof.
  unfold nPin, memcpy_at, strlen.
  change (Z.to_nat 0) with 0%nat. cbn [firstn app Nat.add].
  destruct (Z.min_spec (Z.of_nat (length pin)) 8) as [[Hlt ->]|[Hge ->]].
  - rewrite Nat2Z.id.
    do 8 (destruct pin as [|? pin]; [reflexivity|]).
    cbn [length] in Hlt. lia.
  - change (Z.to_nat 8) with 8%nat.
    rewrite firstn_app.
    replace (8 - length pin)%nat with 0%nat by lia.
    reflexivity.
Qed.

Lemma deliver_null (tmpBuf : list Z) :
  deliver tmpBuf None None = (None, None, status_word tmpBuf).
Proof. unfold deliver. destruct (2 <? _); reflexivity. Qed.

(** Stepping through a function of the library: a begin or end call, and
    a command that the card answers. *)
Ltac step_begin S :=
  match goal with
  | |- context [BeginTransactionML ?n ?s] =>
      pose proof (BeginTransactionML_sends_nothing n s) as S;
      destruct (BeginTransactionML n s) as [? ?]; cbn [fst snd] in S |- *
  end.

Ltac step_end S :=
  match goal with
  | |- context [EndTransactionML ?n ?s] =>
      pose proof (EndTransactionML_sends_nothing n s) as S;
      destruct (EndTransactionML n s) as [? ?]; cbn [fst snd] in S |- *
  end.

Ltac tidy :=
  change (C_OK =? C_OK) with true; cbn [negb]; cbv beta iota.

Ltac step_send H E S :=
  match type of H with
  | transmit_answers (driver ?st) = _ =>
      match goal with
      | |- context [SendAPDUML ?n ?c ?lc ?p ?i ?o ?w st] =>
          let X := fresh "X" in
          pose proof (SendAPDUML_answered n c lc p i o w st _ _ H) as X;
          cbv zeta in X; destruct X as [E S];
          destruct (SendAPDUML n c lc p i o w st) as [? ?];
          cbn [fst snd] in E, S |- *; subst
      end
  end.

(** C4, as stated, fails: when the first VERIFY is answered 6300 and the
    query with Lc = 0 is answered 9000, the final status word is 9000 and
    the value returned is that status word, 0x9000, which is not OK. *)
Lemma verify_6300_then_9000_is_not_OK :
  fst (VerifyPINML 1 (bytes_of_string "1234") 0
         (connected [answer [] 0x6300; answer [] 0x9000] [] [])) = 0x9000
  /\ 0x9000 <> C_OK.
Proof. split; [vm_compute; reflexivity|discriminate]. Qed.

(** C4, amended: for an initialised library, PIN id 1 and a PIN of at most
    250 characters (the command then fits the 256 bytes of [pSendBuffer]),
    when the card answers every command, [VerifyPINML] first sends VERIFY
    with Lc the length of the PIN; on 6700 it sends VERIFY once more with
    Lc = 8 and the PIN cut or zero-filled to 8 bytes; on 6300 as the latest
    answer it sends VERIFY with Lc = 0 and returns the status word of that
    query as it is, 9000 included; otherwise it returns OK when the latest
    status word is 9000 and that status word when it is not. *)
Theorem VerifyPINML_outcome (pin : list Z) (nSlot : Z) (s : lib_state)
    (r1 r2 r3 : list Z) (rest : list (scard_rv * list Z)) :
  initialized s = true -> strlen pin <= 250 ->
  transmit_answers (driver s)
  = (SCARD_S_SUCCESS, r1) :: (SCARD_S_SUCCESS, r2) :: (SCARD_S_SUCCESS, r3)
    :: rest ->
  let expected :=
    verify_pin_outcome pin (status_word r1) (status_word r2) (status_word r3)
  in
  let r := VerifyPINML 1 pin nSlot s in
  fst r = snd expected
  /\ transmitted (calls (driver (snd r)))
     = transmitted (calls (driver s)) ++ fst expected.
Proof.
  intros Hinit Hpin Hans expected r. subst r expected.
  assert (W : wrap8 (strlen pin) = strlen pin).
  { unfold wrap8, strlen in *. apply Z.mod_small. lia. }
  assert (F : firstn (Z.to_nat (strlen pin)) pin = pin).
  { unfold strlen. rewrite Nat2Z.id. apply firstn_all. }
  unfold VerifyPINML, verify_pin_outcome, bind, ret, IsInitialized.
  rewrite Hinit, W. cbn [negb Z.eqb Pos.eqb].
  step_begin S0. destruct S0 as (I0 & A0 & T0). rewrite Hans in A0.
  step_send A0 E1 S1. rewrite deliver_null. destruct S1 as (I1 & A1 & T1).
  tidy.
  rewrite build_apdu_VERIFY, F in T1.
  destruct (status_word r1 =? 26368) eqn:E6700; tidy.
  - step_send A1 E2 S2. rewrite deliver_null. destruct S2 as (I2 & A2 & T2).
    tidy.
    rewrite build_apdu_VERIFY, nPin_eight_bytes, firstn_firstn in T2.
    change (Init.Nat.min (Z.to_nat 8) 8) with 8%nat in T2.
    unfold SW_AUTH_FAILED, SW_OK.
    destruct (status_word r2 =? 25344) eqn:E6300; tidy.
    + step_send A2 E3 S3. rewrite deliver_null.
      destruct S3 as (I3 & A3 & T3). tidy.
      rewrite build_apdu_VERIFY in T3.
      step_end S4. destruct S4 as (I4 & A4 & T4).
      split; [reflexivity|].
      rewrite T4, T3, T2, T1, T0, app_nil_r, app_nil_r, <- !app_assoc.
      reflexivity.
    + destruct (status_word r2 =? 36864) eqn:E9000; tidy;
        step_end S4; destruct S4 as (I4 & A4 & T4);
        (split; [reflexivity|]);
        rewrite T4, T2, T1, T0, app_nil_r, app_nil_r, <- !app_assoc;
        reflexivity.
  - unfold SW_AUTH_FAILED, SW_OK.
    destruct (status_word r1 =? 25344) eqn:E6300; tidy.
    + step_send A1 E3 S3. rewrite deliver_null.
      destruct S3 as (I3 & A3 & T3). tidy.
      rewrite build_apdu_VERIFY in T3.
      step_end S4. destruct S4 as (I4 & A4 & T4).
      split; [reflexivity|].
      rewrite T4, T3, T1, T0, app_nil_r, app_nil_r, <- !app_assoc.
      reflexivity.
    + destruct (status_word r1 =? 36864) eqn:E9000; tidy;
        step_end S4; destruct S4 as (I4 & A4 & T4);
        (split; [reflexivity|]);
        rewrite T4, T1, T0, app_nil_r, app_nil_r; reflexivity.
Qed.

(** A PIN of four characters that the card refuses twice: 6700, then 6300,
    then 63C2 to the query. *)
Lemma VerifyPINML_outcome_witness :
  let pin := bytes_of_string "1234" in
  let s :=
    connected [answer [] 0x6700; answer [] 0x6300; answer [] 0x63C2] [] [] in
  let r := VerifyPINML 1 pin 0 s in
  fst r = 0x63C2
  /\ transmitted (calls (driver (snd r)))
     = [VERIFY 4 pin; VERIFY 8 (pin ++ [0; 0; 0; 0]); VERIFY 0 []].
Proof.
  exact (VerifyPINML_outcome (bytes_of_string "1234") 0
           (connected [answer [] 0x6700; answer [] 0x6300; answer [] 0x63C2]
              [] [])
           [0x67; 0x00] [0x63; 0x00] [0x63; 0xC2] [] eq_refl
           ltac:(vm_compute; discriminate) eq_refl).
Defined.

(** C10: on an initialised library [GetSNML] returns OK whatever the card
    does, and when the SELECT of the master file, the SELECT of EF GDO or
    the READ BINARY of the 26 bytes of EF GDO fails, the bytes at [serial]
    are the ones the caller had there. *)
Theorem GetSNML_always_OK (serial : list Z) (nSlot : Z) (s : lib_state) :
  initialized s = true ->
  let r := GetSNML serial nSlot s in
  fst (fst r) = C_OK
  /\ (gdo_read_fails nSlot s -> snd (fst r) = serial).
Proof.
  intros Hinit r. subst r.
  unfold GetSNML, gdo_read_fails, bind, ret, IsInitialized.
  rewrite Hinit. cbn [negb].
  destruct (BeginTransactionML nSlot s) as [z s0]. cbn [snd].
  destruct (SelectML 16128 nSlot s0) as [x1 s1]. cbn [fst snd].
  destruct (Z.eqb_spec x1 C_OK) as [E1|E1]; cbn [negb].
  - destruct (SelectML 12034 nSlot s1) as [x2 s2]. cbn [fst snd].
    destruct (Z.eqb_spec x2 C_OK) as [E2|E2]; cbn [negb].
    + destruct (ReadBinaryML 0 (Some (repeat 0 26)) (Some 26) nSlot s2)
        as [[[x3 ef_gdo] len] s3].
      cbn [fst snd].
      destruct (Z.eqb_spec x3 C_OK) as [E3|E3]; cbn [negb];
        destruct (EndTransactionML nSlot s3) as [? ?]; cbn [fst snd];
        (split; [reflexivity|]).
      * intros [F|[F|F]]; contradiction.
      * reflexivity.
    + destruct (EndTransactionML nSlot s2) as [? ?]. cbn [fst snd].
      split; reflexivity.
  - destruct (EndTransactionML nSlot s1) as [? ?]. cbn [fst snd].
    split; reflexivity.
Qed.

(** A card without a master file: the first SELECT is answered 6A82. *)
Lemma GetSNML_always_OK_witness :
  let serial := repeat 0xEE 8 in
  let s := connected [answer [] 0x6A82] [] [] in
  initialized s = true
  /\ gdo_read_fails 0 s
  /\ fst (fst (GetSNML serial 0 s)) = C_OK
  /\ snd (fst (GetSNML serial 0 s)) = serial.
Proof.
  cbv zeta.
  assert (F : gdo_read_fails 0 (connected [answer [] 0x6A82] [] []))
    by (left; vm_compute; discriminate).
  destruct (GetSNML_always_OK (repeat 0xEE 8) 0
              (connected [answer [] 0x6A82] [] []) eq_refl) as [Hok Hser].
  split; [reflexivity|]. split; [exact F|]. split; [exact Hok|exact (Hser F)].
Defined.

(** A SELECT that the card answers: the value returned is OK for the
    status word 9000 and the status word for any other. *)
Lemma SelectML_answered (fid nSlot : Z) (s : lib_state) (a : list Z)
    (rest : list (scard_rv * list Z)) :
  transmit_answers (driver s) = (SCARD_S_SUCCESS, a) :: rest ->
  let r := SelectML fid nSlot s in
  fst r = (if status_word a =? 0x9000 then C_OK else status_word a)
  /\ initialized (snd r) = initialized s
  /\ transmit_answers (driver (snd r)) = rest.
Proof.
  intros Hans r. subst r. unfold SelectML, bind, ret.
  step_begin S0. destruct S0 as (I0 & A0 & T0). rewrite Hans in A0.
  step_send A0 E1 S1. rewrite deliver_null. destruct S1 as (I1 & A1 & T1).
  step_end S2. destruct S2 as (I2 & A2 & T2).
  cbn [fst snd]. change (C_OK =? C_OK) with true. cbn [negb].
  split; [|split; congruence].
  destruct (status_word a =? 36864); reflexivity.
Qed.

Ltac step_select H E I A :=
  match type of H with
  | transmit_answers (driver ?st) = _ =>
      match goal with
      | |- context [SelectML ?f ?n st] =>
          let X := fresh "X" in
          pose proof (SelectML_answered f n st _ _ H) as X;
          cbv zeta in X; destruct X as (E & I & A);
          destruct (SelectML f n st) as [? ?];
          cbn [fst snd] in E, I, A |- *; subst
      end
  end.

(** A VERIFY that the card refuses with a status word other than 6700 and
    6300: the status word is the value returned. *)
Lemma VerifyPINML_refused (pin : list Z) (nSlot : Z) (s : lib_state)
    (r1 : list Z) (rest : list (scard_rv * list Z)) :
  initialized s = true ->
  transmit_answers (driver s) = (SCARD_S_SUCCESS, r1) :: rest ->
  status_word r1 <> 0x6700 -> status_word r1 <> 0x6300 ->
  status_word r1 <> 0x9000 ->
  let r := VerifyPINML 1 pin nSlot s in
  fst r = status_word r1
  /\ initialized (snd r) = true
  /\ transmit_answers (driver (snd r)) = rest.
Proof.
  intros Hinit Hans H67 H63 H90 r. subst r.
  unfold VerifyPINML, bind, ret, IsInitialized.
  rewrite Hinit. cbn [negb Z.eqb Pos.eqb].
  step_begin S0. destruct S0 as (I0 & A0 & T0). rewrite Hans in A0.
  step_send A0 E1 S1. rewrite deliver_null. destruct S1 as (I1 & A1 & T1).
  tidy. unfold SW_AUTH_FAILED, SW_OK.
  destruct (Z.eqb_spec (status_word r1) 26368) as [|_]; [contradiction|].
  destruct (Z.eqb_spec (status_word r1) 25344) as [|_]; [contradiction|].
  destruct (Z.eqb_spec (status_word r1) 36864) as [|_]; [contradiction|].
  tidy. step_end S4. destruct S4 as (I4 & A4 & T4).
  split; [reflexivity|]. split; congruence.
Qed.

(** The on-card signature when MSE SET or PSO SIGN is refused: the three
    SELECTs and MSE RESTORE are answered, and the status word of the
    refusal, which is not 0, is what [SignML] returns, so not OK. *)
Lemma SignML_refused (kx : Z) (toSign Signed : list Z) (nSlot : Z)
    (s : lib_state) (a1 a2 a3 a4 mse pso : list Z)
    (rest : list (scard_rv * list Z)) :
  initialized s = true ->
  transmit_answers (driver s)
  = (SCARD_S_SUCCESS, a1) :: (SCARD_S_SUCCESS, a2) :: (SCARD_S_SUCCESS, a3)
    :: (SCARD_S_SUCCESS, a4) :: (SCARD_S_SUCCESS, mse)
    :: (SCARD_S_SUCCESS, pso) :: rest ->
  status_word a1 = 0x9000 -> status_word a2 = 0x9000 ->
  status_word a3 = 0x9000 ->
  (status_word mse <> 0x9000 /\ status_word mse <> 0)
  \/ (status_word mse = 0x9000
      /\ status_word pso <> 0x9000 /\ status_word pso <> 0) ->
  fst (fst (SignML kx toSign Signed nSlot s)) <> C_OK.
Proof.
  intros Hinit Hans H1 H2 H3 Hsw.
  unfold SignML, bind, ret, IsInitialized. rewrite Hinit. cbn [negb].
  destruct (255 <? kx); [cbn; discriminate|]. tidy.
  step_begin S0. destruct S0 as (I0 & A0 & T0). rewrite Hans in A0.
  step_select A0 E1 J1 A1. rewrite H1, Z.eqb_refl. tidy.
  step_select A1 E2 J2 A2. rewrite H2, Z.eqb_refl. tidy.
  step_select A2 E3 J3 A3. rewrite H3, Z.eqb_refl. tidy.
  step_send A3 E4 S4. rewrite deliver_null. destruct S4 as (I4 & A4 & T4).
  tidy.
  step_send A4 E5 S5. rewrite deliver_null. destruct S5 as (I5 & A5 & T5).
  tidy. unfold SW_OK.
  destruct Hsw as [[Hm Hm0]|(Hm & Hp & Hp0)].
  - destruct (Z.eqb_spec (status_word mse) 36864) as [|_]; [contradiction|].
    tidy. step_end S6. cbn [fst]. exact Hm0.
  - rewrite Hm, Z.eqb_refl. tidy.
    step_send A5 E6 S6.
    pose proof (status_word_deliver pso (Some 128) (Some Signed)) as D.
    destruct (deliver pso (Some 128) (Some Signed)) as [[pLe' out] SW].
    cbn [snd] in D. subst SW. tidy.
    destruct (Z.eqb_spec (status_word pso) 36864) as [|_]; [contradiction|].
    tidy. step_end S7. cbn [fst]. exact Hp0.
Qed.

(** *** The transaction depth across the commands *)

Section Depth.

Variable nSlot : Z.



























End Depth.



(** *** [ChangePINML] *)

(** The 16 bytes that [ChangePINML] sends: the old PIN cut or filled with
    zeros to 8 bytes, then the new PIN followed by what the old PIN holds
    past that place, filled with zeros. *)
Lemma build_apdu_CHANGE_PIN (Oldpin Newpin : list Z) :
  (length Oldpin <= 16)%nat -> (length Newpin <= 8)%nat ->
  build_apdu (Z.lor APDU_CRD 0x00000081) 16 None (pin_buffer Oldpin Newpin)
  = CHANGE_PIN (firstn 8 (Oldpin ++ repeat 0 8))
               (firstn 8 (Newpin ++ skipn (8 + length Newpin) Oldpin
                          ++ repeat 0 8)).
Proof.
  intros HO HN.
  do 17 (destruct Oldpin as [|? Oldpin];
         [ do 9 (destruct Newpin as [|? Newpin]; [reflexivity|]);
           cbn [length] in HN; lia | ]).
  cbn [length] in HO. lia.
Qed.

(** X21: [ChangePINML] for PIN 1, when the card answers: the command carries
    the two PINs in two fields of 8 bytes, and an old PIN of more than 8
    characters runs into the field of the new one, where the characters
    that the new PIN does not cover stay.  On 6300 the VERIFY with Lc = 0
    follows and the status word of its answer is the value returned, as
    it is; otherwise the value is OK for 9000 and the status word for any
    other. *)
Theorem ChangePINML_outcome (Oldpin Newpin : list Z) (nSlot : Z)
    (s : lib_state) (r1 r2 : list Z) (rest : list (scard_rv * list Z)) :
  initialized s = true ->
  transmit_answers (driver s)
  = (SCARD_S_SUCCESS, r1) :: (SCARD_S_SUCCESS, r2) :: rest ->
  (length Oldpin <= 16)%nat -> (length Newpin <= 8)%nat ->
  let command :=
    CHANGE_PIN (firstn 8 (Oldpin ++ repeat 0 8))
               (firstn 8 (Newpin ++ skipn (8 + length Newpin) Oldpin
                          ++ repeat 0 8)) in
  let r := ChangePINML 1 Oldpin Newpin nSlot s in
  fst r = (if status_word r1 =? 0x6300 then status_word r2
           else if status_word r1 =? 0x9000 then C_OK else status_word r1)
  /\ transmitted (calls (driver (snd r)))
     = transmitted (calls (driver s))
       ++ command :: (if status_word r1 =? 0x6300 then [VERIFY 0 []] else []).
Proof.
  intros Hinit Hans HO HN command r. subst r command.
  unfold ChangePINML, bind, ret, IsInitialized.
  rewrite Hinit. cbn [negb Z.eqb Pos.eqb].
  step_begin S0. destruct S0 as (I0 & A0 & T0). rewrite Hans in A0.
  step_send A0 E1 S1. rewrite deliver_null. destruct S1 as (I1 & A1 & T1).
  tidy.
  rewrite (build_apdu_CHANGE_PIN Oldpin Newpin HO HN) in T1.
  unfold SW_AUTH_FAILED, SW_OK.
  destruct (status_word r1 =? 25344) eqn:E6300; tidy.
  - step_send A1 E3 S3. rewrite deliver_null.
    destruct S3 as (I3 & A3 & T3). tidy.
    rewrite build_apdu_VERIFY in T3.
    step_end S4. destruct S4 as (I4 & A4 & T4).
    split; [reflexivity|].
    rewrite T4, T3, T1, T0, app_nil_r, app_nil_r, <- !app_assoc.
    reflexivity.
  - destruct (status_word r1 =? 36864) eqn:E9000; tidy;
      step_end S4; destruct S4 as (I4 & A4 & T4);
      (split; [reflexivity|]);
      rewrite T4, T1, T0, app_nil_r, app_nil_r; reflexivity.
Qed.

(** The old PIN 1234567890 and the new PIN 1: the field of the new PIN
    holds 10. *)
Lemma ChangePINML_outcome_witness :
  let s := connected [answer [] 0x9000; answer [] 0x9000] [] [] in
  let r := ChangePINML 1 (bytes_of_string "1234567890") (bytes_of_string "1")
                       0 s in
  fst r = C_OK
  /\ transmitted (calls (driver (snd r)))
     = [CHANGE_PIN (bytes_of_string "12345678")
                   (bytes_of_string "10" ++ repeat 0 6)].
Proof.
  exact (ChangePINML_outcome (bytes_of_string "1234567890")
           (bytes_of_string "1") 0
           (connected [answer [] 0x9000; answer [] 0x9000] [] [])
           [0x90; 0x00] [0x90; 0x00] [] eq_refl eq_refl
           ltac:(vm_compute; lia) ltac:(vm_compute; lia)).
Defined.

(** *** [ReadCounterML] and [ReadBalanceML] *)

(** A SELECT that the card answers, with the command sent. *)
Lemma SelectML_sends (fid nSlot : Z) (s : lib_state) (a : list Z)
    (rest : list (scard_rv * list Z)) :
  transmit_answers (driver s) = (SCARD_S_SUCCESS, a) :: rest ->
  let r := SelectML fid nSlot s in
  fst r = (if status_word a =? 0x9000 then C_OK else status_word a)
  /\ sends [SELECT fid] rest s (snd r).
Proof.
  intros Hans r. subst r. unfold SelectML, bind, ret.
  step_begin S0. pose proof S0 as (I0 & A0 & T0). rewrite Hans in A0.
  step_send A0 E1 S1. rewrite deliver_null.
  step_end S2.
  cbn [fst snd]. change (C_OK =? C_OK) with true. cbn [negb].
  split; [destruct (status_word a =? 36864); reflexivity|].
  rewrite Hans in S0.
  pose proof (sends_trans _ _ _ _ _ _ _ S0 S1) as S01.
  match type of S2 with
  | sends _ ?l _ _ =>
      replace l with rest in S2 by (symmetry; apply S1)
  end.
  pose proof (sends_trans _ _ _ _ _ _ _ S01 S2) as S012.
  rewrite app_nil_r in S012. exact S012.
Qed.

Ltac step_select_sends H E S :=
  match type of H with
  | transmit_answers (driver ?st) = _ =>
      match goal with
      | |- context [SelectML ?f ?n st] =>
          let X := fresh "X" in
          pose proof (SelectML_sends f n st _ _ H) as X;
          cbv zeta in X; destruct X as (E & S);
          destruct (SelectML f n st) as [? ?];
          cbn [fst snd] in E, S |- *; subst
      end
  end.

(** The conversion of an [int] to a [DWORD] of 32 bits or more: the value
    itself below 2^31, and the sign in the upper bits from there on. *)
Lemma int32_to_DWORD (DWORD_bits v : Z) :
  32 <= DWORD_bits -> 0 <= v < 4294967296 ->
  int32 v mod 2 ^ DWORD_bits
  = v + (if 2147483648 <=? v then 2 ^ DWORD_bits - 4294967296 else 0).
Proof.
  intros Hb Hv.
  assert (P : 2 ^ 32 <= 2 ^ DWORD_bits) by (apply Z.pow_le_mono_r; lia).
  change (2 ^ 32) with 4294967296 in P.
  unfold int32.
  destruct (Z.leb_spec 2147483648 v) as [Hhi|Hlo].
  - replace ((v + 2147483648) mod 4294967296) with (v - 2147483648)
      by (apply Z.mod_unique with 1; lia).
    symmetry. apply Z.mod_unique with (-1); lia.
  - rewrite (Z.mod_small (v + 2147483648)) by lia.
    rewrite Z.mod_small by lia. lia.
Qed.

(** Four bytes, most significant first, as [dword_of] reads them. *)
Lemma dword_of_bytes (DWORD_bits b0 b1 b2 b3 : Z) (more : list Z) :
  32 <= DWORD_bits ->
  is_byte b0 -> is_byte b1 -> is_byte b2 -> is_byte b3 ->
  dword_of DWORD_bits (b0 :: b1 :: b2 :: b3 :: more)
  = counter_value DWORD_bits b0 b1 b2 b3.
Proof.
  unfold is_byte, dword_of, counter_value. intros Hbits H0 H1 H2 H3.
  change (byte_at (b0 :: b1 :: b2 :: b3 :: more) 0) with b0.
  change (byte_at (b0 :: b1 :: b2 :: b3 :: more) 1) with b1.
  change (byte_at (b0 :: b1 :: b2 :: b3 :: more) 2) with b2.
  change (byte_at (b0 :: b1 :: b2 :: b3 :: more) 3) with b3.
  replace (Z.shiftl b0 24) with (Z.shiftl (Z.shiftl b0 8) 16)
    by (rewrite Z.shiftl_shiftl by lia; reflexivity).
  rewrite <- Z.shiftl_lor.
  rewrite (EncodeParseFacts.lor_shiftl_byte b0 b1) by lia.
  replace (Z.shiftl (b0 * 256 + b1) 16)
    with (Z.shiftl (Z.shiftl (b0 * 256 + b1) 8) 8)
    by (rewrite Z.shiftl_shiftl by lia; reflexivity).
  rewrite <- Z.shiftl_lor.
  rewrite (EncodeParseFacts.lor_shiftl_byte (b0 * 256 + b1) b2) by lia.
  rewrite (EncodeParseFacts.lor_shiftl_byte _ b3) by lia.
  rewrite int32_to_DWORD by lia.
  replace (((b0 * 256 + b1) * 256 + b2) * 256 + b3)
    with (b0 * 16777216 + b1 * 65536 + b2 * 256 + b3) by lia.
  destruct (Z.leb_spec 2147483648
              (b0 * 16777216 + b1 * 65536 + b2 * 256 + b3)),
           (Z.leb_spec 128 b0); lia.
Qed.

Lemma read_counter_file_outcome (DWORD_bits fid value : Z) (tmp : list Z)
    (nSlot : Z) (s : lib_state) (a1 a2 a3 a4 data : list Z)
    (rest : list (scard_rv * list Z)) :
  32 <= DWORD_bits ->
  initialized s = true ->
  transmit_answers (driver s)
  = (SCARD_S_SUCCESS, a1) :: (SCARD_S_SUCCESS, a2) :: (SCARD_S_SUCCESS, a3)
    :: (SCARD_S_SUCCESS, a4) :: answer data 0x9000 :: rest ->
  status_word a1 = 0x9000 -> status_word a2 = 0x9000 ->
  status_word a3 = 0x9000 -> status_word a4 = 0x9000 ->
  Forall is_byte data -> Z.of_nat (length data) <= 254 ->
  let r := read_counter_file DWORD_bits fid value tmp nSlot s in
  fst r = counter_outcome DWORD_bits value tmp data
  /\ transmitted (calls (driver (snd r)))
     = transmitted (calls (driver s))
       ++ [SELECT FID_MF; SELECT FID_SIAE_APP_DOMAIN;
           SELECT FID_SIAE_CNT_DOMAIN; SELECT fid; READ_COUNTER].
Proof.
  intros Hbits Hinit Hans H1 H2 H3 H4 Hdata Hlen r. subst r.
  unfold answer in Hans.
  unfold read_counter_file, bind, ret, IsInitialized.
  rewrite Hinit. cbn [negb].
  step_begin S0. destruct S0 as (I0 & A0 & T0). rewrite Hans in A0.
  step_select_sends A0 E1 S1. destruct S1 as (I1 & A1 & T1).
  rewrite H1, Z.eqb_refl. tidy.
  step_select_sends A1 E2 S2. destruct S2 as (I2 & A2 & T2).
  rewrite H2, Z.eqb_refl. tidy.
  step_select_sends A2 E3 S3. destruct S3 as (I3 & A3 & T3).
  rewrite H3, Z.eqb_refl. tidy.
  step_select_sends A3 E4 S4. destruct S4 as (I4 & A4 & T4).
  rewrite H4, Z.eqb_refl. tidy.
  step_send A4 E5 S5. destruct S5 as (I5 & A5 & T5).
  rewrite (deliver_answer 4 tmp data 36864) by (assumption || lia).
  cbv zeta. unfold counter_outcome, SW_OK.
  assert (Hfin : forall (x : Z * Z) (st : lib_state),
             transmitted (calls (driver st))
             = transmitted (calls (driver s))
               ++ [SELECT FID_MF; SELECT FID_SIAE_APP_DOMAIN;
                   SELECT FID_SIAE_CNT_DOMAIN; SELECT fid; READ_COUNTER] ->
             forall y, x = y ->
             fst (let '(_, s') := EndTransactionML nSlot st in (x, s')) = y
             /\ transmitted
                  (calls (driver (snd (let '(_, s') := EndTransactionML nSlot st
                                       in (x, s')))))
                = transmitted (calls (driver s))
                  ++ [SELECT FID_MF; SELECT FID_SIAE_APP_DOMAIN;
                      SELECT FID_SIAE_CNT_DOMAIN; SELECT fid; READ_COUNTER]).
  { intros x st Hst y <-.
    pose proof (EndTransactionML_sends_nothing nSlot st) as (_ & _ & T6).
    destruct (EndTransactionML nSlot st) as [? ?]. cbn [fst snd] in *.
    split; [reflexivity|]. rewrite T6, app_nil_r. exact Hst. }
  assert (Hl4 : transmitted (calls (driver l4))
                = transmitted (calls (driver s))
                  ++ [SELECT FID_MF; SELECT FID_SIAE_APP_DOMAIN;
                      SELECT FID_SIAE_CNT_DOMAIN; SELECT fid; READ_COUNTER]).
  { rewrite T5, T4, T3, T2, T1, T0, app_nil_r, <- !app_assoc. reflexivity. }
  destruct data as [|b0 [|b1 [|b2 [|b3 more]]]];
    cbn [length]; tidy;
    try (apply Hfin; [exact Hl4|reflexivity]).
  apply Forall_cons in Hdata. destruct Hdata as [B0 Hdata].
  apply Forall_cons in Hdata. destruct Hdata as [B1 Hdata].
  apply Forall_cons in Hdata. destruct Hdata as [B2 Hdata].
  apply Forall_cons in Hdata. destruct Hdata as [B3 _].
  rewrite Z.min_l by lia.
  change (Z.to_nat 4) with 4%nat. change (Z.of_nat 4) with 4.
  cbn [firstn app]. tidy.
  change (36864 =? 36864) with true. change (4 =? 4) with true. tidy.
  apply Hfin; [exact Hl4|].
  rewrite (dword_of_bytes DWORD_bits b0 b1 b2 b3 _ Hbits B0 B1 B2 B3).
  reflexivity.
Qed.


(** X22: [ReadCounterML] and [ReadBalanceML] when the card answers every
    command with 9000: the four SELECTs down to the counter file and READ
    COUNTER with Le = 4 are sent, and the four bytes of the answer are
    the value, most significant byte first, as long as the first byte is
    below 128; from 128 on the value is that of the negative [int], which
    in a [DWORD] of 64 bits has the upper 32 bits set (2^64 - 2^32 more
    than the four bytes say), and in a [DWORD] of 32 bits is the four
    bytes still.  Fewer than four bytes are refused with the wrong-length
    code; but when the card sends no byte at all the value is OK, made of
    what the local array held. *)
Theorem ReadCounterML_outcome (DWORD_bits value : Z) (tmp : list Z)
    (nSlot : Z) (s : lib_state) (a1 a2 a3 a4 data : list Z)
    (rest : list (scard_rv * list Z)) :
  32 <= DWORD_bits ->
  initialized s = true ->
  transmit_answers (driver s)
  = (SCARD_S_SUCCESS, a1) :: (SCARD_S_SUCCESS, a2) :: (SCARD_S_SUCCESS, a3)
    :: (SCARD_S_SUCCESS, a4) :: answer data 0x9000 :: rest ->
  status_word a1 = 0x9000 -> status_word a2 = 0x9000 ->
  status_word a3 = 0x9000 -> status_word a4 = 0x9000 ->
  Forall is_byte data -> Z.of_nat (length data) <= 254 ->
  let c := ReadCounterML DWORD_bits value tmp nSlot s in
  let b := ReadBalanceML DWORD_bits value tmp nSlot s in
  fst c = counter_outcome DWORD_bits value tmp data
  /\ transmitted (calls (driver (snd c)))
     = transmitted (calls (driver s))
       ++ [SELECT FID_MF; SELECT FID_SIAE_APP_DOMAIN;
           SELECT FID_SIAE_CNT_DOMAIN; SELECT FID_EF_CNT; READ_COUNTER]
  /\ fst b = counter_outcome DWORD_bits value tmp data
  /\ transmitted (calls (driver (snd b)))
     = transmitted (calls (driver s))
       ++ [SELECT FID_MF; SELECT FID_SIAE_APP_DOMAIN;
           SELECT FID_SIAE_CNT_DOMAIN; SELECT FID_EF_BALANCE_CNT;
           READ_COUNTER].
Proof.
  intros Hbits Hinit Hans H1 H2 H3 H4 Hdata Hlen c b. subst c b.
  unfold ReadCounterML, ReadBalanceML.
  destruct (read_counter_file_outcome DWORD_bits FID_EF_CNT value tmp nSlot s
              a1 a2 a3 a4 data rest Hbits Hinit Hans H1 H2 H3 H4 Hdata Hlen)
    as [C1 C2].
  destruct (read_counter_file_outcome DWORD_bits FID_EF_BALANCE_CNT value tmp
              nSlot s a1 a2 a3 a4 data rest Hbits Hinit Hans H1 H2 H3 H4
              Hdata Hlen)
    as [B1 B2].
  repeat split; assumption.
Qed.

(** The counter bytes 80 00 00 01 in a [DWORD] of 64 bits and in one of
    32 bits, and a card that answers 9000 without data. *)
Lemma ReadCounterML_outcome_witness :
  let ok := answer [] 0x9000 in
  let card := connected [ok; ok; ok; ok; answer [0x80; 0; 0; 1] 0x9000] [] [] in
  fst (ReadCounterML 64 0 [0; 0; 0; 0] 0 card) = (C_OK, 0xFFFFFFFF80000001)
  /\ fst (ReadCounterML 32 0 [0; 0; 0; 0] 0 card) = (C_OK, 0x80000001)
  /\ fst (ReadCounterML 32 0 [0x00; 0x01; 0x23; 0x45] 0
            (connected [ok; ok; ok; ok; answer [] 0x9000] [] []))
     = (C_OK, 0x00012345).
Proof.
  cbv zeta. split; [|split].
  - refine (proj1 (ReadCounterML_outcome 64 0 [0; 0; 0; 0] 0
                     (connected [answer [] 0x9000; answer [] 0x9000;
                                 answer [] 0x9000; answer [] 0x9000;
                                 answer [0x80; 0; 0; 1] 0x9000] [] [])
                     [0x90; 0x00] [0x90; 0x00] [0x90; 0x00] [0x90; 0x00]
                     [0x80; 0; 0; 1] [] _ eq_refl eq_refl eq_refl
                     eq_refl eq_refl eq_refl _ _)).
    + lia.
    + repeat constructor; unfold is_byte; lia.
    + vm_compute. discriminate.
  - refine (proj1 (ReadCounterML_outcome 32 0 [0; 0; 0; 0] 0
                     (connected [answer [] 0x9000; answer [] 0x9000;
                                 answer [] 0x9000; answer [] 0x9000;
                                 answer [0x80; 0; 0; 1] 0x9000] [] [])
                     [0x90; 0x00] [0x90; 0x00] [0x90; 0x00] [0x90; 0x00]
                     [0x80; 0; 0; 1] [] _ eq_refl eq_refl eq_refl
                     eq_refl eq_refl eq_refl _ _)).
    + lia.
    + repeat constructor; unfold is_byte; lia.
    + vm_compute. discriminate.
  - refine (proj1 (ReadCounterML_outcome 32 0 [0x00; 0x01; 0x23; 0x45] 0
                     (connected [answer [] 0x9000; answer [] 0x9000;
                                 answer [] 0x9000; answer [] 0x9000;
                                 answer [] 0x9000] [] [])
                     [0x90; 0x00] [0x90; 0x00] [0x90; 0x00] [0x90; 0x00]
                     [] [] _ eq_refl eq_refl eq_refl eq_refl eq_refl eq_refl
                     _ _)).
    + lia.
    + constructor.
    + vm_compute. discriminate.
Defined.

(** *** The seal commands *)

Lemma masked_byte (x k : Z) :
  0 <= k ->
  wrap8 (Z.shiftr (Z.land x (Z.ones 8 * 2 ^ k)) k) = x / 2 ^ k mod 256.
Proof.
  intros Hk. rewrite Asn1Facts.land_digit_mask by lia.
  rewrite Z.shiftr_div_pow2 by lia.
  rewrite Z.div_mul by (apply Z.pow_nonzero; lia).
  change (2 ^ 8) with 256. unfold wrap8. apply Z.mod_mod. lia.
Qed.

(** The challenge: 00 01, the serial number, the date and time, the
    price. *)
Lemma challenge_layout (SN Data_Ora : list Z) (Prezzo : Z) :
  length SN = 8%nat -> length Data_Ora = 8%nat ->
  challenge SN Data_Ora Prezzo = [0x00; 0x01] ++ SN ++ Data_Ora ++ be32 Prezzo.
Proof.
  intros HS HD.
  do 9 (destruct SN as [|? SN]; try discriminate).
  do 9 (destruct Data_Ora as [|? Data_Ora]; try discriminate).
  unfold challenge, be32. cbv zeta.
  change 0xff000000 with (Z.ones 8 * 2 ^ 24).
  change 0x00ff0000 with (Z.ones 8 * 2 ^ 16).
  change 0x0000ff00 with (Z.ones 8 * 2 ^ 8).
  rewrite !masked_byte by lia.
  change (2 ^ 24) with 16777216. change (2 ^ 16) with 65536.
  change (2 ^ 8) with 256.
  replace (wrap8 (Z.land Prezzo 255)) with (Prezzo mod 256).
  - reflexivity.
  - change 255 with (Z.ones 8). rewrite Z.land_ones by lia.
    change (2 ^ 8) with 256. unfold wrap8. symmetry. apply Z.mod_mod. lia.
Qed.

(** The seal command, answered 9000 with a counter of four bytes and a
    MAC of eight. *)
Lemma send_challenge_answered (DWORD_bits : Z) (Data_Ora : list Z)
    (Prezzo : Z) (SN mac : list Z) (cnt : Z) (tmp : list Z) (nSlot : Z)
    (s : lib_state) (c0 c1 c2 c3 : Z) (m : list Z)
    (rest : list (scard_rv * list Z)) :
  32 <= DWORD_bits ->
  transmit_answers (driver s)
  = answer ([c0; c1; c2; c3] ++ m) 0x9000 :: rest ->
  is_byte c0 -> is_byte c1 -> is_byte c2 -> is_byte c3 ->
  length m = 8%nat -> length SN = 8%nat -> length Data_Ora = 8%nat ->
  let r := send_challenge DWORD_bits Data_Ora Prezzo SN mac cnt tmp nSlot s in
  fst r = (C_OK, m ++ skipn 8 mac, counter_value DWORD_bits c0 c1 c2 c3)
  /\ sends [SIGILLO ([0x00; 0x01] ++ SN ++ Data_Ora ++ be32 Prezzo)] rest s
           (snd r).
Proof.
  intros Hbits Hans B0 B1 B2 B3 Hm HS HD r. subst r.
  unfold answer in Hans. unfold send_challenge, bind, ret.
  step_send Hans E1 S1.
  rewrite (deliver_answer 12 tmp ([c0; c1; c2; c3] ++ m) 36864)
    by (rewrite ?length_app, ?Hm; cbn [length]; lia).
  cbv zeta. rewrite length_app, Hm. cbn [app length]. tidy.
  unfold SW_OK. change (36864 =? 36864) with true. tidy.
  cbn [fst snd].
  assert (Hc : build_apdu APDU_CMP_SIGILLO 22 (Some 12)
                 (challenge SN Data_Ora Prezzo)
               = SIGILLO ([0x00; 0x01] ++ SN ++ Data_Ora ++ be32 Prezzo)).
  { rewrite (challenge_layout SN Data_Ora Prezzo HS HD).
    do 9 (destruct SN as [|? SN]; try discriminate).
    do 9 (destruct Data_Ora as [|? Data_Ora]; try discriminate).
    reflexivity. }
  rewrite Hc in S1. split; [|exact S1].
  do 9 (destruct m as [|? m]; try discriminate).
  change (Z.to_nat (Z.min 12 (Z.of_nat (4 + 8)))) with 12%nat.
  cbn [firstn app skipn].
  rewrite dword_of_bytes by assumption.
  unfold memcpy_at. cbv zeta. change (Z.to_nat 0) with 0%nat.
  change (Z.to_nat 8) with 8%nat. cbn [firstn skipn app Nat.add].
  reflexivity.
Qed.

Ltac step_challenge H E S :=
  match type of H with
  | transmit_answers (driver ?st) = _ =>
      match goal with
      | |- context [send_challenge ?w ?d ?p ?sn ?mac ?cnt ?tmp ?n st] =>
          let X := fresh "X" in
          pose proof (fun Hw => send_challenge_answered w d p sn mac cnt tmp
                                  n st _ _ _ _ _ _ Hw H) as X;
          cbv zeta in X;
          destruct X as (E & S); try assumption;
          destruct (send_challenge w d p sn mac cnt tmp n st) as [? ?];
          cbn [fst snd] in E, S |- *; subst
      end
  end.

Lemma ComputeSigilloML_answered (DWORD_bits : Z) (Data_Ora : list Z)
    (Prezzo : Z) (SN mac : list Z) (cnt : Z) (tmp : list Z) (nSlot : Z)
    (s : lib_state) (a1 a2 a3 a4 : list Z) (c0 c1 c2 c3 : Z) (m : list Z)
    (rest : list (scard_rv * list Z)) :
  32 <= DWORD_bits ->
  initialized s = true ->
  transmit_answers (driver s)
  = (SCARD_S_SUCCESS, a1) :: (SCARD_S_SUCCESS, a2) :: (SCARD_S_SUCCESS, a3)
    :: (SCARD_S_SUCCESS, a4) :: answer ([c0; c1; c2; c3] ++ m) 0x9000
    :: rest ->
  status_word a1 = 0x9000 -> status_word a2 = 0x9000 ->
  status_word a3 = 0x9000 -> status_word a4 = 0x9000 ->
  is_byte c0 -> is_byte c1 -> is_byte c2 -> is_byte c3 ->
  length m = 8%nat -> length SN = 8%nat -> length Data_Ora = 8%nat ->
  let r := ComputeSigilloML DWORD_bits Data_Ora Prezzo SN mac cnt tmp nSlot
                            s in
  fst r = (C_OK, m ++ skipn 8 mac, counter_value DWORD_bits c0 c1 c2 c3)
  /\ sends [SELECT FID_MF; SELECT FID_SIAE_APP_DOMAIN;
            SELECT FID_SIAE_CNT_DOMAIN; SELECT FID_EF_CNT;
            SIGILLO ([0x00; 0x01] ++ SN ++ Data_Ora ++ be32 Prezzo)]
           rest s (snd r).
Proof.
  intros Hbits Hinit Hans H1 H2 H3 H4 B0 B1 B2 B3 Hm HS HD r. subst r.
  unfold ComputeSigilloML, bind, ret, IsInitialized.
  rewrite Hinit. cbn [negb].
  step_begin S0. destruct S0 as (I0 & A0 & T0). rewrite Hans in A0.
  step_select_sends A0 E1 S1. destruct S1 as (I1 & A1 & T1).
  rewrite H1, Z.eqb_refl. tidy.
  step_select_sends A1 E2 S2. destruct S2 as (I2 & A2 & T2).
  rewrite H2, Z.eqb_refl. tidy.
  step_select_sends A2 E3 S3. destruct S3 as (I3 & A3 & T3).
  rewrite H3, Z.eqb_refl. tidy.
  step_select_sends A3 E4 S4. destruct S4 as (I4 & A4 & T4).
  rewrite H4, Z.eqb_refl. tidy.
  step_challenge A4 E5 S5. destruct S5 as (I5 & A5 & T5).
  step_end S6. destruct S6 as (I6 & A6 & T6).
  split; [reflexivity|]. unfold sends.
  split; [congruence|]. split; [congruence|].
  rewrite T6, T5, T4, T3, T2, T1, T0, app_nil_r, app_nil_r, <- !app_assoc.
  reflexivity.
Qed.

(** [GetSNML] when the master file is selected and EF GDO is not: the
    value is OK and nothing is stored to [serial]. *)
Lemma GetSNML_without_GDO (serial : list Z) (nSlot : Z) (s : lib_state)
    (a1 a2 : list Z) (rest : list (scard_rv * list Z)) :
  initialized s = true ->
  transmit_answers (driver s)
  = (SCARD_S_SUCCESS, a1) :: (SCARD_S_SUCCESS, a2) :: rest ->
  status_word a1 = 0x9000 -> status_word a2 <> 0x9000 ->
  status_word a2 <> 0 ->
  let r := GetSNML serial nSlot s in
  fst r = (C_OK, serial)
  /\ sends [SELECT 0x3f00; SELECT 0x2f02] rest s (snd r).
Proof.
  intros Hinit Hans H1 H2 H20 r. subst r.
  unfold GetSNML, bind, ret, IsInitialized.
  rewrite Hinit. cbn [negb].
  step_begin S0. destruct S0 as (I0 & A0 & T0). rewrite Hans in A0.
  step_select_sends A0 E1 S1. destruct S1 as (I1 & A1 & T1).
  rewrite H1, Z.eqb_refl. tidy.
  step_select_sends A1 E2 S2. destruct S2 as (I2 & A2 & T2).
  destruct (Z.eqb_spec (status_word a2) 36864) as [|_]; [contradiction|].
  destruct (Z.eqb_spec (status_word a2) C_OK) as [|_]; [contradiction|].
  cbn [negb].
  step_end S6. destruct S6 as (I6 & A6 & T6).
  split; [reflexivity|]. unfold sends.
  split; [congruence|]. split; [congruence|].
  rewrite T6, T2, T1, T0, app_nil_r, app_nil_r, <- !app_assoc.
  reflexivity.
Qed.

(** X23: [ComputeSigilloML] when the card answers every command with 9000: the
    four SELECTs down to the counter file, then the seal command whose
    challenge is 00 01, the serial number, the date and time, and the
    price, most significant byte first; the first four bytes of the
    answer are the counter, most significant first, and the next eight
    the MAC.  A counter whose first byte is 128 or above goes through a
    negative [int]: in a [DWORD] of 64 bits it comes out 2^64 - 2^32
    above what the four bytes say, in one of 32 bits as the bytes say.
    [ComputeSigilloFastML] sends the seal command alone, and does not
    ask whether the library is initialised. *)
Theorem ComputeSigilloML_outcome (DWORD_bits : Z) (Data_Ora : list Z)
    (Prezzo : Z) (SN mac : list Z) (cnt : Z) (tmp : list Z) (nSlot : Z)
    (s s' : lib_state) (a1 a2 a3 a4 : list Z) (c0 c1 c2 c3 : Z)
    (m : list Z) (rest : list (scard_rv * list Z)) :
  32 <= DWORD_bits ->
  initialized s = true ->
  transmit_answers (driver s)
  = (SCARD_S_SUCCESS, a1) :: (SCARD_S_SUCCESS, a2) :: (SCARD_S_SUCCESS, a3)
    :: (SCARD_S_SUCCESS, a4) :: answer ([c0; c1; c2; c3] ++ m) 0x9000
    :: rest ->
  transmit_answers (driver s')
  = answer ([c0; c1; c2; c3] ++ m) 0x9000 :: rest ->
  status_word a1 = 0x9000 -> status_word a2 = 0x9000 ->
  status_word a3 = 0x9000 -> status_word a4 = 0x9000 ->
  is_byte c0 -> is_byte c1 -> is_byte c2 -> is_byte c3 ->
  length m = 8%nat -> length SN = 8%nat -> length Data_Ora = 8%nat ->
  let seal := SIGILLO ([0x00; 0x01] ++ SN ++ Data_Ora ++ be32 Prezzo) in
  let sealed :=
    (C_OK, m ++ skipn 8 mac, counter_value DWORD_bits c0 c1 c2 c3) in
  let r := ComputeSigilloML DWORD_bits Data_Ora Prezzo SN mac cnt tmp nSlot
                            s in
  let f := ComputeSigilloFastML DWORD_bits Data_Ora Prezzo SN mac cnt tmp
                                nSlot s' in
  fst r = sealed
  /\ transmitted (calls (driver (snd r)))
     = transmitted (calls (driver s))
       ++ [SELECT FID_MF; SELECT FID_SIAE_APP_DOMAIN;
           SELECT FID_SIAE_CNT_DOMAIN; SELECT FID_EF_CNT; seal]
  /\ fst f = sealed
  /\ transmitted (calls (driver (snd f)))
     = transmitted (calls (driver s')) ++ [seal].
Proof.
  intros Hbits Hinit Hans Hans' H1 H2 H3 H4 B0 B1 B2 B3 Hm HS HD seal sealed
         r f.
  subst seal sealed r f.
  destruct (ComputeSigilloML_answered DWORD_bits Data_Ora Prezzo SN mac cnt
              tmp nSlot s a1 a2 a3 a4 c0 c1 c2 c3 m rest Hbits Hinit Hans
              H1 H2 H3 H4 B0 B1 B2 B3 Hm HS HD) as (E & _ & _ & T).
  split; [exact E|]. split; [exact T|].
  unfold ComputeSigilloFastML, bind, ret.
  step_begin S0. destruct S0 as (I0 & A0 & T0). rewrite Hans' in A0.
  step_challenge A0 E5 S5. destruct S5 as (I5 & A5 & T5).
  step_end S6. destruct S6 as (I6 & A6 & T6).
  split; [reflexivity|].
  rewrite T6, T5, T0, app_nil_r, app_nil_r. reflexivity.
Qed.

(** The seal of the price 1250 with the counter bytes 80 00 00 07, on a
    build with a [DWORD] of 64 bits. *)
Lemma ComputeSigilloML_outcome_witness :
  let ok := answer [] 0x9000 in
  let sealed := answer ([0x80; 0; 0; 7] ++ repeat 0xAB 8) 0x9000 in
  let r := ComputeSigilloML 64 (repeat 0x20 8) 1250 (repeat 0x11 8)
             (repeat 0 8) 0 (repeat 0 12) 0
             (connected [ok; ok; ok; ok; sealed] [] []) in
  fst r = (C_OK, repeat 0xAB 8, 0xFFFFFFFF80000007)
  /\ transmitted (calls (driver (snd r)))
     = [SELECT FID_MF; SELECT FID_SIAE_APP_DOMAIN; SELECT FID_SIAE_CNT_DOMAIN;
        SELECT FID_EF_CNT;
        SIGILLO ([0x00; 0x01] ++ repeat 0x11 8 ++ repeat 0x20 8
                 ++ [0x00; 0x00; 0x04; 0xE2])].
Proof.
  cbv zeta.
  destruct (ComputeSigilloML_outcome 64 (repeat 0x20 8) 1250 (repeat 0x11 8)
              (repeat 0 8) 0 (repeat 0 12) 0
              (connected [answer [] 0x9000; answer [] 0x9000;
                          answer [] 0x9000; answer [] 0x9000;
                          answer ([0x80; 0; 0; 7] ++ repeat 0xAB 8) 0x9000]
                         [] [])
              (connected [answer ([0x80; 0; 0; 7] ++ repeat 0xAB 8) 0x9000]
                         [] [])
              [0x90; 0x00] [0x90; 0x00] [0x90; 0x00] [0x90; 0x00]
              0x80 0 0 7 (repeat 0xAB 8) [] ltac:(lia) eq_refl eq_refl
              eq_refl eq_refl eq_refl eq_refl eq_refl)
    as (E & T & _); try (unfold is_byte; lia); try reflexivity.
  split; [exact E|exact T].
Defined.

(** X24: [ComputeSigilloExML] does not see that the serial number was not
    read: when EF GDO cannot be selected, [GetSNML] returns OK and leaves
    the eight bytes of [sn] as they were, and the seal is computed and
    returned with OK over a challenge that carries those bytes, which
    nothing has initialised. *)
Theorem ComputeSigilloExML_unread_serial (DWORD_bits : Z)
    (Data_Ora : list Z) (Prezzo : Z) (mac : list Z) (cnt : Z)
    (sn tmp : list Z) (nSlot : Z) (s : lib_state)
    (g1 g2 a1 a2 a3 a4 : list Z) (c0 c1 c2 c3 : Z) (m : list Z)
    (rest : list (scard_rv * list Z)) :
  32 <= DWORD_bits ->
  initialized s = true ->
  transmit_answers (driver s)
  = (SCARD_S_SUCCESS, g1) :: (SCARD_S_SUCCESS, g2)
    :: (SCARD_S_SUCCESS, a1) :: (SCARD_S_SUCCESS, a2) :: (SCARD_S_SUCCESS, a3)
    :: (SCARD_S_SUCCESS, a4) :: answer ([c0; c1; c2; c3] ++ m) 0x9000
    :: rest ->
  status_word g1 = 0x9000 ->
  status_word g2 <> 0x9000 -> status_word g2 <> 0 ->
  status_word a1 = 0x9000 -> status_word a2 = 0x9000 ->
  status_word a3 = 0x9000 -> status_word a4 = 0x9000 ->
  is_byte c0 -> is_byte c1 -> is_byte c2 -> is_byte c3 ->
  length m = 8%nat -> length sn = 8%nat -> length Data_Ora = 8%nat ->
  let r := ComputeSigilloExML DWORD_bits Data_Ora Prezzo mac cnt sn tmp
                              nSlot s in
  fst r = (C_OK, m ++ skipn 8 mac, counter_value DWORD_bits c0 c1 c2 c3)
  /\ transmitted (calls (driver (snd r)))
     = transmitted (calls (driver s))
       ++ [SELECT 0x3f00; SELECT 0x2f02;
           SELECT FID_MF; SELECT FID_SIAE_APP_DOMAIN;
           SELECT FID_SIAE_CNT_DOMAIN; SELECT FID_EF_CNT;
           SIGILLO ([0x00; 0x01] ++ sn ++ Data_Ora ++ be32 Prezzo)].
Proof.
  intros Hbits Hinit Hans G1 G2 G20 H1 H2 H3 H4 B0 B1 B2 B3 Hm HS HD r.
  subst r.
  unfold ComputeSigilloExML, bind, ret, IsInitialized.
  rewrite Hinit. cbn [negb].
  step_begin S0. destruct S0 as (I0 & A0 & T0). rewrite Hans in A0.
  match goal with
  | |- context [GetSNML sn nSlot ?st] =>
      destruct (GetSNML_without_GDO sn nSlot st g1 g2 _
                  ltac:(congruence) A0 G1 G2 G20) as (E1 & I1 & A1 & T1);
      destruct (GetSNML sn nSlot st) as [? ?]
  end.
  cbn [fst snd] in E1, I1, A1, T1 |- *. subst. tidy.
  match goal with
  | |- context [ComputeSigilloML DWORD_bits Data_Ora Prezzo sn mac cnt tmp
                                 nSlot ?st] =>
      destruct (ComputeSigilloML_answered DWORD_bits Data_Ora Prezzo sn mac
                  cnt tmp nSlot st a1 a2 a3 a4 c0 c1 c2 c3 m rest Hbits
                  ltac:(congruence) A1 H1 H2 H3 H4 B0 B1 B2 B3 Hm HS HD)
        as (E2 & I2 & A2 & T2);
      destruct (ComputeSigilloML DWORD_bits Data_Ora Prezzo sn mac cnt tmp
                                 nSlot st)
        as [? ?]
  end.
  cbn [fst snd] in E2, I2, A2, T2 |- *. subst.
  step_end S6. destruct S6 as (I6 & A6 & T6).
  split; [reflexivity|].
  rewrite T6, T2, T1, T0, app_nil_r, app_nil_r, <- !app_assoc.
  reflexivity.
Qed.

(** A card without EF GDO: the seal goes over the eight bytes EE that
    [sn] held. *)
Lemma ComputeSigilloExML_unread_serial_witness :
  let ok := answer [] 0x9000 in
  let sealed := answer ([0; 0; 0; 7] ++ repeat 0xAB 8) 0x9000 in
  let r := ComputeSigilloExML 32 (repeat 0x20 8) 1250 (repeat 0 8) 0
             (repeat 0xEE 8) (repeat 0 12) 0
             (connected [ok; answer [] 0x6A82; ok; ok; ok; ok; sealed]
                        [] []) in
  fst r = (C_OK, repeat 0xAB 8, 7)
  /\ transmitted (calls (driver (snd r)))
     = [SELECT 0x3f00; SELECT 0x2f02;
        SELECT FID_MF; SELECT FID_SIAE_APP_DOMAIN; SELECT FID_SIAE_CNT_DOMAIN;
        SELECT FID_EF_CNT;
        SIGILLO ([0x00; 0x01] ++ repeat 0xEE 8 ++ repeat 0x20 8
                 ++ [0x00; 0x00; 0x04; 0xE2])].
Proof.
  cbv zeta.
  apply (ComputeSigilloExML_unread_serial 32 (repeat 0x20 8) 1250
           (repeat 0 8) 0 (repeat 0xEE 8) (repeat 0 12) 0
           (connected [answer [] 0x9000; answer [] 0x6A82; answer [] 0x9000;
                       answer [] 0x9000; answer [] 0x9000; answer [] 0x9000;
                       answer ([0; 0; 0; 7] ++ repeat 0xAB 8) 0x9000] [] [])
           [0x90; 0x00] [0x6A; 0x82] [0x90; 0x00] [0x90; 0x00] [0x90; 0x00]
           [0x90; 0x00] 0 0 0 7 (repeat 0xAB 8) []);
    try reflexivity; try (unfold is_byte; lia); try lia;
    vm_compute; discriminate.
Defined.

(** *** [ReadBinaryML] *)

Lemma lor_shiftl_low (a b k : Z) :
  0 <= k -> 0 <= b < 2 ^ k -> Z.lor (Z.shiftl a k) b = a * 2 ^ k + b.
Proof.
  intros Hk Hb. rewrite Z.shiftl_mul_pow2 by lia.
  assert (Hz : Z.land (a * 2 ^ k) b = 0).
  { rewrite <- (Z.mod_small b (2 ^ k)) by lia.
    rewrite <- Z.shiftl_mul_pow2 by lia.
    rewrite <- Z.land_ones by lia.
    apply Z.bits_inj'. intros i Hi.
    rewrite !Z.land_spec, Z.bits_0.
    destruct (Z.ltb_spec i k).
    - rewrite Z.shiftl_spec_low by lia. reflexivity.
    - rewrite Z.ones_spec_high by lia. rewrite !andb_false_r. reflexivity. }
  rewrite <- Z.lxor_lor by exact Hz.
  symmetry. apply Z.add_nocarry_lxor. exact Hz.
Qed.

Lemma build_apdu_READ_BINARY (off le : Z) :
  0 <= off < 65536 ->
  build_apdu (Z.lor APDU_READBINARY off) 0 (Some le) []
  = READ_BINARY off le.
Proof.
  intros Hoff. unfold build_apdu, READ_BINARY. cbv zeta.
  change APDU_READBINARY with (Z.shiftl 0xb0 16).
  rewrite (lor_shiftl_low 0xb0 off 16) by (change (2 ^ 16) with 65536; lia).
  change (2 ^ 16) with 65536.
  change 0xff000000 with (Z.ones 8 * 2 ^ 24).
  change 0x00ff0000 with (Z.ones 8 * 2 ^ 16).
  change 0x0000ff00 with (Z.ones 8 * 2 ^ 8).
  rewrite !masked_byte by lia.
  change (2 ^ 24) with 16777216. change (2 ^ 16) with 65536.
  change (2 ^ 8) with 256.
  replace (wrap8 (Z.land (176 * 65536 + off) 255)) with (off mod 256).
  2:{ change 255 with (Z.ones 8). rewrite Z.land_ones by lia.
      change (2 ^ 8) with 256. unfold wrap8. rewrite Z.mod_mod by lia.
      Z.div_mod_to_equations. lia. }
  replace ((176 * 65536 + off) / 16777216 mod 256) with 0
    by (Z.div_mod_to_equations; lia).
  replace ((176 * 65536 + off) / 65536 mod 256) with 176
    by (Z.div_mod_to_equations; lia).
  replace ((176 * 65536 + off) / 256 mod 256) with (off / 256)
    by (Z.div_mod_to_equations; lia).
  cbn [byte_at Z.ltb Z.compare Z.to_nat Pos.to_nat Pos.iter_op nth
       Init.Nat.add].
  change (0 =? 0) with true. change (176 =? 164) with false.
  reflexivity.
Qed.

(** The loop of [ReadBinaryML] over blocks that the card answers in full
    with 9000: the bytes go to the buffer one block after the other, and
    the offset and the count go up by 128 each time. *)
Lemma read_blocks_answered (nSlot : Z) (rest : list (scard_rv * list Z))
    (blocks : list (list Z)) :
  forall (v : rb_vars) (s : lib_state) (pre remaining : list Z),
    Forall (fun b => length b = 128%nat) blocks ->
    transmit_answers (driver s)
    = map (fun b => answer b 0x9000) blocks ++ rest ->
    rb_Buffer v = pre ++ remaining ->
    Z.of_nat (length pre) = rb_letti v ->
    (128 * length blocks <= length remaining)%nat ->
    0 <= rb_Offset1 v ->
    rb_Offset1 v + 128 * Z.of_nat (length blocks) < 65536 ->
    rb_letti v + 128 * Z.of_nat (length blocks) < 2147483648 ->
    exists tmp' sw',
      fst (read_blocks (length blocks) nSlot v s)
      = inr (mkRb (rb_Offset1 v + 128 * Z.of_nat (length blocks))
                  (rb_letti v + 128 * Z.of_nat (length blocks))
                  (pre ++ concat blocks
                       ++ skipn (128 * length blocks) remaining)
                  tmp' sw')
      /\ sends (read_commands (rb_Offset1 v) blocks) rest s
               (snd (read_blocks (length blocks) nSlot v s)).
Proof.
  induction blocks as [|b blocks IH];
    intros v s pre remaining Hall Hans Hbuf Hpre Hrem Hoff Hend Hcnt.
  - cbn [length read_blocks ret fst snd concat app Nat.mul skipn].
    exists (rb_tmpBuffer v), (rb_SW v).
    rewrite Z.mul_0_r, !Z.add_0_r. cbn [map app] in Hans.
    split.
    + destruct v as [o l B t w]. cbn in *. subst B. reflexivity.
    + rewrite <- Hans. apply sends_nothing_refl.
  - apply Forall_cons in Hall. destruct Hall as [Hb Hall].
    cbn [length] in *. rewrite Nat2Z.inj_succ in *.
    cbn [map app] in Hans. unfold answer in Hans at 1.
    cbn [read_blocks]. unfold bind. unfold EXCHANGE_BUFFER.
    step_send Hans E1 S1.
    rewrite (deliver_answer 128 (rb_tmpBuffer v) b 36864)
      by (rewrite ?Hb; lia).
    cbv zeta. rewrite Hb.
    change (Z.to_nat (Z.min 128 (Z.of_nat 128))) with 128%nat.
    change (Z.of_nat 128) with 128.
    destruct b as [|b0 b'] eqn:Eb; [discriminate|]. rewrite <- Eb in *.
    clear Eb b0 b'.
    tidy. unfold SW_OK, SW_WRONG_LENGTH.
    change (36864 =? 36864) with true. cbn [negb andb].
    change (128 =? 128) with true. cbn [negb]. cbv iota.
    rewrite firstn_all2 by lia.
    assert (Hcopy : memcpy_at (rb_Buffer v) (rb_letti v)
                      (b ++ skipn 128 (rb_tmpBuffer v)) 128
                    = (pre ++ b) ++ skipn 128 remaining).
    { unfold memcpy_at. cbv zeta. rewrite Hbuf, <- Hpre, Nat2Z.id.
      change (Z.to_nat 128) with 128%nat.
      rewrite firstn_app, Nat.sub_diag, firstn_all. cbn [firstn].
      rewrite app_nil_r.
      rewrite (firstn_app 128 b), firstn_all2 by lia.
      replace (128 - length b)%nat with 0%nat by lia. cbn [firstn].
      rewrite app_nil_r.
      rewrite skipn_app, skipn_all2 by lia.
      replace (length pre + 128 - length pre)%nat with 128%nat by lia.
      cbn [app]. rewrite <- app_assoc. reflexivity. }
    rewrite Hcopy.
    unfold wrap16. rewrite Z.mod_small by lia.
    rewrite int32_small by lia.
    destruct S1 as (I1 & A1 & T1).
    match goal with
    | |- context [read_blocks _ nSlot ?v' ?st] =>
        destruct (IH v' st (pre ++ b) (skipn 128 remaining) Hall A1)
          as (tmp' & sw' & E2 & I2 & A2 & T2)
    end.
    + reflexivity.
    + cbn [rb_letti]. rewrite length_app, Nat2Z.inj_add, Hb. lia.
    + rewrite length_skipn. lia.
    + cbn [rb_Offset1]. lia.
    + cbn [rb_Offset1]. lia.
    + cbn [rb_letti]. lia.
    + cbn [rb_Offset1 rb_letti] in E2, T2.
      exists tmp', sw'. split.
      * rewrite E2. f_equal. f_equal; try lia.
        cbn [concat]. rewrite <- !app_assoc. do 3 f_equal.
        rewrite skipn_skipn. f_equal. lia.
      * unfold sends. split; [congruence|]. split; [exact A2|].
        rewrite T2, T1. cbn [read_commands]. rewrite Hb.
        rewrite build_apdu_READ_BINARY by lia.
        rewrite <- app_assoc. reflexivity.
Qed.

Lemma length_concat_blocks (blocks : list (list Z)) :
  Forall (fun b => length b = 128%nat) blocks ->
  length (concat blocks) = (128 * length blocks)%nat.
Proof.
  induction 1 as [|b blocks Hb _ IH]; [reflexivity|].
  cbn [concat length]. rewrite length_app, IH, Hb. lia.
Qed.

Lemma read_commands_app (a b : list (list Z)) :
  forall off,
    read_commands off (a ++ b)
    = read_commands off a
      ++ read_commands (off + Z.of_nat (length (concat a))) b.
Proof.
  induction a as [|p a IH]; intros off; cbn [app read_commands concat length].
  - rewrite Z.add_0_r. reflexivity.
  - rewrite IH, length_app, Nat2Z.inj_add, Z.add_assoc. reflexivity.
Qed.

(** [ReadBinaryML] for a card that answers each READ BINARY with the
    bytes asked for and 9000. *)
Lemma ReadBinaryML_answered (Offset : Z) (buf : list Z)
    (blocks : list (list Z)) (tail : list Z) (nSlot : Z) (s : lib_state)
    (rest : list (scard_rv * list Z)) :
  let len := 128 * Z.of_nat (length blocks) + Z.of_nat (length tail) in
  initialized s = true ->
  Forall (fun b => length b = 128%nat) blocks -> (length tail < 128)%nat ->
  0 < len -> 0 <= Offset -> Offset + len < 65536 ->
  len <= Z.of_nat (length buf) ->
  transmit_answers (driver s)
  = map (fun p => answer p 0x9000) (pieces blocks tail) ++ rest ->
  let r := ReadBinaryML Offset (Some buf) (Some len) nSlot s in
  fst r = (C_OK, Some (concat blocks ++ tail ++ skipn (Z.to_nat len) buf),
           Some len)
  /\ sends (read_commands Offset (pieces blocks tail)) rest s (snd r).
Proof.
  intros len Hinit Hall Htail Hlen Hoff Hend Hbuf Hans r. subst r.
  pose proof (length_concat_blocks blocks Hall) as Hcat.
  assert (Hdiv : len / 128 = Z.of_nat (length blocks)
                 /\ len mod 128 = Z.of_nat (length tail))
    by (subst len; Z.div_mod_to_equations; lia).
  destruct Hdiv as [Hdiv Hmod].
  unfold ReadBinaryML, bind, ret, IsInitialized.
  rewrite Hinit. cbn [negb].
  destruct (Z.eqb_spec len 0) as [|_]; [lia|].
  unfold wrap32. rewrite (Z.mod_small len) by lia.
  unfold EXCHANGE_BUFFER. rewrite Hdiv, Hmod, Nat2Z.id.
  step_begin S0. destruct S0 as (I0 & A0 & T0).
  unfold pieces in Hans. rewrite map_app, <- app_assoc in Hans.
  rewrite Hans in A0.
  match goal with
  | |- context [read_blocks _ nSlot ?v ?st] =>
      destruct (read_blocks_answered nSlot _ blocks v st [] buf Hall A0)
        as (tmp' & sw' & E1 & I1 & A1 & T1);
        [ reflexivity | reflexivity | lia | cbn [rb_Offset1]; lia
        | cbn [rb_Offset1]; lia | cbn [rb_letti]; lia | ];
      destruct (read_blocks (length blocks) nSlot v st) as [res l1]
  end.
  cbn [fst snd rb_Offset1 rb_letti app] in E1, I1, A1, T1 |- *. subst res.
  cbn [rb_Offset1 rb_letti rb_Buffer rb_tmpBuffer rb_SW].
  destruct tail as [|t0 tail'].
  - cbn [length map app] in *. change (Z.of_nat 0) with 0 in *.
    change (0 <? 0) with false. cbv beta iota.
    step_end S6. destruct S6 as (I6 & A6 & T6).
    cbn [fst snd]. split.
    + f_equal; [f_equal|f_equal; lia]. f_equal. f_equal. f_equal. lia.
    + unfold sends. split; [congruence|]. split; [congruence|].
      rewrite T6, T1, T0, !app_nil_r. unfold pieces.
      rewrite app_nil_r. reflexivity.
  - set (T := t0 :: tail') in *.
    assert (Hpos : 0 < Z.of_nat (length T))
      by (unfold T; cbn [length]; lia).
    destruct (Z.ltb_spec 0 (Z.of_nat (length T))) as [_|]; [|lia].
    cbn [map app] in A1. unfold answer in A1 at 1.
    step_send A1 E2 S2. destruct S2 as (I2 & A2 & T2).
    rewrite (deliver_answer (Z.of_nat (length T)) tmp' T 36864) by lia.
    cbv zeta. rewrite Z.min_id, Nat2Z.id.
    subst T. cbv beta iota. set (T := t0 :: tail') in *.
    tidy. unfold SW_OK, SW_WRONG_LENGTH.
    change (36864 =? 36864) with true. cbn [negb andb]. cbv beta iota.
    step_end S6. destruct S6 as (I6 & A6 & T6).
    cbn [fst snd]. split.
    + rewrite int32_small by lia.
      replace (0 + 128 * Z.of_nat (length blocks) + Z.of_nat (length T))
        with len by (subst len T; lia).
      assert (Hcopy :
        memcpy_at (concat blocks ++ skipn (128 * length blocks) buf)
                  (0 + 128 * Z.of_nat (length blocks))
                  (firstn (length T) T ++ skipn (length T) tmp')
                  (Z.of_nat (length T))
        = concat blocks ++ T ++ skipn (Z.to_nat len) buf).
      { unfold memcpy_at. cbv zeta.
        rewrite firstn_all.
        replace (Z.to_nat (0 + 128 * Z.of_nat (length blocks)))
          with (length (concat blocks)) by lia.
        rewrite Nat2Z.id.
        rewrite firstn_app, Nat.sub_diag, firstn_all. cbn [firstn].
        rewrite app_nil_r.
        rewrite (firstn_app (length T) T), Nat.sub_diag, firstn_all.
        cbn [firstn]. rewrite app_nil_r.
        rewrite skipn_app, skipn_all2 by lia. cbn [app].
        rewrite skipn_skipn. do 3 f_equal. subst len T. lia. }
      rewrite Hcopy. reflexivity.
    + unfold sends. split; [congruence|]. split; [congruence|].
      rewrite T6, T2, T1, T0, !app_nil_r.
      change (pieces blocks T) with (blocks ++ [T]).
      rewrite read_commands_app, <- app_assoc. do 2 f_equal.
      cbn [read_commands]. rewrite Hcat.
      rewrite build_apdu_READ_BINARY by lia.
      do 3 f_equal. lia.
Qed.

(** X25: [ReadBinaryML] reads a file piece by piece: for a card that answers
    each READ BINARY with the bytes asked for and 9000, it asks for 128
    bytes at a time, at offsets 128 apart, then for what is left; the
    buffer receives the pieces one after the other, [*Len] is unchanged
    and the value is OK. *)
Theorem ReadBinaryML_reads_pieces (Offset : Z) (buf : list Z)
    (blocks : list (list Z)) (tail : list Z) (nSlot : Z) (s : lib_state)
    (rest : list (scard_rv * list Z)) :
  let len := 128 * Z.of_nat (length blocks) + Z.of_nat (length tail) in
  initialized s = true ->
  Forall (fun b => length b = 128%nat) blocks -> (length tail < 128)%nat ->
  0 < len -> 0 <= Offset -> Offset + len < 65536 ->
  len <= Z.of_nat (length buf) ->
  transmit_answers (driver s)
  = map (fun p => answer p 0x9000) (pieces blocks tail) ++ rest ->
  let r := ReadBinaryML Offset (Some buf) (Some len) nSlot s in
  fst r = (C_OK, Some (concat blocks ++ tail ++ skipn (Z.to_nat len) buf),
           Some len)
  /\ transmitted (calls (driver (snd r)))
     = transmitted (calls (driver s))
       ++ read_commands Offset (pieces blocks tail).
Proof.
  intros len Hinit Hall Htail Hlen Hoff Hend Hbuf Hans r.
  destruct (ReadBinaryML_answered Offset buf blocks tail nSlot s rest Hinit
              Hall Htail Hlen Hoff Hend Hbuf Hans) as (E & _ & _ & T).
  split; [exact E|exact T].
Qed.

(** A file of 131 bytes: one block and three bytes more. *)
Lemma ReadBinaryML_reads_pieces_witness :
  let s := connected [answer (repeat 0xAA 128) 0x9000;
                      answer [1; 2; 3] 0x9000] [] [] in
  let r := ReadBinaryML 0 (Some (repeat 0 131)) (Some 131) 0 s in
  fst r = (C_OK, Some (repeat 0xAA 128 ++ [1; 2; 3]), Some 131)
  /\ transmitted (calls (driver (snd r)))
     = [READ_BINARY 0 128; READ_BINARY 128 3].
Proof.
  cbv zeta.
  apply (ReadBinaryML_reads_pieces 0 (repeat 0 131) [repeat 0xAA 128]
           [1; 2; 3] 0
           (connected [answer (repeat 0xAA 128) 0x9000;
                       answer [1; 2; 3] 0x9000] [] []) []).
  - reflexivity.
  - repeat constructor.
  - cbn [length]. lia.
  - vm_compute. reflexivity.
  - lia.
  - vm_compute. reflexivity.
  - vm_compute. discriminate.
  - reflexivity.
Defined.

(** *** [GetKeyIDML] *)

Lemma build_apdu_READ_RECORD (n le : Z) :
  0 <= n < 256 ->
  build_apdu (Z.lor (Z.lor APDU_READRECORD 0x00000004)
                    (wrap16 (Z.shiftl n 8))) 0 (Some le) []
  = READ_RECORD n le.
Proof.
  intros Hn.
  pose (P := fun n =>
               match build_apdu (Z.lor (Z.lor APDU_READRECORD 0x00000004)
                                       (wrap16 (Z.shiftl n 8))) 0 (Some 0) []
               with
               | [a; b; c; d; _] =>
                   (a =? 0) && (b =? 0xb2) && (c =? n) && (d =? 4)
               | _ => false
               end).
  assert (HP : forallb P (map Z.of_nat (seq 0 256)) = true)
    by (vm_compute; reflexivity).
  pose proof (forallb_range P 256 HP n Hn) as H. subst P. clear HP.
  cbv beta in H. unfold build_apdu, READ_RECORD in *. cbv zeta in *.
  change (0 =? 0) with true in *. cbn [negb app] in *.
  match type of H with
  | context [if negb (byte_at ?h 1 =? 164) then _ else _] =>
      destruct (negb (byte_at h 1 =? 164)); [|discriminate]
  end.
  cbn [app] in *.
  repeat (apply andb_prop in H; destruct H as [H ?]).
  repeat match goal with
         | E : (_ =? _) = true |- _ => apply Z.eqb_eq in E; rewrite E
         end.
  reflexivity.
Qed.

(** One byte of a record, answered 9000. *)
Lemma ReadRecordML_one_byte (n x st nSlot : Z) (s : lib_state)
    (rest : list (scard_rv * list Z)) :
  initialized s = true ->
  transmit_answers (driver s) = answer [st] 0x9000 :: rest ->
  0 <= n < 256 ->
  let r := ReadRecordML n (Some [x]) (Some 1) nSlot s in
  fst r = (C_OK, Some [st], Some 1)
  /\ sends [READ_RECORD n 1] rest s (snd r).
Proof.
  intros Hinit Hans Hn r. subst r.
  unfold answer in Hans.
  unfold ReadRecordML, bind, ret, IsInitialized.
  rewrite Hinit. cbn [negb].
  change (255 <? 1) with false. cbv iota.
  destruct (Z.ltb_spec 255 n) as [|_]; [lia|].
  change (wrap8 1) with 1.
  step_begin S0. destruct S0 as (I0 & A0 & T0). rewrite Hans in A0.
  step_send A0 E1 S1. destruct S1 as (I1 & A1 & T1).
  rewrite (deliver_answer 1 [x] [st] 36864) by (cbn [length]; lia).
  cbn [length]. cbv zeta beta iota.
  change (Z.to_nat (Z.min 1 (Z.of_nat 1))) with 1%nat.
  cbn [firstn skipn app].
  step_end S2. destruct S2 as (I2 & A2 & T2).
  cbn [fst snd]. tidy. unfold SW_OK.
  change (36864 =? 36864) with true. cbn [negb].
  split; [reflexivity|].
  rewrite build_apdu_READ_RECORD in T1 by exact Hn.
  unfold sends. split; [congruence|]. split; [congruence|].
  rewrite T2, T1, T0, !app_nil_r. reflexivity.
Qed.

Lemma record_commands_S (n : Z) (k : nat) :
  record_commands n (S k) = READ_RECORD n 1 :: record_commands (n + 1) k.
Proof.
  unfold record_commands. cbn [seq map]. rewrite Z.add_0_r. f_equal.
  rewrite <- seq_shift, map_map. apply map_ext. intros i.
  f_equal. lia.
Qed.

(** The loop of [GetKeyIDML] over records whose first byte is not 1,
    up to one whose first byte is. *)
Lemma key_records_scan (nSlot : Z) (rest : list (scard_rv * list Z))
    (sts : list Z) :
  forall (fuel : nat) (n x : Z) (s : lib_state),
    initialized s = true ->
    Forall (fun st => st <> 1) sts ->
    transmit_answers (driver s)
    = map (fun st => answer [st] 0x9000) sts ++ answer [1] 0x9000 :: rest ->
    0 <= n -> n + Z.of_nat (length sts) < 256 ->
    (length sts < fuel)%nat ->
    let r := key_records fuel n [x] 1 nSlot s in
    fst r = wrap8 (n + Z.of_nat (length sts) + 128)
    /\ sends (record_commands n (S (length sts))) rest s (snd r).
Proof.
  induction sts as [|st sts IH];
    intros fuel n x s Hinit Hall Hans Hn Hend Hfuel r; subst r;
    (destruct fuel as [|fuel]; [cbn [length] in Hfuel; lia|]);
    cbn [length map app] in *; cbn [key_records]; unfold bind.
  - match goal with
    | |- context [ReadRecordML n (Some [x]) (Some 1) nSlot s] =>
        destruct (ReadRecordML_one_byte n x 1 nSlot s rest Hinit Hans
                    ltac:(lia)) as (E & Sd);
        destruct (ReadRecordML n (Some [x]) (Some 1) nSlot s) as [? ?]
    end.
    cbn [fst snd] in *. subst. tidy.
    change (byte_at [1] 0 =? 1) with true. cbv iota.
    unfold ret. cbn [fst snd]. rewrite Z.add_0_r. split; [reflexivity|].
    rewrite record_commands_S. exact Sd.
  - apply Forall_cons in Hall. destruct Hall as [Hst Hall].
    rewrite Nat2Z.inj_succ in Hend.
    match goal with
    | |- context [ReadRecordML n (Some [x]) (Some 1) nSlot s] =>
        destruct (ReadRecordML_one_byte n x st nSlot s _ Hinit Hans
                    ltac:(lia)) as (E & Sd);
        destruct (ReadRecordML n (Some [x]) (Some 1) nSlot s) as [? l]
    end.
    cbn [fst snd] in *. subst. tidy.
    change (byte_at [st] 0) with st.
    destruct (Z.eqb_spec st 1) as [|_]; [contradiction|].
    change (1 <? 1) with false. cbv iota.
    destruct Sd as (I1 & A1 & T1).
    destruct (IH fuel (n + 1) st l ltac:(congruence) Hall A1 ltac:(lia)
                ltac:(lia) ltac:(lia)) as (E2 & I2 & A2 & T2).
    split.
    + rewrite E2. f_equal. lia.
    + unfold sends. split; [congruence|]. split; [exact A2|].
      rewrite T2, T1, (record_commands_S n (S (length sts))).
      rewrite <- app_assoc. reflexivity.
Qed.

Lemma GetKeyIDML_answered (nSlot : Z) (s : lib_state) (a1 a2 a3 : list Z)
    (sts : list Z) (rest : list (scard_rv * list Z)) :
  initialized s = true ->
  transmit_answers (driver s)
  = (SCARD_S_SUCCESS, a1) :: (SCARD_S_SUCCESS, a2) :: (SCARD_S_SUCCESS, a3)
    :: map (fun st => answer [st] 0x9000) sts ++ answer [1] 0x9000 :: rest ->
  status_word a1 = 0x9000 -> status_word a2 = 0x9000 ->
  status_word a3 = 0x9000 ->
  Forall (fun st => st <> 1) sts -> (length sts < 255)%nat ->
  let r := GetKeyIDML nSlot s in
  fst r = wrap8 (1 + Z.of_nat (length sts) + 128)
  /\ sends ([SELECT 0x0000; SELECT 0x1111; SELECT 0x5f02]
            ++ record_commands 1 (S (length sts))) rest s (snd r).
Proof.
  intros Hinit Hans H1 H2 H3 Hall Hlen r. subst r.
  unfold GetKeyIDML, bind, ret.
  step_begin S0. destruct S0 as (I0 & A0 & T0). rewrite Hans in A0.
  step_select_sends A0 E1 S1. destruct S1 as (I1 & A1 & T1).
  rewrite H1, Z.eqb_refl. tidy.
  step_select_sends A1 E2 S2. destruct S2 as (I2 & A2 & T2).
  rewrite H2, Z.eqb_refl. tidy.
  step_select_sends A2 E3 S3. destruct S3 as (I3 & A3 & T3).
  rewrite H3, Z.eqb_refl. tidy.
  match goal with
  | |- context [key_records 256 1 [0] 1 nSlot ?st] =>
      destruct (key_records_scan nSlot rest sts 256 1 0 st
                  ltac:(congruence) Hall A3 ltac:(lia) ltac:(lia) ltac:(lia))
        as (E4 & I4 & A4 & T4);
      destruct (key_records 256 1 [0] 1 nSlot st) as [? ?]
  end.
  cbn [fst snd] in *. subst.
  step_end S6. destruct S6 as (I6 & A6 & T6).
  split; [reflexivity|].
  unfold sends. split; [congruence|]. split; [congruence|].
  rewrite T6, T4, T3, T2, T1, T0, !app_nil_r, <- !app_assoc. reflexivity.
Qed.

(** X26: [GetKeyIDML] when the card answers: after the SELECTs of 0000, 1111
    and 5F02 it reads one byte of each record from the first on, and the
    first record whose byte is 1 gives the value, its number plus 128 as
    a byte: 129 for the first record, and 0, the value of a failure, for
    the record 128. *)
Theorem GetKeyIDML_finds_the_key (nSlot : Z) (s : lib_state)
    (a1 a2 a3 : list Z) (sts : list Z) (rest : list (scard_rv * list Z)) :
  initialized s = true ->
  transmit_answers (driver s)
  = (SCARD_S_SUCCESS, a1) :: (SCARD_S_SUCCESS, a2) :: (SCARD_S_SUCCESS, a3)
    :: map (fun st => answer [st] 0x9000) sts ++ answer [1] 0x9000 :: rest ->
  status_word a1 = 0x9000 -> status_word a2 = 0x9000 ->
  status_word a3 = 0x9000 ->
  Forall (fun st => st <> 1) sts -> (length sts < 255)%nat ->
  let k := Z.of_nat (length sts) + 1 in
  let r := GetKeyIDML nSlot s in
  fst r = (k + 128) mod 256
  /\ transmitted (calls (driver (snd r)))
     = transmitted (calls (driver s))
       ++ [SELECT 0x0000; SELECT 0x1111; SELECT 0x5f02]
       ++ record_commands 1 (Z.to_nat k).
Proof.
  intros Hinit Hans H1 H2 H3 Hall Hlen k r. subst k r.
  destruct (GetKeyIDML_answered nSlot s a1 a2 a3 sts rest Hinit Hans H1 H2 H3
              Hall Hlen) as (E & _ & _ & T).
  split.
  - rewrite E. unfold wrap8. f_equal. lia.
  - rewrite T. do 3 f_equal. lia.
Qed.

(** The second key of a card is the active one. *)
Lemma GetKeyIDML_finds_the_key_witness :
  let ok := answer [] 0x9000 in
  let r := GetKeyIDML 0 (connected [ok; ok; ok; answer [0] 0x9000;
                                    answer [1] 0x9000] [] []) in
  fst r = 130
  /\ transmitted (calls (driver (snd r)))
     = [SELECT 0x0000; SELECT 0x1111; SELECT 0x5f02;
        READ_RECORD 1 1; READ_RECORD 2 1].
Proof.
  cbv zeta.
  apply (GetKeyIDML_finds_the_key 0
           (connected [answer [] 0x9000; answer [] 0x9000; answer [] 0x9000;
                       answer [0] 0x9000; answer [1] 0x9000] [] [])
           [0x90; 0x00] [0x90; 0x00] [0x90; 0x00] [0] []);
    try reflexivity.
  - repeat constructor. discriminate.
  - cbn [length]. lia.
Defined.

(** *** The certificates *)

(** [GetCert] for a card that answers: the file is selected, its first
    two bytes are read as the length of the certificate, least
    significant byte first, and as many bytes are read from the offset 2
    on. *)
Lemma GetCert_answered (fid : Z) (buf : list Z) (dim nSlot : Z)
    (s : lib_state) (a : list Z) (lo hi : Z) (blocks : list (list Z))
    (tail : list Z) (rest : list (scard_rv * list Z)) :
  let dd := 128 * Z.of_nat (length blocks) + Z.of_nat (length tail) in
  initialized s = true ->
  transmit_answers (driver s)
  = (SCARD_S_SUCCESS, a) :: answer [lo; hi] 0x9000
    :: map (fun p => answer p 0x9000) (pieces blocks tail) ++ rest ->
  status_word a = 0x9000 ->
  is_byte lo -> is_byte hi -> lo + 256 * hi = dd ->
  Forall (fun b => length b = 128%nat) blocks -> (length tail < 128)%nat ->
  0 < dd -> dd + 2 < 65536 -> dd <= dim -> dd <= Z.of_nat (length buf) ->
  let r := GetCert fid (Some buf) dim nSlot s in
  fst r = (C_OK, Some (concat blocks ++ tail ++ skipn (Z.to_nat dd) buf), dd)
  /\ sends ([SELECT fid; READ_BINARY 0 2]
            ++ read_commands 2 (pieces blocks tail)) rest s (snd r).
Proof.
  intros dd Hinit Hans Ha Blo Bhi Hdd Hall Htail Hpos Hend Hdim Hbuf r.
  subst r. subst dd. unfold GetCert, bind, ret.
  step_select_sends Hans E1 S1. destruct S1 as (I1 & A1 & T1).
  rewrite Ha, Z.eqb_refl. tidy.
  match goal with
  | |- context [ReadBinaryML 0 (Some [0; 0]) (Some 2) nSlot ?st] =>
      pose proof (ReadBinaryML_answered 0 [0; 0] [] [lo; hi] nSlot st
                    (map (fun p => answer p 0x9000) (pieces blocks tail)
                     ++ rest)
                    ltac:(congruence) ltac:(constructor)
                    ltac:(cbn [length]; lia) ltac:(cbn [length]; lia)
                    ltac:(lia) ltac:(cbn [length]; lia)
                    ltac:(cbn [length]; lia) A1) as X;
      cbv zeta in X;
      change (128 * Z.of_nat (length (@nil (list Z)))
              + Z.of_nat (length [lo; hi])) with 2 in X;
      destruct X as (E2 & I2 & A2 & T2);
      destruct (ReadBinaryML 0 (Some [0; 0]) (Some 2) nSlot st) as [? l2]
  end.
  cbn [fst snd concat app skipn] in E2, I2, A2, T2 |- *.
  change (Z.to_nat 2) with 2%nat in E2. cbn [skipn app] in E2. subst.
  tidy. change (2 <? 2) with false. cbn [orb]. cbv iota.
  change (byte_at [lo; hi] 1) with hi. change (byte_at [lo; hi] 0) with lo.
  unfold is_byte in *.
  rewrite (EncodeParseFacts.lor_shiftl_byte hi lo) by lia.
  replace (hi * 256 + lo)
    with (128 * Z.of_nat (length blocks) + Z.of_nat (length tail)) by lia.
  match goal with
  | |- context [dim <? ?d] => destruct (Z.ltb_spec dim d) as [|_]; [lia|]
  end.
  match goal with
  | |- context [ReadBinaryML 2 (Some buf) (Some ?d) nSlot l2] =>
      destruct (ReadBinaryML_answered 2 buf blocks tail nSlot l2 rest
                  ltac:(congruence) Hall Htail Hpos ltac:(lia)
                  ltac:(lia) Hbuf A2) as (E3 & I3 & A3 & T3);
      destruct (ReadBinaryML 2 (Some buf) (Some d) nSlot l2) as [? l3]
  end.
  cbn [fst snd] in E3, I3, A3, T3 |- *. subst. tidy.
  split; [reflexivity|]. cbn [fst snd].
  unfold sends. split; [congruence|]. split; [reflexivity|].
  rewrite T3, T2, T1, <- !app_assoc. reflexivity.
Qed.

(** X27: [GetCertificateML] reads the certificate of the active key: for a
    card that answers every command with 9000 and whose record [k] is
    the first with the byte 1, it selects the file whose identifier has
    the high byte 0x19 + k and the low byte 02, takes the two bytes at
    its start as the length of the certificate, least significant byte
    first, and reads as many bytes from the offset 2 on, 128 at a time;
    the buffer receives them, [*dim] is the length and the value is
    OK. *)
Theorem GetCertificateML_reads_the_certificate (buf : list Z)
    (dim nSlot : Z) (s : lib_state) (a1 a2 a3 a : list Z) (sts : list Z)
    (lo hi : Z) (blocks : list (list Z)) (tail : list Z)
    (rest : list (scard_rv * list Z)) :
  let k := Z.of_nat (length sts) + 1 in
  let dd := 128 * Z.of_nat (length blocks) + Z.of_nat (length tail) in
  initialized s = true ->
  transmit_answers (driver s)
  = (SCARD_S_SUCCESS, a1) :: (SCARD_S_SUCCESS, a2) :: (SCARD_S_SUCCESS, a3)
    :: map (fun st => answer [st] 0x9000) sts
    ++ answer [1] 0x9000 :: (SCARD_S_SUCCESS, a) :: answer [lo; hi] 0x9000
    :: map (fun p => answer p 0x9000) (pieces blocks tail) ++ rest ->
  status_word a1 = 0x9000 -> status_word a2 = 0x9000 ->
  status_word a3 = 0x9000 -> status_word a = 0x9000 ->
  Forall (fun st => st <> 1) sts -> k <= 127 ->
  is_byte lo -> is_byte hi -> lo + 256 * hi = dd ->
  Forall (fun b => length b = 128%nat) blocks -> (length tail < 128)%nat ->
  0 < dd -> dd + 2 < 65536 -> dd <= dim -> dd <= Z.of_nat (length buf) ->
  let r := GetCertificateML (Some buf) (Some dim) nSlot s in
  fst r = (C_OK, Some (concat blocks ++ tail ++ skipn (Z.to_nat dd) buf),
           Some dd)
  /\ transmitted (calls (driver (snd r)))
     = transmitted (calls (driver s))
       ++ [SELECT 0x0000; SELECT 0x1111; SELECT 0x5f02]
       ++ record_commands 1 (Z.to_nat k)
       ++ [SELECT ((0x19 + k) * 256 + 2); READ_BINARY 0 2]
       ++ read_commands 2 (pieces blocks tail).
Proof.
  intros k dd Hinit Hans H1 H2 H3 Ha Hall Hk Blo Bhi Hdd Hblocks Htail
    Hpos Hend Hdim Hbuf r.
  subst r k dd. unfold GetCertificateML, bind, ret.
  step_begin S0. destruct S0 as (I0 & A0 & T0). rewrite Hans in A0.
  match goal with
  | |- context [GetKeyIDML nSlot ?st] =>
      destruct (GetKeyIDML_answered nSlot st a1 a2 a3 sts _
                  ltac:(congruence) A0 H1 H2 H3 Hall ltac:(lia))
        as (E1 & I1 & A1 & T1);
      destruct (GetKeyIDML nSlot st) as [? l1]
  end.
  cbn [fst snd] in E1, I1, A1, T1 |- *. subst.
  assert (Hkey : wrap8 (wrap8 (1 + Z.of_nat (length sts) + 128) - 128)
                 = Z.of_nat (length sts) + 1).
  { unfold wrap8. rewrite (Z.mod_small (1 + _ + 128)) by lia.
    rewrite Z.mod_small; lia. }
  rewrite Hkey.
  destruct (Z.leb_spec (Z.of_nat (length sts) + 1) 0) as [|_]; [lia|].
  assert (Hfid : wrap16 (Z.lor (Z.shiftl (26 + (Z.of_nat (length sts) + 1) - 1)
                                         8) 2)
                 = (25 + (Z.of_nat (length sts) + 1)) * 256 + 2).
  { rewrite EncodeParseFacts.lor_shiftl_byte by lia.
    unfold wrap16. rewrite Z.mod_small; lia. }
  rewrite Hfid.
  match goal with
  | |- context [GetCert ?fid (Some buf) dim nSlot l1] =>
      destruct (GetCert_answered fid buf dim nSlot l1 a lo hi blocks tail
                  rest ltac:(congruence) A1 Ha Blo Bhi Hdd Hblocks Htail
                  Hpos Hend Hdim Hbuf) as (E2 & I2 & A2 & T2);
      destruct (GetCert fid (Some buf) dim nSlot l1) as [? l2]
  end.
  cbn [fst snd] in E2, I2, A2, T2 |- *. subst.
  step_end S6. destruct S6 as (I6 & A6 & T6).
  split; [reflexivity|].
  rewrite T6, T2, T1, T0, !app_nil_r, <- !app_assoc.
  replace (Z.to_nat (Z.of_nat (length sts) + 1)) with (S (length sts))
    by lia.
  reflexivity.
Qed.

(** The certificate of the first key, 3 bytes long. *)
Lemma GetCertificateML_reads_the_certificate_witness :
  let ok := answer [] 0x9000 in
  let r := GetCertificateML (Some (repeat 0 3)) (Some 3) 0
             (connected [ok; ok; ok; answer [1] 0x9000; ok;
                         answer [3; 0] 0x9000; answer [0x30; 0x01; 0x00] 0x9000]
                        [] []) in
  fst r = (C_OK, Some [0x30; 0x01; 0x00], Some 3)
  /\ transmitted (calls (driver (snd r)))
     = [SELECT 0x0000; SELECT 0x1111; SELECT 0x5f02; READ_RECORD 1 1;
        SELECT 0x1A02; READ_BINARY 0 2; READ_BINARY 2 3].
Proof.
  cbv zeta.
  apply (GetCertificateML_reads_the_certificate (repeat 0 3) 3 0
           (connected [answer [] 0x9000; answer [] 0x9000; answer [] 0x9000;
                       answer [1] 0x9000; answer [] 0x9000;
                       answer [3; 0] 0x9000;
                       answer [0x30; 0x01; 0x00] 0x9000] [] [])
           [0x90; 0x00] [0x90; 0x00] [0x90; 0x00] [0x90; 0x00] [] 3 0 []
           [0x30; 0x01; 0x00] []);
    try reflexivity; try (unfold is_byte; lia); try constructor;
    try (cbn [length]; lia); try (vm_compute; discriminate).
Defined.

(** *** [Padding] and [SignML] *)

Lemma SignML_answered (kx : Z) (toSign Signed : list Z) (nSlot : Z)
    (s : lib_state) (a1 a2 a3 r0 mse sig : list Z)
    (rest : list (scard_rv * list Z)) :
  initialized s = true ->
  transmit_answers (driver s)
  = (SCARD_S_SUCCESS, a1) :: (SCARD_S_SUCCESS, a2) :: (SCARD_S_SUCCESS, a3)
    :: (SCARD_S_SUCCESS, r0) :: (SCARD_S_SUCCESS, mse)
    :: answer sig 0x9000 :: rest ->
  status_word a1 = 0x9000 -> status_word a2 = 0x9000 ->
  status_word a3 = 0x9000 -> status_word mse = 0x9000 ->
  0 <= kx <= 255 -> length sig = 128%nat ->
  let r := SignML kx toSign Signed nSlot s in
  fst r = (C_OK, sig ++ skipn 128 Signed)
  /\ sends [SELECT FID_MF; SELECT FID_SIAE_APP_DOMAIN;
            SELECT FID_P11_APP_DOMAIN; MSE_RESTORE; MSE_SET kx;
            PSO_SIGN (firstn 128 toSign)] rest s (snd r).
Proof.
  intros Hinit Hans H1 H2 H3 Hmse Hkx Hsig r. subst r.
  unfold answer in Hans.
  unfold SignML, bind, ret, IsInitialized.
  rewrite Hinit. cbn [negb].
  destruct (Z.ltb_spec 255 kx) as [|_]; [lia|].
  step_begin S0. destruct S0 as (I0 & A0 & T0). rewrite Hans in A0.
  step_select_sends A0 E1 S1. destruct S1 as (I1 & A1 & T1).
  rewrite H1, Z.eqb_refl. tidy.
  step_select_sends A1 E2 S2. destruct S2 as (I2 & A2 & T2).
  rewrite H2, Z.eqb_refl. tidy.
  step_select_sends A2 E3 S3. destruct S3 as (I3 & A3 & T3).
  rewrite H3, Z.eqb_refl. tidy.
  step_send A3 E4 S4. rewrite deliver_null. destruct S4 as (I4 & A4 & T4).
  cbv beta iota.
  step_send A4 E5 S5. rewrite deliver_null. destruct S5 as (I5 & A5 & T5).
  tidy. unfold SW_OK. rewrite Hmse, Z.eqb_refl. tidy.
  step_send A5 E6 S6. destruct S6 as (I6 & A6 & T6).
  rewrite (deliver_answer 128 Signed sig 36864) by (rewrite ?Hsig; lia).
  cbv zeta. rewrite Hsig.
  change (Z.to_nat (Z.min 128 (Z.of_nat 128))) with 128%nat.
  destruct sig as [|g0 sig'] eqn:Eg; [discriminate|].
  cbv beta iota. tidy. change (36864 =? 36864) with true. tidy.
  step_end S7. destruct S7 as (I7 & A7 & T7).
  cbn [fst snd]. split.
  - rewrite firstn_all2 by (rewrite Hsig; lia). reflexivity.
  - unfold sends. split; [congruence|]. split; [congruence|].
    rewrite T7, T6, T5, T4, T3, T2, T1, T0, !app_nil_r, <- !app_assoc.
    assert (Hw : wrap8 kx = kx) by (unfold wrap8; apply Z.mod_small; lia).
    assert (Hm : build_apdu APDU_MSE 3 None [131; 1; wrap8 kx] = MSE_SET kx)
      by (rewrite Hw; reflexivity).
    assert (Hp : build_apdu APDU_SIGN 129 (Some 128)
                   (0 :: firstn 128 toSign)
                 = PSO_SIGN (firstn 128 toSign)).
    { unfold build_apdu, PSO_SIGN. cbv zeta.
      change (129 =? 0) with false. cbn [negb].
      change (Z.to_nat 129) with 129%nat. cbn [firstn].
      rewrite firstn_firstn. change (Init.Nat.min 128 128) with 128%nat.
      reflexivity. }
    rewrite Hm, Hp. reflexivity.
Qed.

(** The block of [Padding] for at most 125 bytes: 128 bytes, 00 01, bytes
    FF, 00, and the bytes to pad. *)
Lemma length_Padding (toPad : list Z) (Len : Z) :
  0 <= Len <= 125 -> Len <= Z.of_nat (length toPad) ->
  length (Padding toPad Len) = 128%nat.
Proof.
  intros HL HP. unfold Padding.
  rewrite !length_app, repeat_length, length_firstn. cbn [length]. lia.
Qed.

(** X28: A signature: [SignML] on the block that [Padding] makes of at most
    125 bytes.  For a card that answers, the three SELECTs down to the
    key directory, MSE RESTORE (whose answer is not looked at), MSE SET
    with the key reference and PSO are sent; PSO carries a zero byte and
    the 128 bytes of the block, 00 01, 125 - Len bytes FF, 00 and the
    bytes to sign; the 128 bytes of the answer are stored at [Signed]
    and the value is OK. *)
Theorem SignML_signs_the_padded_block (kx : Z) (toPad : list Z) (Len : Z)
    (Signed : list Z) (nSlot : Z) (s : lib_state)
    (a1 a2 a3 r0 mse sig : list Z) (rest : list (scard_rv * list Z)) :
  initialized s = true ->
  transmit_answers (driver s)
  = (SCARD_S_SUCCESS, a1) :: (SCARD_S_SUCCESS, a2) :: (SCARD_S_SUCCESS, a3)
    :: (SCARD_S_SUCCESS, r0) :: (SCARD_S_SUCCESS, mse)
    :: answer sig 0x9000 :: rest ->
  status_word a1 = 0x9000 -> status_word a2 = 0x9000 ->
  status_word a3 = 0x9000 -> status_word mse = 0x9000 ->
  0 <= kx <= 255 -> length sig = 128%nat ->
  0 <= Len <= 125 -> Len <= Z.of_nat (length toPad) ->
  let block :=
    [0x00; 0x01] ++ repeat 0xFF (Z.to_nat (125 - Len)) ++ [0x00]
    ++ firstn (Z.to_nat Len) toPad in
  let r := SignML kx (Padding toPad Len) Signed nSlot s in
  length block = 128%nat
  /\ fst r = (C_OK, sig ++ skipn 128 Signed)
  /\ transmitted (calls (driver (snd r)))
     = transmitted (calls (driver s))
       ++ [SELECT FID_MF; SELECT FID_SIAE_APP_DOMAIN;
           SELECT FID_P11_APP_DOMAIN; MSE_RESTORE; MSE_SET kx;
           PSO_SIGN block].
Proof.
  intros Hinit Hans H1 H2 H3 Hmse Hkx Hsig HL HP block r. subst r.
  assert (Hb : Padding toPad Len = block).
  { unfold Padding, block. do 2 f_equal. f_equal. lia. }
  pose proof (length_Padding toPad Len HL HP) as Hlen.
  destruct (SignML_answered kx (Padding toPad Len) Signed nSlot s a1 a2 a3
              r0 mse sig rest Hinit Hans H1 H2 H3 Hmse Hkx Hsig)
    as (E & _ & _ & T).
  rewrite firstn_all2 in T by lia. rewrite Hb in *.
  split; [exact Hlen|]. split; [exact E|exact T].
Qed.

(** The digest information of 35 bytes, signed with the key 0x81. *)
Lemma SignML_signs_the_padded_block_witness :
  let ok := answer [] 0x9000 in
  let s := connected [ok; ok; ok; answer [] 0x6A88; ok;
                      answer (repeat 0x5A 128) 0x9000] [] [] in
  let r := SignML 0x81 (Padding (repeat 0x44 35) 35) (repeat 0 128) 0 s in
  fst r = (C_OK, repeat 0x5A 128)
  /\ transmitted (calls (driver (snd r)))
     = [SELECT FID_MF; SELECT FID_SIAE_APP_DOMAIN; SELECT FID_P11_APP_DOMAIN;
        MSE_RESTORE; MSE_SET 0x81;
        PSO_SIGN ([0x00; 0x01] ++ repeat 0xFF 90 ++ [0x00]
                  ++ repeat 0x44 35)].
Proof.
  cbv zeta.
  refine (proj2 (SignML_signs_the_padded_block 0x81 (repeat 0x44 35) 35
                   (repeat 0 128) 0
                   (connected [answer [] 0x9000; answer [] 0x9000;
                               answer [] 0x9000; answer [] 0x6A88;
                               answer [] 0x9000;
                               answer (repeat 0x5A 128) 0x9000] [] [])
                   [0x90; 0x00] [0x90; 0x00] [0x90; 0x00] [0x6A; 0x88]
                   [0x90; 0x00] (repeat 0x5A 128) []
                   eq_refl eq_refl eq_refl eq_refl eq_refl eq_refl _ eq_refl
                   _ _)).
  - lia.
  - lia.
  - vm_compute. discriminate.
Defined.

(** X29: [GetCACertificateML] and [GetSIAECertificateML] do not look at the
    values of their three SELECTs: whatever the card answers to them, the
    file 4101 (4102 for the SIAE certificate) is selected next, and when
    that and the reads are answered with 9000 the certificate is read
    and the value is OK. *)
Theorem fixed_certificates_ignore_their_selects (buf : list Z)
    (dim nSlot : Z) (s : lib_state) (a1 a2 a3 a : list Z) (lo hi : Z)
    (blocks : list (list Z)) (tail : list Z)
    (rest : list (scard_rv * list Z)) :
  let dd := 128 * Z.of_nat (length blocks) + Z.of_nat (length tail) in
  initialized s = true ->
  transmit_answers (driver s)
  = (SCARD_S_SUCCESS, a1) :: (SCARD_S_SUCCESS, a2) :: (SCARD_S_SUCCESS, a3)
    :: (SCARD_S_SUCCESS, a) :: answer [lo; hi] 0x9000
    :: map (fun p => answer p 0x9000) (pieces blocks tail) ++ rest ->
  status_word a = 0x9000 ->
  is_byte lo -> is_byte hi -> lo + 256 * hi = dd ->
  Forall (fun b => length b = 128%nat) blocks -> (length tail < 128)%nat ->
  0 < dd -> dd + 2 < 65536 -> dd <= dim -> dd <= Z.of_nat (length buf) ->
  let read := (C_OK, Some (concat blocks ++ tail ++ skipn (Z.to_nat dd) buf),
               dd) in
  let sent fid :=
    [SELECT 0x3f00; SELECT 0x0000; SELECT 0x1111; SELECT fid;
     READ_BINARY 0 2] ++ read_commands 2 (pieces blocks tail) in
  let ca := GetCACertificateML (Some buf) dim nSlot s in
  let siae := GetSIAECertificateML (Some buf) dim nSlot s in
  fst ca = read
  /\ transmitted (calls (driver (snd ca)))
     = transmitted (calls (driver s)) ++ sent 0x4101
  /\ fst siae = read
  /\ transmitted (calls (driver (snd siae)))
     = transmitted (calls (driver s)) ++ sent 0x4102.
Proof.
  intros dd Hinit Hans Ha Blo Bhi Hdd Hblocks Htail Hpos Hend Hdim Hbuf
    read sent ca siae.
  subst read sent ca siae dd.
  assert (G : forall fid,
             let r := get_fixed_certificate fid (Some buf) dim nSlot s in
             fst r
             = (C_OK,
                Some (concat blocks ++ tail
                      ++ skipn (Z.to_nat (128 * Z.of_nat (length blocks)
                                          + Z.of_nat (length tail))) buf),
                128 * Z.of_nat (length blocks) + Z.of_nat (length tail))
             /\ transmitted (calls (driver (snd r)))
                = transmitted (calls (driver s))
                  ++ [SELECT 0x3f00; SELECT 0x0000; SELECT 0x1111;
                      SELECT fid; READ_BINARY 0 2]
                  ++ read_commands 2 (pieces blocks tail)).
  { intros fid r. subst r. unfold get_fixed_certificate, bind, ret.
    step_begin S0. destruct S0 as (I0 & A0 & T0). rewrite Hans in A0.
    step_select_sends A0 E1 S1. destruct S1 as (I1 & A1 & T1).
    step_select_sends A1 E2 S2. destruct S2 as (I2 & A2 & T2).
    step_select_sends A2 E3 S3. destruct S3 as (I3 & A3 & T3).
    match goal with
    | |- context [GetCert fid (Some buf) dim nSlot ?st] =>
        destruct (GetCert_answered fid buf dim nSlot st a lo hi blocks tail
                    rest ltac:(congruence) A3 Ha Blo Bhi Hdd Hblocks Htail
                    Hpos Hend Hdim Hbuf) as (E4 & I4 & A4 & T4);
        destruct (GetCert fid (Some buf) dim nSlot st) as [? l4]
    end.
    cbn [fst snd] in E4, I4, A4, T4 |- *. subst.
    step_end S6. destruct S6 as (I6 & A6 & T6).
    split; [reflexivity|].
    rewrite T6, T4, T3, T2, T1, T0, !app_nil_r, <- !app_assoc.
    reflexivity. }
  unfold GetCACertificateML, GetSIAECertificateML.
  destruct (G 0x4101) as [C1 C2]. destruct (G 0x4102) as [D1 D2].
  repeat split; assumption.
Qed.

(** A card that refuses the three SELECTs and holds a CA certificate of
    3 bytes. *)
Lemma fixed_certificates_ignore_their_selects_witness :
  let no := answer [] 0x6A82 in
  let r := GetCACertificateML (Some (repeat 0 3)) 3 0
             (connected [no; no; no; answer [] 0x9000; answer [3; 0] 0x9000;
                         answer [0x30; 0x01; 0x00] 0x9000] [] []) in
  fst r = (C_OK, Some [0x30; 0x01; 0x00], 3)
  /\ transmitted (calls (driver (snd r)))
     = [SELECT 0x3f00; SELECT 0x0000; SELECT 0x1111; SELECT 0x4101;
        READ_BINARY 0 2; READ_BINARY 2 3].
Proof.
  cbv zeta.
  assert (B3 : is_byte 3) by (unfold is_byte; lia).
  assert (B0 : is_byte 0) by (unfold is_byte; lia).
  assert (Hb : Forall (fun b : list Z => length b = 128%nat) [])
    by constructor.
  assert (Ht : (length [0x30; 0x01; 0x00] < 128)%nat) by (cbn [length]; lia).
  pose proof (fixed_certificates_ignore_their_selects (repeat 0 3) 3 0
                (connected [answer [] 0x6A82; answer [] 0x6A82;
                            answer [] 0x6A82; answer [] 0x9000;
                            answer [3; 0] 0x9000;
                            answer [0x30; 0x01; 0x00] 0x9000] [] [])
                [0x6A; 0x82] [0x6A; 0x82] [0x6A; 0x82] [0x90; 0x00] 3 0 []
                [0x30; 0x01; 0x00] [] eq_refl eq_refl eq_refl B3 B0 eq_refl
                Hb Ht eq_refl eq_refl) as X.
  cbv zeta in X.
  assert (L1 : 128 * Z.of_nat (length (@nil (list Z)))
               + Z.of_nat (length [0x30; 0x01; 0x00]) <= 3)
    by (vm_compute; discriminate).
  assert (L2 : 128 * Z.of_nat (length (@nil (list Z)))
               + Z.of_nat (length [0x30; 0x01; 0x00])
               <= Z.of_nat (length (repeat 0 3)))
    by (vm_compute; discriminate).
  specialize (X L1 L2). destruct X as (C1 & C2 & _).
  split; [exact C1|exact C2].
Defined.

End CardFacts.

(* ------------------------------------------------------------------ *)
(** ** The Base64 codec *)
(* ------------------------------------------------------------------ *)

Module Base64Facts.
Import Base64.

Lemma length_ProcessToBuffer (o : CBase64) (buffer out : list Z) :
  ProcessToBuffer o buffer = Some out ->
  0 <= cbDestination o ->
  Z.of_nat (length out) = cbDestination o.
Proof.
  unfold ProcessToBuffer. intros H Hpos.
  destruct (Z.ltb_spec (Z.of_nat (length buffer)) (cbDestination o)) as [|Hle];
    [discriminate|].
  destruct (match cmdCurrent o with
            | CMD_NONE => _ | CMD_ENCODE => _ | CMD_DECODE => _ end)
    as [w|]; [|discriminate].
  injection H as <-.
  rewrite length_take, length_app, length_drop. lia.
Qed.

(** What [decode_buffer] reports has the length that [DecodedLength]
    computed, whatever the destination held. *)
Lemma length_decode_buffer (E heap out : list Z) :
  decode_buffer E heap = Some out ->
  0 <= snd (DecodedLength E) ->
  Z.of_nat (length out) = snd (DecodedLength E).
Proof.
  unfold decode_buffer, LoadBufferToDecode.
  destruct (Nat.eqb (length E) 0); [discriminate|].
  destruct (DecodedLength E) as [trimmed n]. cbn [snd].
  intros H Hn. apply length_ProcessToBuffer in H; assumption.
Qed.

(** C7 fails.  [B64EncodedLength] counts one line break more than
    [Encode] stores when the groups of four characters fill whole lines
    (and two more when the last of them is a padded group), so the
    encoding that [ProcessToBuffer] reports ends in bytes that [Encode]
    never stored.  With the letter A in those bytes: the one byte M at
    line length 4 is reported as TQ==AAAA, which decodes to six bytes; and
    56 bytes at line length 76, the one smime.cpp sets, are reported as 80
    bytes of which [Encode] stored 76, and decode to 60 bytes. *)
Theorem slack_bytes_break_the_round_trip :
  encode_buffer [77] 4 (repeat 65 8) = Some (bytes_of_string "TQ==AAAA")
  /\ (forall heap : list Z,
        decode_buffer (bytes_of_string "TQ==AAAA") heap <> Some [77])
  /\ (exists E : list Z,
        encode_buffer (repeat 77 56) 76 (repeat 65 80) = Some E
        /\ option_map (@length Z)
             (Encode (mkB64 (repeat 77 56) 56 80 CMD_ENCODE 76)) = Some 76%nat
        /\ skipn 76 E = [65; 65; 65; 65]
        /\ forall heap : list Z,
             decode_buffer E heap <> Some (repeat 77 56)).
Proof.
  split; [vm_compute; reflexivity|]. split.
  - intros heap H. apply length_decode_buffer in H.
    + vm_compute in H. discriminate.
    + vm_compute. discriminate.
  - eexists. split; [vm_compute; reflexivity|].
    split; [vm_compute; reflexivity|]. split; [reflexivity|].
    intros heap H. apply length_decode_buffer in H.
    + vm_compute in H. discriminate.
    + vm_compute. discriminate.
Qed.

(** The scenarios of the specification, at the line length 64 of a new
    [CBase64]: Man, Ma and M are encoded with nothing after them, and
    decoded to what they were. *)
Lemma base64_scenarios :
  encode_buffer (bytes_of_string "Man") 64 (repeat 65 4)
  = Some (bytes_of_string "TWFu")
  /\ encode_buffer (bytes_of_string "Ma") 64 (repeat 65 4)
     = Some (bytes_of_string "TWE=")
  /\ encode_buffer (bytes_of_string "M") 64 (repeat 65 4)
     = Some (bytes_of_string "TQ==")
  /\ decode_buffer (bytes_of_string "TWFu") (repeat 65 3)
     = Some (bytes_of_string "Man")
  /\ decode_buffer (bytes_of_string "TWE=") (repeat 65 2)
     = Some (bytes_of_string "Ma")
  /\ decode_buffer (bytes_of_string "TQ==") (repeat 65 1)
     = Some (bytes_of_string "M").
Proof. repeat split; vm_compute; reflexivity. Qed.

(** *** What [Decode] makes of what [Encode] stored *)

Lemma forallb_range2 (P : Z -> Z -> bool) (n m : nat) :
  forallb (fun i => forallb (P i) (map Z.of_nat (seq 0 m)))
          (map Z.of_nat (seq 0 n)) = true ->
  forall i j, 0 <= i < Z.of_nat n -> 0 <= j < Z.of_nat m -> P i j = true.
Proof.
  intros H i j Hi Hj.
  apply (forallb_range (fun i => forallb (P i) (map Z.of_nat (seq 0 m))) n H)
    in Hi.
  exact (forallb_range (P i) m Hi j Hj).
Qed.

Lemma pairs_of_bytes (s0 s1 : Z) :
  is_byte s0 -> is_byte s1 ->
  sextet (byteTbl (char0 s0)) = true
  /\ sextet (byteTbl (char1 s0 s1)) = true
  /\ sextet (byteTbl (char2 s0 s1)) = true
  /\ sextet (byteTbl (char3 s1)) = true
  /\ wrap8 (Z.lor (Z.shiftl (byteTbl (char0 s0)) 2)
                  (Z.shiftr (byteTbl (char1 s0 s1)) 4)) = s0
  /\ wrap8 (Z.lor (Z.shiftl (byteTbl (char2 s0 s1)) 6) (byteTbl (char3 s1))) = s1
  /\ wrap8 (Z.shiftl (byteTbl (char1 s0 s1)) 4) = Z.land s1 0xF0
  /\ Z.shiftr (byteTbl (char2 s0 s1)) 2 = Z.land s0 0xF
  /\ Z.lor (Z.land s0 0xF0) (Z.land s0 0xF) = s0.
Proof.
  intros H0 H1.
  assert (H : ((sextet (byteTbl (char0 s0)))
               && (sextet (byteTbl (char1 s0 s1)))
               && (sextet (byteTbl (char2 s0 s1)))
               && (sextet (byteTbl (char3 s1)))
               && (wrap8 (Z.lor (Z.shiftl (byteTbl (char0 s0)) 2)
                              (Z.shiftr (byteTbl (char1 s0 s1)) 4)) =? s0)
               && (wrap8 (Z.lor (Z.shiftl (byteTbl (char2 s0 s1)) 6)
                              (byteTbl (char3 s1))) =? s1)
               && (wrap8 (Z.shiftl (byteTbl (char1 s0 s1)) 4) =? Z.land s1 0xF0)
               && (Z.shiftr (byteTbl (char2 s0 s1)) 2 =? Z.land s0 0xF)
               && (Z.lor (Z.land s0 0xF0) (Z.land s0 0xF) =? s0)) = true).
  { revert s0 s1 H0 H1.
    apply (forallb_range2
             (fun s0 s1 =>
                (sextet (byteTbl (char0 s0)))
                && (sextet (byteTbl (char1 s0 s1)))
                && (sextet (byteTbl (char2 s0 s1)))
                && (sextet (byteTbl (char3 s1)))
                && (wrap8 (Z.lor (Z.shiftl (byteTbl (char0 s0)) 2)
                               (Z.shiftr (byteTbl (char1 s0 s1)) 4)) =? s0)
                && (wrap8 (Z.lor (Z.shiftl (byteTbl (char2 s0 s1)) 6)
                               (byteTbl (char3 s1))) =? s1)
                && (wrap8 (Z.shiftl (byteTbl (char1 s0 s1)) 4) =? Z.land s1 0xF0)
                && (Z.shiftr (byteTbl (char2 s0 s1)) 2 =? Z.land s0 0xF)
                && (Z.lor (Z.land s0 0xF0) (Z.land s0 0xF) =? s0))
             256 256).
    vm_compute. reflexivity. }
  do 8 (apply andb_prop in H; destruct H as [H ?]).
  repeat split; try assumption; apply Z.eqb_eq; assumption.
Qed.

Lemma sextet_tests (t : Z) :
  sextet t = true -> (t =? 0xFF) = false /\ (t =? 64) = false.
Proof.
  unfold sextet. intros H. apply andb_prop in H. destruct H as [H0 H1].
  apply Z.leb_le in H0. apply Z.ltb_lt in H1.
  split; apply Z.eqb_neq; lia.
Qed.

(** [Decode] on four characters of the alphabet: three bytes, and the
    loop goes on with an empty [pbBuffer]. *)
Lemma Decode_loop_group (t0 t1 t2 t3 : Z) (rest pb : list Z) :
  sextet (byteTbl t0) = true -> sextet (byteTbl t1) = true ->
  sextet (byteTbl t2) = true -> sextet (byteTbl t3) = true ->
  length pb = 4%nat ->
  Decode_loop (t0 :: t1 :: t2 :: t3 :: rest) pb 0
  = [ wrap8 (Z.lor (Z.shiftl (byteTbl t0) 2) (Z.shiftr (byteTbl t1) 4));
      wrap8 (Z.lor (Z.shiftl (byteTbl t1) 4) (Z.shiftr (byteTbl t2) 2));
      wrap8 (Z.lor (Z.shiftl (byteTbl t2) 6) (byteTbl t3)) ]
    ++ Decode_loop rest [byteTbl t0; byteTbl t1; byteTbl t2; byteTbl t3] 0.
Proof.
  intros H0 H1 H2 H3 Hpb.
  destruct pb as [|p0 [|p1 [|p2 [|p3 [|]]]]]; try discriminate.
  apply sextet_tests in H0, H1, H2, H3.
  destruct H0 as [F0 E0], H1 as [F1 E1], H2 as [F2 E2], H3 as [F3 E3].
  cbn [Decode_loop]. rewrite F0, E0. cbn [andb Nat.eqb].
  rewrite F1, E1. cbn [andb Nat.eqb].
  rewrite F2, E2. cbn [andb Nat.eqb].
  rewrite F3, E3. cbn [andb Nat.eqb].
  reflexivity.
Qed.

(** The line break after a full line is skipped. *)
Lemma Decode_loop_CRLF (rest pb : list Z) (n : nat) :
  Decode_loop (13 :: 10 :: rest) pb n = Decode_loop rest pb n.
Proof. reflexivity. Qed.

Lemma wrap8_lor (x y : Z) :
  wrap8 (Z.lor x y) = Z.lor (wrap8 x) (wrap8 y).
Proof.
  unfold wrap8. change 256 with (2 ^ 8).
  rewrite <- !Z.land_ones by lia. apply Z.land_lor_distr_l.
Qed.

(** The second byte of a group comes back from the second and the third
    character. *)
Lemma middle_byte (s0 s1 s2 : Z) :
  is_byte s0 -> is_byte s1 -> is_byte s2 ->
  wrap8 (Z.lor (Z.shiftl (byteTbl (char1 s0 s1)) 4)
               (Z.shiftr (byteTbl (char2 s1 s2)) 2)) = s1.
Proof.
  intros B0 B1 B2.
  destruct (pairs_of_bytes s0 s1 B0 B1) as (_ & _ & _ & _ & _ & _ & Hi & _ & _).
  destruct (pairs_of_bytes s1 s2 B1 B2) as (_ & _ & _ & _ & _ & _ & _ & Lo & J).
  rewrite wrap8_lor, Hi, Lo.
  assert (Hlo : wrap8 (Z.land s1 0xF) = Z.land s1 0xF).
  { unfold wrap8. apply Z.mod_small.
    change 0xF with (Z.ones 4). rewrite Z.land_ones by lia.
    pose proof (Z.mod_pos_bound s1 (2 ^ 4)). lia. }
  rewrite Hlo. exact J.
Qed.

(** What [Decode] stores from what [Encode] stored is the source, byte
    for byte, whatever the line length is. *)
Lemma Decode_loop_Encode_loop (n : nat) :
  forall (B : list Z) (i cycles : Z) (pb : list Z),
    (length B < n)%nat -> Forall is_byte B -> length pb = 4%nat ->
    Decode_loop (Encode_loop B i cycles) pb 0 = B.
Proof.
  induction n as [|n IH]; intros B i cycles pb Hn HB Hpb; [lia|].
  destruct B as [|s0 [|s1 [|s2 B']]].
  - reflexivity.
  - apply Forall_cons in HB. destruct HB as [B0 _].
    assert (Z0 : is_byte 0) by (unfold is_byte; lia).
    destruct (pairs_of_bytes s0 0 B0 Z0) as (T0 & T1 & _ & _ & O0 & _).
    destruct pb as [|p0 [|p1 [|p2 [|p3 [|]]]]]; try discriminate.
    apply sextet_tests in T0, T1.
    destruct T0 as [F0 E0], T1 as [F1 E1].
    cbn [Encode_loop Decode_loop].
    fold (char0 s0). change (chr (Z.shiftl (Z.land s0 3) 4)) with (char1 s0 0).
    rewrite F0, E0. cbn [andb Nat.eqb]. rewrite F1, E1. cbn [andb Nat.eqb].
    change (byteTbl 61) with 64. cbn [Z.eqb Pos.eqb andb Nat.eqb].
    unfold out0. cbn. f_equal. exact O0.
  - apply Forall_cons in HB. destruct HB as [B0 HB].
    apply Forall_cons in HB. destruct HB as [B1 _].
    assert (Z0 : is_byte 0) by (unfold is_byte; lia).
    destruct (pairs_of_bytes s0 s1 B0 B1) as (T0 & T1 & _ & _ & O0 & _).
    destruct (pairs_of_bytes s1 0 B1 Z0) as (_ & _ & T2 & _).
    pose proof (middle_byte s0 s1 0 B0 B1 Z0) as O1.
    destruct pb as [|p0 [|p1 [|p2 [|p3 [|]]]]]; try discriminate.
    apply sextet_tests in T0, T1, T2.
    destruct T0 as [F0 E0], T1 as [F1 E1], T2 as [F2 E2].
    cbn [Encode_loop Decode_loop].
    fold (char0 s0). fold (char1 s0 s1).
    change (chr (Z.shiftl (Z.land s1 15) 2)) with (char2 s1 0).
    rewrite F0, E0. cbn [andb Nat.eqb]. rewrite F1, E1. cbn [andb Nat.eqb].
    rewrite F2, E2. cbn [andb Nat.eqb].
    change (byteTbl 61) with 64. cbn [Z.eqb Pos.eqb andb Nat.eqb].
    unfold out0, out1. cbn [byte_at Z.ltb Z.compare Z.to_nat nth list_insert insert].
    f_equal; [exact O0|]. f_equal. exact O1.
  - apply Forall_cons in HB. destruct HB as [B0 HB].
    apply Forall_cons in HB. destruct HB as [B1 HB].
    apply Forall_cons in HB. destruct HB as [B2 HB].
    destruct (pairs_of_bytes s0 s1 B0 B1) as (T0 & T1 & _ & _ & O0 & _).
    destruct (pairs_of_bytes s1 s2 B1 B2) as (_ & _ & T2 & T3 & _ & O2 & _).
    pose proof (middle_byte s0 s1 s2 B0 B1 B2) as O1.
    cbn [Encode_loop]. fold (char0 s0). fold (char1 s0 s1). fold (char2 s1 s2).
    fold (char3 s2). cbn [app].
    rewrite (Decode_loop_group _ _ _ _ _ pb T0 T1 T2 T3 Hpb).
    rewrite O0, O1, O2. cbn [app]. do 3 f_equal.
    cbn [length] in Hn.
    destruct (i mod cycles =? 0); cbn [app]; rewrite ?Decode_loop_CRLF;
      apply IH; try assumption; try reflexivity; lia.
Qed.

(** X11: [Decode] on the bytes that [Encode] stored gives back the
    source, for every line length with which [Encode] returns, whole
    lines included: the line breaks are skipped and the padding is
    not decoded. *)
Lemma Decode_of_Encode (B : list Z) (uLineLength n : Z) (stored : list Z) :
  Forall is_byte B ->
  Encode (mkB64 B (Z.of_nat (length B)) n CMD_ENCODE uLineLength)
  = Some stored ->
  Decode (mkB64 stored (Z.of_nat (length stored)) (Z.of_nat (length B))
                CMD_DECODE uLineLength)
  = B.
Proof.
  intros HB. unfold Encode, Decode. cbn [pbSource cbSource Base64.uLineLength].
  destruct (_ && _); [discriminate|]. intros [= <-].
  rewrite Nat2Z.id, firstn_all.
  apply (Decode_loop_Encode_loop (S (length B))); auto.
Qed.

(** *** How many bytes [Encode] stores *)

(** One more multiple of [c] up to [i] than up to [i - 1] when [c]
    divides [i], and as many otherwise. *)
Lemma div_step (i c : Z) :
  0 < c ->
  i / c - (i - 1) / c = (if i mod c =? 0 then 1 else 0).
Proof.
  intros Hc.
  pose proof (Z.div_mod i c ltac:(lia)) as Hi.
  pose proof (Z.mod_pos_bound i c Hc) as Hr.
  destruct (Z.eqb_spec (i mod c) 0) as [E|E].
  - assert (D : (i - 1) / c = i / c - 1).
    { symmetry. apply (Z.div_unique _ _ _ (c - 1)); [lia|].
      rewrite E in Hi. lia. }
    lia.
  - assert (D : (i - 1) / c = i / c).
    { symmetry. apply (Z.div_unique _ _ _ (i mod c - 1)); lia. }
    lia.
Qed.

(** The bytes stored for [B] from the group counter [i] on: four
    characters for every group of three bytes, complete or not, and a line
    break after every group whose counter is a multiple of [c]. *)
Lemma length_Encode_loop (fuel : nat) :
  forall (B : list Z) (i c : Z),
    (length B < fuel)%nat -> 0 < c ->
    Z.of_nat (length (Encode_loop B i c))
    = 4 * ((Z.of_nat (length B) + 2) / 3)
      + 2 * ((i + Z.of_nat (length B) / 3 - 1) / c - (i - 1) / c).
Proof.
  induction fuel as [|fuel IH]; intros B i c Hf Hc; [lia|].
  destruct B as [|s0 [|s1 [|s2 B']]].
  - cbn [Encode_loop length]. change (Z.of_nat 0) with 0.
    change ((0 + 2) / 3) with 0. change (0 / 3) with 0.
    replace (i + 0 - 1) with (i - 1) by lia. lia.
  - cbn [Encode_loop length]. change (Z.of_nat 1) with 1.
    change ((1 + 2) / 3) with 1. change (1 / 3) with 0.
    replace (i + 0 - 1) with (i - 1) by lia.
    change (Z.of_nat 4) with 4. lia.
  - cbn [Encode_loop length]. change (Z.of_nat 2) with 2.
    change ((2 + 2) / 3) with 1. change (2 / 3) with 0.
    replace (i + 0 - 1) with (i - 1) by lia.
    change (Z.of_nat 4) with 4. lia.
  - cbn [Encode_loop]. rewrite !length_app. cbn [length] in *.
    rewrite !Nat2Z.inj_add, (IH B' (i + 1) c) by lia.
    pose proof (div_step i c Hc) as Hs.
    replace (Z.of_nat (S (S (S (length B')))))
      with (Z.of_nat (length B') + 1 * 3) by lia.
    replace (Z.of_nat (length B') + 1 * 3 + 2)
      with (Z.of_nat (length B') + 2 + 1 * 3) by lia.
    rewrite !Z.div_add by lia.
    replace (i + 1 + Z.of_nat (length B') / 3 - 1)
      with (i + (Z.of_nat (length B') / 3 + 1) - 1) by lia.
    replace (i + 1 - 1) with i by lia.
    destruct (i mod c =? 0); cbn [length]; lia.
Qed.

(** [SetLineLength] with 4 or more: a multiple of 4 between 4 and 76. *)
Lemma SetLineLength_range (o : CBase64) (u : Z) :
  4 <= u ->
  exists c, uLineLength (SetLineLength o u) = 4 * c /\ 1 <= c <= 19.
Proof.
  intros Hu. unfold SetLineLength. cbn [uLineLength].
  destruct (Z.ltb_spec 76 u).
  - exists 19. lia.
  - exists (u / 4). change 3 with (Z.ones 2). rewrite Z.land_ones by lia.
    change (2 ^ 2) with 4. Z.div_mod_to_equations. lia.
Qed.

(** [LoadBufferToEncode] and [Encode] after [SetLineLength]: the object
    loaded, the bytes stored and the length reported. *)
Lemma load_and_encode (B : list Z) (u : Z) :
  B <> [] -> Z.of_nat (length B) < 2 ^ 30 -> 4 <= u ->
  let n := Z.of_nat (length B) in
  let L := uLineLength (SetLineLength new_CBase64 u) in
  exists c dest,
    L = 4 * c /\ 1 <= c <= 19
    /\ LoadBufferToEncode (SetLineLength new_CBase64 u) B
       = Some (true, mkB64 B n dest CMD_ENCODE L)
    /\ Encode (mkB64 B n dest CMD_ENCODE L) = Some (Encode_loop B 1 c)
    /\ dest
       = Z.of_nat (length (Encode_loop B 1 c))
         + (if (4 * ((n + 2) / 3)) mod L =? 0
            then (if n mod 3 =? 0 then 2 else 4) else 0).
Proof.
  intros HB Hn Hu n L.
  destruct (SetLineLength_range new_CBase64 u Hu) as (c & HL & Hc).
  exists c. subst L. rewrite HL.
  unfold LoadBufferToEncode, B64EncodedLength. rewrite HL.
  assert (Hlen : (length B =? 0)%nat = false)
    by (destruct B; [contradiction|reflexivity]).
  rewrite Hlen. fold n.
  assert (Hn1 : 1 <= n)
    by (subst n; destruct B; [contradiction|cbn [length]; lia]).
  destruct (Z.eqb_spec (4 * c) 0); [lia|]. cbv zeta.
  set (dwRet := if negb (n mod 3 =? 0) then n / 3 * 4 + 4 else n / 3 * 4).
  assert (Hret : dwRet = 4 * ((n + 2) / 3)
                 /\ ((n + 2) / 3
                     = n / 3 + (if n mod 3 =? 0 then 0 else 1)))
    by (subst dwRet; destruct (Z.eqb_spec (n mod 3) 0); cbn [negb];
        Z.div_mod_to_equations; lia).
  destruct Hret as [Hret Hg]. rewrite Hret.
  set (g := (n + 2) / 3) in *.
  rewrite Z.div_mul_cancel_l, Z.mul_mod_distr_l by lia.
  eexists. split; [reflexivity|]. split; [exact Hc|].
  split; [reflexivity|].
  unfold Encode. cbn [uLineLength cbSource pbSource cbDestination].
  assert (Hsh : Z.shiftr (4 * c) 2 = c).
  { rewrite Z.shiftr_div_pow2 by lia. change (2 ^ 2) with 4.
    rewrite Z.mul_comm. apply Z.div_mul. lia. }
  rewrite Hsh. destruct (Z.eqb_spec c 0); [lia|]. cbn [andb].
  split; [reflexivity|].
  rewrite (length_Encode_loop (S (length B)) B 1 c) by lia.
  fold n. fold g.
  replace (1 + n / 3 - 1) with (n / 3) by lia.
  change ((1 - 1) / c) with (0 / c). rewrite Z.div_0_l by lia.
  change (2 ^ 30) with 1073741824 in Hn. fold n in Hn.
  assert (Hg0 : 0 <= g /\ g <= n /\ 3 * g <= n + 2)
    by (subst g; Z.div_mod_to_equations; lia).
  assert (Hgc : 0 <= g / c <= g).
  { split; [apply Z.div_pos; lia|].
    apply Z.div_le_upper_bound; [lia|]. nia. }
  pose proof (div_step g c ltac:(lia)) as Hstep.
  assert (Hm : 0 <= n / 3 / c)
    by (apply Z.div_pos; [Z.div_mod_to_equations|]; lia).
  assert (Hz : (4 * (g mod c) =? 0) = (g mod c =? 0)).
  { destruct (Z.eqb_spec (g mod c) 0), (Z.eqb_spec (4 * (g mod c)) 0);
      try reflexivity; lia. }
  rewrite Hz. unfold wrap32.
  destruct (Z.eqb_spec (n mod 3) 0) as [E3|E3].
  - replace (n / 3) with g in * by lia.
    rewrite Z.mod_small by (destruct (g mod c =? 0); lia).
    destruct (g mod c =? 0); lia.
  - replace (n / 3) with (g - 1) in * by lia.
    rewrite Z.mod_small by (destruct (g mod c =? 0); lia).
    destruct (g mod c =? 0); lia.
Qed.


(** X7: The length that [B64EncodedLength] reports and the bytes that
    [Encode] stores, for a line length set with [SetLineLength]: they are
    the same unless the characters fill whole lines, and then the length
    reported is 2 more (4 when the last group is a padded one).  So
    [Encode] stores nothing past the [cbDestination] bytes of the
    destination. *)
Theorem Encode_within_destination (B : list Z) (u : Z) :
  B <> [] -> Z.of_nat (length B) < 2 ^ 30 -> 4 <= u ->
  let n := Z.of_nat (length B) in
  let L := uLineLength (SetLineLength new_CBase64 u) in
  exists o w,
    LoadBufferToEncode (SetLineLength new_CBase64 u) B = Some (true, o)
    /\ Encode o = Some w
    /\ cbDestination o
       = Z.of_nat (length w)
         + (if (4 * ((n + 2) / 3)) mod L =? 0
            then (if n mod 3 =? 0 then 2 else 4) else 0).
Proof.
  intros HB Hn Hu n L.
  destruct (load_and_encode B u HB Hn Hu) as (c & dest & _ & _ & Hl & He & Hd).
  exists (mkB64 B n dest CMD_ENCODE L), (Encode_loop B 1 c).
  split; [exact Hl|]. split; [exact He|exact Hd].
Qed.

(** Man at the line length 64: TWFu, and the length reported is 4. *)
Lemma Encode_within_destination_witness :
  exists o w,
    LoadBufferToEncode (SetLineLength new_CBase64 64) (bytes_of_string "Man")
    = Some (true, o)
    /\ Encode o = Some w
    /\ cbDestination o = Z.of_nat (length w) + 0.
Proof.
  exact (Encode_within_destination (bytes_of_string "Man") 64
           ltac:(discriminate) ltac:(reflexivity) ltac:(lia)).
Defined.

(** *** How many bytes [Decode] stores *)

Lemma byteTbl_outside (c : Z) : ~ 0 <= c < 256 -> byteTbl c = 0.
Proof.
  intros Hc. unfold byteTbl, byte_at.
  destruct (Z.ltb_spec c 0); [reflexivity|].
  apply nth_overflow. change (length byteTbl_rows) with 256%nat. lia.
Qed.

(** Only the padding character has the code 64. *)
Lemma byteTbl_64 (c : Z) : (byteTbl c =? 64) = (c =? 61).
Proof.
  destruct (Z.le_gt_cases 0 c) as [H0|H0];
    [destruct (Z.lt_ge_cases c 256) as [H1|H1]|].
  - assert (H : forall i, 0 <= i < Z.of_nat 256 ->
              Bool.eqb (byteTbl i =? 64) (i =? 61) = true)
      by (apply forallb_range; vm_compute; reflexivity).
    apply eqb_prop, H. lia.
  - rewrite byteTbl_outside by lia.
    symmetry. apply Z.eqb_neq. lia.
  - rewrite byteTbl_outside by lia.
    symmetry. apply Z.eqb_neq. lia.
Qed.

Lemma valid_61 (c : Z) : c = 61 -> valid c = true.
Proof. intros ->. reflexivity. Qed.

Lemma count_valid_nonneg (s : list Z) : 0 <= count_valid s.
Proof.
  induction s as [|c s IH]; cbn [count_valid]; [lia|].
  destruct (valid c); lia.
Qed.

(** [count_padding] on a run with one more byte at its end. *)
Lemma count_padding_snoc (l : list Z) (c : Z) :
  count_padding (l ++ [c])
  = if forallb (fun x => x =? 61) l
    then Z.of_nat (length l) + (if c =? 61 then 1 else 0)
    else count_padding l.
Proof.
  induction l as [|x l IH]; cbn [app count_padding forallb length].
  - destruct (c =? 61); reflexivity.
  - destruct (x =? 61); cbn [andb]; [|reflexivity].
    rewrite IH. destruct (forallb _ l); lia.
Qed.

Lemma count_padding_all (l : list Z) :
  forallb (fun x => x =? 61) l = true ->
  count_padding l = Z.of_nat (length l).
Proof.
  induction l as [|x l IH]; cbn [forallb count_padding length]; [reflexivity|].
  destruct (x =? 61); cbn [andb]; [|discriminate].
  intros H. rewrite (IH H). lia.
Qed.

Lemma count_valid_all (l : list Z) :
  forallb (fun x => x =? 61) l = true ->
  count_valid l = Z.of_nat (length l).
Proof.
  induction l as [|x l IH]; cbn [forallb count_valid length]; [reflexivity|].
  destruct (Z.eqb_spec x 61) as [->|]; cbn [andb]; [|discriminate].
  intros H. rewrite (IH H). change (valid 61) with true. lia.
Qed.

Lemma forallb_snoc (f : Z -> bool) (l : list Z) (c : Z) :
  forallb f (l ++ [c]) = forallb f l && f c.
Proof. rewrite forallb_app. cbn [forallb]. rewrite andb_true_r. reflexivity. Qed.

Lemma forallb_rev_61 (l : list Z) :
  forallb (fun x => x =? 61) (rev l) = forallb (fun x => x =? 61) l.
Proof.
  induction l as [|x l IH]; [reflexivity|].
  cbn [rev forallb]. rewrite forallb_snoc, IH. apply andb_comm.
Qed.

(** The padding count of a source and of the source without its first
    byte. *)
Lemma count_padding_rev_cons (c : Z) (s : list Z) :
  count_padding (rev (c :: s))
  = if forallb (fun x => x =? 61) s
    then Z.of_nat (length s) + (if c =? 61 then 1 else 0)
    else count_padding (rev s).
Proof.
  cbn [rev]. rewrite count_padding_snoc, forallb_rev_61, length_rev.
  reflexivity.
Qed.

Lemma ends_valid_tail (c : Z) (s : list Z) :
  s <> [] -> ends_valid (c :: s) -> ends_valid s.
Proof.
  unfold ends_valid. cbn [rev]. intros Hs.
  destruct (rev s) as [|x r] eqn:E.
  - apply (f_equal (@rev Z)) in E. rewrite rev_involutive in E.
    contradiction.
  - cbn [app]. auto.
Qed.

Lemma ends_valid_single (c : Z) : ends_valid [c] -> valid c = true.
Proof. unfold ends_valid. cbn. auto. Qed.

Lemma ends_valid_tl (c : Z) (s : list Z) :
  ends_valid (c :: s) -> ends_valid s.
Proof.
  destruct s as [|x s]; [intros _; exact I|].
  apply ends_valid_tail. discriminate.
Qed.

Lemma ends_valid_count (s : list Z) :
  s <> [] -> ends_valid s -> 1 <= count_valid s.
Proof.
  induction s as [|c s IH]; intros Hs He; [contradiction|].
  cbn [count_valid]. destruct s as [|x s].
  - rewrite (ends_valid_single c He). cbn [count_valid]. lia.
  - specialize (IH ltac:(discriminate) (ends_valid_tl _ _ He)).
    destruct (valid c); lia.
Qed.

(** A byte other than the padding character in front of a source leaves
    its padding count as it is. *)
Lemma count_padding_rev_other (c : Z) (s : list Z) :
  c <> 61 -> count_padding (rev (c :: s)) = count_padding (rev s).
Proof.
  intros Hc. rewrite count_padding_rev_cons.
  destruct (forallb (fun x => x =? 61) s) eqn:E; [|reflexivity].
  rewrite count_padding_all by (rewrite forallb_rev_61; exact E).
  rewrite length_rev. destruct (Z.eqb_spec c 61); [contradiction|lia].
Qed.

(** [Decode] from the buffer index [idx] on: at most three bytes for
    every four characters it does not skip, less the padding characters
    at the end of the source. *)
Lemma Decode_loop_bound (s : list Z) :
  forall (pb : list Z) (idx : nat),
    (idx <= 3)%nat -> ends_valid s ->
    (Z.of_nat idx + count_valid s) mod 4 = 0 ->
    count_padding (rev s) <= 2 ->
    Z.of_nat (length (Decode_loop s pb idx))
    <= 3 * ((Z.of_nat idx + count_valid s) / 4) - count_padding (rev s).
Proof.
  induction s as [|c s IH]; intros pb idx Hidx Hend Hmod Hpad.
  - cbn [Decode_loop length count_valid rev count_padding] in *.
    Z.div_mod_to_equations. lia.
  - pose proof (count_valid_nonneg s) as Hv.
    pose proof (ends_valid_tl _ _ Hend) as Hend'.
    cbn [Decode_loop]. rewrite byteTbl_64.
    cbn [count_valid] in *. unfold valid in Hmod |- * at 1.
    destruct (byteTbl c =? 255) eqn:Ev; cbn [negb] in *.
    + (* skipped *)
      assert (Hc : c <> 61) by (intros ->; discriminate).
      rewrite (count_padding_rev_other c s Hc) in *.
      destruct s as [|x s'].
      * apply ends_valid_single in Hend. unfold valid in Hend.
        rewrite Ev in Hend. discriminate.
      * exact (IH pb idx Hidx Hend' Hmod Hpad).
    + destruct (Z.eqb_spec c 61) as [E61|E61]; cbn [andb].
      * (* the padding character *)
        assert (Eq : (c =? 61) = true) by (apply Z.eqb_eq; exact E61).
        rewrite count_padding_rev_cons, Eq in *.
        destruct idx as [|[|[|[|]]]]; try lia; cbn [Nat.eqb].
        -- destruct (forallb (fun x => x =? 61) s) eqn:Eall.
           ++ rewrite (count_valid_all s Eall) in *.
              exfalso; Z.div_mod_to_equations; lia.
           ++ specialize (IH (<[0%nat:=byteTbl c]> pb) 1%nat ltac:(lia) Hend').
              replace (Z.of_nat 1 + count_valid s)
                with (Z.of_nat 0 + (1 + count_valid s)) in IH by lia.
              exact (IH Hmod Hpad).
        -- destruct (forallb (fun x => x =? 61) s) eqn:Eall.
           ++ rewrite (count_valid_all s Eall) in *.
              exfalso; Z.div_mod_to_equations; lia.
           ++ specialize (IH (<[1%nat:=byteTbl c]> pb) 2%nat ltac:(lia) Hend').
              replace (Z.of_nat 2 + count_valid s)
                with (Z.of_nat 1 + (1 + count_valid s)) in IH by lia.
              exact (IH Hmod Hpad).
        -- cbn [length].
           destruct (forallb (fun x => x =? 61) s);
             Z.div_mod_to_equations; lia.
        -- cbn [length].
           destruct s as [|x s'].
           ++ cbn [forallb length count_valid] in *.
              Z.div_mod_to_equations. lia.
           ++ pose proof (ends_valid_count (x :: s') ltac:(discriminate) Hend').
              destruct (forallb (fun x => x =? 61) (x :: s'));
                Z.div_mod_to_equations; lia.
      * (* a character of the alphabet *)
        rewrite (count_padding_rev_other c s E61) in *.
        destruct idx as [|[|[|[|]]]]; try lia; cbn [Nat.eqb].
        -- specialize (IH (<[0%nat:=byteTbl c]> pb) 1%nat ltac:(lia) Hend').
           replace (Z.of_nat 1 + count_valid s)
             with (Z.of_nat 0 + (1 + count_valid s)) in IH by lia.
           exact (IH Hmod Hpad).
        -- specialize (IH (<[1%nat:=byteTbl c]> pb) 2%nat ltac:(lia) Hend').
           replace (Z.of_nat 2 + count_valid s)
             with (Z.of_nat 1 + (1 + count_valid s)) in IH by lia.
           exact (IH Hmod Hpad).
        -- specialize (IH (<[2%nat:=byteTbl c]> pb) 3%nat ltac:(lia) Hend').
           replace (Z.of_nat 3 + count_valid s)
             with (Z.of_nat 2 + (1 + count_valid s)) in IH by lia.
           exact (IH Hmod Hpad).
        -- rewrite length_app. cbn [length].
           specialize (IH (<[3%nat:=byteTbl c]> pb) 0%nat ltac:(lia) Hend').
           assert (M : (Z.of_nat 0 + count_valid s) mod 4 = 0)
             by (Z.div_mod_to_equations; lia).
           specialize (IH M Hpad).
           rewrite Nat2Z.inj_add.
           change (Z.of_nat 3) with 3 in *. change (Z.of_nat 0) with 0 in *.
           Z.div_mod_to_equations. lia.
Qed.

(** *** [DecodedLength] and [Decode] *)

Lemma drop_invalid_split (r : list Z) :
  exists j, r = j ++ drop_invalid r.
Proof.
  induction r as [|c r [j IH]]; [exists []; reflexivity|].
  cbn [drop_invalid]. destruct (byteTbl c =? 255).
  - exists (c :: j). cbn [app]. f_equal. exact IH.
  - exists []. reflexivity.
Qed.

(** The source up to the new [cbSource] is the source that
    [DecodedLength] trimmed. *)
Lemma trimmed_prefix (E : list Z) :
  firstn (length (rev (drop_invalid (rev E)))) E
  = rev (drop_invalid (rev E)).
Proof.
  destruct (drop_invalid_split (rev E)) as [j Hj].
  assert (HE : E = rev (drop_invalid (rev E)) ++ rev j).
  { rewrite <- rev_app_distr, <- Hj, rev_involutive. reflexivity. }
  rewrite HE at 2. rewrite firstn_app, Nat.sub_diag, firstn_all.
  cbn [firstn]. apply app_nil_r.
Qed.

Lemma ends_valid_trimmed (r : list Z) :
  ends_valid (rev (drop_invalid r)).
Proof.
  unfold ends_valid. rewrite rev_involutive.
  induction r as [|c r IH]; cbn [drop_invalid]; [exact I|].
  destruct (byteTbl c =? 255) eqn:E; [exact IH|].
  unfold valid. rewrite E. reflexivity.
Qed.

Lemma drop_invalid_nil (r : list Z) (c : Z) :
  drop_invalid r = [] -> In c r -> valid c = false.
Proof.
  induction r as [|x r IH]; cbn [drop_invalid In]; [intros _ []|].
  destruct (byteTbl x =? 255) eqn:E; [|discriminate].
  intros H [->|Hin]; [unfold valid; rewrite E; reflexivity|exact (IH H Hin)].
Qed.

(** [dwCleanLength]: the characters that [Decode] does not skip. *)
Lemma clean_length (s : list Z) :
  Z.of_nat (length s)
  - Z.of_nat (length (filter (fun c => byteTbl c =? 0xFF) s))
  = count_valid s.
Proof.
  induction s as [|c s IH]; [reflexivity|].
  cbn [count_valid length]. unfold valid.
  destruct (byteTbl c =? 255) eqn:E; cbn [negb].
  - rewrite filter_cons_True by (rewrite E; exact I). cbn [length]. lia.
  - rewrite filter_cons_False by (rewrite E; exact id). lia.
Qed.

(** X8: [Decode] stays inside the destination: for a source of fewer than
    2^32 bytes with a character that [Decode] does not skip, whose
    length [DecodedLength] accepts, the bytes [Decode] stores are at
    most the [cbDestination] that [LoadBufferToDecode] computed, the
    size [ProcessToBuffer] checks or allocates. *)
Theorem Decode_within_destination (E : list Z) (o : CBase64) :
  Z.of_nat (length E) < 2 ^ 32 ->
  (exists c, In c E /\ valid c = true) ->
  LoadBufferToDecode new_CBase64 E = (true, o) ->
  cbDestination o <> 4294967295 ->
  Z.of_nat (length (Decode o)) <= cbDestination o.
Proof.
  intros Hlen [c [Hin Hc]] Hload Hacc.
  unfold LoadBufferToDecode in Hload.
  destruct (Nat.eqb (length E) 0); [discriminate|].
  unfold DecodedLength in Hload.
  set (t := rev (drop_invalid (rev E))) in *.
  assert (Ht : t <> []).
  { intros H0. apply (f_equal (@rev Z)) in H0.
    unfold t in H0. rewrite rev_involutive in H0. cbn [rev] in H0.
    rewrite (drop_invalid_nil (rev E) c H0) in Hc; [discriminate|].
    apply in_rev in Hin. exact Hin. }
  pose proof (ends_valid_trimmed (rev E)) as Hend. fold t in Hend.
  pose proof (ends_valid_count t Ht Hend) as Hv.
  assert (Htl : Z.of_nat (length t) <= Z.of_nat (length E)).
  { unfold t. rewrite <- (trimmed_prefix E), length_firstn. lia. }
  assert (Hvl : count_valid t <= Z.of_nat (length t)).
  { rewrite <- (clean_length t). lia. }
  rewrite (clean_length t) in Hload.
  change 3 with (Z.ones 2) in Hload at 1.
  rewrite Z.land_ones in Hload by lia. change (2 ^ 2) with 4 in Hload.
  change (2 ^ 32) with 4294967296 in Hlen.
  assert (Hdec : Decode_loop t [0; 0; 0; 0] 0 = Decode o
                 /\ cbDestination o
                    = (if count_valid t mod 4 =? 0
                       then if 2 <? count_padding (rev t) then 4294967295
                            else wrap32 (Z.shiftr (wrap32 (count_valid t - 4)) 2 * 3
                                   + (if count_padding (rev t) =? 0 then 3
                                      else if count_padding (rev t) =? 2
                                           then 1 else 2))
                       else 4294967295)).
  { destruct (count_valid t mod 4 =? 0);
      [destruct (2 <? count_padding (rev t))|];
      inversion Hload; subst o; unfold Decode; cbn [cbSource pbSource cbDestination];
      rewrite Nat2Z.id; unfold t; rewrite trimmed_prefix; split; reflexivity. }
  destruct Hdec as [<- Hd]. rewrite Hd in *. clear Hd Hload.
  destruct (Z.eqb_spec (count_valid t mod 4) 0) as [Hm|]; [|contradiction].
  destruct (Z.ltb_spec 2 (count_padding (rev t))) as [|Hp]; [contradiction|].
  pose proof (Decode_loop_bound t [0; 0; 0; 0] 0 ltac:(lia) Hend Hm Hp) as B.
  change (Z.of_nat 0 + count_valid t) with (count_valid t) in B.
  assert (P0 : 0 <= count_padding (rev t)).
  { clear. induction (rev t) as [|x r IH]; cbn [count_padding]; [lia|].
    destruct (x =? 61); lia. }
  assert (Hv4 : 4 <= count_valid t) by (Z.div_mod_to_equations; lia).
  unfold wrap32 in *. rewrite Z.shiftr_div_pow2 by lia. change (2 ^ 2) with 4.
  rewrite (Z.mod_small (count_valid t - 4)) by lia.
  assert (Hq : (count_valid t - 4) / 4 = count_valid t / 4 - 1)
    by (Z.div_mod_to_equations; lia).
  rewrite Hq.
  rewrite Z.mod_small.
  - destruct (Z.eqb_spec (count_padding (rev t)) 0);
      [|destruct (Z.eqb_spec (count_padding (rev t)) 2)]; lia.
  - destruct (Z.eqb_spec (count_padding (rev t)) 0);
      [|destruct (Z.eqb_spec (count_padding (rev t)) 2)];
      Z.div_mod_to_equations; lia.
Qed.

Lemma Decode_within_destination_witness :
  Z.of_nat (length (Decode (snd (LoadBufferToDecode new_CBase64
                                   (bytes_of_string "TWE=")))))
  <= cbDestination (snd (LoadBufferToDecode new_CBase64
                           (bytes_of_string "TWE="))).
Proof.
  apply (Decode_within_destination (bytes_of_string "TWE=")).
  - vm_compute. reflexivity.
  - exists 84. split; [left; reflexivity | reflexivity].
  - reflexivity.
  - vm_compute. discriminate.
Defined.

(** *** The round trip through [ProcessToBuffer] *)

Lemma sextet_valid (x : Z) :
  sextet (byteTbl x) = true -> valid x = true /\ (x =? 61) = false.
Proof.
  intros H. destruct (sextet_tests _ H) as [F E]. unfold valid.
  rewrite F. split; [reflexivity|].
  rewrite <- byteTbl_64. exact E.
Qed.

Lemma count_valid_app (a b : list Z) :
  count_valid (a ++ b) = count_valid a + count_valid b.
Proof.
  induction a as [|x a IH]; cbn [app count_valid]; [reflexivity|].
  rewrite IH. lia.
Qed.

(** The characters of what [Encode] stores that [Decode] does not skip:
    four for each group. *)
Lemma count_valid_Encode_loop (m : nat) :
  forall (B : list Z) (i c : Z),
    (length B < m)%nat -> Forall is_byte B ->
    count_valid (Encode_loop B i c)
    = 4 * ((Z.of_nat (length B) + 2) / 3).
Proof.
  induction m as [|m IH]; intros B i c Hm HB; [lia|].
  assert (Z0 : is_byte 0) by (unfold is_byte; lia).
  destruct B as [|s0 [|s1 [|s2 B']]].
  - reflexivity.
  - apply Forall_cons in HB. destruct HB as [B0 _].
    destruct (pairs_of_bytes s0 0 B0 Z0) as (T0 & T1 & _).
    apply sextet_valid in T0, T1.
    cbn [Encode_loop count_valid].
    fold (char0 s0). change (chr (Z.shiftl (Z.land s0 3) 4)) with (char1 s0 0).
    rewrite (proj1 T0), (proj1 T1). reflexivity.
  - apply Forall_cons in HB. destruct HB as [B0 HB].
    apply Forall_cons in HB. destruct HB as [B1 _].
    destruct (pairs_of_bytes s0 s1 B0 B1) as (T0 & T1 & _).
    destruct (pairs_of_bytes s1 0 B1 Z0) as (_ & _ & T2 & _).
    apply sextet_valid in T0, T1, T2.
    cbn [Encode_loop count_valid].
    fold (char0 s0). fold (char1 s0 s1).
    change (chr (Z.shiftl (Z.land s1 15) 2)) with (char2 s1 0).
    rewrite (proj1 T0), (proj1 T1), (proj1 T2). reflexivity.
  - apply Forall_cons in HB. destruct HB as [B0 HB].
    apply Forall_cons in HB. destruct HB as [B1 HB].
    apply Forall_cons in HB. destruct HB as [B2 HB].
    destruct (pairs_of_bytes s0 s1 B0 B1) as (T0 & T1 & _).
    destruct (pairs_of_bytes s1 s2 B1 B2) as (_ & _ & T2 & T3 & _).
    apply sextet_valid in T0, T1, T2, T3.
    cbn [Encode_loop]. fold (char0 s0). fold (char1 s0 s1).
    fold (char2 s1 s2). fold (char3 s2).
    cbn [app count_valid].
    rewrite (proj1 T0), (proj1 T1), (proj1 T2), (proj1 T3).
    rewrite count_valid_app.
    cbn [length] in Hm. rewrite (IH B' (i + 1) c ltac:(lia) HB).
    assert (Hcr : count_valid (if i mod c =? 0 then [13; 10] else []) = 0)
      by (destruct (i mod c =? 0); reflexivity).
    rewrite Hcr. cbn [length]. Z.div_mod_to_equations. lia.
Qed.

(** How what [Encode] stores ends, when no line break follows the last
    group: with a character of the alphabet and the padding of the
    group. *)
Lemma Encode_loop_tail (m : nat) :
  forall (B : list Z) (i c : Z),
    (length B < m)%nat -> B <> [] -> Forall is_byte B ->
    (Z.of_nat (length B) mod 3 = 0 ->
     (i + Z.of_nat (length B) / 3 - 1) mod c <> 0) ->
    exists pre x,
      sextet (byteTbl x) = true
      /\ ((Z.of_nat (length B) mod 3 = 0 /\ Encode_loop B i c = pre ++ [x])
          \/ (Z.of_nat (length B) mod 3 = 1
              /\ Encode_loop B i c = pre ++ [x; 61; 61])
          \/ (Z.of_nat (length B) mod 3 = 2
              /\ Encode_loop B i c = pre ++ [x; 61])).
Proof.
  induction m as [|m IH]; intros B i c Hm Hne HB Hlast; [lia|].
  assert (Z0 : is_byte 0) by (unfold is_byte; lia).
  destruct B as [|s0 [|s1 [|s2 B']]].
  - contradiction.
  - apply Forall_cons in HB. destruct HB as [B0 _].
    destruct (pairs_of_bytes s0 0 B0 Z0) as (_ & T1 & _).
    exists [char0 s0], (char1 s0 0). split; [exact T1|].
    right. left. split; reflexivity.
  - apply Forall_cons in HB. destruct HB as [B0 HB].
    apply Forall_cons in HB. destruct HB as [B1 _].
    destruct (pairs_of_bytes s1 0 B1 Z0) as (_ & _ & T2 & _).
    exists [char0 s0; char1 s0 s1], (char2 s1 0). split; [exact T2|].
    right. right. split; reflexivity.
  - apply Forall_cons in HB. destruct HB as [B0 HB].
    apply Forall_cons in HB. destruct HB as [B1 HB].
    apply Forall_cons in HB. destruct HB as [B2 HB].
    destruct (pairs_of_bytes s1 s2 B1 B2) as (_ & _ & _ & T3 & _).
    cbn [Encode_loop]. fold (char0 s0). fold (char1 s0 s1).
    fold (char2 s1 s2). fold (char3 s2).
    cbn [length] in Hm, Hlast |- *.
    destruct B' as [|b B''].
    + cbn [length] in Hlast. change (Z.of_nat 3) with 3 in Hlast.
      specialize (Hlast eq_refl). change (3 / 3) with 1 in Hlast.
      replace (i + 1 - 1) with i in Hlast by lia.
      destruct (Z.eqb_spec (i mod c) 0); [contradiction|].
      exists [char0 s0; char1 s0 s1; char2 s1 s2], (char3 s2).
      split; [exact T3|]. left. split; reflexivity.
    + set (B' := b :: B'') in *.
      assert (Hmod : Z.of_nat (S (S (S (length B')))) mod 3
                     = Z.of_nat (length B') mod 3
                     /\ Z.of_nat (S (S (S (length B')))) / 3
                        = Z.of_nat (length B') / 3 + 1)
        by (Z.div_mod_to_equations; lia).
      destruct Hmod as [Hmod Hdiv]. rewrite Hmod in *. rewrite Hdiv in Hlast.
      destruct (IH B' (i + 1) c ltac:(lia) ltac:(discriminate) HB) as
        (pre & x & Hx & Ht).
      { intros H3. specialize (Hlast H3).
        replace (i + 1 + Z.of_nat (length B') / 3 - 1)
          with (i + (Z.of_nat (length B') / 3 + 1) - 1) by lia.
        exact Hlast. }
      exists ([char0 s0; char1 s0 s1; char2 s1 s2; char3 s2]
              ++ (if i mod c =? 0 then [13; 10] else []) ++ pre), x.
      split; [exact Hx|].
      rewrite <- !app_assoc.
      destruct Ht as [[H3 ->] | [[H3 ->] | [H3 ->]]];
        [left | right; left | right; right]; split; auto.
Qed.

(** [DecodedLength] on what [Encode] stored, when no line break follows
    the last group: nothing is trimmed, and the length is the one of the
    source of [Encode]. *)
Lemma DecodedLength_Encode_loop (B : list Z) (i c : Z) :
  B <> [] -> Forall is_byte B -> Z.of_nat (length B) < 2 ^ 30 ->
  (Z.of_nat (length B) mod 3 = 0 ->
   (i + Z.of_nat (length B) / 3 - 1) mod c <> 0) ->
  Encode_loop B i c <> []
  /\ DecodedLength (Encode_loop B i c)
     = (Encode_loop B i c, Z.of_nat (length B)).
Proof.
  intros Hne HB Hn Hlast.
  destruct (Encode_loop_tail (S (length B)) B i c ltac:(lia) Hne HB Hlast)
    as (pre & x & Hx & Ht).
  pose proof (count_valid_Encode_loop (S (length B)) B i c ltac:(lia) HB) as Hv.
  set (w := Encode_loop B i c) in *.
  destruct (sextet_valid x Hx) as [Vx Ex].
  assert (Fx : (byteTbl x =? 255) = false)
    by (unfold valid in Vx; destruct (byteTbl x =? 255); [discriminate|reflexivity]).
  assert (Hd : w <> [] /\ drop_invalid (rev w) = rev w
               /\ count_padding (rev w)
                  = (3 - Z.of_nat (length B) mod 3) mod 3).
  { destruct Ht as [[H3 ->] | [[H3 ->] | [H3 ->]]];
      (split; [intros H0; apply app_eq_nil in H0; destruct H0; discriminate|]);
      rewrite rev_app_distr; cbn [rev app drop_invalid count_padding];
      change (byteTbl 61) with 64; change (61 =? 61) with true;
      change (64 =? 255) with false; cbv beta iota;
      rewrite ?Fx, ?Ex, H3; split; reflexivity. }
  destruct Hd as (Hw & Hd & Hp). split; [exact Hw|].
  unfold DecodedLength. rewrite Hd, rev_involutive, clean_length, Hv, Hp.
  f_equal.
  change 3 with (Z.ones 2) at 2. rewrite Z.land_ones by lia.
  change (2 ^ 2) with 4. change (Z.ones 2) with 3.
  rewrite Z.mul_comm, Z.mod_mul by lia. change (0 =? 0) with true. cbv iota.
  set (n := Z.of_nat (length B)) in *.
  assert (Hn1 : 1 <= n)
    by (subst n; destruct B; [contradiction|cbn [length]; lia]).
  change (2 ^ 30) with 1073741824 in Hn.
  assert (Hg : 1 <= (n + 2) / 3 <= n) by (Z.div_mod_to_equations; lia).
  unfold wrap32. rewrite Z.shiftr_div_pow2 by lia. change (2 ^ 2) with 4.
  rewrite (Z.mod_small ((n + 2) / 3 * 4 - 4)) by lia.
  replace (((n + 2) / 3 * 4 - 4) / 4) with ((n + 2) / 3 - 1)
    by (Z.div_mod_to_equations; lia).
  assert (Hc : n mod 3 = 0 \/ n mod 3 = 1 \/ n mod 3 = 2)
    by (Z.div_mod_to_equations; lia).
  destruct Hc as [H3 | [H3 | H3]]; rewrite H3.
  - change ((3 - 0) mod 3) with 0. change (2 <? 0) with false.
    change (0 =? 0) with true. cbv iota.
    rewrite Z.mod_small by lia. f_equal. Z.div_mod_to_equations. lia.
  - change ((3 - 1) mod 3) with 2. change (2 <? 2) with false.
    change (2 =? 0) with false. change (2 =? 2) with true. cbv iota.
    rewrite Z.mod_small by lia. f_equal. Z.div_mod_to_equations. lia.
  - change ((3 - 2) mod 3) with 1. change (2 <? 1) with false.
    change (1 =? 0) with false. change (1 =? 2) with false. cbv iota.
    rewrite Z.mod_small by lia. f_equal. Z.div_mod_to_equations. lia.
Qed.

(** X9: What [decode_buffer] gives from what [encode_buffer] gave is the
    source, when the characters do not fill whole lines. *)
Theorem base64_round_trip (B : list Z) (u : Z) (buffer heap E : list Z) :
  Forall is_byte B -> Z.of_nat (length B) < 2 ^ 30 -> 4 <= u ->
  (4 * ((Z.of_nat (length B) + 2) / 3))
    mod uLineLength (SetLineLength new_CBase64 u) <> 0 ->
  encode_buffer B u buffer = Some E ->
  Z.of_nat (length B) <= Z.of_nat (length heap) ->
  decode_buffer E heap = Some B.
Proof.
  intros HB Hn Hu Hfill Henc Hheap.
  assert (Hne : B <> []) by (intros ->; discriminate).
  destruct (load_and_encode B u Hne Hn Hu) as (c & dest & HL & Hc & Hl & He & Hd).
  cbv zeta in *. rewrite HL in *.
  destruct (Z.eqb_spec ((4 * ((Z.of_nat (length B) + 2) / 3)) mod (4 * c)) 0)
    as [|_]; [contradiction|].
  rewrite Z.add_0_r in Hd.
  rewrite Z.mul_mod_distr_l in Hfill by lia.
  destruct (DecodedLength_Encode_loop B 1 c Hne HB Hn) as [Hw HD].
  { intros H3 H0. apply Hfill.
    replace ((Z.of_nat (length B) + 2) / 3) with (Z.of_nat (length B) / 3)
      by (Z.div_mod_to_equations; lia).
    replace (1 + Z.of_nat (length B) / 3 - 1)
      with (Z.of_nat (length B) / 3) in H0 by lia.
    rewrite H0. reflexivity. }
  set (w := Encode_loop B 1 c) in *.
  unfold encode_buffer in Henc. rewrite Hl in Henc.
  unfold ProcessToBuffer in Henc. cbn [cbDestination cmdCurrent] in Henc.
  rewrite He in Henc.
  destruct (Z.of_nat (length buffer) <? dest); [discriminate|].
  injection Henc as <-.
  rewrite Hd, Nat2Z.id, firstn_app, Nat.sub_diag, firstn_all.
  cbn [firstn]. rewrite app_nil_r.
  unfold decode_buffer, LoadBufferToDecode. rewrite HD.
  destruct w as [|w0 w'] eqn:Ew; [contradiction|]. rewrite <- Ew in *.
  replace (length w =? 0)%nat with false by (rewrite Ew; reflexivity).
  unfold ProcessToBuffer. cbn [cbDestination cmdCurrent].
  destruct (Z.ltb_spec (Z.of_nat (length heap)) (Z.of_nat (length B)));
    [lia|].
  unfold Decode. cbn [cbSource pbSource].
  rewrite !Nat2Z.id, firstn_all.
  unfold w. rewrite (Decode_loop_Encode_loop (S (length B)) B 1 c [0; 0; 0; 0])
    by (auto; lia).
  rewrite firstn_app, Nat.sub_diag, firstn_all. cbn [firstn].
  rewrite app_nil_r. reflexivity.
Qed.

(** Man at the line length 64 comes back from TWFu. *)
Lemma base64_round_trip_witness :
  decode_buffer (bytes_of_string "TWFu") (repeat 0 3)
  = Some (bytes_of_string "Man").
Proof.
  apply (base64_round_trip (bytes_of_string "Man") 64 (repeat 65 4)).
  - repeat constructor; unfold is_byte; cbn; lia.
  - vm_compute. reflexivity.
  - lia.
  - vm_compute. discriminate.
  - vm_compute. reflexivity.
  - vm_compute. discriminate.
Defined.

(** X10: A line length below 4 is rounded down to 0 by [SetLineLength], and
    [LoadBufferToEncode] then divides by it in [B64EncodedLength]:
    nothing is loaded for any source that is not empty. *)
Theorem line_length_below_4_divides_by_zero (B : list Z) (u : Z)
    (buffer : list Z) :
  0 <= u < 4 -> B <> [] ->
  uLineLength (SetLineLength new_CBase64 u) = 0
  /\ LoadBufferToEncode (SetLineLength new_CBase64 u) B = None
  /\ encode_buffer B u buffer = None.
Proof.
  intros Hu HB.
  assert (H0 : uLineLength (SetLineLength new_CBase64 u) = 0).
  { unfold SetLineLength. cbn [uLineLength].
    destruct (Z.ltb_spec 76 u); [lia|].
    change 3 with (Z.ones 2). rewrite Z.land_ones by lia.
    change (2 ^ 2) with 4. rewrite Z.mod_small by lia. lia. }
  assert (H1 : LoadBufferToEncode (SetLineLength new_CBase64 u) B = None).
  { unfold LoadBufferToEncode, B64EncodedLength. rewrite H0.
    destruct B; [contradiction|reflexivity]. }
  unfold encode_buffer. rewrite H1. auto.
Qed.

Lemma line_length_below_4_divides_by_zero_witness :
  uLineLength (SetLineLength new_CBase64 3) = 0
  /\ LoadBufferToEncode (SetLineLength new_CBase64 3) [77] = None
  /\ encode_buffer [77] 3 (repeat 65 8) = None.
Proof.
  apply (line_length_below_4_divides_by_zero [77] 3 (repeat 65 8)).
  - lia.
  - discriminate.
Defined.

(** A byte goes through [Encode] and [Decode] with the padding of one
    group. *)
Lemma Decode_of_Encode_witness :
  Decode (mkB64 (bytes_of_string "TQ==") 4 1 CMD_DECODE 64) = [77].
Proof.
  apply (Decode_of_Encode [77] 64 8 (bytes_of_string "TQ==")).
  - repeat constructor; unfold is_byte; lia.
  - reflexivity.
Defined.

End Base64Facts.

(* ------------------------------------------------------------------ *)
(** ** The PKCS#7 sign request *)
(* ------------------------------------------------------------------ *)

Module Pkcs7Facts.
Import Hal Card Pkcs7 HalFacts CardFacts.

Section WithHash.

Variable SHA1 : list Z -> option (list Z).

(** The PIN stage of [PKCS7SignML]: the two SELECTs before it are
    answered with any status word, and the status word that refuses VERIFY
    is the value returned. *)
Lemma refused_PIN_is_returned (NDEBUG : bool) (pin dati : list Z)
    (slot : Z) (writable : bool) (now : tm) (s : lib_state)
    (a1 a2 r1 : list Z) (rest : list (scard_rv * list Z)) :
  initialized s = true -> strlen pin <= 250 ->
  transmit_answers (driver s)
  = (SCARD_S_SUCCESS, a1) :: (SCARD_S_SUCCESS, a2) :: (SCARD_S_SUCCESS, r1)
    :: rest ->
  status_word r1 <> 0x6700 -> status_word r1 <> 0x6300 ->
  status_word r1 <> 0x9000 -> status_word r1 <> 0 ->
  fst (PKCS7SignML SHA1 NDEBUG pin slot (Some dati) writable false now s)
  = Returned (status_word r1) None.
Proof.
  intros Hinit _ Hans H67 H63 H90 H0.
  unfold PKCS7SignML, bind, ret. cbn [andb].
  step_select Hans E1 I1 A1. step_select A1 E2 I2 A2.
  match goal with
  | |- context [VerifyPINML 1 pin slot ?st] =>
      pose proof (VerifyPINML_refused pin slot st r1 rest) as V;
      cbv zeta in V;
      destruct V as (E & I & A); try assumption; [congruence|];
      destruct (VerifyPINML 1 pin slot st) as [ritorno s3]
  end.
  cbn [fst snd] in E, I, A |- *. subst ritorno.
  unfold C_OK at 1.
  destruct (Z.eqb_spec (status_word r1) 0) as [|_]; [contradiction|].
  reflexivity.
Qed.

(** [SignDataML] returns FALSE, and stores nothing, when the on-card
    signature is not OK, whatever the hash and the certificate are. *)
Lemma SignDataML_without_signature (slot wKid : Z)
    (pbCertContext pbToBeSigned : list Z) (now : tm) (s : lib_state) :
  (forall toSign Signed : list Z,
     fst (fst (SignML wKid toSign Signed slot s)) <> C_OK) ->
  fst (SignDataML SHA1 slot wKid pbCertContext pbToBeSigned true now s)
  = (false, None, []).
Proof.
  intros Hsign. unfold SignDataML, bind, ret.
  destruct (SHA1 pbToBeSigned) as [payload_digest|]; [|reflexivity].
  destruct (issuer_and_serial pbCertContext) as [[pbIssuer pbSN]|];
    [|reflexivity].
  destruct (Asn1.GetEncoded _ 0) as [ok stores].
  destruct ok; cbn [negb]; [|reflexivity].
  destruct (SHA1 _) as [attrs_digest|]; [|reflexivity].
  match goal with
  | |- context [SignML wKid ?p ?q slot s] =>
      specialize (Hsign p q); destruct (SignML wKid p q slot s) as [[rv R] s']
  end.
  cbn [fst] in Hsign.
  destruct (Z.eqb_spec rv C_OK) as [|_]; [contradiction|]. reflexivity.
Qed.

End WithHash.

(** C2: the status word with which the card refuses MSE SET or PSO SIGN
    does not come back from [PKCS7SignML].  The request of the examples,
    with MSE SET answered 6982 and with PSO SIGN answered 6982: built with
    its [assert], the function stops in [abort()]; built with NDEBUG, it
    returns the generic error FFFF and writes no file.  The same status
    word as the answer to VERIFY is returned as it is, in either build,
    and the request returns OK when the card accepts every command. *)
Theorem refused_signature_loses_the_status_word :
  example_request false 0x9000 0x6982 0x9000 = Aborted
  /\ example_request true 0x9000 0x6982 0x9000 = Returned 0xFFFF None
  /\ example_request false 0x9000 0x9000 0x6982 = Aborted
  /\ example_request true 0x9000 0x9000 0x6982 = Returned 0xFFFF None
  /\ example_request false 0x6982 0x9000 0x9000 = Returned 0x6982 None
  /\ example_request true 0x6982 0x9000 0x9000 = Returned 0x6982 None
  /\ (exists file,
        example_request false 0x9000 0x9000 0x9000
        = Returned C_OK (Some file))
  /\ (exists file,
        example_request true 0x9000 0x9000 0x9000
        = Returned C_OK (Some file)).
Proof.
  repeat split; try (vm_compute; reflexivity);
    eexists; vm_compute; reflexivity.
Qed.

(** *** The walk over the certificate *)

Import Der DerFacts DerAddressFacts.

Section WalkFacts.

Variable ptr_bits : Z.
Variable mem : Z -> Z.

Lemma sub_slice_bytes_at (base n p k : Z) :
  0 <= p -> 0 <= k -> p + k <= n ->
  sub_slice (bytes_at mem base n) p k = bytes_at mem (base + p) k.
Proof.
  intros Hp Hk Hn. unfold sub_slice, bytes_at.
  rewrite List.skipn_map, List.firstn_map, List.skipn_seq, take_seq.
  replace (Init.Nat.min (Z.to_nat k) (Z.to_nat n - Z.to_nat p))
    with (Z.to_nat k) by lia.
  replace (0 + Z.to_nat p)%nat with (Z.to_nat p + 0)%nat by lia.
  rewrite <- (fmap_add_seq (Z.to_nat p) 0).
  change (fmap (Nat.add (Z.to_nat p))) with (map (Nat.add (Z.to_nat p))).
  rewrite List.map_map. apply List.map_ext. intros i. f_equal. lia.
Qed.

Lemma tiles_items (start e : Z) (v : list DER_ITEM) :
  tiles start e v ->
  List.Forall (fun it => start <= fvalue it /\ 0 <= len it
                         /\ 2 <= flen it - len it <= 6
                         /\ value it = fvalue it + (flen it - len it)
                         /\ fvalue it + flen it <= e) v.
Proof.
  revert start. induction v as [|it v IH]; intros start Hv; [constructor|].
  destruct Hv as (H1 & H2 & H3 & H4 & H5 & Hv).
  constructor; [lia|].
  eapply List.Forall_impl; [|apply (IH _ Hv)].
  cbn beta. intros x Hx. lia.
Qed.

(** An item of the slice at [base]: its value and its full extent are
    slices in their turn, inside the first, and the bytes that the list
    model takes for them are the bytes found there. *)
Lemma item_of_slice (base n : Z) (it : DER_ITEM) :
  no_wrap ptr_bits base n ->
  In it (der_parse (bytes_at mem base n)) ->
  no_wrap ptr_bits (base + value it) (len it)
  /\ inside base n (base + value it, len it)
  /\ inside base n (base + fvalue it, flen it)
  /\ len it <= n
  /\ value_of (bytes_at mem base n) it
     = bytes_at mem (base + value it) (len it)
  /\ fvalue_of (bytes_at mem base n) it
     = bytes_at mem (base + fvalue it) (flen it).
Proof.
  intros (Hb & Hn & Htop) Hin.
  pose proof (der_parse_tiled (bytes_at mem base n)) as T.
  rewrite (length_bytes_at mem base n Hn) in T.
  apply tiles_items in T.
  pose proof (proj1 (List.Forall_forall _ _) T it Hin) as (A & B & C & D & E).
  unfold no_wrap, inside, value_of, fvalue_of. cbn [fst snd].
  rewrite !sub_slice_bytes_at by lia.
  repeat split; lia.
Qed.

Lemma tag_at_address (base : Z) (v : list DER_ITEM) (i : nat) :
  tag_at (map (at_address base) v) i = tag_at v i.
Proof.
  unfold tag_at. rewrite List.nth_error_map.
  destruct (nth_error v i); reflexivity.
Qed.

Lemma inside_inside (pb cb p n : Z) (place : Z * Z) :
  inside pb cb (p, n) -> inside p n place -> inside pb cb place.
Proof. unfold inside. cbn [fst snd]. lia. Qed.

(** X30: Where no pointer sum can wrap, the walk of [SignDataML] over the
    certificate ends, whatever the bytes of the certificate are, and when
    it succeeds the two places it has found, [cbIssuer] bytes at
    [pbIssuer] and [cbSN] bytes at [pbSN], lie in the [cbCertContext]
    bytes at [pbCertContext].  The bytes at the two places are what the
    walk on lists gives. *)
Theorem issuer_and_serial_inside (fuel : nat)
    (pbCertContext cbCertContext : Z) :
  no_wrap ptr_bits pbCertContext cbCertContext ->
  (Z.to_nat cbCertContext < fuel)%nat ->
  exists r,
    issuer_and_serial_at ptr_bits mem fuel pbCertContext cbCertContext
    = Some r
    /\ (forall issuer sn,
          r = Some (issuer, sn) ->
          inside pbCertContext cbCertContext issuer
          /\ inside pbCertContext cbCertContext sn)
    /\ issuer_and_serial (bytes_at mem pbCertContext cbCertContext)
       = option_map (copied mem) r.
Proof.
  intros Hw Hfuel.
  assert (Refused : exists r : option ((Z * Z) * (Z * Z)),
            Some (@None ((Z * Z) * (Z * Z))) = Some r
            /\ (forall issuer sn,
                  r = Some (issuer, sn) ->
                  inside pbCertContext cbCertContext issuer
                  /\ inside pbCertContext cbCertContext sn)
            /\ @None (list Z * list Z) = option_map (copied mem) r).
  { exists None. split; [reflexivity|]. split; [discriminate|reflexivity]. }
  unfold issuer_and_serial_at, issuer_and_serial.
  rewrite (der_parse_at_no_wrap ptr_bits mem) by assumption.
  pose proof (item_of_slice pbCertContext cbCertContext) as I1.
  destruct (der_parse (bytes_at mem pbCertContext cbCertContext))
    as [|i1 v1]; [exact Refused|].
  cbn [map at_address tag value len]. cbv zeta.
  destruct (negb (tag i1 =? DER_SEQUENCE)); [exact Refused|].
  destruct (I1 i1 Hw (or_introl eq_refl)) as (W1 & In1 & _ & L1 & -> & _).
  clear I1.
  set (b1 := pbCertContext + value i1) in *.
  rewrite (der_parse_at_no_wrap ptr_bits mem)
    by (try assumption; destruct Hw as (_ & ? & _); lia).
  pose proof (item_of_slice b1 (len i1)) as I2.
  destruct (der_parse (bytes_at mem b1 (len i1))) as [|i20 v2];
    [exact Refused|].
  cbn [map].
  change (at_address b1 i20 :: map (at_address b1) v2)
    with (map (at_address b1) (i20 :: v2)).
  rewrite List.length_map, !tag_at_address.
  destruct ((length (i20 :: v2) <? 3)%nat
            || negb (tag_at (i20 :: v2) 0 =? DER_SEQUENCE)
            || negb (tag_at (i20 :: v2) 1 =? DER_SEQUENCE)
            || negb (tag_at (i20 :: v2) 2 =? DER_BIT_STRING));
    [exact Refused|].
  cbn [at_address value len].
  destruct (I2 i20 W1 (or_introl eq_refl)) as (W2 & In2 & _ & L2 & -> & _).
  clear I2.
  set (b2 := b1 + value i20) in *.
  rewrite (der_parse_at_no_wrap ptr_bits mem)
    by (try assumption; destruct Hw as (_ & ? & _); lia).
  pose proof (item_of_slice b2 (len i20)) as I3.
  set (v3 := der_parse (bytes_at mem b2 (len i20))) in *.
  rewrite List.length_map, !tag_at_address, !List.nth_error_map.
  assert (Found : forall (ki ks : nat),
            exists r,
              match option_map (at_address b2) (nth_error v3 ki),
                    option_map (at_address b2) (nth_error v3 ks) with
              | Some iss, Some sn =>
                  Some (Some ((fvalue iss, flen iss), (value sn, len sn)))
              | _, _ => Some None
              end = Some r
              /\ (forall issuer sn,
                    r = Some (issuer, sn) ->
                    inside pbCertContext cbCertContext issuer
                    /\ inside pbCertContext cbCertContext sn)
              /\ match nth_error v3 ki, nth_error v3 ks with
                 | Some iss, Some sn =>
                     Some (fvalue_of (bytes_at mem b2 (len i20)) iss,
                           value_of (bytes_at mem b2 (len i20)) sn)
                 | _, _ => None
                 end = option_map (copied mem) r).
  { intros ki ks.
    destruct (nth_error v3 ki) as [iss|] eqn:Ei; [|exact Refused].
    destruct (nth_error v3 ks) as [sn|] eqn:Es; [|exact Refused].
    apply nth_error_In in Ei, Es.
    destruct (I3 iss W2 Ei) as (_ & _ & Ini & _ & _ & Fi).
    destruct (I3 sn W2 Es) as (_ & Ins & _ & _ & Vs & _).
    cbn [option_map at_address fvalue flen value len].
    eexists. split; [reflexivity|]. split.
    - intros issuer sn' [= <- <-]. split.
      + eapply inside_inside; [exact In1|].
        eapply inside_inside; [exact In2|exact Ini].
      + eapply inside_inside; [exact In1|].
        eapply inside_inside; [exact In2|exact Ins].
    - cbn [option_map copied fst snd]. rewrite Fi, Vs. reflexivity. }
  destruct ((6 <? length v3)%nat && (tag_at v3 0 =? DER_CONTEXT + 0)
            && (tag_at v3 1 =? DER_INTEGER) && (tag_at v3 2 =? DER_SEQUENCE)
            && (tag_at v3 3 =? DER_SEQUENCE) && (tag_at v3 4 =? DER_SEQUENCE)
            && (tag_at v3 5 =? DER_SEQUENCE) && (tag_at v3 6 =? DER_SEQUENCE));
    [apply Found|].
  destruct ((5 <? length v3)%nat && (tag_at v3 0 =? DER_INTEGER)
            && (tag_at v3 1 =? DER_SEQUENCE) && (tag_at v3 2 =? DER_SEQUENCE)
            && (tag_at v3 3 =? DER_SEQUENCE) && (tag_at v3 4 =? DER_SEQUENCE)
            && (tag_at v3 5 =? DER_SEQUENCE));
    [apply Found|exact Refused].
Qed.

End WalkFacts.

(** The certificate of the examples at the address 0x2000, pointers of
    64 bits: the issuer 30 01 09 is found at 0x2009, the serial number 05
    at 0x2006. *)
Lemma issuer_and_serial_inside_witness :
  no_wrap 64 0x2000 22
  /\ issuer_and_serial_at 64 example_memory 23 0x2000 22
     = Some (Some ((0x2009, 3), (0x2006, 1)))
  /\ issuer_and_serial example_certificate = Some ([0x30; 1; 9], [5])
  /\ exists r,
       issuer_and_serial_at 64 example_memory 23 0x2000 22 = Some r
       /\ (forall issuer sn,
             r = Some (issuer, sn) ->
             inside 0x2000 22 issuer /\ inside 0x2000 22 sn)
       /\ issuer_and_serial (bytes_at example_memory 0x2000 22)
          = option_map (copied example_memory) r.
Proof.
  assert (W : no_wrap 64 0x2000 22) by (unfold no_wrap; lia).
  split; [exact W|]. split; [vm_compute; reflexivity|].
  split; [vm_compute; reflexivity|].
  exact (issuer_and_serial_inside 64 example_memory 23 0x2000 22 W
           ltac:(cbn; lia)).
Defined.

End Pkcs7Facts.
